(* ===== verification/_CoqProject ===== *)
-Q . S2P
Prelude.v
CppStd.v
Utils.v
Base64.v
MultiMap.v
HttpCommons.v
StructuredData.v
HttpMessages.v
Errors.v
ReusableBuffer.v
UserObjects.v
Encoder.v
Connector.v
HandlerHttp1.v
Multiplexer.v
Http2Stream.v
Http2Session.v
UrlParser.v
HttpParser.v
HttpExecute.v
HttpSafe.v
Decoder.v
HttpCodec.v
HttpRun.v
HttpPeer.v
HttpMethod.v
HttpHead.v
HttpFields.v
DecodeHead.v
HttpBody.v
HttpRequest.v
HttpResponse.v
HttpCrash.v
HttpRoundTrip.v
Negotiation.v
Sni.v
Communicator.v
Server.v
Http2Handler.v
Http1Connection.v
Http1Lift.v
Http1Requests.v
Http1Responses.v
Http1Writing.v
Exchange.v
Streams.v
Logging.v
Http2Memory.v
Calendar.v
CalendarDays.v
CalendarLaws.v
CalendarWeeks.v
TimeOfDay.v
DateText.v
