(* ===== verification/Prelude.v ===== *)
(** * Doormat: a verification library for an HTTP/1.x and HTTP/2 proxy server

    Doormat (src/src) is an event-driven C++ library: a server that accepts plain
    and TLS connections, a client side that connects to other servers, HTTP/1 and
    HTTP/2 on both.  One thread runs an [io_service]; everything happens in the
    completion lambdas of asynchronous operations.  The development models the
    program file by file and proves what makes each part correct, where it is.

    ** How the program is put together

    The server ([http_server]) accepts a connection, the handshake negotiates a
    protocol, and a handler is built into a connector.  The connector owns the
    socket, a circular read buffer and a deadline; it hands what it has read to
    its handler and asks it for what is to be written.  An HTTP/1 handler decodes
    requests with a byte automaton ([http_parser]) behind a codec, makes a pair of
    user objects for each transaction (a remote one that reports what arrives, a
    local one that the user writes to), and encodes the answers in the order of
    the requests.  An HTTP/2 session puts nghttp2 between the same connector and
    its streams.  The client side resolves a name, tries its addresses and builds
    the same handlers with other traits; several users can share one connection
    through the multiplexer.

    ** The files

    Shared ground:
    - [Prelude] (this file): [outcome], that is a value, a failed assertion, an
      exception that ends the process, or undefined behaviour; integers of a
      width; strings and their characters.
    - [CppStd]: what the sources use of the C++ library ([std::equal], [tolower],
      printing and reading of numbers).
    - [Streams]: [std::ostream] as far as it is used: text, fill, flags, width.
    - [MultiMap]: [std::multimap] of strings, with the promise [values].

    Data:
    - [Utils] (utils/utils.h), [Base64] (utils/base64.cpp), [HttpCommons]
      (http/http_commons.h), [Errors] (errors/, http/connection_error.h).
    - [StructuredData] (http/http_structured_data): headers, content length,
      chunked coding, [keepalive]; [HttpMessages] (http/http_request,
      http/http_response): members, serialization, method table, reasons.
    - [ReusableBuffer] (utils/reusable_buffer.h): the read buffer, as a queue.

    HTTP/1:
    - [HttpParser], [HttpExecute] (http_parser/http_parser.c): the state and the
      tables of the parser, and [http_parser_execute], one definition for each
      group of states.  [HttpSafe]: its invariant, termination and safety.
      [HttpRun]: running it over known bytes.  [HttpMethod]: the methods,
      [HttpHead]: the lines of a header block, [HttpFields]: the fields the parser
      knows, [HttpBody]: bodies after a head.
      [UrlParser]: [http_parser_parse_url] of the same file.
    - [Decoder], [HttpCodec] (http/http_codec_impl.h, http/http_codec.cpp): the
      callbacks of the codec and the loop [decode]; [HttpPeer]: what a peer can
      make of the values of its fields, [HttpCrash]: of its messages.  [Encoder]: the other half of http/http_codec.cpp.
    - Parser and codec over whole messages: [DecodeHead] (a header block),
      [HttpRequest], [HttpResponse]; [HttpRoundTrip] puts the serializer and the
      encoder before them.
    - [UserObjects] (http/server, http/client): local and remote objects, with the
      lambdas they post.
    - [HandlerHttp1] (protocol/handler_http1.h): the handler in its connector, for
      both traits.  [Http1Connection]: parser, codec and handler put together;
      [Http1Requests] (a server) and [Http1Responses] (a client): whole messages
      from the socket to the user's objects, on the ground of [Http1Lift];
      [Http1Writing]: from the user's objects to the socket; [Exchange]: a client
      and a server together.

    HTTP/2:
    - [Http2Stream] (http2/stream, http2/stream_client): the sending side.
    - [Http2Session] (http2/session, http2/session_client): the callbacks of
      nghttp2 over a heap of streams.  [Http2Handler]: the session as the handler
      of a connector, and what the client repeats of the server.

    Connections:
    - [Connector] (connector.h, protocol/http_handler.h): reading, writing, the
      deadline and the end, over any handler.
    - [Multiplexer] (http/client/client_connection_multiplexer).
    - [Negotiation] (protocol/handler_factory, the end of
      network/communicator/dns_communicator_factory.cpp, http_client): ALPN, NPN.
    - [Sni] (utils/sni_solver): certificates by the name asked for.
    - [Communicator] (network/communicator): resolving and connecting.
    - [Server] (http_server): listening and accepting.

    Beside them:
    - [Logging] (utils/log_wrapper): the two loggers, over spdlog as a parameter.
    - [Http2Memory] (http2/http2alloc, http2/http2error.h): the allocator that
      nghttp2 is given, and the exceptions of the sessions.
    - The calendar library of utils/date.h, which the repository carries for its
      tests: [Calendar] (its classes and their arithmetic), [CalendarDays] (dates and
      counts of days), [TimeOfDay] (roundings, clocks), [DateText] (the operators
      [<<]); [CalendarLaws] and [CalendarWeeks] hold what it promises.

    A class is a record of its members and a member function a definition of the
    same name; what cannot fail returns the new state, the rest an [outcome] of
    it.  Asynchronous operations are kept in the state, and their completion
    lambdas are operations too: constructors of an inductive type where a
    component has several ([Communicator.handler], [Server.server_handler],
    [HandlerHttp1.task]).  What the environment may do is a step relation there,
    and properties are about every state that can be reached.

    ** The interfaces

    - [Connector.HttpHandler] is what a connector calls of a handler.  [on_write] is a
      tree, [writing]: it returns, throws, or calls [do_write] of the connector and
      goes on.  [Connector.HandlerLaws] is what the connector relies on: the
      handler's [outbox] is given out in order, its feedbacks once;
      [Connector.QuietHandler] is a handler that does not call back.  HTTP/1
      ([HandlerHttp1]) obeys both, and the theorems about connectors hold for it.
      HTTP/2 ([Http2Handler]) is an instance of [HttpHandler] only, for its
      [on_write] may call back; what then happens is a theorem of its own.
    - [HandlerHttp1.Traits] is the difference of a server and a client,
      [Encoder.Message] what the encoder asks of a message.
      [HandlerHttp1.Garbage] is what the memory holds where a fresh response leaves
      its status uninitialized: theorems about clients are for any.
    - [HttpSafe.Callbacks] is what the parser relies on in its callbacks: that they
      leave the parser alone, apart from the one at the end of a message, which
      may start it again.  [HttpCodec] and [Http1Connection] are instances.
    - [HttpRun.Receiver] is what a body needs of those callbacks: what they make of a
      piece, of the boundary of a chunk, of the end.  The codec alone and the whole
      connection are instances, so that one run of the automaton serves both.
    - [Http2Handler.Nghttp2] is nghttp2 while a session writes: [mem_send] is a tree of
      the callbacks it makes before it returns; [Nghttp2Laws] has that it must not be
      called out of one of them.  [SessionKind] is the difference of the two sessions.
    - [Logging.Spdlog] with [SpdlogLaws] is spdlog: names are registered once, levels
      filter.

    Code that is not in the repository is an argument: the answers of nghttp2, of
    OpenSSL's ALPN selection and of [X509_check_host], the files of certificates,
    what a name resolves to, the results of every operation on a socket.

    ** What is proved

    - The HTTP/1 parser: [HttpSafe.execute_invariant] and [execute_terminates] (a
      byte is seen four times at most), [execute_safe] (no assertion of its text
      fails and no table is read outside); [HttpCodec.decode_terminates] and
      [Http1Connection.on_read_returns] carry this to the codec and to a whole
      connection.  [HttpMethod.methods_recognised] compares the automaton of the
      methods with their table.
    - From user to user: [Exchange.exchange], over two connections and back.
    - From one codec to the other: [HttpRoundTrip.requests_roundtrip] and
      [responses_roundtrip].
    - From the wire to the user: [HttpRequest.requests_received] and
      [HttpResponse.responses_received] (whole messages: target or status, fields,
      whether the connection stays, body, end),
      [Http1Connection.body_reaches_user], and for whole messages
      [Http1Requests.requests_served] and [Http1Responses.responses_delivered]: the
      composition of parser, codec and handler refines what a [Http1Lift.view] of
      the connection promises; [HttpRun.chunked_body_received],
      [HttpRun.sized_body_received], [Decoder.pieces_do_not_matter];
      back to the wire: [Encoder.encoded_message_read],
      [HandlerHttp1.responses_in_order] (one poll of the queue, which is in the order
      of the requests),
      [Http1Writing.messages_in_queue_order] (all of it), [HttpMessages.request_serialize_roundtrip],
      [StructuredData.serialize_header_block], [UserObjects.local_buffering].
    - Invariants and refinements of data: [StructuredData.data_invariant],
      [ReusableBuffer.buffer_refines_queue] (in both orders that C++ leaves open),
      [Base64.base64_roundtrip],
      [UrlParser.url_fields_in_bounds] and [origin_form_roundtrip].
    - Connections: [Connector.connector_writes_in_order] (lawful handlers),
      [do_write_leaves_nothing] (quiet ones), [Http2Handler.h2_closes_when_done]
      (every outcome of a write of a session),
      [Http2Session.requests_demultiplexed], [Http2Stream.body_in_order] and
      [response_header_list], [Multiplexer.ticks_reach_handler] and
      [update_timeout_keeps_time].
    - Around them: [Communicator.request_answered] and [answered_once],
      [Server.running_server_accepts] and [stopped_server_settles],
      [Negotiation.protocol_agreed], [Sni.sni_by_alternative_names],
      [Logging.log_contents] and [loggers_outlive_counters].
    - The calendar: [CalendarLaws.dates_follow_calendar] (turning the leaves one by one),
      [dates_roundtrip], [CalendarWeeks.weekday_dates_roundtrip], [dates_ordered],
      [months_arithmetic], [TimeOfDay.round_spec], [second_parts],
      [DateText.timestamp_roundtrip].
    - Where the code does not do what it means to, a theorem says what it does:
      [Communicator.answered_twice], [Server.start_outcome],
      [Http2Session.on_read_outcome], [HttpResponse.unended_response_received],
      [Http1Responses.continue_loses_response] and [stray_response_leaks],
      [Http2Memory.calloc_outcome] and [line_is_hexadecimal],
      [Connector.write_in_write], [ReusableBuffer.reserve_overrun],
      [HttpCrash.wrong_messages_crash], and those of [HttpPeer].

    ** Bounds and fuel

    - [http_parser_execute] and [decode] answer [None] when they run out of fuel:
      four turns for each byte, and as many passes as bytes; [execute_terminates]
      and [decode_terminates] say that they do not.  [decode] is given less than
      2 GiB at a time, because its [size_t] goes through an [int].
    - A poll of a local object has one turn for each piece in it and one more
      ([HandlerHttp1.poll_fuel]); the printers of numbers have a turn for each bit
      ([CppStd.digit_fuel_enough]).  The greatest common
      divisor of the multiplexer is by well-founded recursion, with no fuel.
    - [Connector.do_write_with] answers [None] when [do_write] is called inside itself
      more often than its fuel says; without calls back one is enough
      ([Connector.do_write_quiet]), for a session two ([h2_closes_when_done]).
    - Lengths of strings are below 2^64 wherever a [size_t] holds them; the
      arithmetic that can wrap is written with [wrap].

    ** Not modelled

    Threads (a connection belongs to one), reference counts (where an object may
    be gone, the store says so), the memory of the program's own objects, the options
    set on TLS contexts, [utils::hostname_from_url] (a regular expression of Boost), the
    names of the parser's errors; of utils/date.h the branches for other compilers,
    durations in floating point and ticks that do not divide a day; the vendored
    utils/json.hpp, which one test includes, the example in app/, the headers in
    include/doormat, which only include others, the tests and what CMake generates. *)

From stdpp Require Export base tactics list strings numbers option gmap.
From Stdlib Require Export ZArith Ascii Lia.
From Stdlib Require String.

Open Scope Z_scope.
Open Scope stdpp_scope.

(** ** Outcomes of C++ code

    A C++ function either returns or the process goes down: a failed [assert]
    (the asserts of the source are part of its text), an exception that leaves
    a [noexcept] function ([std::terminate]) or leaves uncaught, or undefined
    behaviour (an access out of a buffer).  [outcome] keeps these apart. *)
Inductive failure :=
| AssertFailed
| Terminated
| Undefined.

Inductive outcome (A : Type) :=
| Ok (a : A)
| Crash (f : failure).
Arguments Ok {A} _.
Arguments Crash {A} _.

#[global] Instance failure_eq_dec : EqDecision failure.
Proof. solve_decision. Defined.
#[global] Instance outcome_eq_dec `{EqDecision A} : EqDecision (outcome A).
Proof. solve_decision. Defined.

#[global] Instance outcome_ret : MRet outcome := @Ok.
#[global] Instance outcome_bind : MBind outcome := fun A B f m =>
  match m with Ok a => f a | Crash e => Crash e end.
#[global] Instance outcome_fmap : FMap outcome := fun A B f m =>
  match m with Ok a => Ok (f a) | Crash e => Crash e end.

Definition cassert (b : bool) : outcome unit :=
  if b then Ok tt else Crash AssertFailed.

Definition guard_ub (b : bool) : outcome unit :=
  if b then Ok tt else Crash Undefined.

Definition of_option {A} (e : failure) (o : option A) : outcome A :=
  match o with Some a => Ok a | None => Crash e end.

Definition is_ok {A} (o : outcome A) : bool :=
  match o with Ok _ => true | Crash _ => false end.

Lemma bind_Ok_inv {A B} (m : outcome A) (f : A -> outcome B) b :
  m ≫= f = Ok b <-> exists a, m = Ok a /\ f a = Ok b.
Proof.
  destruct m as [a|e]; cbn; split; [eauto| |discriminate|].
  - intros (a' & [= ->] & H). exact H.
  - intros (a' & [=] & _).
Qed.

Lemma fmap_Ok_inv {A B} (f : A -> B) (m : outcome A) b :
  f <$> m = Ok b <-> exists a, m = Ok a /\ b = f a.
Proof.
  destruct m as [a|e]; cbn; split; try discriminate.
  - intros [= <-]. eauto.
  - intros (a' & [= ->] & ->). reflexivity.
  - intros (a' & [=] & _).
Qed.

Lemma cassert_Ok b u : cassert b = Ok u <-> b = true.
Proof. destruct b, u; cbn; split; congruence. Qed.

Lemma guard_ub_Ok b u : guard_ub b = Ok u <-> b = true.
Proof. destruct b, u; cbn; split; congruence. Qed.

(** [inv_outcome]: take an equation [m = Ok _] of the outcome monad apart. *)
Ltac inv_outcome :=
  repeat match goal with
  | H : mbind _ _ = Ok _ |- _ =>
      apply bind_Ok_inv in H; let a := fresh "a" in let E := fresh "E" in
      destruct H as (a & E & H)
  | H : fmap _ _ = Ok _ |- _ =>
      apply fmap_Ok_inv in H; let a := fresh "a" in let E := fresh "E" in
      destruct H as (a & E & H)
  | H : cassert _ = Ok _ |- _ => apply cassert_Ok in H
  | H : guard_ub _ = Ok _ |- _ => apply guard_ub_Ok in H
  | H : Ok _ = Ok _ |- _ => injection H as H
  | H : mret _ = Ok _ |- _ => injection H as H
  | H : Crash _ = Ok _ |- _ => discriminate H
  end.

(** ** Machine integers

    A [w]-bit unsigned integer is a [Z] in [[0, 2^w)]; every operation that can
    leave the range wraps explicitly. *)
Definition wrap (w x : Z) : Z := x mod 2 ^ w.
Abbreviation u8 := (wrap 8).
Abbreviation u16 := (wrap 16).
Abbreviation u32 := (wrap 32).
Abbreviation u64 := (wrap 64).

Definition in_range (w x : Z) : Prop := 0 <= x < 2 ^ w.

Lemma wrap_range w x : 0 <= w -> in_range w (wrap w x).
Proof. intros ?. apply Z.mod_pos_bound, Z.pow_pos_nonneg; lia. Qed.

Lemma wrap_id w x : in_range w x -> wrap w x = x.
Proof. apply Z.mod_small. Qed.

Create HintDb doormat.
Create Rewrite HintDb doormat_rw.
#[export] Hint Resolve wrap_range : doormat.
#[export] Hint Rewrite @wrap_id using (unfold in_range; lia) : doormat_rw.

(** ** Characters and strings

    [std::string] is [string]; loops over its characters go through the list of
    its characters, [chars]. *)
Abbreviation chars := String.list_ascii_of_string.
Abbreviation of_chars := String.string_of_list_ascii.

Definition byte_of (c : ascii) : Z := Z.of_N (N_of_ascii c).
Definition ascii_of (z : Z) : ascii := ascii_of_N (Z.to_N z).

Lemma byte_of_range c : in_range 8 (byte_of c).
Proof.
  unfold byte_of, in_range. pose proof (N_ascii_bounded c).
  change (2 ^ 8) with 256. lia.
Qed.

Lemma ascii_of_byte_of c : ascii_of (byte_of c) = c.
Proof. unfold ascii_of, byte_of. rewrite N2Z.id. apply ascii_N_embedding. Qed.

Lemma byte_of_ascii_of z : in_range 8 z -> byte_of (ascii_of z) = z.
Proof.
  unfold in_range, byte_of, ascii_of. change (2 ^ 8) with 256. intros ?.
  rewrite N_ascii_embedding by lia. lia.
Qed.

Lemma byte_of_inj c d : byte_of c = byte_of d -> c = d.
Proof. intros E. rewrite <- (ascii_of_byte_of c), <- (ascii_of_byte_of d). by rewrite E. Qed.

Lemma of_chars_chars s : of_chars (chars s) = s.
Proof. apply String.string_of_list_ascii_of_string. Qed.

Lemma chars_of_chars l : chars (of_chars l) = l.
Proof. apply String.list_ascii_of_string_of_list_ascii. Qed.

Lemma chars_app s t : chars (s +:+ t) = (chars s ++ chars t)%list.
Proof.
  induction s as [|c s IH]; [done|].
  change (c :: chars (s +:+ t) = c :: (chars s ++ chars t))%list. by f_equal.
Qed.

Lemma of_chars_app l k : of_chars (l ++ k) = of_chars l +:+ of_chars k.
Proof.
  induction l as [|c l IH]; [done|].
  change (String c (of_chars (l ++ k)) = String c (of_chars l +:+ of_chars k)).
  by f_equal.
Qed.

Lemma chars_inj s t : chars s = chars t -> s = t.
Proof. intros E. rewrite <- (of_chars_chars s), <- (of_chars_chars t). by rewrite E. Qed.

Lemma string_app_assoc s t u : (s +:+ t) +:+ u = s +:+ t +:+ u.
Proof. apply chars_inj. rewrite !chars_app. symmetry. apply app_assoc. Qed.

Lemma string_app_nil_r s : s +:+ "" = s.
Proof. apply chars_inj. rewrite chars_app. apply app_nil_r. Qed.

Lemma string_app_nil_l s : "" +:+ s = s.
Proof. reflexivity. Qed.

#[export] Hint Rewrite of_chars_chars chars_of_chars chars_app
  string_app_nil_r string_app_nil_l string_app_assoc : doormat_rw.

(** [size()] of a string. *)
Definition len (s : string) : Z := Z.of_nat (length (chars s)).

Lemma len_nonneg s : 0 <= len s.
Proof. unfold len. lia. Qed.

Lemma len_app s t : len (s +:+ t) = len s + len t.
Proof. unfold len. rewrite chars_app, length_app. lia. Qed.

Lemma len_zero s : len s = 0 <-> s = "".
Proof. unfold len. destruct s; cbn; split; try done; lia. Qed.

Definition empty (s : string) : bool := bool_decide (s = "").

(** Concatenation of a list of strings, first to last. *)
Fixpoint concat_str (l : list string) : string :=
  match l with [] => "" | s :: l => s +:+ concat_str l end.

Lemma concat_str_app l k : concat_str (l ++ k) = concat_str l +:+ concat_str k.
Proof.
  induction l as [|s l IH]; [done|]. cbn [concat_str app]. rewrite IH. by rewrite string_app_assoc.
Qed.

(** ** Lists *)
Lemma foldl_snoc {A B} (f : A -> B -> A) a l b :
  foldl f a (l ++ [b]) = f (foldl f a l) b.
Proof. by rewrite foldl_app. Qed.

Lemma take_drop_app {A} (l : list A) n : (take n l ++ drop n l)%list = l.
Proof. apply take_drop. Qed.

(** [done]-style closing tactic of the development: rewriting with the string
    equations, then the solvers. *)
Ltac doormat_simpl := autorewrite with doormat_rw in *; simplify_eq/=.
Ltac solve_doormat := doormat_simpl; try lia; eauto with doormat.

(** Linear arithmetic with divisions and remainders by constants. *)
Ltac zdiv_lia := Z.to_euclidean_division_equations; lia.
