(* ===== verification/CppStd.v ===== *)
(** * The parts of the C++ standard library the sources use

    [std::equal] on iterator ranges, the C character classes, the decimal and
    hexadecimal printers behind [std::to_string] and [std::stringstream], and
    [std::stoull] and [std::stoi].  Nothing here is code of the repository: these are the
    models of the language's library that the other files share. *)

From S2P Require Import Prelude.

(** ** [std::equal(first1, last1, first2, p)]

    The second range has no end: when it is the shorter one and no difference
    was met before, the algorithm reads past it. *)
Fixpoint std_equal {A B} (p : A -> B -> bool) (l1 : list A) (l2 : list B) : outcome bool :=
  match l1, l2 with
  | [], _ => Ok true
  | _ :: _, [] => Crash Undefined
  | a :: l1, b :: l2 => if p a b then std_equal p l1 l2 else Ok false
  end.

(** The value [std::equal] has on ranges where it stays in bounds. *)
Fixpoint prefix_by {A B} (p : A -> B -> bool) (l1 : list A) (l2 : list B) : bool :=
  match l1, l2 with
  | [], _ => true
  | _ :: _, [] => false
  | a :: l1, b :: l2 => p a b && prefix_by p l1 l2
  end.

Lemma std_equal_in_bounds {A B} (p : A -> B -> bool) l1 l2 :
  (length l1 <= length l2)%nat -> std_equal p l1 l2 = Ok (prefix_by p l1 l2).
Proof.
  revert l2; induction l1 as [|a l1 IH]; intros [|b l2] L; cbn in *; try (done || lia).
  destruct (p a b); cbn; [apply IH; lia|done].
Qed.

Lemma std_equal_overrun {A B} (p : A -> B -> bool) l1 l2 :
  (length l2 < length l1)%nat ->
  prefix_by p (take (length l2) l1) l2 = true -> std_equal p l1 l2 = Crash Undefined.
Proof.
  revert l2; induction l1 as [|a l1 IH]; intros [|b l2] L H; cbn in *; try (done || lia).
  apply andb_prop in H as [-> H]. apply IH; [lia|done].
Qed.

Lemma prefix_by_eq (l1 l2 : list ascii) :
  prefix_by Ascii.eqb l1 l2 = true <-> l1 `prefix_of` l2.
Proof.
  revert l2; induction l1 as [|a l1 IH]; intros [|b l2]; cbn.
  - split; [intros _; apply prefix_nil|done].
  - split; [intros _; apply prefix_nil|done].
  - split; [done|]. intros H. by apply prefix_nil_not in H.
  - rewrite andb_true_iff, Ascii.eqb_eq, IH. split.
    + intros [-> H]. by apply prefix_cons.
    + intros H. split; [eapply prefix_cons_inv_1 | eapply prefix_cons_inv_2]; done.
Qed.

(** ** Character classes (the "C" locale) *)
Definition in_class (lo hi : Z) (c : ascii) : bool :=
  (lo <=? byte_of c) && (byte_of c <=? hi).

Definition isdigit : ascii -> bool := in_class 48 57.
Definition isupper : ascii -> bool := in_class 65 90.
Definition islower : ascii -> bool := in_class 97 122.
Definition isalpha (c : ascii) : bool := isupper c || islower c.
Definition isalnum (c : ascii) : bool := isalpha c || isdigit c.
Definition isspace (c : ascii) : bool := Ascii.eqb c " "%char || in_class 9 13 c.

Definition tolower (c : ascii) : ascii :=
  if isupper c then ascii_of (byte_of c + 32) else c.

(** [std::transform(..., ::tolower)] over a string. *)
Definition lowercase (s : string) : string := of_chars (tolower <$> chars s).

(** A statement about characters that a boolean decides holds once it computes
    to [true] on the 256 of them. *)
Definition all_ascii : list ascii := ascii_of_nat <$> seq 0 256.

Lemma forall_ascii (f : ascii -> bool) :
  forallb f all_ascii = true -> forall c, f c = true.
Proof.
  rewrite forallb_forall. intros H c. apply H.
  rewrite <- (ascii_nat_embedding c). apply list_elem_of_In, list_elem_of_fmap.
  eexists; split; [done|]. apply elem_of_seq. pose proof (nat_ascii_bounded c). lia.
Qed.

Lemma tolower_idem c : tolower (tolower c) = tolower c.
Proof.
  apply Ascii.eqb_eq. revert c.
  apply (forall_ascii (fun c => Ascii.eqb (tolower (tolower c)) (tolower c))).
  vm_compute. reflexivity.
Qed.

Lemma lowercase_idem s : lowercase (lowercase s) = lowercase s.
Proof.
  unfold lowercase. rewrite chars_of_chars. f_equal. rewrite <- list_fmap_compose.
  apply list_fmap_ext. intros i c _. apply tolower_idem.
Qed.

(** ** Numerals

    [digits fuel b n acc] is the list of the digits of [n] in base [b], most
    significant first, in front of [acc]. *)
Fixpoint digits (fuel : nat) (b n : Z) (acc : list Z) : list Z :=
  match fuel with
  | O => acc
  | S fuel => if n <? b then n :: acc else digits fuel b (n / b) (n mod b :: acc)
  end.

Definition digit_fuel (n : Z) : nat := S (Z.to_nat (Z.log2 n)).

Definition eval_digits (b : Z) : Z -> list Z -> Z := foldl (fun a d => a * b + d).

Lemma digits_eval fuel b n acc :
  2 <= b -> 0 <= n < 2 ^ Z.of_nat fuel ->
  eval_digits b 0 (digits fuel b n acc) = eval_digits b n acc.
Proof.
  revert n acc; induction fuel as [|fuel IH]; intros n acc Hb Hn.
  { cbn in *. f_equal. lia. }
  cbn [digits]. destruct (Z.ltb_spec n b); [done|].
  rewrite Nat2Z.inj_succ, Z.pow_succ_r in Hn by lia.
  rewrite IH; cbn.
  - f_equal. pose proof (Z.div_mod n b). lia.
  - done.
  - split; [apply Z.div_pos; lia|]. apply Z.div_lt_upper_bound; nia.
Qed.

Lemma digits_bound fuel b n acc :
  2 <= b -> 0 <= n -> Forall (fun d => 0 <= d < b) acc ->
  Forall (fun d => 0 <= d < b) (digits fuel b n acc).
Proof.
  revert n acc; induction fuel as [|fuel IH]; intros n acc Hb Hn Hacc; [done|].
  cbn [digits]. destruct (Z.ltb_spec n b); [constructor; [lia|done]|].
  apply IH; [done|apply Z.div_pos; lia|].
  constructor; [apply Z.mod_pos_bound; lia|done].
Qed.

Lemma digits_nonempty fuel b n acc : digits (S fuel) b n acc <> [].
Proof.
  revert n acc; induction fuel as [|fuel IH]; intros n acc.
  - cbn. by destruct (n <? b).
  - change (digits (S (S fuel)) b n acc) with
      (if n <? b then n :: acc else digits (S fuel) b (n / b) (n mod b :: acc)).
    destruct (n <? b); [done|apply IH].
Qed.

Lemma digit_fuel_enough n : 0 <= n -> 0 <= n < 2 ^ Z.of_nat (digit_fuel n).
Proof.
  intros Hn. split; [done|]. unfold digit_fuel.
  rewrite Nat2Z.inj_succ, Z2Nat.id by apply Z.log2_nonneg.
  destruct (Z.eq_dec n 0) as [->|]; [done|]. apply Z.log2_spec. lia.
Qed.

Definition digit_char (d : Z) : ascii := ascii_of (if d <? 10 then 48 + d else 87 + d).

(** Printing in base [b]: [ss << std::hex << n], [std::to_string(n)]. *)
Definition print_radix (b n : Z) : string :=
  of_chars (digit_char <$> digits (digit_fuel n) b n []).

Abbreviation to_string := (print_radix 10).

(** The digits a numeral starts with, and what follows them. *)
Definition digit_val (c : ascii) : option Z :=
  if isdigit c then Some (byte_of c - 48)
  else if in_class 97 102 c then Some (byte_of c - 87)
  else if in_class 65 70 c then Some (byte_of c - 55)
  else None.

Fixpoint scan_digits (b : Z) (l : list ascii) : list Z * list ascii :=
  match l with
  | [] => ([], [])
  | c :: l' =>
      match digit_val c with
      | Some d => if d <? b then let '(ds, r) := scan_digits b l' in (d :: ds, r) else ([], l)
      | None => ([], l)
      end
  end.

Lemma digit_val_char d : 0 <= d < 16 -> digit_val (digit_char d) = Some d.
Proof.
  intros H.
  assert (Hc : d = 0 \/ d = 1 \/ d = 2 \/ d = 3 \/ d = 4 \/ d = 5 \/ d = 6 \/ d = 7 \/
    d = 8 \/ d = 9 \/ d = 10 \/ d = 11 \/ d = 12 \/ d = 13 \/ d = 14 \/ d = 15) by lia.
  repeat destruct Hc as [->|Hc]; try reflexivity. by subst.
Qed.

Lemma scan_digits_map b ds :
  2 <= b <= 16 -> Forall (fun d => 0 <= d < b) ds ->
  scan_digits b (digit_char <$> ds) = (ds, []).
Proof.
  intros Hb. induction 1 as [|d ds Hd Hds IH]; [done|].
  cbn. rewrite digit_val_char by lia.
  destruct (Z.ltb_spec d b); [|lia]. cbn in IH. by rewrite IH.
Qed.

Definition parse_radix (b : Z) (s : string) : option Z :=
  match scan_digits b (chars s) with
  | ([], _) => None
  | (ds, []) => Some (eval_digits b 0 ds)
  | _ => None
  end.

Lemma print_radix_digits b n :
  2 <= b <= 16 -> 0 <= n ->
  exists ds, ds <> [] /\ chars (print_radix b n) = digit_char <$> ds /\
    Forall (fun d => 0 <= d < b) ds /\ eval_digits b 0 ds = n.
Proof.
  intros Hb Hn. exists (digits (digit_fuel n) b n []). split_and!.
  - apply digits_nonempty.
  - unfold print_radix. apply chars_of_chars.
  - apply digits_bound; [lia|done|constructor].
  - rewrite digits_eval; [done|lia|by apply digit_fuel_enough].
Qed.

Lemma parse_print_radix b n :
  2 <= b <= 16 -> 0 <= n -> parse_radix b (print_radix b n) = Some n.
Proof.
  intros Hb Hn. destruct (print_radix_digits b n Hb Hn) as (ds & Hne & E & Hds & Hv).
  unfold parse_radix. rewrite E, scan_digits_map by done.
  destruct ds; [done|]. by rewrite Hv.
Qed.

Lemma print_radix_nonempty b n : 2 <= b <= 16 -> 0 <= n -> print_radix b n <> "".
Proof.
  intros Hb Hn. destruct (print_radix_digits b n Hb Hn) as (ds & Hne & E & _ & _).
  intros Habs. rewrite Habs in E. by destruct ds.
Qed.

Lemma print_radix_inj b n m :
  2 <= b <= 16 -> 0 <= n -> 0 <= m -> print_radix b n = print_radix b m -> n = m.
Proof.
  intros Hb Hn Hm E. pose proof (parse_print_radix b n Hb Hn) as P.
  rewrite E, parse_print_radix in P by done. congruence.
Qed.

(** ** [std::stoull] (base 10)

    Leading white space, an optional sign, digits; what follows is ignored.
    [None] stands for the exception ([std::invalid_argument] without a digit,
    [std::out_of_range] beyond 64 bits).  A minus sign negates modulo [2^64]. *)
Fixpoint skip_space (l : list ascii) : list ascii :=
  match l with c :: l' => if isspace c then skip_space l' else l | [] => [] end.

Definition read_sign (l : list ascii) : bool * list ascii :=
  match l with
  | c :: l' =>
      if Ascii.eqb c "-"%char then (true, l')
      else if Ascii.eqb c "+"%char then (false, l') else (false, l)
  | [] => (false, [])
  end.

Definition stoull (s : string) : option Z :=
  let '(neg, l) := read_sign (skip_space (chars s)) in
  match scan_digits 10 l with
  | ([], _) => None
  | (ds, _) =>
      let v := eval_digits 10 0 ds in
      if 2 ^ 64 <=? v then None else Some (if (neg : bool) then u64 (- v) else v)
  end.

(** [std::stoi]: the same, of a 32-bit signed integer. *)
Definition stoi (s : string) : option Z :=
  let '(neg, l) := read_sign (skip_space (chars s)) in
  match scan_digits 10 l with
  | ([], _) => None
  | (ds, _) =>
      let v := eval_digits 10 0 ds in
      let v := if (neg : bool) then - v else v in
      if (v <? - 2 ^ 31) || (2 ^ 31 <=? v) then None else Some v
  end.

Lemma digit_char_not_special d :
  0 <= d < 10 ->
  isspace (digit_char d) = false /\ Ascii.eqb (digit_char d) "-"%char = false /\
  Ascii.eqb (digit_char d) "+"%char = false.
Proof.
  intros H.
  assert (Hc : d = 0 \/ d = 1 \/ d = 2 \/ d = 3 \/ d = 4 \/ d = 5 \/ d = 6 \/ d = 7 \/
    d = 8 \/ d = 9) by lia.
  repeat destruct Hc as [->|Hc]; try (by vm_compute). by subst.
Qed.

Lemma stoull_to_string n : in_range 64 n -> stoull (to_string n) = Some n.
Proof.
  unfold in_range. intros [Hn Hlt].
  destruct (print_radix_digits 10 n) as (ds & Hne & E & Hds & Hv); [lia|done|].
  unfold stoull. rewrite E. destruct ds as [|d ds]; [done|].
  pose proof (Forall_inv Hds) as Hd. cbn in Hd.
  destruct (digit_char_not_special d Hd) as (S1 & S2 & S3).
  assert (Hsign : read_sign (skip_space (digit_char <$> d :: ds)) = (false, digit_char <$> d :: ds)).
  { cbn. rewrite S1. cbn. by rewrite S2, S3. }
  rewrite Hsign.
  rewrite scan_digits_map by (done || lia). rewrite Hv.
  destruct (Z.leb_spec (2 ^ 64) n); [lia|done].
Qed.

Lemma stoull_range s n : stoull s = Some n -> in_range 64 n.
Proof.
  unfold stoull, in_range. destruct (read_sign _) as [neg l].
  destruct (scan_digits 10 l) as [ds r] eqn:E.
  assert (Hds : Forall (fun d => 0 <= d) ds).
  { revert ds r E. induction l as [|c l IH]; cbn; intros ds r E; simplify_eq; [done|].
    destruct (digit_val c) as [d|] eqn:Ev; simplify_eq; [|done].
    destruct (d <? 10); simplify_eq; [|done].
    destruct (scan_digits 10 l) as [ds' r']; simplify_eq. constructor; [|by eapply IH].
    unfold digit_val in Ev. unfold isdigit, in_class in Ev.
    repeat case_match; simplify_eq; lia. }
  destruct ds as [|d ds]; [done|].
  destruct (Z.leb_spec (2 ^ 64) (eval_digits 10 0 (d :: ds))) as [|Hlt]; [done|].
  intros [= <-]. destruct neg; [apply (wrap_range 64); lia|].
  split; [|done]. clear Hlt E.
  assert (G : forall a, 0 <= a -> 0 <= eval_digits 10 a (d :: ds)).
  { revert Hds. generalize (d :: ds). intros l0. induction 1; intros a Ha; [done|].
    cbn. apply IHHds. lia. }
  apply G. lia.
Qed.

(** ** Splitting at a character *)

(** What comes before the first [c] and, when there is one, what comes after
    it. *)
Fixpoint break_at (c : ascii) (l : list ascii) : list ascii * option (list ascii) :=
  match l with
  | [] => ([], None)
  | x :: l => if Ascii.eqb x c then ([], Some l)
              else let '(a, r) := break_at c l in (x :: a, r)
  end.

Lemma break_at_absent c l : c ∉ l -> break_at c l = (l, None).
Proof.
  induction l as [|x l IH]; [done|]. intros [Hx Hl]%not_elem_of_cons. cbn [break_at].
  destruct (Ascii.eqb_spec x c); [congruence|]. by rewrite IH.
Qed.

Lemma break_at_app c l r : c ∉ l -> break_at c (l ++ c :: r) = (l, Some r).
Proof.
  induction l as [|x l IH]; cbn [break_at app].
  - intros _. by rewrite Ascii.eqb_refl.
  - intros [Hx Hl]%not_elem_of_cons. destruct (Ascii.eqb_spec x c); [congruence|]. by rewrite IH.
Qed.

(** No character of [bad] occurs in [s]. *)
Definition free_of (bad : list ascii) (s : string) : bool :=
  forallb (fun c => negb (existsb (Ascii.eqb c) bad)) (chars s).

Lemma free_of_elem bad s c : free_of bad s = true -> c ∈ bad -> c ∉ chars s.
Proof.
  intros H Hc Hin. unfold free_of in H. rewrite forallb_forall in H.
  specialize (H c). rewrite <- list_elem_of_In in H. specialize (H Hin).
  apply negb_true_iff in H. apply not_true_iff_false in H. apply H, existsb_exists.
  exists c. split; [by apply list_elem_of_In|apply Ascii.eqb_refl].
Qed.

Lemma free_of_app bad s t : free_of bad (s +:+ t) = free_of bad s && free_of bad t.
Proof. unfold free_of. by rewrite chars_app, forallb_app. Qed.

Lemma free_of_digits bad ds :
  forallb (fun d => negb (existsb (Ascii.eqb (digit_char d)) bad)) [0;1;2;3;4;5;6;7;8;9] = true ->
  Forall (fun d => 0 <= d < 10) ds -> free_of bad (of_chars (digit_char <$> ds)) = true.
Proof.
  intros H HF. unfold free_of. rewrite chars_of_chars. rewrite forallb_forall in H.
  induction HF as [|d ds Hd HF IH]; [done|]. cbn [fmap list_fmap forallb]. rewrite IH, andb_true_r.
  apply H. assert (d = 0 \/ d = 1 \/ d = 2 \/ d = 3 \/ d = 4 \/ d = 5 \/ d = 6 \/ d = 7 \/ d = 8 \/ d = 9)
    by lia. cbn [In]. intuition congruence.
Qed.

(** A decimal numeral is made of digits. *)
Lemma to_string_free bad n :
  0 <= n ->
  forallb (fun d => negb (existsb (Ascii.eqb (digit_char d)) bad)) [0;1;2;3;4;5;6;7;8;9] = true ->
  free_of bad (to_string n) = true.
Proof.
  intros Hn Hb. apply free_of_digits; [done|]. apply digits_bound; [lia|done|constructor].
Qed.
