(* ===== verification/Utils.v ===== *)
(** * String utilities ([src/src/utils/utils.h], [src/src/utils/utils.cpp])

    Case-insensitive comparison, prefix and suffix tests, hexadecimal
    printing.  The iterator algorithms keep their reads: a test that would run
    past the end of a string is [Crash Undefined]. *)

From S2P Require Import Prelude CppStd.

(** [s.substr(0, s.find_first_of(delimiter))]; [npos] keeps the whole string. *)
Fixpoint until (d : ascii) (l : list ascii) : list ascii :=
  match l with
  | [] => []
  | c :: l => if Ascii.eqb c d then [] else c :: until d l
  end.

Definition get_first_part (s : string) (delimiter : ascii) : string :=
  of_chars (until delimiter (chars s)).

(** [from<T>]: hexadecimal, the two's complement of a [w]-bit integer. *)
Definition from (w : Z) (integer : Z) : string := print_radix 16 (wrap w integer).

(** [from_dec<T>], for an unsigned [integer]. *)
Definition from_dec (integer : Z) : string := print_radix 10 integer.

Definition icompare (a b : string) : outcome bool :=
  if len a =? len b then
    std_equal (fun a b => Ascii.eqb (tolower a) (tolower b)) (chars b) (chars a)
  else Ok false.

(** [iless<T>::operator()]. *)
Definition iless_comparator (a b : ascii) : bool := byte_of (tolower a) <=? byte_of (tolower b).

Definition iless (x y : string) : outcome bool :=
  if len x <=? len y then std_equal iless_comparator (chars x) (chars y)
  else negb <$> std_equal iless_comparator (chars y) (chars x).

Definition i_starts_with (a b : string) : outcome bool :=
  if len b <=? len a then
    std_equal (fun ca cb => Ascii.eqb (tolower ca) (tolower cb)) (chars b) (chars a)
  else Ok false.

(** [starts_with] on iterator ranges. *)
Definition starts_with_range {A B} (r1 : list A) (r2 : list B) (p : B -> A -> bool) : outcome bool :=
  if Z.of_nat (length r1) <? Z.of_nat (length r2) then Ok false else std_equal p r2 r1.

(** [starts_with(str, "literal", str_offset, p)]: the difference of sizes is
    computed on [size_t], and [str.begin() + str_offset] is an iterator of [str]
    only up to its end. *)
Definition starts_with_lit (str substr : string) (str_offset : Z) (p : ascii -> ascii -> bool)
    : outcome bool :=
  if u64 (len str - str_offset) <? len substr then Ok false
  else
    _ ← guard_ub (str_offset <=? len str);
    std_equal p (chars substr) (drop (Z.to_nat str_offset) (chars str)).

(** [starts_with(str, substr, p)]: the predicate is a parameter of the template
    that the call of [std::equal] does not pass on. *)
Definition starts_with (str substr : string) (p : ascii -> ascii -> bool) : outcome bool :=
  if len str <? len substr then Ok false
  else std_equal Ascii.eqb (chars substr) (chars str).

(** [ends_with(str, "literal", p)]: reverse iterators over the literal without
    its final NUL. *)
Definition ends_with_lit (str substr : string) (p : ascii -> ascii -> bool) : outcome bool :=
  if len str <? len substr then Ok false
  else std_equal p (reverse (chars substr)) (reverse (chars str)).

Definition ends_with (str substr : string) (p : ascii -> ascii -> bool) : outcome bool :=
  if len str <? len substr then Ok false
  else std_equal p (reverse (chars substr)) (reverse (chars str)).

(** [to_lower_hex]: two digits for every byte of the container. *)
Fixpoint to_lower_hex_loop (bytes : list Z) : list ascii :=
  match bytes with
  | [] => []
  | c :: bytes =>
      digit_char (Z.land (Z.shiftr c 4) 15) :: digit_char (Z.land c 15) :: to_lower_hex_loop bytes
  end.

Definition to_lower_hex (bytes : list Z) : string := of_chars (to_lower_hex_loop bytes).

(** ** Specifications *)

Lemma length_chars_le a b : len a <= len b -> (length (chars a) <= length (chars b))%nat.
Proof. unfold len. lia. Qed.

Lemma prefix_by_lower l1 l2 :
  length l1 = length l2 ->
  prefix_by (fun a b => Ascii.eqb (tolower a) (tolower b)) l1 l2 =
    bool_decide (tolower <$> l1 = tolower <$> l2).
Proof.
  revert l2; induction l1 as [|a l1 IH]; intros [|b l2] L; cbn in *; try done.
  rewrite IH by lia. destruct (Ascii.eqb_spec (tolower a) (tolower b)) as [E|E]; cbn.
  - apply bool_decide_ext. rewrite E. split; congruence.
  - symmetry. apply bool_decide_eq_false. congruence.
Qed.

(** [icompare] decides equality up to ASCII case and never reads out of bounds. *)
Lemma icompare_spec a b : icompare a b = Ok (bool_decide (lowercase a = lowercase b)).
Proof.
  unfold icompare. destruct (Z.eqb_spec (len a) (len b)) as [E|E]; unfold len in E.
  - rewrite std_equal_in_bounds by lia. rewrite prefix_by_lower by lia.
    f_equal. apply bool_decide_ext. unfold lowercase. split.
    + intros H. by rewrite H.
    + intros H%(f_equal chars). by rewrite !chars_of_chars in H.
  - f_equal. symmetry. apply bool_decide_eq_false. intros H%(f_equal chars).
    unfold lowercase in H. rewrite !chars_of_chars in H.
    apply (f_equal length) in H. rewrite !length_fmap in H. lia.
Qed.

Lemma icompare_refl s : icompare s s = Ok true.
Proof. rewrite icompare_spec. f_equal. by apply bool_decide_eq_true. Qed.

Lemma ends_with_spec str substr :
  ends_with str substr Ascii.eqb = Ok (bool_decide (chars substr `suffix_of` chars str)).
Proof.
  unfold ends_with. destruct (Z.ltb_spec (len str) (len substr)) as [L|L].
  - f_equal. symmetry. apply bool_decide_eq_false. intros H%suffix_length. unfold len in L. lia.
  - rewrite std_equal_in_bounds by (rewrite !length_reverse; by apply length_chars_le).
    f_equal. apply eq_true_iff_eq. rewrite prefix_by_eq, bool_decide_eq_true.
    by rewrite suffix_prefix_reverse.
Qed.

Lemma starts_with_spec str substr p :
  starts_with str substr p = Ok (bool_decide (chars substr `prefix_of` chars str)).
Proof.
  unfold starts_with. destruct (Z.ltb_spec (len str) (len substr)) as [L|L].
  - f_equal. symmetry. apply bool_decide_eq_false. intros H%prefix_length. unfold len in L. lia.
  - rewrite std_equal_in_bounds by (by apply length_chars_le).
    f_equal. apply eq_true_iff_eq. by rewrite prefix_by_eq, bool_decide_eq_true.
Qed.

(** A hexadecimal decoder, the reference for [to_lower_hex]. *)
Fixpoint hex_pairs (l : list ascii) : option (list Z) :=
  match l with
  | [] => Some []
  | h :: l0 :: l =>
      h ← digit_val h; l0 ← digit_val l0; r ← hex_pairs l; Some (h * 16 + l0 :: r)
  | _ => None
  end.

Lemma nibbles c : in_range 8 c ->
  0 <= Z.land (Z.shiftr c 4) 15 < 16 /\ 0 <= Z.land c 15 < 16 /\
  Z.land (Z.shiftr c 4) 15 * 16 + Z.land c 15 = c.
Proof.
  unfold in_range. intros H. change 15 with (Z.ones 4).
  rewrite !Z.land_ones, Z.shiftr_div_pow2 by lia.
  change (2 ^ 4) with 16. change (2 ^ 8) with 256 in H.
  pose proof (Z.mod_pos_bound c 16). pose proof (Z.div_mod c 16).
  rewrite (Z.mod_small (c / 16)); [lia|].
  split; [apply Z.div_pos; lia|apply Z.div_lt_upper_bound; lia].
Qed.

Lemma iless_comparator_refl l : prefix_by iless_comparator l l = true.
Proof.
  induction l as [|c l IH]; [done|]. cbn. unfold iless_comparator at 1.
  by rewrite Z.leb_refl.
Qed.

(** ** Theorems *)

(** On two strings, [starts_with] and [ends_with] decide the prefix and the
    suffix relation and [icompare] decides equality up to ASCII case; none of
    them ever reads outside a string.  (The predicate handed to [starts_with]
    plays no part: the result is that of [==] whatever [p] is.) *)
Theorem affix_tests_correct (str substr : string) (p : ascii -> ascii -> bool) :
  starts_with str substr p = Ok (bool_decide (chars substr `prefix_of` chars str)) /\
  ends_with str substr Ascii.eqb = Ok (bool_decide (chars substr `suffix_of` chars str)) /\
  icompare str substr = Ok (bool_decide (lowercase str = lowercase substr)).
Proof. split_and!; [apply starts_with_spec|apply ends_with_spec|apply icompare_spec]. Qed.

(** [to_lower_hex] writes two digits per byte, and reading them back gives
    the bytes. *)
Theorem to_lower_hex_roundtrip (bytes : list Z) :
  Forall (in_range 8) bytes ->
  hex_pairs (chars (to_lower_hex bytes)) = Some bytes /\
  len (to_lower_hex bytes) = 2 * Z.of_nat (length bytes).
Proof.
  unfold to_lower_hex, len. rewrite chars_of_chars.
  induction 1 as [|c bytes Hc Hbytes [IH1 IH2]]; [done|].
  destruct (nibbles c Hc) as (H1 & H2 & H3). cbn [to_lower_hex_loop hex_pairs].
  rewrite !digit_val_char by done. cbn. rewrite IH1. cbn. rewrite H3.
  split; [done|]. rewrite !Nat2Z.inj_succ, IH2. lia.
Qed.

Lemma to_lower_hex_roundtrip_witness :
  hex_pairs (chars (to_lower_hex [0; 255; 16])) = Some [0; 255; 16] /\
  len (to_lower_hex [0; 255; 16]) = 2 * Z.of_nat (length [0; 255; 16]).
Proof. apply (to_lower_hex_roundtrip [0; 255; 16]). repeat constructor; cbn; lia. Defined.

(** [iless] answers [true] on two equal strings, so it is not the strict
    ordering an ordered container needs. *)
Theorem iless_not_irreflexive (s : string) : iless s s = Ok true.
Proof.
  unfold iless. rewrite Z.leb_refl. rewrite std_equal_in_bounds by lia.
  by rewrite iless_comparator_refl.
Qed.

(** the literal overload of [starts_with] guards its reads only for offsets
    inside the string: with an offset beyond the end the subtraction of sizes
    wraps, the guard lets the call through and the comparison starts outside
    the string.  (Offset at most the size: the answer is that of the substring.) *)
Theorem starts_with_offset (str substr : string) (off : Z) :
  0 <= off < 2 ^ 63 -> len str < 2 ^ 63 -> len substr < 2 ^ 63 ->
  starts_with_lit str substr off Ascii.eqb =
    if off <=? len str
    then Ok (bool_decide (chars substr `prefix_of` drop (Z.to_nat off) (chars str)))
    else Crash Undefined.
Proof.
  intros Hoff Hstr Hsub. pose proof (len_nonneg str). pose proof (len_nonneg substr).
  unfold starts_with_lit. destruct (Z.leb_spec off (len str)) as [L|L].
  - rewrite wrap_id by (unfold in_range; lia).
    assert (Hlen : Z.of_nat (length (drop (Z.to_nat off) (chars str))) = len str - off)
      by (rewrite length_drop; unfold len in *; lia).
    destruct (Z.ltb_spec (len str - off) (len substr)) as [L'|L'].
    + f_equal. symmetry. apply bool_decide_eq_false. intros Hp%prefix_length.
      unfold len in *. lia.
    + cbn. rewrite std_equal_in_bounds by (unfold len in *; lia).
      f_equal. apply eq_true_iff_eq. by rewrite prefix_by_eq, bool_decide_eq_true.
  - assert (E : u64 (len str - off) = len str - off + 2 ^ 64).
    { unfold wrap. rewrite <- (Z.mod_small (len str - off + 2 ^ 64) (2 ^ 64)) by lia.
      rewrite <- Zplus_mod_idemp_r, Z_mod_same_full. f_equal. lia. }
    rewrite E. destruct (Z.ltb_spec (len str - off + 2 ^ 64) (len substr)); [lia|]. done.
Qed.

Lemma starts_with_offset_witness :
  starts_with_lit "abc" "x" 5 Ascii.eqb = Crash Undefined.
Proof.
  exact (starts_with_offset "abc" "x" 5 ltac:(lia) ltac:(reflexivity) ltac:(reflexivity)).
Defined.
