(* ===== verification/Base64.v ===== *)
(** * Base64 ([src/src/utils/base64.cpp])

    [base64_encode] and [base64_decode] with their work arrays: the three bytes
    (or four sextets) collected so far are the list [acc], the counter [i] is
    its length.  A byte is a [Z] in [[0, 256)]; the shifts of [unsigned char]
    are taken in [int] and cut to eight bits on assignment ([u8]). *)

From S2P Require Import Prelude CppStd.

Definition base64_chars : string :=
  "ABCDEFGHIJKLMNOPQRSTUVWXYZabcdefghijklmnopqrstuvwxyz0123456789+/".

(** [base64_chars[i]]: reading at [size()] gives the NUL, beyond it is out of
    bounds; the indices of the encoder are below 64. *)
Definition base64_char (i : Z) : ascii := default "000"%char (chars base64_chars !! Z.to_nat i).

(** [base64_chars.find(c)], cut to [unsigned char] by the assignment: [npos]
    becomes 255. *)
Definition base64_find (c : ascii) : Z :=
  match list_find (fun d => d = c) (chars base64_chars) with
  | Some (i, _) => Z.of_nat i
  | None => 255
  end.

Definition is_base64 (c : ascii) : bool :=
  isalnum c || Ascii.eqb c "+"%char || Ascii.eqb c "/"%char.

(** The four sextets of [char_array_3]. *)
Definition sextets (a b c : Z) : list Z :=
  [ Z.shiftr (Z.land a 252) 2;
    u8 (Z.shiftl (Z.land a 3) 4 + Z.shiftr (Z.land b 240) 4);
    u8 (Z.shiftl (Z.land b 15) 2 + Z.shiftr (Z.land c 192) 6);
    Z.land c 63 ].

(** The three bytes of [char_array_4]. *)
Definition octets (p q r s : Z) : list Z :=
  [ u8 (Z.shiftl p 2 + Z.shiftr (Z.land q 48) 4);
    u8 (Z.shiftl (Z.land q 15) 4 + Z.shiftr (Z.land r 60) 2);
    u8 (Z.shiftl (Z.land r 3) 6 + s) ].

(** The part after the loop of [base64_encode]: [i] bytes are left over; the
    others are zeroed, [i + 1] characters are written and padded with [=]. *)
Definition encode_rest (acc : list Z) : list ascii :=
  match acc with
  | [a] => ((base64_char <$> take 2 (sextets a 0 0)) ++ ["="%char; "="%char])%list
  | [a; b] => ((base64_char <$> take 3 (sextets a b 0)) ++ ["="%char])%list
  | _ => []
  end.

(** The loop [while (in_len--)] of [base64_encode]. *)
Fixpoint encode_loop (acc : list Z) (bytes : list Z) : list ascii :=
  match bytes with
  | [] => encode_rest acc
  | c :: bytes =>
      match acc with
      | [a; b] => ((base64_char <$> sextets a b c) ++ encode_loop [] bytes)%list
      | _ => encode_loop (acc ++ [c])%list bytes
      end
  end.

Definition base64_encode (bytes_to_encode : list Z) : string :=
  of_chars (encode_loop [] bytes_to_encode).

(** The part after the loop of [base64_decode]: [acc] holds [i] raw characters;
    the missing ones are NUL, every one is replaced by its index ([find] of NUL
    is [npos], that is 255) and [i - 1] bytes are written. *)
Definition decode_rest (acc : list ascii) : list Z :=
  let idx j := base64_find (default "000"%char (acc !! j)) in
  match acc with
  | [] => []
  | _ => take (length acc - 1) (octets (idx 0%nat) (idx 1%nat) (idx 2%nat) (idx 3%nat))
  end.

(** The loop of [base64_decode]: it stops at [=] and at the first character
    outside the alphabet. *)
Fixpoint decode_loop (acc : list ascii) (l : list ascii) : list Z :=
  match l with
  | [] => decode_rest acc
  | c :: l =>
      if negb (Ascii.eqb c "="%char) && is_base64 c then
        match acc with
        | [p; q; r] =>
            (octets (base64_find p) (base64_find q) (base64_find r) (base64_find c)
               ++ decode_loop [] l)%list
        | _ => decode_loop (acc ++ [c])%list l
        end
      else decode_rest acc
  end.

Definition base64_decode (encoded_string : string) : list Z :=
  decode_loop [] (chars encoded_string).

(** ** Lemmas *)

Definition sextet (x : Z) : Prop := 0 <= x < 64.

Lemma sextet_cases (P : Z -> bool) :
  forallb P (Z.of_nat <$> seq 0 64) = true -> forall x, sextet x -> P x = true.
Proof.
  rewrite forallb_forall. intros H x Hx. apply H, list_elem_of_In, list_elem_of_fmap.
  exists (Z.to_nat x). unfold sextet in Hx. rewrite elem_of_seq. lia.
Qed.

Lemma find_char x : sextet x -> base64_find (base64_char x) = x.
Proof.
  intros Hx. apply Z.eqb_eq. revert x Hx.
  apply (sextet_cases (fun x => base64_find (base64_char x) =? x)). vm_compute. reflexivity.
Qed.

Lemma char_in_alphabet x : sextet x ->
  negb (Ascii.eqb (base64_char x) "="%char) && is_base64 (base64_char x) = true.
Proof. revert x. apply sextet_cases. vm_compute. reflexivity. Qed.

(** The bit masks, as divisions. *)
Lemma land_low x n : 0 <= n -> Z.land x (Z.ones n) = x mod 2 ^ n.
Proof. apply Z.land_ones. Qed.

Lemma land_high x m n :
  0 <= x < 2 ^ (m + n) -> 0 <= m -> 0 <= n ->
  Z.shiftr (Z.land x (Z.shiftl (Z.ones m) n)) n = x / 2 ^ n.
Proof.
  intros Hx Hm Hn. rewrite Z.shiftr_land, Z.shiftr_shiftl_l, Z.sub_diag, Z.shiftl_0_r by lia.
  rewrite Z.land_ones, Z.shiftr_div_pow2 by lia. apply Z.mod_small.
  rewrite Z.pow_add_r in Hx by lia. split; [apply Z.div_pos; lia|].
  apply Z.div_lt_upper_bound; lia.
Qed.

Definition byte (x : Z) : Prop := in_range 8 x.

Lemma sextets_div a b c : byte a -> byte b -> byte c ->
  sextets a b c = [a / 4; a mod 4 * 16 + b / 16; b mod 16 * 4 + c / 64; c mod 64].
Proof.
  unfold byte, in_range. intros Ha Hb Hc. unfold sextets, wrap. change (2 ^ 8) with 256 in *.
  change 252 with (Z.shiftl (Z.ones 6) 2). change 240 with (Z.shiftl (Z.ones 4) 4).
  change 192 with (Z.shiftl (Z.ones 2) 6). change 3 with (Z.ones 2).
  change 15 with (Z.ones 4). change 63 with (Z.ones 6).
  rewrite !land_high, !land_low, !Z.shiftl_mul_pow2 by lia.
  change (2 ^ 2) with 4. change (2 ^ 4) with 16. change (2 ^ 6) with 64.
  rewrite (Z.mod_small (a mod 4 * 16 + b / 16) 256) by zdiv_lia.
  by rewrite (Z.mod_small (b mod 16 * 4 + c / 64) 256) by zdiv_lia.
Qed.

Lemma sextets_range a b c : byte a -> byte b -> byte c -> Forall sextet (sextets a b c).
Proof.
  intros Ha Hb Hc. rewrite sextets_div by done.
  unfold byte, in_range in *. change (2 ^ 8) with 256 in *. unfold sextet.
  repeat constructor; zdiv_lia.
Qed.

Lemma octets_div p q r s : sextet p -> sextet q -> sextet r -> sextet s ->
  octets p q r s = [p * 4 + q / 16; q mod 16 * 16 + r / 4; r mod 4 * 64 + s].
Proof.
  unfold sextet. intros Hp Hq Hr Hs. unfold octets, wrap. change (2 ^ 8) with 256.
  change 48 with (Z.shiftl (Z.ones 2) 4). change 60 with (Z.shiftl (Z.ones 4) 2).
  change 3 with (Z.ones 2). change 15 with (Z.ones 4).
  rewrite !land_high, !land_low, !Z.shiftl_mul_pow2 by lia.
  change (2 ^ 2) with 4. change (2 ^ 4) with 16. change (2 ^ 6) with 64.
  rewrite (Z.mod_small (p * 4 + q / 16) 256) by zdiv_lia.
  rewrite (Z.mod_small (q mod 16 * 16 + r / 4) 256) by zdiv_lia.
  by rewrite (Z.mod_small (r mod 4 * 64 + s) 256) by zdiv_lia.
Qed.

(** Decoding the characters of four sextets gives the bytes they were cut from. *)
Lemma octets_sextets a b c : byte a -> byte b -> byte c ->
  match sextets a b c with
  | [p; q; r; s] => octets p q r s = [a; b; c]
  | _ => False
  end.
Proof.
  intros Ha Hb Hc. pose proof (sextets_range a b c Ha Hb Hc) as HF.
  rewrite sextets_div in * by done.
  repeat (apply Forall_cons in HF as [? HF]). rewrite octets_div by done.
  unfold byte, in_range in *. change (2 ^ 8) with 256 in *. repeat f_equal; zdiv_lia.
Qed.

(** The decoder on the characters of the encoder, by blocks of three bytes. *)
Lemma decode_loop_block a b c l : byte a -> byte b -> byte c ->
  decode_loop [] ((base64_char <$> sextets a b c) ++ l) = ([a; b; c] ++ decode_loop [] l)%list.
Proof.
  intros Ha Hb Hc. pose proof (sextets_range a b c Ha Hb Hc) as HF.
  pose proof (octets_sextets a b c Ha Hb Hc) as HO.
  destruct (sextets a b c) as [|p [|q [|r [|s [|]]]]]; try done.
  repeat (apply Forall_cons in HF as [? HF]).
  cbn -[is_base64 base64_char base64_find octets].
  rewrite !char_in_alphabet, !find_char by done. by rewrite HO.
Qed.

Lemma decode_loop_one a : byte a ->
  decode_loop [] (encode_rest [a]) = [a].
Proof.
  intros Ha. assert (H0 : byte 0) by done.
  pose proof (sextets_range a 0 0 Ha H0 H0) as HF.
  pose proof (octets_sextets a 0 0 Ha H0 H0) as HO.
  cbn [encode_rest]. destruct (sextets a 0 0) as [|p [|q [|r [|s [|]]]]]; try done.
  repeat (apply Forall_cons in HF as [? HF]).
  cbn -[is_base64 base64_char base64_find octets].
  rewrite !char_in_alphabet by done. cbn -[is_base64 base64_char base64_find octets].
  unfold octets in *. rewrite !find_char by done. cbn [take]. congruence.
Qed.

Lemma decode_loop_two a b : byte a -> byte b ->
  decode_loop [] (encode_rest [a; b]) = [a; b].
Proof.
  intros Ha Hb. assert (H0 : byte 0) by done.
  pose proof (sextets_range a b 0 Ha Hb H0) as HF.
  pose proof (octets_sextets a b 0 Ha Hb H0) as HO.
  cbn [encode_rest]. destruct (sextets a b 0) as [|p [|q [|r [|s [|]]]]]; try done.
  repeat (apply Forall_cons in HF as [? HF]).
  cbn -[is_base64 base64_char base64_find octets].
  rewrite !char_in_alphabet by done. cbn -[is_base64 base64_char base64_find octets].
  unfold octets in *. rewrite !find_char by done. cbn [take]. congruence.
Qed.

Lemma encode_loop_acc acc bytes :
  (length acc < 3)%nat -> encode_loop acc bytes = encode_loop [] (acc ++ bytes).
Proof.
  intros L. destruct acc as [|a [|b [|]]]; cbn in L; try lia; done.
Qed.

(** Induction by blocks of three. *)
Lemma list_ind3 {A} (P : list A -> Prop) :
  P [] -> (forall a, P [a]) -> (forall a b, P [a; b]) ->
  (forall a b c l, P l -> P (a :: b :: c :: l)) -> forall l, P l.
Proof.
  intros H0 H1 H2 H3.
  assert (G : forall n l, (length l <= n)%nat -> P l).
  { induction n as [|n IH]; intros [|a [|b [|c l]]] L; cbn in L; try lia; auto.
    apply H3, IH. lia. }
  intros l. by apply (G (length l)).
Qed.

(** ** Theorems *)

(** C31: decoding an encoded byte string gives it back, whatever its length
    modulo three. *)
Theorem base64_roundtrip (bytes : list Z) :
  Forall byte bytes -> base64_decode (base64_encode bytes) = bytes.
Proof.
  unfold base64_decode, base64_encode. rewrite chars_of_chars.
  induction bytes as [|a|a b|a b c bytes IH] using list_ind3; intros HF;
    repeat (apply Forall_cons in HF as [? HF]).
  - done.
  - by apply decode_loop_one.
  - by apply decode_loop_two.
  - change (encode_loop [] (a :: b :: c :: bytes)) with
      ((base64_char <$> sextets a b c) ++ encode_loop [] bytes)%list.
    rewrite decode_loop_block by done. by rewrite IH.
Qed.

Lemma base64_roundtrip_witness :
  Forall byte [77; 97; 110; 255] /\ base64_decode (base64_encode [77; 97; 110; 255]) = [77; 97; 110; 255].
Proof.
  assert (H : Forall byte [77; 97; 110; 255]) by (repeat constructor; cbn; lia).
  split; [exact H|exact (base64_roundtrip _ H)].
Defined.

Example base64_man : base64_encode [77; 97; 110] = "TWFu".
Proof. reflexivity. Qed.
