(* ===== verification/MultiMap.v ===== *)
(** * [std::multimap<std::string, std::string>]

    The container of the headers ([headers_map]) and of the HTTP/2 trailers: a
    list of pairs ordered by key, pairs of equal keys in insertion order.  The
    component's promise to its clients is [values]: the values of a key, in
    insertion order; two well-formed maps with the same values are equal. *)

From Stdlib Require Import Sorted.
From S2P Require Import Prelude CppStd.

Abbreviation header_t := (string * string)%type.
Abbreviation headers_map := (list header_t).

Definition key_le (a b : header_t) : Prop := String.le a.1 b.1.
Definition wf (m : headers_map) : Prop := StronglySorted key_le m.

#[export] Instance key_le_dec : RelDecision key_le.
Proof. intros a b. apply _. Defined.
#[export] Instance key_le_trans : Transitive key_le.
Proof. intros a b c. unfold key_le. apply transitivity. Qed.

(** [insert]/[emplace]: at the upper bound of the key's range. *)
Fixpoint insert (k v : string) (m : headers_map) : headers_map :=
  match m with
  | [] => [(k, v)]
  | h :: m' => if decide (String.le h.1 k) then h :: insert k v m' else (k, v) :: m
  end.

(** [erase(key)]: every pair of the key. *)
Definition erase (k : string) (m : headers_map) : headers_map :=
  filter (fun h => h.1 <> k) m.

(** [find(key)]: the first pair of the key (the lower bound of its range). *)
Definition find (k : string) (m : headers_map) : option string :=
  snd <$> List.find (fun h => bool_decide (h.1 = k)) m.

(** [equal_range(key)], as the list of its values. *)
Definition values (k : string) (m : headers_map) : list string :=
  snd <$> filter (fun h => h.1 = k) m.

Lemma values_cons k h m :
  values k (h :: m) = if decide (h.1 = k) then h.2 :: values k m else values k m.
Proof. unfold values. rewrite filter_cons. by case_decide. Qed.

Lemma values_app k m1 m2 : values k (m1 ++ m2) = (values k m1 ++ values k m2)%list.
Proof. unfold values. by rewrite filter_app, fmap_app. Qed.

Lemma find_values k m : find k m = head (values k m).
Proof.
  unfold find. induction m as [|h m IH]; [done|]. rewrite values_cons. cbn.
  case_bool_decide; case_decide; done.
Qed.

Lemma values_elem k v m : v ∈ values k m <-> (k, v) ∈ m.
Proof.
  unfold values. rewrite list_elem_of_fmap. split.
  - intros ([k' v'] & -> & [Hk H]%list_elem_of_filter). cbn in *. by subst.
  - intros H. exists (k, v). split; [done|]. by apply list_elem_of_filter.
Qed.

(** ** Insertion *)
Lemma elem_of_insert h k v m : h ∈ insert k v m <-> h = (k, v) \/ h ∈ m.
Proof.
  induction m as [|h' m IH]; cbn; [by rewrite list_elem_of_singleton, elem_of_nil; tauto|].
  case_decide; rewrite !elem_of_cons, ?IH; tauto.
Qed.

Lemma wf_nil : wf [].
Proof. constructor. Qed.

Lemma wf_cons h m : wf (h :: m) -> wf m /\ forall x, x ∈ m -> String.le h.1 x.1.
Proof.
  intros [Hw Hh]%StronglySorted_inv. split; [done|]. intros x Hx.
  by eapply Forall_forall in Hh.
Qed.

Lemma wf_insert k v m : wf m -> wf (insert k v m).
Proof.
  unfold wf. induction 1 as [|h m Hs IH Hh]; cbn; [repeat constructor|].
  case_decide as Hle.
  - constructor; [done|]. apply Forall_forall. intros x [->|Hx]%elem_of_insert; [done|].
    by eapply Forall_forall in Hh.
  - constructor; [by constructor|].
    assert (Hk : key_le (k, v) h).
    { unfold key_le. cbn. destruct (total String.le k h.1); done. }
    constructor; [done|]. eapply Forall_impl; [done|]. cbn. intros x Hx. by etrans.
Qed.

Lemma values_insert_ne k k' v m : k <> k' -> values k' (insert k v m) = values k' m.
Proof.
  intros Hne. induction m as [|h m IH].
  - cbn [insert]. rewrite values_cons. cbn [fst snd]. by rewrite decide_False by done.
  - cbn [insert]. case_decide.
    + rewrite !values_cons. by rewrite IH.
    + rewrite (values_cons _ (k, v)). cbn [fst snd]. by rewrite decide_False by done.
Qed.

Lemma values_gt k m : Forall (fun h => ~ String.le h.1 k) m -> values k m = [].
Proof.
  induction 1 as [|h m Hh Hm IH]; [done|]. rewrite values_cons, IH.
  rewrite decide_False; [done|]. intros <-. by apply Hh.
Qed.

Lemma values_insert_eq k v m : wf m -> values k (insert k v m) = (values k m ++ [v])%list.
Proof.
  unfold wf. induction 1 as [|h m Hs IH Hh].
  - cbn [insert]. rewrite values_cons. cbn [fst snd]. by rewrite decide_True.
  - cbn [insert]. case_decide as Hle.
    + rewrite !values_cons, IH. by case_decide.
    + assert (Hall : Forall (fun h => ~ String.le h.1 k) (h :: m)).
      { constructor; [done|]. eapply Forall_impl; [done|]. cbn. intros x Hx Hc.
        apply Hle. unfold key_le in Hx. by etrans. }
      rewrite values_cons. cbn [fst snd]. rewrite decide_True by done.
      by rewrite (values_gt _ _ Hall).
Qed.

Lemma values_insert k k' v m :
  wf m ->
  values k' (insert k v m) =
    if decide (k = k') then (values k' m ++ [v])%list else values k' m.
Proof.
  intros Hwf. case_decide as E; [subst; by apply values_insert_eq|].
  by apply values_insert_ne.
Qed.

Lemma length_insert k v m : length (insert k v m) = S (length m).
Proof. induction m as [|h m IH]; cbn; [done|]. case_decide; cbn; lia. Qed.

(** ** Erasure and filtering *)
Lemma wf_filter (P : header_t -> Prop) `{!forall h, Decision (P h)} m : wf m -> wf (filter P m).
Proof.
  unfold wf. induction 1 as [|h m Hs IH Hh]; [constructor|].
  rewrite filter_cons. case_decide; [|done]. constructor; [done|].
  apply Forall_forall. intros x [_ Hx]%list_elem_of_filter. by eapply Forall_forall in Hh.
Qed.

Lemma wf_erase k m : wf m -> wf (erase k m).
Proof. apply wf_filter. Qed.

Lemma values_filter (P : header_t -> Prop) `{!forall h, Decision (P h)} k m :
  values k (filter P m) = snd <$> filter (fun h => P h /\ h.1 = k) m.
Proof.
  unfold values. f_equal. rewrite list_filter_filter.
  apply list_filter_iff. intros h. tauto.
Qed.

Lemma values_erase k k' m : values k' (erase k m) = if decide (k = k') then [] else values k' m.
Proof.
  unfold erase. induction m as [|h m IH]; [by case_decide|].
  rewrite filter_cons. destruct (decide (h.1 <> k)) as [Hne|He].
  - rewrite !values_cons, IH. repeat case_decide; subst; done.
  - apply dec_stable in He. rewrite IH, values_cons. repeat case_decide; subst; done.
Qed.

Lemma find_erase k m : find k (erase k m) = None.
Proof. rewrite find_values, values_erase. by rewrite decide_True. Qed.

(** ** Extensionality *)
Lemma values_nil_all m : (forall k, values k m = []) -> m = [].
Proof.
  destruct m as [|h m]; [done|]. intros H. specialize (H h.1).
  rewrite values_cons, decide_True in H; done.
Qed.

Lemma wf_head_least h m x : wf (h :: m) -> x ∈ h :: m -> key_le h x.
Proof.
  intros [Hs Hh]%StronglySorted_inv [->|Hx]%elem_of_cons; [unfold key_le; reflexivity|].
  by eapply Forall_forall in Hh.
Qed.

Theorem multimap_ext m1 m2 :
  wf m1 -> wf m2 -> (forall k, values k m1 = values k m2) -> m1 = m2.
Proof.
  revert m2. induction m1 as [|[k1 v1] m1 IH]; intros m2 H1 H2 E.
  { symmetry. apply values_nil_all. intros k. by rewrite <- E. }
  destruct m2 as [|[k2 v2] m2].
  { apply values_nil_all. intros k. by rewrite E. }
  assert (Hk : k1 = k2).
  { apply (anti_symm String.le).
    - apply (wf_head_least (k1, v1) m1 (k2, v2) H1). apply values_elem. rewrite E.
      apply values_elem. set_solver.
    - apply (wf_head_least (k2, v2) m2 (k1, v1) H2). apply values_elem. rewrite <- E.
      apply values_elem. set_solver. }
  subst k2. assert (v1 = v2) as <-.
  { specialize (E k1). rewrite !values_cons in E. cbn [fst snd] in E.
    rewrite !decide_True in E by done. congruence. }
  f_equal. apply IH.
  - by apply StronglySorted_inv in H1 as [? _].
  - by apply StronglySorted_inv in H2 as [? _].
  - intros k. specialize (E k). rewrite !values_cons in E. cbn [fst snd] in E.
    case_decide; congruence.
Qed.

#[export] Hint Resolve wf_nil wf_insert wf_filter wf_erase : doormat.
#[export] Hint Rewrite values_erase values_insert_ne using (done || discriminate) : doormat_rw.
