(* ===== verification/HttpCommons.v ===== *)
(** * Constants of the HTTP syntax (src/src/http/http_commons.h)

    The protocol versions, the syntactic elements, the header field names and
    values, and the content types with the guess of a content type from a file
    name. *)

From S2P Require Import Prelude CppStd Utils.

Inductive proto_version := UNSET | HTTP11 | HTTP10 | HTTP20.

#[export] Instance proto_version_eq_dec : EqDecision proto_version.
Proof. solve_decision. Defined.

Inductive content_type_t :=
| charset_utf8 | text_html | text_css | text_plain | image_png | image_jpeg
| image_x_icon | application_x_font_woff | application_x_font_ttf | application_json.

#[export] Instance content_type_t_eq_dec : EqDecision content_type_t.
Proof. solve_decision. Defined.

Definition space : string := " ".
Definition comma : string := ",".
Definition colon : string := ":".
Definition questionmark : string := "?".
Definition hash : string := "#".
Definition comma_space : string := ", ".
Definition semicolon_space : string := "; ".
Definition colon_space : string := ": ".
Definition slash : string := "/".
Definition cr : string := of_chars ["013"%char].
Definition lf : string := of_chars ["010"%char].
Definition crlf : string := of_chars ["013"%char; "010"%char].
Definition transfer_chunked_termination : string := "0" +:+ crlf.

Definition http10 : string := "HTTP/1.0".
Definition http11 : string := "HTTP/1.1".
Definition http20 : string := "HTTP/2.0".

Definition hf_connection : string := "connection".
Definition hf_host : string := "host".
Definition hf_date : string := "date".
Definition hf_cyndate : string := "x-cyn-date".
Definition hf_content_len : string := "content-length".
Definition hf_accept_encoding : string := "accept-encoding".
Definition hf_content_encoding : string := "content-encoding".
Definition hf_transfer_encoding : string := "transfer-encoding".
Definition hf_allow : string := "allow".
Definition hf_via : string := "via".
Definition hf_server : string := "server".
Definition hf_maxforward : string := "max-forwards".
Definition hf_cyn_dest : string := "cyn-destination".
Definition hf_cyn_dest_port : string := "cyn-destination-port".
Definition hf_content_type : string := "content-type".

Definition hv_keepalive : string := "keep-alive".
Definition hv_connection_close : string := "close".
Definition hv_chunked : string := "Chunked".
Definition hv_gzip : string := "gzip".
Definition hv_charset_utf8 : string := "charset=UTF-8".
Definition hv_text_html : string := "text/html".
Definition hv_text_css : string := "text/css".
Definition hv_text_plain : string := "text/plain".
Definition hv_image_png : string := "image/png".
Definition hv_image_jpeg : string := "image/jpeg".
Definition hv_image_x_icon : string := "image/x-icon".
Definition hv_application_x_font_woff : string := "application/x-font-woff".
Definition hv_application_x_font_ttf : string := "application/x-font-ttf".
Definition hv_application_json : string := "application/json".

(** [content_type(content_type_t)]; the scoped enumeration has no other value,
    so the [assert(0)] is out of reach. *)
Definition content_type_name (type : content_type_t) : string :=
  match type with
  | charset_utf8 => hv_charset_utf8
  | text_html => hv_text_html
  | text_css => hv_text_css
  | text_plain => hv_text_plain
  | image_png => hv_image_png
  | image_jpeg => hv_image_jpeg
  | image_x_icon => hv_image_x_icon
  | application_x_font_woff => hv_application_x_font_woff
  | application_x_font_ttf => hv_application_x_font_ttf
  | application_json => hv_application_json
  end.

(** [content_type(filename)]. *)
Definition content_type (filename : string) : outcome content_type_t :=
  let ends_with s := ends_with_lit filename s Ascii.eqb in
  png ← ends_with ".png";
  if (png : bool) then mret image_png else
  jpeg ← ends_with ".jpeg";
  jpg ← (if (jpeg : bool) then mret true else ends_with ".jpg");
  if (jpg : bool) then mret image_jpeg else
  css ← ends_with ".css";
  if (css : bool) then mret text_css else
  ico ← ends_with ".ico";
  if (ico : bool) then mret image_x_icon else
  woff ← ends_with ".woff";
  if (woff : bool) then mret application_x_font_woff else
  ttf ← ends_with ".ttf";
  if (ttf : bool) then mret application_x_font_ttf else
  mret text_html.
