(* ===== verification/StructuredData.v ===== *)
(** * The headers of a message (src/src/http/http_structured_data.{h,cpp})

    [http_structured_data] with all its operations.  The members are
    [noexcept], so a [std::stoull] that throws inside [header] ends the process
    ([Crash Terminated]).  The address of the origin, stored and copied but
    never computed with, is left out. *)

From S2P Require Import Prelude CppStd MultiMap Utils HttpCommons.

(** The class the data belongs to ([typeid] of the derived class). *)
Inductive type_index := http_request_type | http_response_type.

#[export] Instance type_index_eq_dec : EqDecision type_index.
Proof. solve_decision. Defined.

Record http_structured_data := {
  _type : type_index;
  _protocol : proto_version;
  _channel : proto_version;
  _headers : headers_map;
  _chunked : bool;
  _keepalive : bool;
  _default_keepalive : bool;
  _content_len : Z }.

#[export] Instance http_structured_data_eq_dec : EqDecision http_structured_data.
Proof. solve_decision. Defined.

Definition set_headers (m : headers_map) (d : http_structured_data) : http_structured_data :=
  {| _type := _type d; _protocol := _protocol d; _channel := _channel d; _headers := m;
     _chunked := _chunked d; _keepalive := _keepalive d;
     _default_keepalive := _default_keepalive d; _content_len := _content_len d |}.

Definition set_chunked (b : bool) (d : http_structured_data) : http_structured_data :=
  {| _type := _type d; _protocol := _protocol d; _channel := _channel d; _headers := _headers d;
     _chunked := b; _keepalive := _keepalive d;
     _default_keepalive := _default_keepalive d; _content_len := _content_len d |}.

Definition set_keepalive (k dk : bool) (d : http_structured_data) : http_structured_data :=
  {| _type := _type d; _protocol := _protocol d; _channel := _channel d; _headers := _headers d;
     _chunked := _chunked d; _keepalive := k;
     _default_keepalive := dk; _content_len := _content_len d |}.

Definition set_content_len (n : Z) (d : http_structured_data) : http_structured_data :=
  {| _type := _type d; _protocol := _protocol d; _channel := _channel d; _headers := _headers d;
     _chunked := _chunked d; _keepalive := _keepalive d;
     _default_keepalive := _default_keepalive d; _content_len := n |}.

Definition set_protocol (v : proto_version) (d : http_structured_data) : http_structured_data :=
  {| _type := _type d; _protocol := v; _channel := _channel d; _headers := _headers d;
     _chunked := _chunked d; _keepalive := _keepalive d;
     _default_keepalive := _default_keepalive d; _content_len := _content_len d |}.

(** [channel(val)]. *)
Definition channel (v : proto_version) (d : http_structured_data) : http_structured_data :=
  {| _type := _type d; _protocol := _protocol d; _channel := v; _headers := _headers d;
     _chunked := _chunked d; _keepalive := _keepalive d;
     _default_keepalive := _default_keepalive d; _content_len := _content_len d |}.

(** ** Operations *)
Definition remove_header (key : string) (d : http_structured_data) : http_structured_data :=
  set_headers (erase key (_headers d)) d.

Definition insert_header (key value : string) (d : http_structured_data) : http_structured_data :=
  set_headers (insert key value (_headers d)) d.

(** [header(key, value)]. *)
Definition header (key value : string) (d : http_structured_data) : outcome http_structured_data :=
  let lowercase_key := lowercase key in
  if bool_decide (lowercase_key = hf_connection) || bool_decide (lowercase_key = hf_host)
     || bool_decide (lowercase_key = hf_via) || bool_decide (lowercase_key = hf_accept_encoding)
  then mret (insert_header lowercase_key value (remove_header lowercase_key d))
  else if bool_decide (lowercase_key = hf_content_len) then
    n ← of_option Terminated (stoull value);
    mret (insert_header lowercase_key value (remove_header lowercase_key (set_content_len n d)))
  else
    te ← (if bool_decide (lowercase_key = hf_transfer_encoding)
          then icompare value "chunked" else mret false);
    if (te : bool) then
      mret (insert_header lowercase_key value
              (remove_header hf_content_len
                 (remove_header hf_transfer_encoding (set_chunked true d))))
    else mret (insert_header lowercase_key value d).

(** [header(key)]. *)
Definition header_get (key : string) (d : http_structured_data) : string :=
  match find key (_headers d) with Some v => v | None => "" end.

(** [headers(key)] *)
Definition headers_of (key : string) (d : http_structured_data) : list string :=
  values key (_headers d).

(** [headers()]: every pair emplaced in a fresh multimap. *)
Definition headers (d : http_structured_data) : headers_map :=
  foldl (fun ret h => insert h.1 h.2 ret) [] (_headers d).

Definition headers_count (d : http_structured_data) : Z := Z.of_nat (length (_headers d)).

(** The four overloads of [has]. *)
Definition has (key : string) (d : http_structured_data) : bool :=
  negb (len (header_get key d) =? 0).

Definition has_such (key : string) (pred : string -> bool) (d : http_structured_data) : bool :=
  existsb pred (values key (_headers d)).

Definition has_value (key val : string) (d : http_structured_data) : bool :=
  has_such key (fun v => bool_decide (v = val)) d.

Definition has_header (predicate : header_t -> bool) (d : http_structured_data) : bool :=
  existsb predicate (_headers d).

(** [filter(predicate)] takes the pairs of the predicate out. *)
Fixpoint filter_loop (predicate : header_t -> bool) (m : headers_map) : headers_map :=
  match m with
  | [] => []
  | h :: m => if predicate h then filter_loop predicate m else h :: filter_loop predicate m
  end.

Definition filter_headers (predicate : header_t -> bool) (d : http_structured_data)
    : http_structured_data :=
  set_headers (filter_loop predicate (_headers d)) d.

(** [chunked(val)]. *)
Definition chunked (val : bool) (d : http_structured_data) : outcome http_structured_data :=
  if bool_decide (val <> _chunked d) then
    d ← (if val then header hf_transfer_encoding hv_chunked d
         else mret (remove_header hf_transfer_encoding d));
    mret (set_chunked val d)
  else mret d.

(** [keepalive(val)]. *)
Definition keepalive (val : bool) (d : http_structured_data) : outcome http_structured_data :=
  header hf_connection (if val then hv_keepalive else hv_connection_close)
    (set_keepalive val false d).

(** [content_len(val)]. *)
Definition content_len (val : Z) (d : http_structured_data) : outcome http_structured_data :=
  _ ← cassert (negb (_chunked d) || (val =? 0));
  header hf_content_len (to_string val) (remove_header hf_content_len (set_content_len val d)).

(** [protocol(val)]. *)
Definition protocol (val : proto_version) (d : http_structured_data)
    : outcome http_structured_data :=
  if bool_decide (_protocol d <> val) then
    let d := set_protocol val d in
    if _default_keepalive d then
      let d := remove_header hf_connection d in
      match val with
      | HTTP11 => mret (set_keepalive true (_default_keepalive d) d)
      | HTTP10 =>
          d ← header hf_connection hv_connection_close d;
          mret (set_keepalive false (_default_keepalive d) d)
      | _ => mret d
      end
    else mret d
  else mret d.

Definition hostname (val : string) (d : http_structured_data) : outcome http_structured_data :=
  header hf_host val d.

Definition date (val : string) (d : http_structured_data) : outcome http_structured_data :=
  header hf_date val (remove_header hf_date d).

(** The constructor: the default member initialisers, then the two headers. *)
Definition blank_data (type : type_index) : http_structured_data :=
  {| _type := type; _protocol := UNSET; _channel := UNSET; _headers := [];
     _chunked := false; _keepalive := false; _default_keepalive := true; _content_len := 0 |}.

Definition new_data (type : type_index) : outcome http_structured_data :=
  d ← header hf_content_len "0" (blank_data type);
  header hf_connection hv_connection_close d.

(** [has_same_headers] and [operator==]. *)
Definition has_same_headers (d other : http_structured_data) : outcome bool :=
  if headers_count d =? headers_count other then
    std_equal (fun a b => bool_decide (a = b)) (_headers other) (_headers d)
  else mret false.

Definition data_eqb (d other : http_structured_data) : outcome bool :=
  same ← has_same_headers d other;
  mret ((same : bool) && bool_decide (_protocol d = _protocol other)
    && bool_decide (_channel d = _channel other) && bool_decide (_chunked d = _chunked other)
    && bool_decide (_keepalive d = _keepalive other)
    && bool_decide (_content_len d = _content_len other)).

Definition proto_to_string (pv : proto_version) : string :=
  match pv with
  | HTTP10 => http10
  | HTTP11 => http11
  | HTTP20 => http20
  | UNSET => ""
  end.

Definition protocol_string (d : http_structured_data) : string := proto_to_string (_protocol d).

(** The loop of [serialize]: the message so far and the last key written. *)
Definition separator (key : string) : string :=
  if bool_decide (key = "cookie") then semicolon_space else comma_space.

Fixpoint serialize_loop (msg : string) (last_key : option string) (m : headers_map)
    : string * option string :=
  match m with
  | [] => (msg, last_key)
  | h :: m =>
      let '(msg, last_key) :=
        if bool_decide (last_key = Some h.1) then (msg +:+ separator h.1, last_key)
        else ((if bool_decide (is_Some last_key) then msg +:+ crlf else msg)
                +:+ h.1 +:+ colon_space, Some h.1) in
      let msg := if empty h.2 then msg else msg +:+ h.2 in
      serialize_loop msg last_key m
  end.

(** [serialize()], with its [assert(last_key)]. *)
Definition serialize (d : http_structured_data) : outcome string :=
  let '(msg, last_key) := serialize_loop "" None (_headers d) in
  _ ← cassert (bool_decide (is_Some last_key));
  let msg :=
    match last_key with
    | Some k => if empty k then msg else msg +:+ crlf
    | None => msg
    end in
  mret (msg +:+ crlf).

(** ** What [header(key, value)] does *)

(** The fields of which the last value set is the only one. *)
Definition singular (k : string) : bool :=
  bool_decide (k ∈ [hf_connection; hf_host; hf_via; hf_accept_encoding; hf_content_len]).

Definition sets_chunked (k v : string) : bool :=
  bool_decide (k = hf_transfer_encoding) && bool_decide (lowercase v = "chunked").

Definition values_after (k v : string) (m : headers_map) (k' : string) : list string :=
  if decide (k = k') then
    ((if singular k || sets_chunked k v then [] else values k' m) ++ [v])%list
  else if sets_chunked k v && bool_decide (k' = hf_content_len) then [] else values k' m.

Lemma values_insert_erase k v m k' :
  wf m -> values k' (insert k v (erase k m)) = if decide (k = k') then [v] else values k' m.
Proof.
  intros H. rewrite values_insert by by apply wf_erase. rewrite values_erase.
  by case_decide.
Qed.

(** The four branches of [header]. *)
Lemma header_cases key value d :
  let k := lowercase key in
  (singular k = true /\ k <> hf_content_len /\
    header key value d = Ok (insert_header k value (remove_header k d))) \/
  (k = hf_content_len /\ exists n, stoull value = Some n /\
    header key value d = Ok (insert_header k value (remove_header k (set_content_len n d)))) \/
  (k = hf_content_len /\ stoull value = None /\ header key value d = Crash Terminated) \/
  (singular k = false /\ sets_chunked k value = true /\
    header key value d = Ok (insert_header k value (remove_header hf_content_len
      (remove_header k (set_chunked true d))))) \/
  (singular k = false /\ sets_chunked k value = false /\
    header key value d = Ok (insert_header k value d)).
Proof.
  cbn zeta. unfold header. set (k := lowercase key).
  destruct (bool_decide (k = hf_connection) || bool_decide (k = hf_host)
     || bool_decide (k = hf_via) || bool_decide (k = hf_accept_encoding)) eqn:E.
  { left. rewrite !orb_true_iff, !bool_decide_eq_true in E. split_and!.
    - apply bool_decide_eq_true. rewrite !elem_of_cons. tauto.
    - intros Hk. rewrite Hk in E. clear -E. by destruct E as [[[E|E]|E]|E]; vm_compute in E.
    - done. }
  rewrite !orb_false_iff, !bool_decide_eq_false in E.
  case_bool_decide as Ecl.
  { destruct (stoull value) as [n|]; [right; left|right; right; left]; eauto 10. }
  right; right; right.
  assert (singular k = false) as Hs.
  { apply bool_decide_eq_false. rewrite !elem_of_cons, elem_of_nil. tauto. }
  unfold sets_chunked. case_bool_decide as Et.
  - rewrite icompare_spec. cbn [mbind outcome_bind]. change (lowercase "chunked") with "chunked".
    case_bool_decide; rewrite ?Et; [left|right]; rewrite <- ?Et; by split_and!.
  - right. by split_and!.
Qed.

Lemma values_after_key k v m : exists l, values_after k v m k = (l ++ [v])%list.
Proof. unfold values_after. rewrite decide_True by done. eauto. Qed.

Lemma header_values key value d d' k' :
  wf (_headers d) -> header key value d = Ok d' ->
  values k' (_headers d') = values_after (lowercase key) value (_headers d) k'.
Proof.
  intros Hwf E. unfold values_after.
  destruct (header_cases key value d) as
    [(Hs & _ & H)|[(Hk & n & _ & H)|[(_ & _ & H)|[(Hs & Hc & H)|(Hs & Hc & H)]]]];
    rewrite H in E; inv_outcome; subst d'; cbn [_headers set_headers insert_header remove_header
      set_content_len set_chunked].
  - rewrite values_insert_erase by done. rewrite Hs. cbn [orb app].
    case_decide; [done|]. unfold sets_chunked.
    assert (lowercase key <> hf_transfer_encoding) as Hne.
    { intros Hk. rewrite Hk in Hs. by vm_compute in Hs. }
    by rewrite bool_decide_eq_false_2.
  - rewrite Hk, values_insert_erase by done. done.
  - rewrite values_insert by by repeat apply wf_erase. rewrite Hc, Hs. cbn [orb andb app].
    assert (lowercase key = hf_transfer_encoding) as Hk.
    { unfold sets_chunked in Hc. apply andb_prop in Hc as [Hc _].
      by apply bool_decide_eq_true in Hc. }
    rewrite Hk, !values_erase. repeat case_decide; subst; try done.
    all: case_bool_decide; subst; done.
  - rewrite values_insert by done. rewrite Hc, Hs. cbn [orb andb]. done.
Qed.

Lemma header_wf key value d d' :
  wf (_headers d) -> header key value d = Ok d' -> wf (_headers d').
Proof.
  intros Hwf E.
  destruct (header_cases key value d) as
    [(_ & _ & H)|[(_ & n & _ & H)|[(_ & _ & H)|[(_ & _ & H)|(_ & _ & H)]]]];
    rewrite H in E; inv_outcome; subst d';
    repeat first [apply wf_insert | apply wf_erase]; done.
Qed.

Lemma header_content_len key value d d' :
  header key value d = Ok d' ->
  Some (_content_len d') =
    if bool_decide (lowercase key = hf_content_len) then stoull value else Some (_content_len d).
Proof.
  intros E.
  destruct (header_cases key value d) as
    [(_ & Hk & H)|[(Hk & n & Hn & H)|[(_ & _ & H)|[(Hs & _ & H)|(Hs & _ & H)]]]];
    rewrite H in E; inv_outcome; subst d'; cbn.
  - by rewrite bool_decide_eq_false_2.
  - by rewrite bool_decide_eq_true_2, Hn.
  - rewrite bool_decide_eq_false_2; [done|]. intros Hk. by rewrite Hk in Hs.
  - rewrite bool_decide_eq_false_2; [done|]. intros Hk. by rewrite Hk in Hs.
Qed.

Lemma header_is_ok key value d :
  is_ok (header key value d) =
    negb (bool_decide (lowercase key = hf_content_len) && bool_decide (stoull value = None)).
Proof.
  destruct (header_cases key value d) as
    [(_ & Hk & H)|[(Hk & n & Hn & H)|[(Hk & Hn & H)|[(Hs & _ & H)|(Hs & _ & H)]]]];
    rewrite H; cbn [is_ok].
  - by rewrite bool_decide_eq_false_2.
  - by rewrite Hn, andb_comm.
  - by rewrite Hn, Hk.
  - rewrite bool_decide_eq_false_2; [done|]. intros Hk. by rewrite Hk in Hs.
  - rewrite bool_decide_eq_false_2; [done|]. intros Hk. by rewrite Hk in Hs.
Qed.

(** ** The invariant *)

(** Keys in order and in lower case; at most one value for the singular
    fields; a [content-length] field that says what [_content_len] says. *)
Record valid (d : http_structured_data) : Prop := {
  valid_wf : wf (_headers d);
  valid_lower : Forall (fun h => lowercase h.1 = h.1) (_headers d);
  valid_singular : forall k, singular k = true -> (length (values k (_headers d)) <= 1)%nat;
  valid_content_len : forall v, v ∈ values hf_content_len (_headers d) ->
    stoull v = Some (_content_len d);
  valid_range : in_range 64 (_content_len d) }.

(** The operations of the class that change the state. *)
Inductive operation :=
| op_header (key value : string)
| op_remove_header (key : string)
| op_filter (predicate : header_t -> bool)
| op_chunked (val : bool)
| op_keepalive (val : bool)
| op_content_len (val : Z)
| op_protocol (val : proto_version)
| op_channel (val : proto_version)
| op_hostname (val : string)
| op_date (val : string).

Definition run (o : operation) (d : http_structured_data) : outcome http_structured_data :=
  match o with
  | op_header k v => header k v d
  | op_remove_header k => mret (remove_header k d)
  | op_filter p => mret (filter_headers p d)
  | op_chunked b => chunked b d
  | op_keepalive b => keepalive b d
  | op_content_len n => content_len n d
  | op_protocol p => protocol p d
  | op_channel p => mret (channel p d)
  | op_hostname v => hostname v d
  | op_date v => date v d
  end.

(** The argument of [content_len] is a [size_t]. *)
Definition operation_in_range (o : operation) : Prop :=
  match o with op_content_len n => in_range 64 n | _ => True end.

Fixpoint run_all (os : list operation) (d : http_structured_data) : outcome http_structured_data :=
  match os with
  | [] => mret d
  | o :: os => d ← run o d; run_all os d
  end.

Lemma filter_loop_filter p m : filter_loop p m = filter (fun h => p h = false) m.
Proof.
  induction m as [|h m IH]; [done|]. cbn [filter_loop]. rewrite filter_cons, IH.
  destruct (p h); by case_decide.
Qed.

(** [valid] depends on the headers and [_content_len] alone, and survives any
    narrowing of the headers. *)
Lemma valid_narrow d d' :
  valid d -> wf (_headers d') -> (forall h, h ∈ _headers d' -> h ∈ _headers d) ->
  (forall k, (length (values k (_headers d')) <= length (values k (_headers d)))%nat) ->
  _content_len d' = _content_len d -> valid d'.
Proof.
  intros [H1 H2 H3 H4 H5] Hwf Hin Hlen Hc. constructor; rewrite ?Hc; auto.
  - apply Forall_forall. intros h Hh. eapply Forall_forall in H2; [exact H2|by apply Hin].
  - intros k Hk. specialize (H3 k Hk). specialize (Hlen k). lia.
  - intros v Hv%values_elem. apply H4, values_elem. by apply Hin.
Qed.

Lemma length_values_filter (P : header_t -> Prop) `{!forall h, Decision (P h)} k m :
  (length (values k (filter P m)) <= length (values k m))%nat.
Proof.
  induction m as [|h m IH]; [done|]. rewrite filter_cons, values_cons.
  case_decide; rewrite ?values_cons; case_decide; cbn [length]; lia.
Qed.

Lemma valid_remove_header k d : valid d -> valid (remove_header k d).
Proof.
  intros H. eapply valid_narrow; eauto; cbn.
  - apply wf_erase, H.
  - intros h [_ Hh]%list_elem_of_filter. done.
  - intros k'. apply length_values_filter.
Qed.

Lemma valid_filter p d : valid d -> valid (filter_headers p d).
Proof.
  intros H. eapply valid_narrow; eauto; cbn; rewrite filter_loop_filter.
  - apply wf_filter, H.
  - intros h [_ Hh]%list_elem_of_filter. done.
  - intros k'. apply length_values_filter.
Qed.

Lemma valid_flags d d' :
  valid d -> _headers d' = _headers d -> _content_len d' = _content_len d -> valid d'.
Proof. intros H E1 E2. eapply valid_narrow; eauto; rewrite E1; auto. apply H. Qed.

Lemma values_after_length k v m k' :
  singular k' = true -> (length (values k' m) <= 1)%nat ->
  (length (values_after k v m k') <= 1)%nat.
Proof.
  intros Hs Hl. unfold values_after. case_decide; subst.
  - by rewrite Hs.
  - destruct (_ && _); cbn; lia.
Qed.

(** [header] keeps the invariant; for the [content-length] field it is enough
    that the rest of the data is valid. *)
Lemma valid_header_strong key value d d' :
  wf (_headers d) -> Forall (fun h => lowercase h.1 = h.1) (_headers d) ->
  (forall k, singular k = true -> (length (values k (_headers d)) <= 1)%nat) ->
  (lowercase key <> hf_content_len -> forall v, v ∈ values hf_content_len (_headers d) ->
    stoull v = Some (_content_len d)) ->
  in_range 64 (_content_len d) ->
  header key value d = Ok d' -> valid d'.
Proof.
  intros H1 H2 H3 H4 H5 E. pose proof (header_content_len _ _ _ _ E) as Hc. constructor.
  - by eapply header_wf.
  - assert (Hin : forall h, h ∈ _headers d' -> h.1 = lowercase key \/ h ∈ _headers d).
    { intros [k v] Hh. apply values_elem in Hh. rewrite (header_values _ _ _ _ _ H1 E) in Hh.
      unfold values_after in Hh. case_decide; [by left|right].
      destruct (_ && _); [by apply elem_of_nil in Hh|by apply values_elem]. }
    apply Forall_forall. intros h [->|Hh]%Hin; [apply lowercase_idem|].
    by eapply Forall_forall in H2.
  - intros k Hk. rewrite (header_values _ _ _ _ _ H1 E). apply values_after_length; auto.
  - intros v. rewrite (header_values _ _ _ _ _ H1 E), Hc. unfold values_after.
    case_decide as Ek; case_bool_decide as Eb; try congruence.
    + rewrite Ek. change (singular hf_content_len) with true. cbn [orb app].
      by intros ->%list_elem_of_singleton.
    + destruct (_ && _); [by intros ?%elem_of_nil|]. by apply H4.
  - case_bool_decide; [|by injection Hc as ->]. symmetry in Hc. by eapply stoull_range.
Qed.

Lemma valid_header key value d d' : valid d -> header key value d = Ok d' -> valid d'.
Proof. intros [H1 H2 H3 H4 H5]. apply valid_header_strong; auto. Qed.

#[export] Hint Resolve valid_remove_header valid_filter valid_header : doormat.

Lemma to_string_content_len n : in_range 64 n -> stoull (to_string n) = Some n.
Proof. apply stoull_to_string. Qed.

Lemma valid_chunked b d d' : valid d -> chunked b d = Ok d' -> valid d'.
Proof.
  unfold chunked. intros H E. case_bool_decide; inv_outcome; subst; [|done].
  assert (valid a) by (destruct b; inv_outcome; subst; eauto with doormat).
  by eapply valid_flags.
Qed.

Lemma valid_content_len_op n d d' :
  valid d -> in_range 64 n -> content_len n d = Ok d' -> valid d'.
Proof.
  unfold content_len. intros [H1 H2 H3 H4 H5] Hn E. inv_outcome.
  eapply valid_header_strong; [| | | | |exact E]; cbn.
  - by apply wf_erase.
  - apply Forall_forall. intros h [_ Hh]%list_elem_of_filter.
    by eapply Forall_forall in H2.
  - intros k Hk. eapply Nat.le_trans; [apply length_values_filter|auto].
  - intros Hne. by destruct Hne.
  - done.
Qed.

Lemma valid_protocol p d d' : valid d -> protocol p d = Ok d' -> valid d'.
Proof.
  unfold protocol. intros H E. case_bool_decide; [|inv_outcome; by subst].
  set (d1 := set_protocol p d) in *. assert (valid d1) by by eapply valid_flags.
  clearbody d1. destruct (_default_keepalive d1); [|inv_outcome; by subst].
  assert (valid (remove_header hf_connection d1)) by auto with doormat.
  destruct p; inv_outcome; subst; try assumption.
  - by apply (valid_flags _ _ H2).
  - apply (valid_flags a); [|reflexivity|reflexivity]. by eapply valid_header.
Qed.

Lemma valid_run o d d' : valid d -> operation_in_range o -> run o d = Ok d' -> valid d'.
Proof.
  intros H Ho E. destruct o as [k v|k|p|b|b|n|p|p|v|v]; cbn [run] in E.
  - by apply (valid_header _ _ _ _ H E).
  - injection E as <-. by apply valid_remove_header.
  - injection E as <-. by apply valid_filter.
  - by apply (valid_chunked _ _ _ H E).
  - refine (valid_header _ _ _ _ _ E). by apply (valid_flags d).
  - by apply (valid_content_len_op _ _ _ H Ho E).
  - by apply (valid_protocol _ _ _ H E).
  - injection E as <-. by apply (valid_flags d).
  - by apply (valid_header _ _ _ _ H E).
  - refine (valid_header _ _ _ _ _ E). by apply valid_remove_header.
Qed.

Lemma valid_run_all os d d' :
  valid d -> Forall operation_in_range os -> run_all os d = Ok d' -> valid d'.
Proof.
  intros H HF. revert d H. induction HF as [|o os Ho HF IH]; cbn [run_all]; intros d H E.
  - by inv_outcome; subst.
  - inv_outcome. eauto using valid_run.
Qed.

Lemma valid_blank t : valid (blank_data t).
Proof.
  constructor; cbn; try done; [apply wf_nil| |by intros v ?%elem_of_nil].
  intros k _. cbn. lia.
Qed.

Lemma new_data_ok t : exists d, new_data t = Ok d.
Proof. destruct t; vm_compute; eauto. Qed.

Lemma valid_new t d : new_data t = Ok d -> valid d.
Proof. unfold new_data. intros E. inv_outcome.
  eapply valid_header; [|exact E]. eapply valid_header; [|exact E0]. apply valid_blank.
Qed.

(** When an operation goes down: a [content-length] that [std::stoull] rejects,
    or a length set on chunked data. *)
Definition goes_down (o : operation) (d : http_structured_data) : bool :=
  match o with
  | op_header k v => bool_decide (lowercase k = hf_content_len) && bool_decide (stoull v = None)
  | op_content_len n => _chunked d && negb (n =? 0)
  | _ => false
  end.

Lemma header_other_ok key value d :
  lowercase key <> hf_content_len -> is_ok (header key value d) = true.
Proof. intros H. rewrite header_is_ok. by rewrite bool_decide_eq_false_2. Qed.

Lemma is_ok_bind {A B} (m : outcome A) (f : A -> outcome B) :
  is_ok m = true -> (forall a, is_ok (f a) = true) -> is_ok (m ≫= f) = true.
Proof. by destruct m; cbn. Qed.

Lemma run_is_ok o d : operation_in_range o -> is_ok (run o d) = negb (goes_down o d).
Proof.
  intros Ho. destruct o as [k v|k|p|b|b|n|p|p|v|v]; cbn [run goes_down negb].
  - apply header_is_ok.
  - reflexivity.
  - reflexivity.
  - unfold chunked. case_bool_decide; [|reflexivity]. apply is_ok_bind; [|reflexivity].
    destruct b; [|reflexivity]. by apply header_other_ok.
  - by apply header_other_ok.
  - unfold content_len. cbn in Ho.
    destruct (_chunked d), (Z.eqb_spec n 0); cbn [negb orb andb cassert mbind outcome_bind];
      try reflexivity; rewrite header_is_ok, stoull_to_string by done; by rewrite andb_comm.
  - unfold protocol. case_bool_decide; [|reflexivity]. destruct (_default_keepalive _); [|reflexivity].
    destruct p; reflexivity.
  - reflexivity.
  - by apply header_other_ok.
  - by apply header_other_ok.
Qed.

(** ** Serialization against a specification *)

(** One line per key, the values of the key joined. *)
Fixpoint join (sep : string) (vs : list string) : string :=
  match vs with
  | [] => ""
  | [v] => v
  | v :: vs => v +:+ sep +:+ join sep vs
  end.

Definition line (k : string) (m : headers_map) : string :=
  k +:+ colon_space +:+ join (separator k) (values k m) +:+ crlf.

(** The keys of an ordered map, each once. *)
Fixpoint keys_after (last : option string) (m : headers_map) : list string :=
  match m with
  | [] => []
  | h :: m => if bool_decide (last = Some h.1) then keys_after last m
              else h.1 :: keys_after (Some h.1) m
  end.
Definition keys (m : headers_map) : list string := keys_after None m.

Definition header_block (m : headers_map) : string :=
  concat_str ((fun k => line k m) <$> keys m) +:+ crlf.

Lemma empty_app (msg v : string) : (if empty v then msg else msg +:+ v) = msg +:+ v.
Proof.
  unfold empty. case_bool_decide; subst; [|done]. by rewrite string_app_nil_r.
Qed.

Lemma serialize_loop_cons msg last h m :
  serialize_loop msg last (h :: m) =
    serialize_loop
      ((if bool_decide (last = Some h.1) then msg +:+ separator h.1
        else (if bool_decide (is_Some last) then msg +:+ crlf else msg) +:+ h.1 +:+ colon_space)
       +:+ h.2) (Some h.1) m.
Proof.
  cbn [serialize_loop]. case_bool_decide as E; rewrite empty_app; [|done]. by rewrite E.
Qed.

(** The values of the key under way, then the lines of the other keys. *)
Definition pending (k : string) (m : headers_map) : string :=
  concat_str ((fun v => separator k +:+ v) <$> values k m).

Lemma join_cons sep v vs : join sep (v :: vs) = v +:+ concat_str ((fun v => sep +:+ v) <$> vs).
Proof.
  revert v. induction vs as [|w vs IH]; intros v.
  - cbn. by rewrite string_app_nil_r.
  - change (join sep (v :: w :: vs)) with (v +:+ sep +:+ join sep (w :: vs)).
    rewrite IH. cbn [fmap list_fmap concat_str]. by rewrite string_app_assoc.
Qed.

Lemma keys_after_elem o m k : k ∈ keys_after o m -> exists h, h ∈ m /\ h.1 = k.
Proof.
  revert o. induction m as [|h m IH]; intros o Hk; [by apply elem_of_nil in Hk|].
  cbn [keys_after] in Hk. case_bool_decide.
  - destruct (IH o Hk) as (x & ? & ?). exists x. split; [by right|done].
  - apply elem_of_cons in Hk as [->|Hk]; [exists h; split; [by left|done]|].
    destruct (IH _ Hk) as (x & ? & ?). exists x. split; [by right|done].
Qed.

(** No key of an ordered map comes back once a greater key was seen. *)
Lemma keys_after_ne m k :
  wf m -> (forall h, h ∈ m -> String.le k h.1) -> k ∉ keys_after (Some k) m.
Proof.
  revert k. induction m as [|h m IH]; intros k Hwf Hge; [apply not_elem_of_nil|].
  apply wf_cons in Hwf as [Hwf Hh]. cbn [keys_after]. case_bool_decide as E.
  - apply (IH k Hwf). intros x Hx. apply Hge. by right.
  - apply not_elem_of_cons. split; [congruence|].
    intros (x & Hx & Exk)%keys_after_elem. apply E. f_equal. apply (anti_symm String.le).
    + apply Hge. by left.
    + rewrite <- Exk. by apply Hh.
Qed.

Lemma lines_cons h m (ks : list string) :
  h.1 ∉ ks -> (fun k => line k (h :: m)) <$> ks = (fun k => line k m) <$> ks.
Proof.
  intros Hn. apply list_fmap_ext. intros i k Hk. unfold line. rewrite values_cons.
  rewrite decide_False; [done|]. intros E. apply Hn. rewrite E.
  by eapply list_elem_of_lookup_2.
Qed.

Lemma pending_cons k h m :
  pending k (h :: m) =
    if decide (h.1 = k) then separator k +:+ h.2 +:+ pending k m else pending k m.
Proof.
  unfold pending. rewrite values_cons. case_decide; [|done].
  cbn [fmap list_fmap concat_str]. by rewrite string_app_assoc.
Qed.

Lemma line_cons h m : line h.1 (h :: m) = h.1 +:+ colon_space +:+ h.2 +:+ pending h.1 m +:+ crlf.
Proof.
  unfold line. rewrite values_cons, decide_True by done. rewrite join_cons.
  by rewrite !string_app_assoc.
Qed.

Lemma pending_greater k h m :
  (forall x, x ∈ h :: m -> String.le k x.1) -> wf (h :: m) -> h.1 <> k -> pending k (h :: m) = "".
Proof.
  intros Hge Hwf Hne. unfold pending. rewrite values_gt; [done|].
  apply Forall_forall. intros x Hx Hle. apply Hne. apply (anti_symm String.le).
  - apply wf_cons in Hwf as [_ Hh]. transitivity x.1; [|done].
    apply elem_of_cons in Hx as [->|Hx]; [reflexivity|by apply Hh].
  - apply Hge. by left.
Qed.

(** The loop of [serialize] with a key under way. *)
Lemma serialize_loop_spec m msg k :
  wf m -> (forall h, h ∈ m -> String.le k h.1) ->
  exists msg' k', serialize_loop msg (Some k) m = (msg', Some k') /\ String.le k k' /\
    msg' +:+ crlf = msg +:+ pending k m +:+ crlf
      +:+ concat_str ((fun k => line k m) <$> keys_after (Some k) m).
Proof.
  revert msg k. induction m as [|h m IH]; intros msg k Hwf Hge.
  { exists msg, k. split_and!; [done|reflexivity|]. cbn. by rewrite !string_app_nil_r. }
  pose proof Hwf as [Hwf' Hh]%wf_cons. pose proof (keys_after_ne _ _ Hwf' Hh) as Hn.
  rewrite serialize_loop_cons. cbn [keys_after].
  match goal with |- context [serialize_loop ?x _ m] => destruct (IH x h.1 Hwf' Hh)
    as (msg' & k' & E & Hk & Em) end.
  exists msg', k'. rewrite E. split_and!; [done|by transitivity h.1; [apply Hge; left|]|].
  rewrite Em. clear E Em. destruct (decide (h.1 = k)) as [<-|Hne].
  - rewrite !bool_decide_eq_true_2 by done. rewrite pending_cons, decide_True by done.
    rewrite lines_cons by done. by rewrite !string_app_assoc.
  - rewrite bool_decide_eq_false_2 by congruence. rewrite bool_decide_eq_true_2 by eauto.
    rewrite pending_greater by done. cbn [fmap list_fmap concat_str].
    rewrite line_cons, lines_cons by done. by rewrite !string_app_assoc.
Qed.

Lemma serialize_spec d :
  wf (_headers d) -> Forall (fun h => h.1 <> "") (_headers d) -> _headers d <> [] ->
  serialize d = Ok (header_block (_headers d)).
Proof.
  intros Hwf Hne Hnil. unfold serialize, header_block, keys.
  destruct (_headers d) as [|h m]; [done|]. clear Hnil.
  apply Forall_cons in Hne as [Hne _]. pose proof Hwf as [Hwf' Hh]%wf_cons.
  rewrite serialize_loop_cons.
  match goal with |- context [serialize_loop ?x _ m] =>
    destruct (serialize_loop_spec m x h.1 Hwf' Hh) as (msg' & k' & E & Hk & Em) end.
  rewrite E, bool_decide_eq_true_2 by eauto. cbn [cassert mbind outcome_bind].
  assert (k' <> "") as Hk'.
  { intros ->. apply Hne. apply (anti_symm String.le); [done|]. by destruct h.1. }
  unfold empty. rewrite bool_decide_eq_false_2 by done. cbn [mret outcome_ret].
  rewrite Em. cbn [keys_after]. rewrite bool_decide_eq_false_2 by done.
  cbn [fmap list_fmap concat_str]. rewrite line_cons, lines_cons by by apply keys_after_ne.
  rewrite bool_decide_eq_false_2 by done.
  by rewrite !string_app_assoc.
Qed.

Lemma headers_copy_loop m acc :
  wf acc -> wf (foldl (fun ret h => insert h.1 h.2 ret) acc m) /\
  forall k, values k (foldl (fun ret h => insert h.1 h.2 ret) acc m) = (values k acc ++ values k m)%list.
Proof.
  revert acc. induction m as [|h m IH]; intros acc H; cbn [foldl].
  - split; [done|]. intros k. by rewrite app_nil_r.
  - destruct (IH (insert h.1 h.2 acc)) as [Hw Hv]; [by apply wf_insert|].
    split; [done|]. intros k. rewrite Hv, values_insert, values_cons by done.
    case_decide; [by rewrite <- app_assoc|done].
Qed.

(** [headers()] is a faithful copy. *)
Lemma headers_copy d : wf (_headers d) -> headers d = _headers d.
Proof.
  intros H. destruct (headers_copy_loop (_headers d) []) as [Hw Hv]; [apply wf_nil|].
  apply multimap_ext; [done|done|exact Hv].
Qed.

Lemma std_equal_eq (m1 m2 : headers_map) :
  length m1 = length m2 ->
  std_equal (fun a b => bool_decide (a = b)) m1 m2 = Ok (bool_decide (m1 = m2)).
Proof.
  intros L. rewrite std_equal_in_bounds by lia. f_equal. revert m2 L.
  induction m1 as [|a m1 IH]; intros [|b m2] L; cbn [length prefix_by] in *; try (done || lia).
  rewrite IH by lia. repeat case_bool_decide; naive_solver congruence.
Qed.

Lemma data_eqb_spec d other :
  data_eqb d other = Ok (bool_decide (_headers d = _headers other)
    && bool_decide (_protocol d = _protocol other)
    && bool_decide (_channel d = _channel other) && bool_decide (_chunked d = _chunked other)
    && bool_decide (_keepalive d = _keepalive other)
    && bool_decide (_content_len d = _content_len other)).
Proof.
  unfold data_eqb, has_same_headers, headers_count.
  destruct (Z.eqb_spec (Z.of_nat (length (_headers d))) (Z.of_nat (length (_headers other)))) as [E|E].
  - rewrite std_equal_eq by lia. cbn [mbind outcome_bind mret outcome_ret].
    assert (bool_decide (_headers other = _headers d) = bool_decide (_headers d = _headers other)) as ->
      by by apply bool_decide_ext. done.
  - rewrite (bool_decide_eq_false_2 (_headers d = _headers other)); [done|congruence].
Qed.

(** ** Theorems *)

(** C20: whatever is done to a fresh message, the keys stay ordered and in lower
    case, the singular fields have at most one value, and a [content-length]
    field says what [_content_len] says. *)
Theorem data_invariant (t : type_index) (os : list operation) (d0 d : http_structured_data) :
  Forall operation_in_range os -> new_data t = Ok d0 -> run_all os d0 = Ok d -> valid d.
Proof. eauto using valid_run_all, valid_new. Qed.

Lemma data_invariant_witness :
  exists d0 d, Forall operation_in_range [op_header "Host" "a"; op_chunked true] /\
    new_data http_request_type = Ok d0 /\
    run_all [op_header "Host" "a"; op_chunked true] d0 = Ok d /\ valid d.
Proof.
  destruct (new_data_ok http_request_type) as [d0 E0].
  assert (exists d, run_all [op_header "Host" "a"; op_chunked true] d0 = Ok d) as [d E].
  { revert E0. vm_compute. intros [= <-]. eauto. }
  assert (HF : Forall operation_in_range [op_header "Host" "a"; op_chunked true])
    by (repeat constructor).
  exists d0, d. split_and!; [exact HF|exact E0|exact E|exact (data_invariant _ _ _ _ HF E0 E)].
Defined.

(** An operation ends the process exactly when a [content-length] that is
    no number is set (the exception of [std::stoull] leaves a [noexcept]
    member) or a length other than 0 is set on chunked data (the assertion). *)
Theorem operations_fail_exactly (o : operation) (d : http_structured_data) :
  operation_in_range o -> is_ok (run o d) = negb (goes_down o d).
Proof. apply run_is_ok. Qed.

Lemma operations_fail_exactly_witness :
  operation_in_range (op_header "Content-Length" "nope") /\
  is_ok (run (op_header "Content-Length" "nope") (blank_data http_request_type)) = false.
Proof.
  split; [exact I|]. rewrite (operations_fail_exactly (op_header "Content-Length" "nope") _ I).
  vm_compute. reflexivity.
Defined.

(** After [header(key, value)] the list of values of the lowered key ends
    with [value]; the fields [connection], [host], [via], [accept-encoding] and
    [content-length], and [transfer-encoding: chunked], hold nothing else; a
    chunked coding drops [content-length]; every other field is as it was, and
    the const [header(key)] reads the first value of a field. *)
Theorem header_set_get (key value : string) (d d' : http_structured_data) (k' : string) :
  wf (_headers d) -> header key value d = Ok d' ->
  headers_of k' d' = values_after (lowercase key) value (_headers d) k' /\
  header_get k' d' = default "" (head (headers_of k' d')) /\
  (singular (lowercase key) = true -> header_get (lowercase key) d' = value).
Proof.
  intros Hwf E. unfold header_get, headers_of.
  rewrite !find_values, !(header_values _ _ _ _ _ Hwf E). split_and!; [done| |].
  - by destruct (values_after _ _ _ _).
  - intros Hs. unfold values_after. rewrite decide_True by done. by rewrite Hs.
Qed.

Lemma header_set_get_witness :
  exists d', header "Host" "b" (blank_data http_request_type) = Ok d' /\
    header_get "host" d' = "b".
Proof.
  eexists. split; [reflexivity|].
  apply (header_set_get "Host" "b" (blank_data http_request_type) _ "host" wf_nil eq_refl).
  reflexivity.
Defined.

(** [serialize] writes one line per field in the order of the keys, the
    values of a field joined by ["; "] for [cookie] and by [", "] otherwise,
    then an empty line; on a message without any field it fails its
    assertion. *)
Theorem serialize_header_block (d : http_structured_data) :
  wf (_headers d) -> Forall (fun h => h.1 <> "") (_headers d) ->
  serialize d = if decide (_headers d = []) then Crash AssertFailed
                else Ok (header_block (_headers d)).
Proof.
  intros Hwf Hne. case_decide as Hn; [|by apply serialize_spec].
  unfold serialize. by rewrite Hn.
Qed.

Lemma serialize_header_block_witness :
  exists d, new_data http_request_type = Ok d /\ serialize d = Ok (header_block (_headers d)).
Proof.
  destruct (new_data_ok http_request_type) as [d E]. exists d. split; [exact E|].
  revert E. vm_compute (new_data _). intros [= <-].
  rewrite serialize_header_block; [reflexivity| |].
  - repeat constructor; by vm_compute.
  - repeat constructor; done.
Defined.

(** [operator==] compares protocol, channel, chunked and keep-alive flags,
    content length and all headers, and never reads out of bounds; [headers()]
    copies the headers. *)
Theorem data_equality (d other : http_structured_data) :
  wf (_headers d) ->
  headers d = _headers d /\
  exists b, data_eqb d other = Ok b /\
    (b = true <-> _headers d = _headers other /\ _protocol d = _protocol other /\
      _channel d = _channel other /\ _chunked d = _chunked other /\
      _keepalive d = _keepalive other /\ _content_len d = _content_len other).
Proof.
  intros H. split; [by apply headers_copy|]. eexists. split; [apply data_eqb_spec|].
  rewrite !andb_true_iff, !bool_decide_eq_true. tauto.
Qed.

Lemma data_equality_witness :
  wf (_headers (blank_data http_request_type)) /\
  data_eqb (blank_data http_request_type) (blank_data http_response_type) = Ok true.
Proof.
  split; [exact wf_nil|].
  destruct (data_equality (blank_data http_request_type) (blank_data http_response_type) wf_nil)
    as (_ & b & E & Hb).
  rewrite E. f_equal. apply Hb. by split_and!.
Defined.

(** A message can be chunked and have a length: [header] does not make the test
    that [content_len] asserts. *)
Example chunked_with_length :
  exists d, run_all [op_header "transfer-encoding" "chunked"; op_header "content-length" "5"]
      (blank_data http_request_type) = Ok d /\
    _chunked d = true /\ _content_len d = 5 /\ headers_of hf_content_len d = ["5"] /\
    headers_of hf_transfer_encoding d = ["chunked"].
Proof. vm_compute. eauto 10. Qed.
