(* ===== verification/HttpMessages.v ===== *)
(** * Requests and responses (http_request.{h,cpp}, http_response.{h,cpp} of src/src/http)

    The two classes derived from [http_structured_data], the method table of
    the parser's header, and the default reason phrases.  A class is a record
    whose [base] is the data it inherits. *)

From S2P Require Import Prelude CppStd MultiMap Utils HttpCommons StructuredData.

(** ** Methods ([enum http_method] and [method_mapper]) *)
Definition HTTP_DELETE : Z := 0.
Definition HTTP_GET : Z := 1.
Definition HTTP_HEAD : Z := 2.
Definition HTTP_POST : Z := 3.
Definition HTTP_PUT : Z := 4.
Definition HTTP_CONNECT : Z := 5.
Definition HTTP_OPTIONS : Z := 6.
Definition HTTP_TRACE : Z := 7.
Definition HTTP_COPY : Z := 8.
Definition HTTP_LOCK : Z := 9.
Definition HTTP_MKCOL : Z := 10.
Definition HTTP_MOVE : Z := 11.
Definition HTTP_PROPFIND : Z := 12.
Definition HTTP_PROPPATCH : Z := 13.
Definition HTTP_SEARCH : Z := 14.
Definition HTTP_UNLOCK : Z := 15.
Definition HTTP_BIND : Z := 16.
Definition HTTP_REBIND : Z := 17.
Definition HTTP_UNBIND : Z := 18.
Definition HTTP_ACL : Z := 19.
Definition HTTP_REPORT : Z := 20.
Definition HTTP_MKACTIVITY : Z := 21.
Definition HTTP_CHECKOUT : Z := 22.
Definition HTTP_MERGE : Z := 23.
Definition HTTP_MSEARCH : Z := 24.
Definition HTTP_NOTIFY : Z := 25.
Definition HTTP_SUBSCRIBE : Z := 26.
Definition HTTP_UNSUBSCRIBE : Z := 27.
Definition HTTP_PATCH : Z := 28.
Definition HTTP_PURGE : Z := 29.
Definition HTTP_MKCALENDAR : Z := 30.
Definition HTTP_LINK : Z := 31.
Definition HTTP_UNLINK : Z := 32.
Definition HTTP_END : Z := 33.

Definition method_mapper : list string :=
  ["DELETE"; "GET"; "HEAD"; "POST"; "PUT"; "CONNECT"; "OPTIONS"; "TRACE";
   "COPY"; "LOCK"; "MKCOL"; "MOVE"; "PROPFIND"; "PROPPATCH"; "SEARCH"; "UNLOCK";
   "BIND"; "REBIND"; "UNBIND"; "ACL"; "REPORT"; "MKACTIVITY"; "CHECKOUT"; "MERGE";
   "M-SEARCH"; "NOTIFY"; "SUBSCRIBE"; "UNSUBSCRIBE"; "PATCH"; "PURGE"; "MKCALENDAR"; "LINK";
   "UNLINK"; "NONE"].

(** ** [http_request] *)
Record http_request := {
  base : http_structured_data;
  _ssl : bool;
  _method : Z;
  _schema : string;
  _urihost : string;
  _port : string;
  _path : string;
  _query : string;
  _fragment : string;
  _userinfo : string;
  _params : gmap string string }.

Definition new_request (ssl_ : bool) (method : Z) : outcome http_request :=
  d ← new_data http_request_type;
  mret {| base := d; _ssl := ssl_; _method := method; _schema := ""; _urihost := "";
          _port := ""; _path := ""; _query := ""; _fragment := ""; _userinfo := "";
          _params := ∅ |}.

Definition set_base (val : http_structured_data) (r : http_request) : http_request :=
  {|
    base := val; _ssl := _ssl r; _method := _method r; _schema := _schema r;
    _urihost := _urihost r; _port := _port r; _path := _path r; _query := _query r;
    _fragment := _fragment r; _userinfo := _userinfo r; _params := _params r |}.

Definition ssl (val : bool) (r : http_request) : http_request :=
  {|
    base := base r; _ssl := val; _method := _method r; _schema := _schema r;
    _urihost := _urihost r; _port := _port r; _path := _path r; _query := _query r;
    _fragment := _fragment r; _userinfo := _userinfo r; _params := _params r |}.

Definition method (val : Z) (r : http_request) : http_request :=
  {|
    base := base r; _ssl := _ssl r; _method := val; _schema := _schema r;
    _urihost := _urihost r; _port := _port r; _path := _path r; _query := _query r;
    _fragment := _fragment r; _userinfo := _userinfo r; _params := _params r |}.

Definition schema (val : string) (r : http_request) : http_request :=
  {|
    base := base r; _ssl := _ssl r; _method := _method r; _schema := val;
    _urihost := _urihost r; _port := _port r; _path := _path r; _query := _query r;
    _fragment := _fragment r; _userinfo := _userinfo r; _params := _params r |}.

Definition urihost (val : string) (r : http_request) : http_request :=
  {|
    base := base r; _ssl := _ssl r; _method := _method r; _schema := _schema r;
    _urihost := val; _port := _port r; _path := _path r; _query := _query r;
    _fragment := _fragment r; _userinfo := _userinfo r; _params := _params r |}.

Definition port (val : string) (r : http_request) : http_request :=
  {|
    base := base r; _ssl := _ssl r; _method := _method r; _schema := _schema r;
    _urihost := _urihost r; _port := val; _path := _path r; _query := _query r;
    _fragment := _fragment r; _userinfo := _userinfo r; _params := _params r |}.

Definition path (val : string) (r : http_request) : http_request :=
  {|
    base := base r; _ssl := _ssl r; _method := _method r; _schema := _schema r;
    _urihost := _urihost r; _port := _port r; _path := val; _query := _query r;
    _fragment := _fragment r; _userinfo := _userinfo r; _params := _params r |}.

Definition query (val : string) (r : http_request) : http_request :=
  {|
    base := base r; _ssl := _ssl r; _method := _method r; _schema := _schema r;
    _urihost := _urihost r; _port := _port r; _path := _path r; _query := val;
    _fragment := _fragment r; _userinfo := _userinfo r; _params := _params r |}.

Definition fragment (val : string) (r : http_request) : http_request :=
  {|
    base := base r; _ssl := _ssl r; _method := _method r; _schema := _schema r;
    _urihost := _urihost r; _port := _port r; _path := _path r; _query := _query r;
    _fragment := val; _userinfo := _userinfo r; _params := _params r |}.

Definition userinfo (val : string) (r : http_request) : http_request :=
  {|
    base := base r; _ssl := _ssl r; _method := _method r; _schema := _schema r;
    _urihost := _urihost r; _port := _port r; _path := _path r; _query := _query r;
    _fragment := _fragment r; _userinfo := val; _params := _params r |}.

Definition set_params (val : gmap string string) (r : http_request) : http_request :=
  {|
    base := base r; _ssl := _ssl r; _method := _method r; _schema := _schema r;
    _urihost := _urihost r; _port := _port r; _path := _path r; _query := _query r;
    _fragment := _fragment r; _userinfo := _userinfo r; _params := val |}.

(** [method(const std::string&)]: the loop over the table; the member is [END]
    until a name matches. *)
Fixpoint find_method (first : Z) (table : list string) (val : string) : Z :=
  match table with
  | [] => HTTP_END
  | name :: table => if bool_decide (name = val) then first else find_method (first + 1) table val
  end.

Definition method_of_string (val : string) (r : http_request) : http_request :=
  method (find_method HTTP_DELETE (take (Z.to_nat HTTP_END) method_mapper) val) r.

(** [method()]: an index out of the table is out of bounds. *)
Definition method_name (m : Z) : outcome string :=
  if m <? 0 then Crash Undefined else of_option Undefined (method_mapper !! Z.to_nat m).

Definition method_string (r : http_request) : outcome string := method_name (_method r).

Definition start_line (name : string) (r : http_request) : string :=
  let msg := name +:+ space in
  let msg := msg +:+ (if empty (_path r) then slash else _path r) in
  let msg := if empty (_query r) then msg else msg +:+ questionmark +:+ _query r in
  let msg := if empty (_fragment r) then msg else msg +:+ hash +:+ _fragment r in
  msg +:+ space +:+ protocol_string (base r) +:+ crlf.

Definition serialize_request (r : http_request) : outcome string :=
  name ← method_string r;
  data ← serialize (base r);
  mret (start_line name r +:+ data).

Definition request_eqb (r req : http_request) : outcome bool :=
  same ← data_eqb (base r) (base req);
  mret ((same : bool) && (_method r =? _method req) && bool_decide (_urihost r = _urihost req)
    && bool_decide (_port r = _port req) && bool_decide (_path r = _path req)
    && bool_decide (_query r = _query req) && bool_decide (_fragment r = _fragment req)
    && bool_decide (_userinfo r = _userinfo req)).

Definition request_neqb (r req : http_request) : outcome bool := negb <$> request_eqb r req.

Definition setParameter (param_name param_value : string) (r : http_request) : http_request :=
  set_params (<[param_name := param_value]> (_params r)) r.

Definition removeParameter (name : string) (r : http_request) : http_request :=
  set_params (delete name (_params r)) r.

Definition hasParameter (param_name : string) (r : http_request) : bool :=
  bool_decide (is_Some (_params r !! param_name)).

Definition getParameter (param_name : string) (r : http_request) : outcome string :=
  of_option AssertFailed (_params r !! param_name).

(** ** [http_response] *)
Record http_response := {
  response_base : http_structured_data;
  _status_code : Z;
  _status_message : string }.

(** The constructor leaves [_status_code] indeterminate: [garbage]. *)
Definition new_response (garbage : Z) : outcome http_response :=
  d ← new_data http_response_type;
  mret {| response_base := d; _status_code := garbage; _status_message := "" |}.

Definition get_default_message (status : Z) : string :=
  match status with
  | 100 => "Continue"
  | 101 => "Switching Protocols"
  | 200 => "OK"
  | 201 => "Created"
  | 202 => "Accepted"
  | 203 => "Non-Authoritative Information"
  | 204 => "No Content"
  | 205 => "Reset Content"
  | 206 => "Partial Content"
  | 300 => "Multiple Choices"
  | 301 => "Moved Permanently"
  | 302 => "Found"
  | 303 => "See Other"
  | 304 => "Not Modified"
  | 305 => "Use Proxy"
  | 307 => "Temporary Redirect"
  | 400 => "Bad Request"
  | 401 => "Unauthorized"
  | 402 => "Payment Required"
  | 403 => "Forbidden"
  | 404 => "Not Found"
  | 405 => "Method Not Allowed"
  | 406 => "Not Acceptable"
  | 407 => "Proxy Authentication Required"
  | 408 => "Request Timeout"
  | 409 => "Conflict"
  | 410 => "Gone"
  | 411 => "Length Required"
  | 412 => "Precondition Failed"
  | 413 => "Request Entity Too Large"
  | 414 => "Request-URI Too Long"
  | 415 => "Unsupported Media Type"
  | 416 => "Requested Range Not Satisfiable"
  | 417 => "Expectation Failed"
  | 418 => "I'm a teapot"
  | 500 => "Internal Server Error"
  | 501 => "Not Implemented"
  | 502 => "Bad Gateway"
  | 503 => "Service Unavailable"
  | 504 => "Gateway Timeout"
  | 505 => "HTTP Version Not Supported"
  | _ => "Damn!"
  end.

Definition status_with (code : Z) (msg : string) (r : http_response) : http_response :=
  {| response_base := response_base r; _status_code := code; _status_message := msg |}.

Definition status (code : Z) (r : http_response) : http_response :=
  status_with code (get_default_message code) r.

Definition status_line (r : http_response) : string :=
  protocol_string (response_base r) +:+ space +:+ to_string (_status_code r) +:+ space
    +:+ _status_message r +:+ crlf.

Definition serialize_response (r : http_response) : outcome string :=
  data ← serialize (response_base r);
  mret (status_line r +:+ data).

Definition response_eqb (r res : http_response) : outcome bool :=
  same ← data_eqb (response_base r) (response_base res);
  mret ((same : bool) && (_status_code r =? _status_code res)
    && bool_decide (_status_message r = _status_message res)).

(** [operator!=], with the [==] of its second operand. *)
Definition response_neqb (r res : http_response) : outcome bool :=
  if negb (_status_code res =? _status_code r) then mret true
  else if bool_decide (_status_message r = _status_message res) then mret true
  else negb <$> data_eqb (response_base r) (response_base res).

(** ** Methods *)
Lemma find_method_lookup table first val i :
  table !! i = Some val -> (forall j, (j < i)%nat -> table !! j <> Some val) ->
  find_method first table val = first + Z.of_nat i.
Proof.
  revert first i. induction table as [|name table IH]; intros first [|i] Hi Hj; try done.
  - injection Hi as ->. cbn [find_method]. rewrite bool_decide_eq_true_2 by done. lia.
  - cbn [find_method]. rewrite bool_decide_eq_false_2.
    + rewrite (IH (first + 1) i); [lia|done|]. intros j Hj'. apply (Hj (S j)). lia.
    + intros ->. apply (Hj 0%nat); [lia|done].
Qed.

Lemma find_method_absent table first val : val ∉ table -> find_method first table val = HTTP_END.
Proof.
  revert first. induction table as [|name table IH]; intros first; [done|].
  intros [Hn Ht]%not_elem_of_cons. cbn [find_method].
  rewrite bool_decide_eq_false_2 by congruence. by apply IH.
Qed.

(** ** Reading a serialized message back *)

Definition read_line (l : list ascii) : option (list ascii * list ascii) :=
  match break_at "013"%char l with
  | (line, Some (c :: rest)) => if Ascii.eqb c "010"%char then Some (line, rest) else None
  | _ => None
  end.

Definition read_token (l : list ascii) : option (list ascii * list ascii) :=
  match break_at " "%char l with (t, Some rest) => Some (t, rest) | _ => None end.

(** The parts of a target: path, query, fragment. *)
Definition read_target (l : list ascii) : string * string * string :=
  let '(l, fragment) := break_at "#"%char l in
  let '(path, query) := break_at "?"%char l in
  (of_chars path, of_chars (default [] query), of_chars (default [] fragment)).

(** Method, target parts, version, and what follows the request line. *)
Definition read_request (s : string) : option (Z * (string * string * string) * string * string) :=
  '(line, rest) ← read_line (chars s);
  '(name, line) ← read_token line;
  '(target, version) ← read_token line;
  Some (find_method 0 (take 33 method_mapper) (of_chars name), read_target target,
        of_chars version, of_chars rest).

(** Version, status, reason, and what follows the status line. *)
Definition read_response (s : string) : option (string * Z * string * string) :=
  '(line, rest) ← read_line (chars s);
  '(version, line) ← read_token line;
  '(code, message) ← read_token line;
  n ← stoull (of_chars code);
  Some (of_chars version, n, of_chars message, of_chars rest).

Lemma read_line_app s rest :
  free_of ["013"%char] s = true ->
  read_line (chars (s +:+ crlf +:+ rest)) = Some (chars s, chars rest).
Proof.
  intros H. unfold read_line. rewrite !chars_app.
  change (chars crlf) with ["013"%char; "010"%char]. cbn [app].
  rewrite break_at_app by (by eapply free_of_elem; [exact H|left]). done.
Qed.

Lemma read_token_app s rest :
  free_of [" "%char] s = true -> read_token (chars (s +:+ space +:+ rest)) = Some (chars s, chars rest).
Proof.
  intros H. unfold read_token. rewrite !chars_app. change (chars space) with [" "%char].
  cbn [app]. by rewrite break_at_app by (by eapply free_of_elem; [exact H|left]).
Qed.

(** A string free of more is free of less. *)
Lemma free_of_mono bad bad' s :
  free_of bad s = true -> forallb (fun c => existsb (Ascii.eqb c) bad) bad' = true ->
  free_of bad' s = true.
Proof.
  unfold free_of. rewrite !forallb_forall. intros H Hb c Hc. specialize (H c Hc).
  apply negb_true_iff. apply negb_true_iff in H. apply not_true_iff_false in H.
  apply not_true_iff_false. intros (x & Hx & E)%existsb_exists. apply H.
  apply Ascii.eqb_eq in E as ->. by apply Hb.
Qed.

(** The characters a part of a target must not contain to be read back. *)
Definition clean_request (r : http_request) : bool :=
  free_of [" "; "?"; "#"; "013"]%char (_path r) && free_of [" "; "#"; "013"]%char (_query r)
  && free_of [" "; "013"]%char (_fragment r) && (0 <=? _method r) && (_method r <? HTTP_END).

Definition target (r : http_request) : string :=
  (if empty (_path r) then slash else _path r)
    +:+ (if empty (_query r) then "" else questionmark +:+ _query r)
    +:+ (if empty (_fragment r) then "" else hash +:+ _fragment r).

Lemma start_line_target name r :
  start_line name r = name +:+ space +:+ target r +:+ space +:+ protocol_string (base r) +:+ crlf.
Proof.
  unfold start_line, target. destruct (empty (_query r)), (empty (_fragment r));
    by rewrite ?string_app_nil_l, ?string_app_nil_r, ?string_app_assoc.
Qed.

Lemma empty_spec s : empty s = true -> s = "".
Proof. unfold empty. by intros ?%bool_decide_eq_true. Qed.

Lemma read_target_target r :
  clean_request r = true ->
  read_target (chars (target r)) =
    ((if empty (_path r) then slash else _path r), _query r, _fragment r).
Proof.
  unfold clean_request. rewrite !andb_true_iff. intros [[[[Hp Hq] Hf] _] _].
  unfold target. set (p := if empty (_path r) then slash else _path r).
  assert (Hp' : free_of [" "; "?"; "#"; "013"]%char p = true).
  { subst p. by destruct (empty (_path r)). }
  clearbody p. clear Hp.
  set (q := if empty (_query r) then "" else questionmark +:+ _query r).
  assert (Hq' : "#"%char ∉ chars (p +:+ q)).
  { apply (free_of_elem ["#"%char]); [|by left]. rewrite free_of_app. apply andb_true_iff. split.
    - by eapply free_of_mono.
    - subst q. destruct (empty _); [done|]. rewrite free_of_app. apply andb_true_iff.
      split; [done|]. by eapply free_of_mono. }
  assert (Hpath : break_at "?"%char (chars (p +:+ q)) =
    (chars p, if empty (_query r) then None else Some (chars (_query r)))).
  { assert ("?"%char ∉ chars p) by (apply (free_of_elem [" "; "?"; "#"; "013"]%char); [done|set_solver]).
    subst q. destruct (empty (_query r)).
    - rewrite string_app_nil_r. by apply break_at_absent.
    - rewrite !chars_app. by apply break_at_app. }
  assert (Hd : forall b t, (b = true -> t = "") ->
    of_chars (default [] (if b : bool then None else Some (chars t))) = t).
  { intros [] t Ht; [by rewrite Ht|]. cbn. apply of_chars_chars. }
  unfold read_target. rewrite <- string_app_assoc.
  destruct (empty (_fragment r)) eqn:Ef.
  - rewrite string_app_nil_r, break_at_absent by done.
    rewrite Hpath, of_chars_chars, Hd by apply empty_spec. by rewrite (empty_spec _ Ef).
  - rewrite (chars_app (p +:+ q)), (chars_app hash). change (chars hash) with ["#"%char].
    cbn [app]. rewrite break_at_app by done.
    rewrite Hpath, of_chars_chars, Hd by apply empty_spec.
    by rewrite (Hd false) by done.
Qed.

Lemma free_protocol pv bad :
  free_of bad "HTTP/1.02" = true -> free_of bad (proto_to_string pv) = true.
Proof.
  intros H. destruct pv; [done|..]; cbn in *; rewrite !andb_true_iff in *; tauto.
Qed.

Lemma target_free r :
  clean_request r = true -> free_of [" "; "013"]%char (target r) = true.
Proof.
  unfold clean_request. rewrite !andb_true_iff. intros [[[[Hp Hq] Hf] _] _].
  unfold target. rewrite !free_of_app, !andb_true_iff. split_and!.
  - destruct (empty _); [done|]. by eapply free_of_mono.
  - destruct (empty _); [done|]. rewrite free_of_app. apply andb_true_iff. split; [done|].
    by eapply free_of_mono.
  - destruct (empty _); [done|]. rewrite free_of_app. by apply andb_true_iff.
Qed.

(** Every name of the table is found back, and has no space or end of line. *)
Lemma method_table_ok :
  forallb (fun i => match method_mapper !! i with
    | Some name => (find_method 0 (take 33 method_mapper) name =? Z.of_nat i)
        && free_of [" "; "013"]%char name
    | None => false end) (seq 0 33) = true.
Proof. vm_compute. reflexivity. Qed.

Lemma method_name_ok m :
  0 <= m < HTTP_END -> exists name, method_name m = Ok name /\
    find_method 0 (take 33 method_mapper) name = m /\ free_of [" "; "013"]%char name = true.
Proof.
  intros Hm. pose proof method_table_ok as H. rewrite forallb_forall in H.
  specialize (H (Z.to_nat m)). rewrite in_seq in H. unfold HTTP_END in Hm.
  specialize (H ltac:(lia)). unfold method_name. destruct (Z.ltb_spec m 0); [lia|].
  destruct (method_mapper !! Z.to_nat m) as [name|]; [|done].
  apply andb_prop in H as [H1 H2]. exists name. split_and!; [done| |done].
  apply Z.eqb_eq in H1. rewrite H1. lia.
Qed.

(** ** Theorems *)

(** The name of a method, set again as a string, is the method; a string
    that names no method sets [END], whose name is ["NONE"]. *)
Theorem method_roundtrip (r : http_request) (val : string) :
  (0 <= _method r < HTTP_END ->
    exists name, method_string r = Ok name /\ method_of_string name r = r) /\
  (val ∉ take 33 method_mapper ->
    method_string (method_of_string val r) = Ok "NONE").
Proof.
  split.
  - intros Hm. destruct (method_name_ok _ Hm) as (name & E & Ef & _).
    exists name. split; [exact E|]. unfold method_of_string.
    change (find_method HTTP_DELETE (take (Z.to_nat HTTP_END) method_mapper) name)
      with (find_method 0 (take 33 method_mapper) name). rewrite Ef. by destruct r.
  - intros Hv. unfold method_of_string, method_string. cbn [_method method].
    by rewrite find_method_absent.
Qed.

(** A request whose parts contain no delimiter of the request line is
    serialized to a line from which method, path, query, fragment and protocol
    are read back, followed by its headers. *)
Theorem request_serialize_roundtrip (r : http_request) (block : string) :
  clean_request r = true -> serialize (base r) = Ok block ->
  exists s, serialize_request r = Ok s /\
    read_request s = Some (_method r,
      ((if empty (_path r) then slash else _path r), _query r, _fragment r),
      protocol_string (base r), block).
Proof.
  intros Hc Hb. pose proof Hc as Hm. unfold clean_request in Hm.
  rewrite !andb_true_iff in Hm. destruct Hm as [[_ H0] H1].
  destruct (method_name_ok (_method r)) as (name & En & Ef & Hn); [lia|].
  unfold serialize_request, method_string. rewrite En, Hb. eexists. split; [reflexivity|].
  pose proof (target_free _ Hc) as Ht.
  assert (Hp : free_of [" "; "013"]%char (protocol_string (base r)) = true)
    by by apply free_protocol.
  rewrite start_line_target, !string_app_assoc.
  unfold read_request.
  rewrite <- (string_app_assoc name), <- (string_app_assoc (name +:+ space)),
    <- (string_app_assoc ((name +:+ space) +:+ target r)),
    <- (string_app_assoc (((name +:+ space) +:+ target r) +:+ space)).
  rewrite read_line_app.
  2:{ rewrite !free_of_app, !andb_true_iff. split_and!; try done; by eapply free_of_mono. }
  cbn [mbind option_bind]. rewrite !string_app_assoc.
  rewrite read_token_app by (by eapply free_of_mono). cbn [mbind option_bind].
  rewrite read_token_app by (by eapply free_of_mono). cbn [mbind option_bind].
  rewrite !of_chars_chars, Ef. by rewrite read_target_target.
Qed.

(** A message with one header, for the witnesses. *)
Definition sample_data : http_structured_data :=
  set_protocol HTTP11 (insert_header "host" "a" (blank_data http_request_type)).

Definition sample_request : http_request :=
  {| base := sample_data; _ssl := false; _method := HTTP_POST; _schema := ""; _urihost := "";
     _port := ""; _path := "/p"; _query := "q=1"; _fragment := ""; _userinfo := "";
     _params := ∅ |}.

Lemma method_roundtrip_witness :
  (exists name, method_string sample_request = Ok name /\
    method_of_string name sample_request = sample_request) /\
  method_string (method_of_string "BREW" sample_request) = Ok "NONE".
Proof.
  destruct (method_roundtrip sample_request "BREW") as [H1 H2]. split.
  - apply H1. split; vm_compute; congruence.
  - apply H2. apply (bool_decide_unpack _). vm_compute. reflexivity.
Defined.

Lemma request_serialize_roundtrip_witness :
  exists block s, serialize sample_data = Ok block /\
    serialize_request sample_request = Ok s /\
    read_request s = Some (HTTP_POST, ("/p", "q=1", ""), "HTTP/1.1", block).
Proof.
  assert (exists block, serialize (base sample_request) = Ok block) as [block E]
    by (vm_compute; eauto).
  destruct (request_serialize_roundtrip sample_request block) as (s & E1 & E2);
    [vm_compute; reflexivity|exact E|].
  exists block, s. split_and!; [exact E|exact E1|exact E2].
Defined.

(** A response is serialized to a status line from which protocol, code and
    reason are read back, followed by its headers. *)
Theorem response_serialize_roundtrip (r : http_response) (block : string) :
  in_range 16 (_status_code r) -> free_of ["013"%char] (_status_message r) = true ->
  serialize (response_base r) = Ok block ->
  exists s, serialize_response r = Ok s /\
    read_response s =
      Some (protocol_string (response_base r), _status_code r, _status_message r, block).
Proof.
  intros Hr Hm Hb. unfold serialize_response. rewrite Hb. eexists. split; [reflexivity|].
  assert (Hp : free_of [" "; "013"]%char (protocol_string (response_base r)) = true)
    by by apply free_protocol.
  assert (Hd : free_of [" "; "013"]%char (to_string (_status_code r)) = true).
  { apply to_string_free; [unfold in_range in Hr; lia|done]. }
  unfold read_response, status_line.
  set (line := protocol_string (response_base r) +:+ space +:+ to_string (_status_code r) +:+ space +:+ _status_message r).
  match goal with |- context [chars ?t] => replace t with (line +:+ crlf +:+ block)
    by (subst line; by rewrite !string_app_assoc) end.
  rewrite read_line_app; subst line.
  2:{ rewrite !free_of_app, !andb_true_iff. split_and!; try done; by eapply free_of_mono. }
  cbn [mbind option_bind]. rewrite ?string_app_assoc.
  rewrite read_token_app by (by eapply free_of_mono). cbn [mbind option_bind].
  rewrite read_token_app by (by eapply free_of_mono). cbn [mbind option_bind].
  rewrite !of_chars_chars, stoull_to_string; [done|].
  unfold in_range in *. change (2 ^ 16) with 65536 in Hr. change (2 ^ 64) with 18446744073709551616.
  lia.
Qed.

Lemma response_serialize_roundtrip_witness :
  let r := {| response_base := sample_data; _status_code := 404;
              _status_message := get_default_message 404 |} in
  exists block s, serialize sample_data = Ok block /\ serialize_response r = Ok s /\
    read_response s = Some ("HTTP/1.1", 404, "Not Found", block).
Proof.
  intros r.
  assert (exists block, serialize (response_base r) = Ok block) as [block E]
    by (vm_compute; eauto).
  destruct (response_serialize_roundtrip r block) as (s & E1 & E2);
    [split; vm_compute; congruence|vm_compute; reflexivity|exact E|].
  exists block, s. split_and!; [exact E|exact E1|exact E2].
Defined.

Lemma data_eqb_refl d : data_eqb d d = Ok true.
Proof. rewrite data_eqb_spec. by rewrite !bool_decide_eq_true_2. Qed.

(** [operator!=] of responses is not the negation of [operator==]: two
    responses that agree in code and reason are unequal whatever the rest, so
    every response is both equal to and different from itself; and two
    responses that differ in their reasons alone are neither. *)
Theorem response_inequality (r : http_response) (msg : string) :
  response_eqb r r = Ok true /\ response_neqb r r = Ok true /\
  (msg <> _status_message r ->
    response_eqb r (status_with (_status_code r) msg r) = Ok false /\
    response_neqb r (status_with (_status_code r) msg r) = Ok false).
Proof.
  unfold response_eqb, response_neqb. cbn [status_with _status_code _status_message response_base].
  rewrite data_eqb_refl, Z.eqb_refl. cbn [negb mbind outcome_bind mret outcome_ret andb].
  rewrite !(bool_decide_eq_true_2 (_status_message r = _status_message r)) by done.
  split_and!; try done. intros Hne. by rewrite !bool_decide_eq_false_2 by congruence.
Qed.

Lemma response_inequality_witness :
  let r := {| response_base := sample_data; _status_code := 404; _status_message := "a" |} in
  response_neqb r (status_with 404 "b" r) = Ok false.
Proof.
  intros r. destruct (response_inequality r "b") as (_ & _ & H).
  apply H. vm_compute. congruence.
Defined.
