(* ===== verification/Errors.v ===== *)
(** * Error values (src/src/errors, src/src/http/connection_error.h)

    The status codes doormat answers with and their names, the error of a
    component with its textual form, and the errors of a connection. *)

From S2P Require Import Prelude CppStd Utils HttpCommons HttpMessages.

(** ** [http_error_code] *)
Inductive http_error_code :=
| bad_request | unauthorized | forbidden | not_found | method_not_allowed | request_timeout
| length_required | entity_too_large | uri_too_long | unsupported_media_type
| unprocessable_entity | internal_server_error | bad_gateway | service_unavailable
| gateway_timeout | not_implemented.

Definition http_status (e : http_error_code) : Z :=
  match e with
  | bad_request => 400
  | unauthorized => 401
  | forbidden => 403
  | not_found => 404
  | method_not_allowed => 405
  | request_timeout => 408
  | length_required => 411
  | entity_too_large => 413
  | uri_too_long => 414
  | unsupported_media_type => 415
  | unprocessable_entity => 422
  | internal_server_error => 500
  | bad_gateway => 502
  | service_unavailable => 503
  | gateway_timeout => 504
  | not_implemented => 501
  end.

Definition error_name (e : http_error_code) : string :=
  match e with
  | bad_request => "bad request"
  | forbidden => "forbidden"
  | method_not_allowed => "method not allowed"
  | request_timeout => "request timeout"
  | internal_server_error => "internal server error"
  | bad_gateway => "bad gateway"
  | service_unavailable => "service unavailable"
  | gateway_timeout => "gateway timeout"
  | not_implemented => "not implemented"
  | unprocessable_entity => "unprocessable entity"
  | entity_too_large => "entity too large"
  | not_found => "not found"
  | length_required => "length required"
  | uri_too_long => "URI too long!"
  | unsupported_media_type => "Unsupported media type."
  | unauthorized => "Unknown error"
  end.

Definition all_errors : list http_error_code :=
  [bad_request; unauthorized; forbidden; not_found; method_not_allowed; request_timeout;
   length_required; entity_too_large; uri_too_long; unsupported_media_type;
   unprocessable_entity; internal_server_error; bad_gateway; service_unavailable;
   gateway_timeout; not_implemented].

(** ** [internal_error]: a null pointer is [None] *)
Record internal_error := {
  code_ : Z;
  source_ : option string;
  file_ : option string;
  line_ : Z }.

Definition no_internal_error : internal_error :=
  {| code_ := 0; source_ := None; file_ := None; line_ := 0 |}.

Definition new_internal_error (code : Z) (source : string) : internal_error :=
  {| code_ := code; source_ := Some source; file_ := None; line_ := 0 |}.

Definition long_internal_error (code : Z) (source file : string) (line : Z) : internal_error :=
  {| code_ := code; source_ := Some source; file_ := Some file; line_ := line |}.

(** The conversion to [std::string]; building a string from the null pointer is
    undefined. *)
Definition internal_error_string (e : internal_error) : outcome string :=
  r ← of_option Undefined (source_ e);
  let r := r +:+ " - " +:+ from 32 (code_ e) in
  let r := match file_ e with Some f => r +:+ " " +:+ f | None => r end in
  let r := if negb (line_ e =? 0) then r +:+ " " +:+ from 32 (line_ e) else r in
  mret r.

Definition is_error (e : internal_error) : bool := 0 <? code_ e.

Definition internal_error_eqb (e f : internal_error) : bool := code_ e =? code_ f.

(** ** [http::error_code] and [connection_error] *)
Inductive error_code :=
| success | decoding | closed_by_client | invalid_read | connection_closed
| missing_stream_element | write_error.

#[export] Instance error_code_eq_dec : EqDecision error_code.
Proof. solve_decision. Defined.

Record connection_error := { errc : error_code }.

Definition connection_error_message (e : connection_error) : string := "there was an error".

(** ** What the tables say *)

(** The codes of which the reason phrase of a response is the fallback. *)
Lemma default_message_gap e :
  get_default_message (http_status e) = "Damn!" <-> e = unprocessable_entity.
Proof. destruct e; cbn; split; congruence. Qed.

Lemma error_name_unique e f : error_name e = error_name f -> e = f.
Proof. destruct e, f; cbn; congruence. Qed.

(** The name of an error, in lower case as its comment promises, for all
    but three codes; [unauthorized] is named like an unknown error, and the
    reason phrase of [unprocessable_entity] is the fallback. *)
Lemma error_tables (e : http_error_code) :
  (lowercase (error_name e) = error_name e <->
    e <> uri_too_long /\ e <> unsupported_media_type /\ e <> unauthorized) /\
  (error_name e = "Unknown error" <-> e = unauthorized) /\
  (get_default_message (http_status e) = "Damn!" <-> e = unprocessable_entity).
Proof.
  split_and!; [|destruct e; cbn; split; congruence|apply default_message_gap].
  destruct e; vm_compute; split; try congruence; try tauto; try (intros _; split_and!; congruence).
Qed.
