(* ===== verification/ReusableBuffer.v ===== *)
(** * The read buffer of a connector (src/src/utils/reusable_buffer.h)

    [reusable_buffer<N>]: an array of [N] bytes written behind [wr] and read
    behind [rd], both offsets into [mem]; [bound] says that the writer has
    wrapped around and the reader has not.  The specification is a queue of
    bytes, [contents]. *)

From S2P Require Import Prelude.

Local Open Scope nat_scope.

(** The bytes from [a] to [z]. *)
Definition slice (a z : nat) (l : list Z) : list Z := take (z - a) (drop a l).

Lemma length_slice a z l : z <= length l -> length (slice a z l) = z - a.
Proof. intros H. unfold slice. rewrite length_take, length_drop. lia. Qed.

Lemma slice_empty a l : slice a a l = [].
Proof. unfold slice. by rewrite Nat.sub_diag. Qed.

Lemma lookup_slice a z l i : slice a z l !! i = if decide (i < z - a) then l !! (a + i) else None.
Proof.
  unfold slice. case_decide.
  - by rewrite lookup_take_lt, lookup_drop.
  - by rewrite lookup_take_ge by lia.
Qed.

Lemma slice_inserts_other off data a z l :
  off + length data <= a \/ z <= off -> slice a z (list_inserts off data l) = slice a z l.
Proof.
  intros H. apply list_eq. intros i. rewrite !lookup_slice. case_decide; [|done].
  destruct H; [apply list_lookup_inserts_ge|apply list_lookup_inserts_lt]; lia.
Qed.

Lemma slice_inserts_here off data l :
  off + length data <= length l ->
  slice off (off + length data) (list_inserts off data l) = data.
Proof.
  intros H. apply list_eq. intros i. rewrite lookup_slice. case_decide.
  - rewrite list_lookup_inserts by lia. f_equal. lia.
  - symmetry. apply lookup_ge_None. lia.
Qed.

Lemma slice_app a m z l :
  a <= m -> m <= z -> slice a z l = (slice a m l ++ slice m z l)%list.
Proof.
  intros H1 H2. unfold slice. replace (drop m l) with (drop (m - a) (drop a l)).
  - rewrite <- (take_drop (m - a) (take (z - a) (drop a l))). f_equal.
    + rewrite take_take. f_equal. lia.
    + replace (z - a) with ((m - a) + (z - m)) by lia. by rewrite <- take_drop_commute.
  - rewrite drop_drop. f_equal. lia.
Qed.

Lemma drop_slice a m z l : a <= m -> m <= z -> z <= length l ->
  drop (m - a) (slice a z l) = slice m z l.
Proof.
  intros H1 H2 H3. rewrite (slice_app a m z) by done.
  rewrite drop_app_length'; [done|]. rewrite length_slice; lia.
Qed.

Section Buffer.
Context (N : nat) (HN : 0 < N).

Record reusable_buffer := {
  bound : bool;
  mem : list Z;
  wr : nat;
  rd : nat }.

Definition new_buffer : reusable_buffer :=
  {| bound := false; mem := replicate N 0%Z; wr := 0; rd := 0 |}.

(** [avail_mem()], which re-aligns the pointers of an empty buffer. *)
Definition avail_mem (b : reusable_buffer) : nat * reusable_buffer :=
  if wr b <? rd b then (rd b - wr b, b)
  else if rd b <? wr b then (N - wr b, b)
  else if bound b then (0, b)
  else (N, {| bound := bound b; mem := mem b; wr := 0; rd := 0 |}).

(** [reserve()]: offset and size of the memory for the next read.  C++ leaves
    open whether the argument [wr] is read before or after [avail_mem()] has
    moved it. *)
Inductive argument_order := avail_first | wr_first.

Definition reserve (o : argument_order) (b : reusable_buffer) : (nat * nat) * reusable_buffer :=
  let '(max, b') := avail_mem b in
  match o with
  | avail_first => ((wr b', max), b')
  | wr_first => ((wr b, max), b')
  end.

(** What the socket does with the reserved memory: [data] from [off] on. *)
Definition fill (off : nat) (data : list Z) (b : reusable_buffer) : reusable_buffer :=
  {| bound := bound b; mem := list_inserts off data (mem b); wr := wr b; rd := rd b |}.

(** [produce(len)]: the offset of the bytes produced, or the null pointer. *)
Definition produce (n : nat) (b : reusable_buffer) : option nat * reusable_buffer :=
  let '(max, b) := avail_mem b in
  if n <=? max then
    let ptr := wr b in
    let wr' := wr b + n in
    if wr' =? N then (Some ptr, {| bound := true; mem := mem b; wr := 0; rd := rd b |})
    else (Some ptr, {| bound := bound b; mem := mem b; wr := wr'; rd := rd b |})
  else (None, b).

(** [consume(ptr)]: the [size_t] of the bytes consumed. *)
Definition consume (ptr : nat) (b : reusable_buffer) : Z * reusable_buffer :=
  let upper_bound := if bound b then N else wr b in
  if (0 <? ptr) && (ptr <=? upper_bound) then
    let bytes := u64 (Z.of_nat ptr - Z.of_nat (rd b))%Z in
    if ptr =? N then (bytes, {| bound := false; mem := mem b; wr := wr b; rd := 0 |})
    else (bytes, {| bound := bound b; mem := mem b; wr := wr b; rd := ptr |})
  else (0%Z, b).

(** ** The queue it implements *)

Definition contents (b : reusable_buffer) : list Z :=
  if bound b then slice (rd b) N (mem b) ++ slice 0 (wr b) (mem b)
  else slice (rd b) (wr b) (mem b).

(** Both offsets in the array, the reader behind the writer (or ahead of it
    once the writer has wrapped around). *)
Record valid (b : reusable_buffer) : Prop := {
  valid_mem : length (mem b) = N;
  valid_wr : wr b < N;
  valid_rd : rd b < N;
  valid_order : if bound b then wr b <= rd b else rd b <= wr b }.

Lemma valid_new_buffer : valid new_buffer.
Proof. constructor; cbn; rewrite ?length_replicate; lia. Qed.

Lemma contents_length b :
  valid b -> length (contents b) = if bound b then N - rd b + wr b else wr b - rd b.
Proof.
  intros [H1 H2 H3 H4]. unfold contents. destruct (bound b).
  - rewrite length_app, !length_slice by lia. lia.
  - rewrite length_slice by lia. lia.
Qed.

(** The memory [avail_mem] offers is there and is not occupied. *)
Lemma avail_mem_spec b :
  valid b ->
  let '(max, b') := avail_mem b in
  valid b' /\ contents b' = contents b /\ mem b' = mem b /\ wr b' + max <= N /\
  (max = 0 <-> length (contents b) = N) /\
  (if bound b' then wr b' + max = rd b' else rd b' <= wr b').
Proof.
  intros Hv. pose proof (contents_length b Hv) as HL.
  pose proof Hv as [H1 H2 H3 H4].
  unfold avail_mem. destruct (Nat.ltb_spec (wr b) (rd b)); [|destruct (Nat.ltb_spec (rd b) (wr b))].
  - assert (bound b = true) as Eb by (destruct (bound b); [done|lia]). rewrite Eb in *.
    split_and!; try done; lia.
  - assert (bound b = false) as Eb by (destruct (bound b); [lia|done]). rewrite Eb in *.
    split_and!; try done; lia.
  - assert (wr b = rd b) as E by lia. destruct (bound b) eqn:Eb.
    + rewrite Eb. split_and!; try done; lia.
    + split_and!; try (cbn; done || lia).
      * constructor; cbn; rewrite ?Eb; lia.
      * unfold contents. cbn. rewrite Eb, E. by rewrite !slice_empty.
Qed.

(** [produce] after [fill] appends. *)
Lemma produce_spec data b :
  valid b ->
  let '(max, _) := avail_mem b in
  if length data <=? max then
    exists ptr b', produce (length data) b = (Some ptr, b') /\
      ptr + length data <= N /\
      valid (fill ptr data b') /\ contents (fill ptr data b') = (contents b ++ data)%list
  else exists b', produce (length data) b = (None, b') /\ valid b' /\ contents b' = contents b.
Proof.
  intros Hv. pose proof (avail_mem_spec b Hv) as H. unfold produce.
  destruct (avail_mem b) as [max b1]. destruct H as (Hv1 & Hc & Hm & Hw & _ & Hb).
  rewrite <- Hc. clear Hc Hm Hv b.
  destruct (Nat.leb_spec (length data) max); [|by eauto 10].
  destruct Hv1 as [H1 H2 H3 H4].
  destruct (Nat.eqb_spec (wr b1 + length data) N) as [E|E]; eexists _, _;
    (split; [reflexivity|]); (split; [lia|]); (split;
      [constructor; cbn; rewrite ?length_inserts; destruct (bound b1); lia|]);
    unfold contents; cbn [fill bound mem wr rd].
  - destruct (bound b1); [lia|].
    rewrite slice_empty, app_nil_r. rewrite (slice_app (rd b1) (wr b1)) by lia.
    rewrite slice_inserts_other by lia. f_equal. rewrite <- E. apply slice_inserts_here. lia.
  - destruct (bound b1) eqn:Eb.
    + rewrite slice_inserts_other by lia. rewrite <- app_assoc. f_equal.
      rewrite (slice_app 0 (wr b1) (wr b1 + length data)) by lia.
      rewrite slice_inserts_other by lia. f_equal. apply slice_inserts_here. lia.
    + rewrite (slice_app (rd b1) (wr b1)) by lia.
      rewrite slice_inserts_other by lia. f_equal. apply slice_inserts_here. lia.
Qed.

(** [consume] up to a pointer of the first stretch drops its bytes. *)
Lemma consume_spec ptr b :
  valid b -> rd b < ptr -> ptr <= (if bound b then N else wr b) -> (Z.of_nat N < 2 ^ 64)%Z ->
  let '(bytes, b') := consume ptr b in
  bytes = Z.of_nat (ptr - rd b) /\ valid b' /\ contents b' = drop (ptr - rd b) (contents b).
Proof.
  intros [H1 H2 H3 H4] Hlt Hle H64. unfold consume.
  rewrite (proj2 (Nat.ltb_lt 0 ptr)), (proj2 (Nat.leb_le _ _) Hle) by lia. cbn [andb].
  assert (Eb : u64 (Z.of_nat ptr - Z.of_nat (rd b)) = Z.of_nat (ptr - rd b)).
  { rewrite wrap_id; [lia|]. unfold in_range. destruct (bound b); lia. }
  rewrite Eb. destruct (Nat.eqb_spec ptr N) as [->|Hne].
  - destruct (bound b) eqn:E; [|lia]. split_and!; [done|constructor; cbn; lia|].
    unfold contents. cbn. rewrite E. rewrite drop_app_length'; [done|].
    rewrite length_slice; lia.
  - split; [done|]. destruct (bound b) eqn:E.
    + split; [constructor; cbn; rewrite ?E; lia|].
      unfold contents. cbn. rewrite E. rewrite drop_app_le.
      * by rewrite drop_slice by lia.
      * rewrite length_slice; lia.
    + split; [constructor; cbn; rewrite ?E; lia|].
      unfold contents. cbn. rewrite E. by rewrite drop_slice by lia.
Qed.

(** ** Sequences of reads and consumptions *)

(** [op_read data]: the socket fills the reserved memory with [data], which is
    then produced; [op_consume n]: the next [n] bytes are consumed. *)
Inductive operation :=
| op_read (data : list Z)
| op_consume (n : nat).

(** What is seen of an operation: the bytes behind the pointer that [produce]
    answers, none behind a null pointer; the count of [consume]. *)
Inductive answer :=
| given (data : option (list Z))
| taken (n : Z).

(** [reserve()], the read, [produce(len)]; [consume(rd + n)]. *)
Definition step (order : argument_order) (op : operation) (b : reusable_buffer) : answer * reusable_buffer :=
  match op with
  | op_read data =>
      let '((off, _), b) := reserve order b in
      let '(ptr, b) := produce (length data) (fill off data b) in
      (given ((fun p => slice p (p + length data) (mem b)) <$> ptr), b)
  | op_consume n => let '(bytes, b) := consume (rd b + n) b in (taken bytes, b)
  end.

Fixpoint run (order : argument_order) (ops : list operation) (b : reusable_buffer) : list answer * reusable_buffer :=
  match ops with
  | [] => ([], b)
  | op :: ops => let '(a, b) := step order op b in let '(l, b) := run order ops b in (a :: l, b)
  end.

(** The writer's pointer is where [avail_mem()] leaves it. *)
Definition aligned (b : reusable_buffer) : bool := wr (snd (avail_mem b)) =? wr b.

(** What is up to the caller: the socket writes no more than the size it was
    given, and [consume] is called with a pointer into the stretch that was
    produced.  When [wr] is read before [avail_mem()] has moved it, no read may
    begin where it would be moved. *)
Definition allowed (order : argument_order) (op : operation) (b : reusable_buffer) : bool :=
  match op with
  | op_read data =>
      (length data <=? snd (fst (reserve order b))) &&
      match order with avail_first => true | wr_first => aligned b end
  | op_consume n => rd b + n <=? if bound b then N else wr b
  end.

Fixpoint all_allowed (order : argument_order) (ops : list operation) (b : reusable_buffer) : bool :=
  match ops with
  | [] => true
  | op :: ops => allowed order op b && all_allowed order ops (snd (step order op b))
  end.

(** The same operations on a queue of bytes. *)
Fixpoint queue (ops : list operation) (q : list Z) : list answer * list Z :=
  match ops with
  | [] => ([], q)
  | op_read data :: ops => let '(l, q) := queue ops (q ++ data) in (given (Some data) :: l, q)
  | op_consume n :: ops => let '(l, q) := queue ops (drop n q) in (taken (Z.of_nat n) :: l, q)
  end.

Lemma avail_mem_idem b : avail_mem (snd (avail_mem b)) = avail_mem b.
Proof.
  unfold avail_mem. destruct (Nat.ltb_spec (wr b) (rd b)) as [L|L]; cbn [snd].
  { destruct (Nat.ltb_spec (wr b) (rd b)); [done|lia]. }
  destruct (Nat.ltb_spec (rd b) (wr b)) as [L'|L']; cbn [snd].
  { destruct (Nat.ltb_spec (wr b) (rd b)); [lia|]. destruct (Nat.ltb_spec (rd b) (wr b)); [done|lia]. }
  destruct (bound b) eqn:E; cbn [snd bound wr rd].
  - rewrite E. destruct (Nat.ltb_spec (wr b) (rd b)); [lia|].
    destruct (Nat.ltb_spec (rd b) (wr b)); [lia|done].
  - done.
Qed.

Lemma avail_mem_fill off data b :
  avail_mem (fill off data b) = ((avail_mem b).1, fill off data (avail_mem b).2).
Proof.
  unfold avail_mem. cbn [fill bound wr rd]. by repeat case_match.
Qed.

(** Producing what was filled in before, or filling in what was produced, is
    the same. *)
Lemma produce_fill off data n b :
  produce n (fill off data b) = ((produce n b).1, fill off data (produce n b).2).
Proof.
  unfold produce. rewrite avail_mem_fill. destruct (avail_mem b) as [max b1]; cbn [fst snd].
  case_match; [|done]. cbn [fill wr]. by case_match.
Qed.

Lemma produce_avail n b : produce n (snd (avail_mem b)) = produce n b.
Proof. unfold produce. by rewrite avail_mem_idem. Qed.

(** Where the orders agree. *)
Lemma reserve_either order b :
  match order with avail_first => true | wr_first => aligned b end = true -> reserve order b = reserve avail_first b.
Proof.
  unfold reserve, aligned. destruct order; [done|]. destruct (avail_mem b) as [max b']. cbn [snd].
  by intros ->%Nat.eqb_eq.
Qed.

(** The bytes produced are the ones read. *)
Lemma read_step data off max b b1 :
  valid b -> reserve avail_first b = ((off, max), b1) -> length data <= max ->
  exists b2, produce (length data) (fill off data b1) = (Some off, b2) /\ valid b2 /\
    contents b2 = (contents b ++ data)%list /\ slice off (off + length data) (mem b2) = data.
Proof.
  unfold reserve. intros Hv E Hle. pose proof (produce_spec data b Hv) as H. pose proof (avail_mem_spec b Hv) as Ha.
  rewrite produce_fill. destruct (avail_mem b) as [max' b1'] eqn:Ea. injection E as <- <- <-.
  rewrite (proj2 (Nat.leb_le _ _) Hle) in H. destruct H as (ptr & b' & Ep & Hin & Hv' & Hc).
  assert (b1' = snd (avail_mem b)) as Eb by by rewrite Ea.
  assert (ptr = wr b1' /\ mem b' = mem b1') as [-> Hm].
  { clear -Ep Ea Hle. unfold produce in Ep. rewrite Ea, (proj2 (Nat.leb_le _ _) Hle) in Ep.
    case_match; by injection Ep as <- <-. }
  rewrite Eb, produce_avail, Ep, <- Eb. cbn [fst snd]. eexists. split; [done|]. split; [done|]. split; [done|].
  cbn [fill mem]. apply slice_inserts_here. rewrite Hm. destruct Ha as ([Hl _ _ _] & _ & _ & Hw & _). rewrite Hl. lia.
Qed.

Lemma consume_none b : valid b -> consume (rd b) b = (0%Z, b).
Proof.
  intros [H1 H2 H3 H4]. unfold consume. rewrite Z.sub_diag, (proj2 (Nat.eqb_neq (rd b) N)) by lia.
  destruct (_ && _); [|done]. by destruct b.
Qed.

(** One operation is what it is on a queue. *)
Lemma step_spec order op b :
  (Z.of_nat N < 2 ^ 64)%Z -> valid b -> allowed order op b = true ->
  exists a b', step order op b = (a, b') /\ valid b' /\ queue [op] (contents b) = ([a], contents b').
Proof.
  intros H64 Hv Ha. destruct op as [data|n]; cbn [allowed step queue] in *.
  - apply andb_prop in Ha as [Hle Hal]. rewrite (reserve_either _ _ Hal) in *. apply Nat.leb_le in Hle.
    destruct (reserve avail_first b) as [[off max] b0] eqn:Er.
    destruct (read_step data off max b b0 Hv Er Hle) as (b2 & Ep & Hv2 & Hc & Hs).
    rewrite Ep. cbn [fmap option_fmap option_map]. rewrite Hs, <- Hc. eauto.
  - apply Nat.leb_le in Ha. destruct (decide (n = 0)) as [->|Hn].
    + rewrite Nat.add_0_r, consume_none by done. eauto.
    + pose proof (consume_spec (rd b + n) b Hv ltac:(lia) Ha H64) as Hcs.
      destruct (consume (rd b + n) b) as [bytes b2]. destruct Hcs as (-> & Hv2 & Hc).
      replace (rd b + n - rd b) with n in * by lia. rewrite <- Hc. eauto.
Qed.

Lemma queue_cons op ops q :
  queue (op :: ops) q = let '(l, q') := queue [op] q in let '(k, q') := queue ops q' in (l ++ k, q')%list.
Proof. by destruct op; cbn [queue]; destruct (queue ops _). Qed.

Lemma run_queue order ops b :
  (Z.of_nat N < 2 ^ 64)%Z -> valid b -> all_allowed order ops b = true ->
  exists l b', run order ops b = (l, b') /\ valid b' /\ queue ops (contents b) = (l, contents b').
Proof.
  intros H64. revert b. induction ops as [|op ops IH]; cbn [run all_allowed]; intros b Hv E; [eauto|].
  apply andb_prop in E as [Ea E]. destruct (step_spec order op b H64 Hv Ea) as (a & b1 & Es & Hv1 & Hq).
  rewrite Es in E. rewrite queue_cons, Hq, Es. destruct (IH b1 Hv1 E) as (l & b2 & -> & Hv2 & ->). eauto.
Qed.

Lemma contents_new : contents new_buffer = [].
Proof. apply slice_empty. Qed.

(** The memory offered for the next read lies in the array and is empty only
    when the buffer is full. *)
Lemma reserve_in_bounds order (b : reusable_buffer) :
  valid b -> match order with avail_first => true | wr_first => aligned b end = true ->
  let '((off, max), b') := reserve order b in
  off + max <= N /\ (max = 0 <-> length (contents b) = N) /\ contents b' = contents b /\ valid b'.
Proof.
  intros Hv Ha. rewrite (reserve_either _ _ Ha). unfold reserve. pose proof (avail_mem_spec b Hv) as H.
  destruct (avail_mem b) as [max b']. tauto.
Qed.

(** C18: The buffer is a queue.  Whatever is read into the memory that it offers and
    consumed of what it holds, every read is given to the caller as it came from
    the socket, every consumption counts the bytes it takes, and what is left is
    what a queue would hold; the memory offered next lies in the array, and there
    is some unless the queue is full.  C++ leaves open in which order [reserve()]
    evaluates its two arguments: this holds of the order that calls [avail_mem()]
    first, and of the other one as long as no read begins where [avail_mem()]
    moves the pointer (the buffer is empty, and not at its beginning). *)
Theorem buffer_refines_queue (order : argument_order) (ops : list operation) :
  (Z.of_nat N < 2 ^ 64)%Z -> all_allowed order ops new_buffer = true ->
  exists l b, run order ops new_buffer = (l, b) /\ queue ops [] = (l, contents b) /\ valid b /\
    (order = avail_first \/ aligned b = true ->
     let '((off, max), b') := reserve order b in
     off + max <= N /\ (max = 0 <-> length (contents b) = N) /\ contents b' = contents b).
Proof.
  intros H64 Ha. destruct (run_queue order ops new_buffer H64 (valid_new_buffer) Ha) as (l & b & E & Hv & Hq).
  rewrite contents_new in Hq. exists l, b. do 3 (split; [done|]). intros Ho.
  pose proof (reserve_in_bounds order b Hv) as R. destruct (reserve order b) as [[off max] b'].
  destruct R as (R1 & R2 & R3 & _); [by destruct order, Ho|done].
Qed.

(** When [wr] is read before [avail_mem()] re-aligns it, the memory offered
    for a read after some bytes have come and gone runs past the end of the
    array, and [produce] then answers with a pointer to other bytes than the
    ones read. *)
Theorem reserve_overrun (data : list Z) :
  0 < length data < N -> (Z.of_nat N < 2 ^ 64)%Z ->
  exists l b, run wr_first [op_read data; op_consume (length data)] new_buffer = (l, b) /\
    fst (reserve wr_first b) = (length data, N) /\ N < length data + N /\
    forall n, 0 < n < N -> fst (produce n b) = Some 0.
Proof.
  intros [H0 H1] H64.
  assert (E : exists l, run wr_first [op_read data; op_consume (length data)] new_buffer =
    (l, {| bound := false; mem := list_inserts 0 data (replicate N 0%Z); wr := length data; rd := length data |})).
  { unfold run, step, reserve, produce, new_buffer, avail_mem, consume.
    repeat (cbn [wr rd bound fill mem Nat.add andb snd fst fmap option_fmap option_map];
      first [rewrite (proj2 (Nat.leb_le (length data) N)) by lia
      | rewrite (proj2 (Nat.eqb_neq (length data) N)) by lia
      | rewrite (proj2 (Nat.ltb_lt 0 (length data))) by lia
      | rewrite Nat.leb_refl | rewrite Nat.ltb_irrefl ]). by eexists. }
  destruct E as (l & E). eexists l, _. split; [exact E|]. unfold reserve, produce, avail_mem. cbn [wr rd bound].
  rewrite !Nat.ltb_irrefl. cbn [fst snd wr rd bound]. split_and!; [done|lia|].
  intros n Hn. rewrite (proj2 (Nat.leb_le n N)) by lia. cbn [wr Nat.add].
  by rewrite (proj2 (Nat.eqb_neq n N)) by lia.
Qed.

End Buffer.

(** Reads that wrap around, on four bytes. *)
Definition around : list operation :=
  [op_read [1; 2; 3]%Z; op_consume 2; op_read [4]%Z; op_read [5; 6]%Z; op_consume 2; op_consume 1].

Lemma buffer_refines_queue_witness :
  exists b, run 4 avail_first around (new_buffer 4) =
      ([given (Some [1; 2; 3]%Z); taken 2; given (Some [4]%Z); given (Some [5; 6]%Z); taken 2; taken 1], b) /\
    contents 4 b = [6]%Z /\ run 4 wr_first around (new_buffer 4) = run 4 avail_first around (new_buffer 4).
Proof.
  destruct (buffer_refines_queue 4 ltac:(lia) avail_first around) as (l & b & E & Q & _);
    [lia|vm_compute; reflexivity|].
  destruct (buffer_refines_queue 4 ltac:(lia) wr_first around) as (l' & b' & E' & _);
    [lia|vm_compute; reflexivity|].
  vm_compute in Q. injection Q as <- Qb. exists b. split; [exact E|]. split; [exact (eq_sym Qb)|].
  vm_compute. reflexivity.
Defined.

Lemma reserve_overrun_witness :
  exists l b, run 16 wr_first [op_read [7]%Z; op_consume 1] (new_buffer 16) = (l, b) /\
    fst (reserve 16 wr_first b) = (1, 16).
Proof.
  destruct (reserve_overrun 16 ltac:(lia) [7]%Z) as (l & b & E & Er & _); [cbn; lia|lia|].
  exists l, b. split; [exact E|exact Er].
Defined.
