(* ===== verification/UserObjects.v ===== *)
(** * The objects of the user (src/src/http/server, src/src/http/client)

    A transaction has two objects.  The local one ([response] of a server,
    [client_request] of a client) buffers what the user sends until the handler
    polls it; the remote one ([request] of a server, [client_response] of a
    client) reports what arrives, through tasks posted to the [io_service].

    A callback is present or absent ([bool]); a posted lambda is a value of
    [task]; the [io_service] is a queue of tasks, run in order. *)

From S2P Require Import Prelude HttpCommons StructuredData HttpMessages Errors.

(** ** Local objects *)

(** [response::state]; [client_request::state] is the same without
    [send_continue]. *)
Inductive local_state :=
| st_send_continue | st_pending | st_headers_received | st_body_received
| st_trailer_received | st_ended.

#[export] Instance local_state_eq_dec : EqDecision local_state.
Proof. solve_decision. Defined.

(** The members; [message] is [response_headers] or [request_headers], a client
    has no [continue_required]. *)
Record local_object (M : Type) := {
  ended : bool;
  continue_required : bool;
  message : option M;
  content : string;
  trailers : list (string * string);
  error_callback : bool;
  write_callback : bool;
  myself : bool }.
Arguments ended {M} _.
Arguments continue_required {M} _.
Arguments message {M} _.
Arguments content {M} _.
Arguments trailers {M} _.
Arguments error_callback {M} _.
Arguments write_callback {M} _.
Arguments myself {M} _.

(** The tasks a local object posts. *)
Inductive local_task := run_error_callback | run_write_callback.

Module Local.
Section Local.
Context {M : Type}.
Implicit Types o : local_object M.

Definition new : local_object M :=
  {| ended := false; continue_required := false; message := None; content := "";
     trailers := []; error_callback := false; write_callback := false; myself := false |}.

Definition set_ended (b : bool) o : local_object M :=
  {| ended := b; continue_required := continue_required o; message := message o;
     content := content o; trailers := trailers o; error_callback := error_callback o;
     write_callback := write_callback o; myself := myself o |}.

Definition set_continue (b : bool) o : local_object M :=
  {| ended := ended o; continue_required := b; message := message o;
     content := content o; trailers := trailers o; error_callback := error_callback o;
     write_callback := write_callback o; myself := myself o |}.

Definition set_buffers (m : option M) (c : string) (t : list (string * string)) o : local_object M :=
  {| ended := ended o; continue_required := continue_required o; message := m;
     content := c; trailers := t; error_callback := error_callback o;
     write_callback := write_callback o; myself := myself o |}.

Definition set_callbacks (e w : bool) o : local_object M :=
  {| ended := ended o; continue_required := continue_required o; message := message o;
     content := content o; trailers := trailers o; error_callback := e;
     write_callback := w; myself := myself o |}.

Definition set_myself (b : bool) o : local_object M :=
  {| ended := ended o; continue_required := continue_required o; message := message o;
     content := content o; trailers := trailers o; error_callback := error_callback o;
     write_callback := write_callback o; myself := b |}.

(** The callbacks [hcb], [bcb], [tcb], [ccb] of a buffered object; the handler
    is notified after each. *)
Definition headers (res : M) o : local_object M := set_buffers (Some res) (content o) (trailers o) o.
Definition body (d : string) o : local_object M :=
  set_buffers (message o) (content o +:+ d) (trailers o) o.
Definition trailer (k v : string) o : local_object M :=
  set_buffers (message o) (content o) (trailers o ++ [(k, v)]) o.
Definition finish o : local_object M := set_ended true o.
Definition send_continue o : local_object M := set_continue true o.

Definition on_error o : local_object M := set_callbacks true (write_callback o) o.
Definition on_write o : local_object M := set_callbacks (error_callback o) true o.

(** [preamble()]: dereferencing an empty [optional] is undefined. *)
Definition preamble o : outcome (M * local_object M) :=
  m ← of_option Undefined (message o);
  mret (m, set_buffers None (content o) (trailers o) o).

Definition get_body o : string * local_object M :=
  (content o, set_buffers (message o) "" (trailers o) o).

(** [front()] of an empty queue is undefined. *)
Definition get_trailer o : outcome ((string * string) * local_object M) :=
  match trailers o with
  | [] => Crash Undefined
  | t :: ts => mret (t, set_buffers (message o) (content o) ts o)
  end.

(** [response::get_state()]. *)
Definition get_state o : local_state * local_object M :=
  if continue_required o then (st_send_continue, set_continue false o)
  else if bool_decide (is_Some (message o)) then (st_headers_received, o)
  else if negb (len (content o) =? 0) then (st_body_received, o)
  else if negb (Z.of_nat (length (trailers o)) =? 0) then (st_trailer_received, o)
  else if ended o then (st_ended, o)
  else (st_pending, o).

(** [client_request::get_state()]. *)
Definition client_get_state o : local_state :=
  if bool_decide (is_Some (message o)) then st_headers_received
  else if negb (len (content o) =? 0) then st_body_received
  else if negb (Z.of_nat (length (trailers o)) =? 0) then st_trailer_received
  else if ended o then st_ended
  else st_pending.

(** [response::error], [response::cleared]. *)
Definition error o : list local_task * local_object M :=
  ((if error_callback o then [run_error_callback] else []), set_myself false (set_ended true o)).
Definition cleared o : list local_task * local_object M :=
  ((if write_callback o then [run_write_callback] else []), set_myself false (set_ended true o)).

(** [client_request::error], [client_request::cleared]: [ended] is left alone. *)
Definition client_error o : list local_task * local_object M :=
  ((if error_callback o then [run_error_callback] else []), set_myself false o).
Definition client_cleared o : list local_task * local_object M :=
  ((if write_callback o then [run_write_callback] else []), set_myself false o).

(** The lambda [response::end()] posts, and [client_request::end()], which runs
    at once; [notify] is the content notification inside [ccb]. *)
Definition end_task (notify : local_object M -> local_object M) o : local_object M :=
  let o := notify (finish o) in set_myself (negb (ended o)) o.
Definition client_end (notify : local_object M -> local_object M) o : local_object M :=
  set_myself true (notify (finish o)).

(** One step of a poll: what the state announces is taken out. *)
Inductive piece :=
| piece_continue
| piece_headers (m : M)
| piece_body (s : string)
| piece_trailer (k v : string)
| piece_end.

Definition take_piece (st : local_state) o : outcome (option piece * local_object M) :=
  match st with
  | st_pending => mret (None, o)
  | st_headers_received => '(m, o) ← preamble o; mret (Some (piece_headers m), o)
  | st_body_received => let '(s, o) := get_body o in mret (Some (piece_body s), o)
  | st_trailer_received => '(t, o) ← get_trailer o; mret (Some (piece_trailer t.1 t.2), o)
  | st_ended => mret (Some piece_end, o)
  | st_send_continue => mret (Some piece_continue, o)
  end.

(** What is buffered, in the order in which a poll hands it over. *)
Definition buffered o : list piece :=
  ((if continue_required o then [piece_continue] else [])
   ++ (match message o with Some m => [piece_headers m] | None => [] end)
   ++ (if empty (content o) then [] else [piece_body (content o)])
   ++ ((fun t => piece_trailer t.1 t.2) <$> trailers o)
   ++ (if ended o then [piece_end] else []))%list.

Definition after_piece (p : piece) o : local_object M :=
  match p with
  | piece_continue => set_continue false o
  | piece_headers _ => set_buffers None (content o) (trailers o) o
  | piece_body _ => set_buffers (message o) "" (trailers o) o
  | piece_trailer _ _ => set_buffers (message o) (content o) (tail (trailers o)) o
  | piece_end => o
  end.

(** A poll never takes what is not there: it hands over the first buffered
    piece. *)
Lemma take_piece_spec o :
  let '(st, o1) := get_state o in
  take_piece st o1 =
    match buffered o with
    | [] => Ok (None, o)
    | p :: _ => Ok (Some p, after_piece p o)
    end /\
  (st = st_pending <-> buffered o = []).
Proof.
  unfold get_state, buffered. destruct (continue_required o) eqn:Ec; [by split|]. 
  destruct (message o) as [m|] eqn:Em.
  { rewrite bool_decide_eq_true_2 by eauto. split; [|split; done]. cbn. unfold preamble. by rewrite Em. }
  rewrite bool_decide_eq_false_2 by by apply is_Some_None.
  destruct (Z.eqb_spec (len (content o)) 0) as [El|El]; cbn [negb app].
  - apply len_zero in El. rewrite El. change (empty "") with true.
    destruct (trailers o) as [|[k v] ts] eqn:Et; cbn.
    + destruct (ended o); (split; [reflexivity|split; done]).
    + split; [|split; done]. cbn. unfold get_trailer. by rewrite Et.
  - assert (empty (content o) = false) as ->.
    { apply bool_decide_eq_false. intros H. apply El. by rewrite H. }
    by split.
Qed.

Lemma client_take_piece_spec o :
  continue_required o = false ->
  take_piece (client_get_state o) o =
    match buffered o with
    | [] => Ok (None, o)
    | p :: _ => Ok (Some p, after_piece p o)
    end /\
  (client_get_state o = st_pending <-> buffered o = []).
Proof.
  intros Hc. pose proof (take_piece_spec o) as H. unfold get_state in H. rewrite Hc in H.
  unfold client_get_state. by repeat case_match; simplify_eq.
Qed.

Lemma buffered_after p ps o :
  buffered o = p :: ps -> p <> piece_end -> buffered (after_piece p o) = ps.
Proof.
  unfold buffered. destruct (continue_required o) eqn:Ec; cbn [app].
  { intros [= <- <-] _. cbn. done. }
  destruct (message o) as [m|] eqn:Em; cbn [app].
  { intros [= <- <-] _. cbn. by rewrite Ec. }
  destruct (empty (content o)) eqn:El; cbn [app].
  - destruct (trailers o) as [|[k v] ts] eqn:Et; cbn [fmap list_fmap app].
    + destruct (ended o); [intros [= <- <-]|]; done.
    + intros [= <- <-] _. cbn. by rewrite Ec, Em, El, Et.
  - intros [= <- <-] _. cbn. by rewrite Ec, Em.
Qed.
End Local.
End Local.

(** ** Remote objects *)

(** Which callbacks the user has registered. *)
Record callbacks := {
  has_headers : bool;
  has_body : bool;
  has_error : bool;
  has_trailer : bool;
  has_finished : bool;
  has_continue : bool }.

Record remote_object (M : Type) := {
  cbs : callbacks;
  _preamble : M;
  conn_error : error_code;
  (** [request_terminated], [response_ended] *)
  terminated : bool }.
Arguments cbs {M} _.
Arguments _preamble {M} _.
Arguments conn_error {M} _.
Arguments terminated {M} _.

(** The lambdas a remote object posts, and what the user sees of them. *)
Inductive remote_task :=
| run_headers
| run_body (d : string)
| run_trailer (k v : string)
| run_finished
| run_error
| run_continue.

Inductive user_event :=
| saw_headers
| saw_body (d : string)
| saw_trailer (k v : string)
| saw_finished
| saw_error (e : error_code)
| saw_continue.

(** The calls of the handler. *)
Inductive trigger (M : Type) :=
| t_headers (m : M)
| t_body (d : string)
| t_trailer (k v : string)
| t_finished
| t_error (e : error_code)
| t_continue.
Arguments t_headers {M} _.
Arguments t_body {M} _.
Arguments t_trailer {M} _ _.
Arguments t_finished {M}.
Arguments t_error {M} _.
Arguments t_continue {M}.

Module Remote.
Section Remote.
Context {M : Type}.
Implicit Types r : remote_object M.

Definition set_terminated r : remote_object M :=
  {| cbs := cbs r; _preamble := _preamble r; conn_error := conn_error r; terminated := true |}.
Definition set_error (e : error_code) r : remote_object M :=
  {| cbs := cbs r; _preamble := _preamble r; conn_error := e; terminated := terminated r |}.
Definition set_preamble (m : M) r : remote_object M :=
  {| cbs := cbs r; _preamble := m; conn_error := conn_error r; terminated := terminated r |}.

(** [request::headers], [body], [trailer], [finished], [error]: every lambda is
    posted and looks for its callback when it runs. *)
Definition headers (m : M) r : list remote_task * remote_object M :=
  ([run_headers], set_preamble m r).
Definition body (d : string) r : list remote_task * remote_object M := ([run_body d], r).
Definition trailer (k v : string) r : list remote_task * remote_object M := ([run_trailer k v], r).
Definition finished r : list remote_task * remote_object M :=
  if terminated r then ([], r) else ([run_finished], set_terminated r).
Definition error (e : error_code) r : list remote_task * remote_object M :=
  if terminated r then ([], r) else ([run_error], set_terminated (set_error e r)).

(** [client_response]: a lambda is posted when its callback is there, and the
    object counts as ended once the lambda of [finished] or [error] has run. *)
Definition client_headers (m : M) r : list remote_task * remote_object M :=
  ((if has_headers (cbs r) then [run_headers] else []), set_preamble m r).
Definition client_body (d : string) r : list remote_task * remote_object M :=
  ((if has_body (cbs r) then [run_body d] else []), r).
Definition client_trailer (k v : string) r : list remote_task * remote_object M :=
  ((if has_trailer (cbs r) then [run_trailer k v] else []), r).
Definition client_finished r : list remote_task * remote_object M :=
  if terminated r then ([], r) else ((if has_finished (cbs r) then [run_finished] else []), r).
Definition client_error (e : error_code) r : list remote_task * remote_object M :=
  if terminated r then ([], r)
  else ((if has_error (cbs r) then [run_error] else []), set_error e r).
Definition response_continue r : list remote_task * remote_object M :=
  if terminated r then ([], r) else ((if has_continue (cbs r) then [run_continue] else []), r).

Definition pull (t : trigger M) r : list remote_task * remote_object M :=
  match t with
  | t_headers m => headers m r
  | t_body d => body d r
  | t_trailer k v => trailer k v r
  | t_finished => finished r
  | t_error e => error e r
  | t_continue => ([], r)
  end.

Definition client_pull (t : trigger M) r : list remote_task * remote_object M :=
  match t with
  | t_headers m => client_headers m r
  | t_body d => client_body d r
  | t_trailer k v => client_trailer k v r
  | t_finished => client_finished r
  | t_error e => client_error e r
  | t_continue => response_continue r
  end.

(** A lambda of a [request] runs. *)
Definition run_task (t : remote_task) r : list user_event * remote_object M :=
  match t with
  | run_headers => ((if has_headers (cbs r) then [saw_headers] else []), r)
  | run_body d => ((if has_body (cbs r) then [saw_body d] else []), r)
  | run_trailer k v => ((if has_trailer (cbs r) then [saw_trailer k v] else []), r)
  | run_finished => ((if has_finished (cbs r) then [saw_finished] else []), r)
  | run_error => ((if has_error (cbs r) then [saw_error (conn_error r)] else []), r)
  | run_continue => ([], r)
  end.

(** A lambda of a [client_response] runs: its callback was there when it was
    posted. *)
Definition client_run_task (t : remote_task) r : list user_event * remote_object M :=
  match t with
  | run_headers => ([saw_headers], r)
  | run_body d => ([saw_body d], r)
  | run_trailer k v => ([saw_trailer k v], r)
  | run_finished => ([saw_finished], set_terminated r)
  | run_error => ([saw_error (conn_error r)], set_terminated r)
  | run_continue => ([saw_continue], r)
  end.

(** ** The object, its tasks and its user *)
Record world := { object : remote_object M; tasks : list remote_task; seen : list user_event }.

Inductive action := do_pull (t : trigger M) | run_next.

(** [pull_] and [run_] are those of the class. *)
Definition act (pull_ : trigger M -> remote_object M -> list remote_task * remote_object M)
    (run_ : remote_task -> remote_object M -> list user_event * remote_object M)
    (w : world) (a : action) : world :=
  match a with
  | do_pull t =>
      let '(ts, r) := pull_ t (object w) in
      {| object := r; tasks := tasks w ++ ts; seen := seen w |}
  | run_next =>
      match tasks w with
      | [] => w
      | t :: ts =>
          let '(evs, r) := run_ t (object w) in
          {| object := r; tasks := ts; seen := seen w ++ evs |}
      end
  end.

Definition server_run (w : world) (l : list action) : world := foldl (act pull run_task) w l.
Definition client_run (w : world) (l : list action) : world :=
  foldl (act client_pull client_run_task) w l.

Definition start r : world := {| object := r; tasks := []; seen := [] |}.

Definition ends_task (t : remote_task) : bool :=
  match t with run_finished | run_error => true | _ => false end.
Definition ends_event (e : user_event) : bool :=
  match e with saw_finished | saw_error _ => true | _ => false end.

(** How many ends have been announced or are to be announced. *)
Definition ends (w : world) : nat :=
  (length (List.filter ends_task (tasks w)) + length (List.filter ends_event (seen w)))%nat.

Lemma filter_snoc {A} (f : A -> bool) l k :
  length (List.filter f (l ++ k)) = (length (List.filter f l) + length (List.filter f k))%nat.
Proof. by rewrite List.filter_app, length_app. Qed.

Lemma run_task_ends t r :
  (length (List.filter ends_event (fst (run_task t r))) <= if ends_task t then 1 else 0)%nat.
Proof. destruct t; cbn; try case_match; cbn; lia. Qed.

Lemma server_act_ends w a :
  (ends w <= (if terminated (object w) then 1 else 0))%nat ->
  (ends (act pull run_task w a) <=
    (if terminated (object (act pull run_task w a)) then 1 else 0))%nat.
Proof.
  intros H. destruct a as [t|]; cbn [act].
  - unfold ends, pull, headers, body, trailer, finished, error in *.
    destruct t, (terminated (object w)) eqn:E;
      cbn [tasks seen object terminated set_terminated set_error set_preamble];
      rewrite ?filter_snoc, ?E; cbn; lia.
  - unfold ends in *. destruct (tasks w) as [|t ts] eqn:Et; [by rewrite Et|].
    pose proof (run_task_ends t (object w)) as Hn.
    assert (Ht : (snd (run_task t (object w))) = object w) by by destruct t.
    destruct (run_task t (object w)) as [evs r]. cbn [fst snd] in *. subst r.
    cbn [tasks seen object]. rewrite filter_snoc. cbn [List.filter] in H.
    destruct (ends_task t); cbn [length] in H; lia.
Qed.

Lemma server_run_ends l w :
  (ends w <= (if terminated (object w) then 1 else 0))%nat ->
  (ends (server_run w l) <= (if terminated (object (server_run w l)) then 1 else 0))%nat.
Proof.
  revert w. induction l as [|a l IH]; intros w H; [done|]. cbn [server_run foldl].
  apply IH. by apply server_act_ends.
Qed.

(** The ends announced by a client are those its tasks carry. *)
Lemma client_act_quiet w a :
  terminated (object w) = true -> List.filter ends_task (tasks w) = [] ->
  terminated (object (act client_pull client_run_task w a)) = true /\
  List.filter ends_task (tasks (act client_pull client_run_task w a)) = [] /\
  ends (act client_pull client_run_task w a) = ends w.
Proof.
  intros Ht Hq. unfold ends. destruct a as [t|]; cbn [act].
  - unfold client_pull, client_headers, client_body, client_trailer, client_finished,
      client_error, response_continue. destruct t; rewrite ?Ht; cbn [tasks seen object];
      repeat case_match; cbn [tasks seen object terminated set_preamble];
      simplify_eq; rewrite ?List.filter_app, ?Hq; cbn; done.
  - destruct (tasks w) as [|t ts] eqn:Et; [by rewrite Et|]. cbn [List.filter] in Hq.
    destruct t; cbn [ends_task] in Hq; try discriminate; cbn [client_run_task tasks seen object];
      (split; [done|]); (split; [done|]); rewrite filter_snoc, Hq; cbn;
      rewrite Hq; cbn; lia.
Qed.
End Remote.
End Remote.

(** ** What the user writes *)

Inductive call (M : Type) :=
| c_headers (m : M)
| c_body (d : string)
| c_trailer (k v : string)
| c_end
| c_continue.
Arguments c_headers {M} _.
Arguments c_body {M} _.
Arguments c_trailer {M} _ _.
Arguments c_end {M}.
Arguments c_continue {M}.

(** A call of the user on a buffered object, the notification left out. *)
Definition write_call {M} (c : call M) (o : local_object M) : local_object M :=
  match c with
  | c_headers m => Local.headers m o
  | c_body d => Local.body d o
  | c_trailer k v => Local.trailer k v o
  | c_end => Local.finish o
  | c_continue => Local.send_continue o
  end.

Definition write_calls {M} (o : local_object M) (l : list (call M)) : local_object M :=
  foldl (fun o c => write_call c o) o l.

Definition last_headers {M} (l : list (call M)) : option M :=
  foldl (fun r c => match c with c_headers m => Some m | _ => r end) None l.
Definition bodies {M} (l : list (call M)) : string :=
  concat_str ((fun c => match c with c_body d => d | _ => "" end) <$> l).
Definition trailer_calls {M} (l : list (call M)) : list (string * string) :=
  omap (fun c => match c with c_trailer k v => Some (k, v) | _ => None end) l.
Definition has_end {M} (l : list (call M)) : bool :=
  existsb (fun c => match c with c_end => true | _ => false end) l.
Definition has_continue_call {M} (l : list (call M)) : bool :=
  existsb (fun c => match c with c_continue => true | _ => false end) l.

Lemma write_calls_fields {M} (l : list (call M)) :
  let o := write_calls Local.new l in
  message o = last_headers l /\ content o = bodies l /\ trailers o = trailer_calls l /\
  ended o = has_end l /\ continue_required o = has_continue_call l.
Proof.
  induction l as [|c l IH] using rev_ind; [done|].
  unfold write_calls, last_headers, bodies, trailer_calls, has_end, has_continue_call in *.
  rewrite !foldl_snoc, fmap_app, concat_str_app, omap_app, !existsb_app.
  destruct IH as (IH1 & IH2 & IH3 & IH4 & IH5).
  destruct c; cbn; rewrite ?IH1, ?IH2, ?IH3, ?IH4, ?IH5, ?string_app_nil_r, ?app_nil_r,
    ?orb_false_r, ?orb_true_r; done.
Qed.

(** Whatever the user writes on a local object, in any order, a poll that
    has not run yet will be handed: a continue if one was asked for, the last
    headers, the body parts joined, the trailers in order, and the end; the
    state it reads announces the first of these and is [pending] only when
    there is none. *)
Theorem local_buffering {M} (l : list (call M)) :
  let o := write_calls Local.new l in
  Local.buffered o =
    ((if has_continue_call l then [Local.piece_continue] else [])
     ++ (match last_headers l with Some m => [Local.piece_headers m] | None => [] end)
     ++ (if empty (bodies l) then [] else [Local.piece_body (bodies l)])
     ++ ((fun t => Local.piece_trailer t.1 t.2) <$> trailer_calls l)
     ++ (if has_end l then [Local.piece_end] else []))%list /\
  (let '(st, o1) := Local.get_state o in
   Local.take_piece st o1 =
     match Local.buffered o with
     | [] => Ok (None, o)
     | p :: _ => Ok (Some p, Local.after_piece p o)
     end /\
   (st = st_pending <-> Local.buffered o = [])) /\
  (forall p ps, Local.buffered o = p :: ps -> p <> Local.piece_end ->
    Local.buffered (Local.after_piece p o) = ps).
Proof.
  intros o. split_and!; [|apply Local.take_piece_spec|intros p ps; apply Local.buffered_after].
  unfold Local.buffered. destruct (write_calls_fields l) as (E1 & E2 & E3 & E4 & E5).
  subst o. by rewrite E1, E2, E3, E4, E5.
Qed.

Lemma local_buffering_witness :
  let l := [c_body "a"; c_headers 7; c_body "b"; c_end] in
  Local.buffered (write_calls Local.new l) =
    [Local.piece_headers 7; Local.piece_body "ab"; Local.piece_end].
Proof.
  intros l. rewrite (proj1 (local_buffering l)). vm_compute. reflexivity.
Defined.

(** ** What the user is told *)

Definition fresh {M} (c : callbacks) (m : M) : remote_object M :=
  {| cbs := c; _preamble := m; conn_error := success; terminated := false |}.

(** However calls of the handler and runs of posted lambdas interleave, the
    user of a [request] is told at most once that it finished or failed. *)
Theorem request_ends_once {M} (c : callbacks) (m : M) (l : list (Remote.action (M := M))) :
  (length (List.filter Remote.ends_event
    (Remote.seen (Remote.server_run (Remote.start (fresh c m)) l))) <= 1)%nat.
Proof.
  pose proof (Remote.server_run_ends l (Remote.start (fresh c m)) (le_n 0)) as H.
  unfold Remote.ends in H. case_match; lia.
Qed.

(** A [client_response] marks itself ended only when the lambda of its end
    runs: two ends that arrive before (a message end, then the loss of the
    connection) are both reported.  Once an end has been reported and no other
    is posted, nothing ends it again. *)
Theorem client_response_ends_twice {M} (c : callbacks) (m : M) (e : error_code) :
  has_finished c = true -> has_error c = true ->
  Remote.seen (Remote.client_run (Remote.start (fresh c m))
    [Remote.do_pull t_finished; Remote.do_pull (t_error e); Remote.run_next; Remote.run_next])
    = [saw_finished; saw_error e] /\
  forall w a, terminated (Remote.object w) = true ->
    List.filter Remote.ends_task (Remote.tasks (M := M) w) = [] ->
    Remote.ends (Remote.client_run w [a]) = Remote.ends w.
Proof.
  intros Hf He. split.
  - cbn. unfold Remote.client_finished, Remote.client_error. cbn. by rewrite Hf, He.
  - intros w a Ht Hq. apply (Remote.client_act_quiet w a Ht Hq).
Qed.

Definition all_callbacks : callbacks :=
  {| has_headers := true; has_body := true; has_error := true; has_trailer := true;
     has_finished := true; has_continue := true |}.

Lemma client_response_ends_twice_witness :
  Remote.seen (Remote.client_run (Remote.start (fresh all_callbacks tt))
    [Remote.do_pull t_finished; Remote.do_pull (t_error closed_by_client);
     Remote.run_next; Remote.run_next]) = [saw_finished; saw_error closed_by_client].
Proof.
  exact (proj1 (client_response_ends_twice all_callbacks tt closed_by_client eq_refl eq_refl)).
Defined.
