(* ===== verification/Encoder.v ===== *)
(** * The encoder half of the codec (src/src/http/http_codec.{h,cpp})

    [encode_header], [encode_body], [encode_trailer] and [encode_eom] with the
    state they assert, against a reader of the chunked coding. *)

From S2P Require Import Prelude CppStd Utils HttpCommons StructuredData HttpMessages.

Inductive encoder_state := ZERO | HEADER | BODY | TRAILER.

#[export] Instance encoder_state_eq_dec : EqDecision encoder_state.
Proof. solve_decision. Defined.

(** What the template parameter of [encode_header] has to provide. *)
Class Message (T : Type) := {
  msg_chunked : T -> bool;
  msg_serialize : T -> outcome string }.

#[export] Instance request_message : Message http_request :=
  {| msg_chunked r := _chunked (base r); msg_serialize := serialize_request |}.
#[export] Instance response_message : Message http_response :=
  {| msg_chunked r := _chunked (response_base r); msg_serialize := serialize_response |}.

(** The members of [http_codec] the encoder uses. *)
Record encoder := { enc_chunked : bool; enc_state : encoder_state }.

Definition new_encoder : encoder := {| enc_chunked := false; enc_state := ZERO |}.

Definition state_is (e : encoder) (l : list encoder_state) : bool := bool_decide (enc_state e ∈ l).

Definition encode_header `{Message T} (msg : T) (e : encoder) : outcome (string * encoder) :=
  _ ← cassert (state_is e [ZERO]);
  s ← msg_serialize msg;
  mret (s, {| enc_chunked := msg_chunked msg; enc_state := HEADER |}).

Definition encode_body (data : string) (e : encoder) : outcome (string * encoder) :=
  _ ← cassert (state_is e [HEADER; BODY]);
  let e := {| enc_chunked := enc_chunked e; enc_state := BODY |} in
  if empty data then mret ("", e)
  else if enc_chunked e then mret (from 64 (len data) +:+ crlf +:+ data +:+ crlf, e)
  else mret (data, e).

Definition encode_trailer (key data : string) (e : encoder) : outcome (string * encoder) :=
  _ ← cassert (state_is e [BODY; TRAILER]);
  mret (transfer_chunked_termination +:+ key +:+ colon_space +:+ data +:+ crlf,
        {| enc_chunked := enc_chunked e; enc_state := TRAILER |}).

Definition encode_eom (e : encoder) : outcome (string * encoder) :=
  _ ← cassert (negb (state_is e [ZERO]));
  let msg :=
    if enc_chunked e then
      match enc_state e with
      | HEADER | BODY => transfer_chunked_termination +:+ crlf
      | TRAILER => crlf
      | ZERO => ""
      end
    else "" in
  mret (msg, {| enc_chunked := enc_chunked e; enc_state := ZERO |}).

(** A sequence of calls between the header and the end of a message. *)
Fixpoint encode_bodies (ds : list string) (e : encoder) : outcome (string * encoder) :=
  match ds with
  | [] => mret ("", e)
  | d :: ds =>
      '(s, e) ← encode_body d e;
      '(t, e) ← encode_bodies ds e;
      mret (s +:+ t, e)
  end.

Fixpoint encode_trailers (ts : list (string * string)) (e : encoder) : outcome (string * encoder) :=
  match ts with
  | [] => mret ("", e)
  | t :: ts =>
      '(s, e) ← encode_trailer t.1 t.2 e;
      '(u, e) ← encode_trailers ts e;
      mret (s +:+ u, e)
  end.

(** A whole message. *)
Definition encode_message `{Message T} (msg : T) (ds : list string) (ts : list (string * string))
    (e : encoder) : outcome (string * encoder) :=
  '(h, e) ← encode_header msg e;
  '(b, e) ← encode_bodies ds e;
  '(t, e) ← encode_trailers ts e;
  '(z, e) ← encode_eom e;
  mret (h +:+ b +:+ t +:+ z, e).

(** ** A reader of the chunked coding (RFC 7230, section 4.1) *)

(** Lines up to an empty one. *)
Fixpoint read_lines (fuel : nat) (l : list ascii) : option (list string * list ascii) :=
  match fuel with
  | O => None
  | S fuel =>
      '(line, rest) ← read_line l;
      match line with
      | [] => Some ([], rest)
      | _ => '(ls, rest) ← read_lines fuel rest; Some (of_chars line :: ls, rest)
      end
  end.

(** Chunks, the last chunk, the trailer section: body, trailer lines, rest. *)
Fixpoint read_chunks (fuel : nat) (l : list ascii) : option (string * list string * string) :=
  match fuel with
  | O => None
  | S fuel' =>
      '(size, rest) ← read_line l;
      n ← parse_radix 16 (of_chars size);
      if n =? 0 then
        '(ls, rest) ← read_lines fuel rest;
        Some ("", ls, of_chars rest)
      else
        let n := Z.to_nat n in
        let '(data, rest) := (take n rest, drop n rest) in
        if negb (Nat.eqb (length data) n) then None
        else
          match rest with
          | c :: d :: rest =>
              if Ascii.eqb c "013"%char && Ascii.eqb d "010"%char then
                '(body, ls, rest) ← read_chunks fuel' rest;
                Some (of_chars data +:+ body, ls, rest)
              else None
          | _ => None
          end
  end.

(** ** Chunks are read back *)

Definition chunk (d : string) : string :=
  if empty d then "" else from 64 (len d) +:+ crlf +:+ d +:+ crlf.

Definition fits (d : string) : Prop := in_range 64 (len d).

Lemma hex_free d bad :
  forallb (fun d => negb (existsb (Ascii.eqb (digit_char d)) bad))
    [0;1;2;3;4;5;6;7;8;9;10;11;12;13;14;15] = true ->
  Forall (fun d => 0 <= d < 16) d -> free_of bad (of_chars (digit_char <$> d)) = true.
Proof.
  intros H HF. unfold free_of. rewrite chars_of_chars. rewrite forallb_forall in H.
  induction HF as [|x d Hd HF IH]; [done|]. cbn [fmap list_fmap forallb]. rewrite IH, andb_true_r.
  apply H. cbn [In]. lia.
Qed.

Lemma from_free n : 0 <= n -> free_of ["013"%char] (from 64 n) = true.
Proof.
  intros Hn. unfold from, print_radix. apply hex_free; [done|].
  apply digits_bound; [lia| |constructor]. apply wrap_range. lia.
Qed.

Lemma from_parse n : in_range 64 n -> parse_radix 16 (from 64 n) = Some n.
Proof.
  intros Hn. unfold from. rewrite wrap_id by done. apply parse_print_radix; [lia|].
  unfold in_range in Hn. lia.
Qed.

Lemma read_chunks_chunk fuel d rest :
  fits d -> d <> "" ->
  read_chunks (S fuel) (chars (chunk d +:+ rest)) =
    '(body, ls, rest) ← read_chunks fuel (chars rest); Some (d +:+ body, ls, rest).
Proof.
  intros Hf Hd. unfold chunk, empty. rewrite bool_decide_eq_false_2 by done.
  rewrite !string_app_assoc. cbn [read_chunks].
  rewrite read_line_app by by apply from_free, len_nonneg. cbn [mbind option_bind].
  rewrite of_chars_chars, from_parse by done. cbn [mbind option_bind].
  destruct (Z.eqb_spec (len d) 0) as [E|E]; [by apply len_zero in E|].
  unfold len. rewrite Nat2Z.id. rewrite chars_app.
  rewrite take_app_length, drop_app_length, Nat.eqb_refl. cbn [negb].
  rewrite chars_app. change (chars crlf) with ["013"%char; "010"%char].
  cbn [app]. rewrite !Ascii.eqb_refl. cbn [andb]. by rewrite of_chars_chars.
Qed.

(** The last chunk and the trailer section. *)
Definition last_chunk (lines : list string) : string :=
  transfer_chunked_termination +:+ concat_str ((fun l => l +:+ crlf) <$> lines) +:+ crlf.

Definition good_line (l : string) : Prop := l <> "" /\ free_of ["013"%char] l = true.

Lemma read_lines_lines fuel lines rest :
  (length lines < fuel)%nat -> Forall good_line lines ->
  read_lines fuel (chars (concat_str ((fun l => l +:+ crlf) <$> lines) +:+ crlf +:+ rest)) =
    Some (lines, chars rest).
Proof.
  intros L HF. revert fuel L. induction HF as [|l lines [Hne Hfr] HF IH]; intros fuel L;
    (destruct fuel as [|fuel]; [cbn in L; lia|]); cbn [read_lines fmap list_fmap concat_str].
  - rewrite string_app_nil_l. rewrite <- (string_app_nil_l (crlf +:+ rest)).
    rewrite read_line_app by done. done.
  - rewrite !string_app_assoc, read_line_app by done. cbn [mbind option_bind].
    rewrite IH by (cbn in L; lia). cbn [mbind option_bind]. rewrite of_chars_chars.
    destruct l; done.
Qed.

Lemma read_chunks_last fuel lines rest :
  (length lines < fuel)%nat -> Forall good_line lines ->
  read_chunks fuel (chars (last_chunk lines +:+ rest)) = Some ("", lines, rest).
Proof.
  intros L HF. destruct fuel as [|fuel]; [lia|]. unfold last_chunk, transfer_chunked_termination.
  rewrite !string_app_assoc. cbn [read_chunks].
  rewrite read_line_app by done. cbn [mbind option_bind].
  change (parse_radix 16 (of_chars (chars "0"))) with (Some 0). cbn [mbind option_bind Z.eqb].
  rewrite read_lines_lines by done. cbn [mbind option_bind]. by rewrite of_chars_chars.
Qed.

Lemma read_chunks_all fuel ds lines rest :
  (length ds + length lines < fuel)%nat -> Forall fits ds -> Forall good_line lines ->
  read_chunks fuel (chars (concat_str (chunk <$> ds) +:+ last_chunk lines +:+ rest)) =
    Some (concat_str ds, lines, rest).
Proof.
  intros L HF HG. revert fuel L. induction HF as [|d ds Hd HF IH]; intros fuel L;
    cbn [fmap list_fmap concat_str length] in *.
  - rewrite string_app_nil_l. by apply read_chunks_last.
  - destruct (decide (d = "")) as [->|Hne].
    + change (chunk "") with "". rewrite !string_app_nil_l. apply IH. lia.
    + destruct fuel as [|fuel]; [lia|]. rewrite string_app_assoc, read_chunks_chunk by done.
      rewrite IH by lia. done.
Qed.

(** ** What the encoder writes *)
Lemma encode_bodies_spec ds e :
  enc_state e = HEADER \/ enc_state e = BODY ->
  exists e', encode_bodies ds e =
      Ok ((if enc_chunked e then concat_str (chunk <$> ds) else concat_str ds), e') /\
    enc_chunked e' = enc_chunked e /\
    enc_state e' = match ds with [] => enc_state e | _ => BODY end.
Proof.
  revert e. induction ds as [|d ds IH]; intros e He.
  { exists e. split; [|done]. cbn. by destruct (enc_chunked e). }
  cbn [encode_bodies]. unfold encode_body, state_is.
  rewrite bool_decide_eq_true_2 by (rewrite !elem_of_cons; tauto). cbn [cassert mbind outcome_bind].
  destruct (IH {| enc_chunked := enc_chunked e; enc_state := BODY |}) as (e' & E & H1 & H2);
    [by right|]. cbn [enc_chunked enc_state] in *. exists e'. split.
  - cbn [fmap list_fmap concat_str]. unfold chunk at 1. unfold mbind, outcome_bind in *.
    destruct (empty d) eqn:Ed; [apply bool_decide_eq_true in Ed as ->|].
    + cbn. rewrite E. cbn. by destruct (enc_chunked e).
    + cbn. destruct (enc_chunked e); cbn; rewrite E; done.
  - split; [done|]. rewrite H2. by destruct ds.
Qed.

Lemma encode_trailers_spec ts e :
  ts = [] \/ enc_state e = BODY \/ enc_state e = TRAILER ->
  exists e', encode_trailers ts e =
      Ok (concat_str ((fun t => transfer_chunked_termination +:+ t.1 +:+ colon_space +:+ t.2 +:+ crlf)
            <$> ts), e') /\
    enc_chunked e' = enc_chunked e /\
    enc_state e' = match ts with [] => enc_state e | _ => TRAILER end.
Proof.
  revert e. induction ts as [|t ts IH]; intros e He; [by exists e|].
  destruct He as [He|He]; [done|]. cbn [encode_trailers]. unfold encode_trailer, state_is.
  rewrite bool_decide_eq_true_2 by (rewrite !elem_of_cons; tauto). cbn [cassert mbind outcome_bind].
  destruct (IH {| enc_chunked := enc_chunked e; enc_state := TRAILER |}) as (e' & E & H1 & H2);
    [by right; right|]. cbn [enc_chunked enc_state] in *. exists e'. split.
  - unfold mbind, outcome_bind, mret, outcome_ret in *. by rewrite E.
  - split; [done|]. rewrite H2. by destruct ts.
Qed.

(** The trailer section as it is written: every trailer but the first comes
    after one more last chunk. *)
Definition trailer_line (t : string * string) : string := t.1 +:+ colon_space +:+ t.2.

Fixpoint later_lines (ts : list (string * string)) : list string :=
  match ts with [] => [] | t :: ts => "0" :: trailer_line t :: later_lines ts end.

Definition written_lines (ts : list (string * string)) : list string :=
  match ts with [] => [] | t :: ts => trailer_line t :: later_lines ts end.

Definition good_trailer (t : string * string) : Prop := free_of ["013"%char] (trailer_line t) = true.

Lemma trailers_as_lines t ts :
  concat_str ((fun t => transfer_chunked_termination +:+ t.1 +:+ colon_space +:+ t.2 +:+ crlf)
     <$> t :: ts) +:+ crlf = last_chunk (written_lines (t :: ts)).
Proof.
  unfold last_chunk, written_lines. revert t. induction ts as [|u ts IH]; intros t.
  - cbn [fmap list_fmap concat_str later_lines]. unfold trailer_line.
    by rewrite ?string_app_nil_r, ?string_app_assoc.
  - change (concat_str ((fun t => transfer_chunked_termination +:+ t.1 +:+ colon_space +:+ t.2 +:+ crlf)
     <$> t :: u :: ts)) with ((transfer_chunked_termination +:+ t.1 +:+ colon_space +:+ t.2 +:+ crlf) +:+
     concat_str ((fun t => transfer_chunked_termination +:+ t.1 +:+ colon_space +:+ t.2 +:+ crlf)
     <$> u :: ts)).
    rewrite string_app_assoc, IH. cbn [later_lines fmap list_fmap concat_str].
    unfold trailer_line, transfer_chunked_termination. by rewrite ?string_app_assoc.
Qed.

Lemma good_later ts : Forall good_trailer ts -> Forall good_line (later_lines ts).
Proof.
  induction 1 as [|t ts Ht HF IH]; [constructor|]. cbn [later_lines].
  constructor; [done|]. constructor; [|done]. split; [|done].
  unfold trailer_line. by destruct t.1.
Qed.

Lemma good_written ts : Forall good_trailer ts -> Forall good_line (written_lines ts).
Proof.
  destruct 1 as [|t ts Ht HF]; [constructor|]. cbn [written_lines].
  constructor; [|by apply good_later]. split; [|done]. unfold trailer_line. by destruct t.1.
Qed.

Lemma length_written ts : (length (written_lines ts) <= 2 * length ts)%nat.
Proof.
  destruct ts as [|t ts]; [done|]. cbn [written_lines length].
  assert (length (later_lines ts) = 2 * length ts)%nat as ->;
    [induction ts; cbn [later_lines length]; lia|lia].
Qed.

Lemma encode_message_ok `{Message T} (msg : T) (h : string) ds ts e :
  msg_serialize msg = Ok h -> enc_state e = ZERO -> (ts <> [] -> ds <> []) ->
  exists e', encode_message msg ds ts e =
      Ok (h +:+ (if msg_chunked msg then concat_str (chunk <$> ds) +:+ last_chunk (written_lines ts)
                 else concat_str ds +:+ concat_str ((fun t => transfer_chunked_termination +:+ t.1
                        +:+ colon_space +:+ t.2 +:+ crlf) <$> ts)), e') /\
    enc_state e' = ZERO.
Proof.
  intros Hs He Ht. unfold encode_message, encode_header, state_is.
  rewrite bool_decide_eq_true_2 by (rewrite He; by left). rewrite Hs.
  cbn [cassert mbind outcome_bind mret outcome_ret].
  set (e1 := {| enc_chunked := msg_chunked msg; enc_state := HEADER |}).
  destruct (encode_bodies_spec ds e1) as (e2 & E2 & C2 & S2); [by left|].
  destruct (encode_trailers_spec ts e2) as (e3 & E3 & C3 & S3).
  { rewrite S2. destruct ts; [by left|]. destruct ds; [by destruct Ht|]. by right; left. }
  unfold mbind, outcome_bind in *. rewrite E2, E3.
  assert (C : enc_chunked e3 = msg_chunked msg) by by rewrite C3, C2.
  assert (S : enc_state e3 = match ts with
    | [] => match ds with [] => HEADER | _ => BODY end | _ => TRAILER end).
  { rewrite S3. by destruct ts. }
  unfold encode_eom, state_is. rewrite bool_decide_eq_false_2.
  2:{ rewrite S. intros Hin%list_elem_of_singleton. by destruct ts, ds. }
  cbn [negb cassert mbind outcome_bind mret outcome_ret].
  exists {| enc_chunked := enc_chunked e3; enc_state := ZERO |}. split; [|reflexivity].
  f_equal. f_equal. f_equal. rewrite C. cbn [enc_chunked e1].
  destruct (msg_chunked msg); [|by rewrite string_app_nil_r].
  f_equal. rewrite S. destruct ts as [|t ts].
  - cbn [fmap list_fmap concat_str]. rewrite string_app_nil_l. by destruct ds.
  - apply trailers_as_lines.
Qed.

(** ** Theorems *)

(** C19: a chunked message with at most one trailer is read back: after the
    header, a reader of the chunked coding finds the body parts joined, the
    trailer, and what follows the message; a message without chunked coding and
    trailers is its header and its body parts.  The encoder is then ready for
    the next header. *)
Theorem encoded_message_read `{Message T} (msg : T) (h : string) (ds : list string)
    (ts : list (string * string)) (e : encoder) (rest : string) (fuel : nat) :
  msg_serialize msg = Ok h -> enc_state e = ZERO -> (ts <> [] -> ds <> []) ->
  (length ts <= 1)%nat -> Forall fits ds -> Forall good_trailer ts ->
  (length ds + 2 <= fuel)%nat ->
  exists s e', encode_message msg ds ts e = Ok (h +:+ s, e') /\ enc_state e' = ZERO /\
    (msg_chunked msg = true ->
      read_chunks fuel (chars (s +:+ rest)) = Some (concat_str ds, trailer_line <$> ts, rest)) /\
    (msg_chunked msg = false -> ts = [] -> s = concat_str ds).
Proof.
  intros Hs He Ht Hl Hf Hg Hfuel.
  destruct (encode_message_ok msg h ds ts e Hs He Ht) as (e' & E & He').
  eexists _, e'. split; [exact E|]. split; [done|]. split.
  - intros ->. rewrite string_app_assoc, read_chunks_all; [|..].
    + f_equal. f_equal. destruct ts as [|t [|u ts]]; [done|done|cbn in Hl; lia].
    + pose proof (length_written ts).
      destruct ts as [|t [|u ts]]; cbn in *; lia.
    + done.
    + by apply good_written.
  - intros -> ->. cbn [fmap list_fmap concat_str]. by rewrite string_app_nil_r.
Qed.

Definition chunked_response : http_response :=
  {| response_base := set_chunked true sample_data; _status_code := 200; _status_message := "OK" |}.

Lemma encoded_message_read_witness :
  exists h s e', msg_serialize chunked_response = Ok h /\
    encode_message chunked_response ["abc"; ""; "d"] [("k", "v")] new_encoder = Ok (h +:+ s, e') /\
    read_chunks 10 (chars (s +:+ "next")) = Some ("abcd", ["k: v"], "next").
Proof.
  assert (exists h, msg_serialize chunked_response = Ok h) as [h Eh] by (vm_compute; eauto).
  destruct (encoded_message_read chunked_response h ["abc"; ""; "d"] [("k", "v")] new_encoder
    "next" 10) as (s & e' & E & _ & Hr & _).
  - exact Eh.
  - reflexivity.
  - discriminate.
  - cbn. lia.
  - repeat constructor; vm_compute; congruence.
  - repeat constructor.
  - cbn. lia.
  - exists h, s, e'. split_and!; [exact Eh|exact E|]. exact (Hr eq_refl).
Defined.

(** With two or more trailers the framing is broken: a last chunk is written
    in front of every trailer, so a reader finds a line ["0"] among the
    trailers. *)
Theorem trailers_break_framing `{Message T} (msg : T) (h : string) (ds : list string)
    (t u : string * string) (e : encoder) (fuel : nat) :
  msg_serialize msg = Ok h -> enc_state e = ZERO -> msg_chunked msg = true -> ds <> [] ->
  Forall fits ds -> good_trailer t -> good_trailer u -> (length ds + 4 <= fuel)%nat ->
  exists s e', encode_message msg ds [t; u] e = Ok (h +:+ s, e') /\
    read_chunks fuel (chars s) = Some (concat_str ds, [trailer_line t; "0"; trailer_line u], "").
Proof.
  intros Hs He Hc Hne Hf Ht Hu Hfuel.
  destruct (encode_message_ok msg h ds [t; u] e Hs He) as (e' & E & _); [done|].
  eexists _, e'. split; [exact E|]. rewrite Hc. rewrite <- (string_app_nil_r (last_chunk _)).
  apply read_chunks_all; [cbn; lia|done|].
  apply (good_written [t; u]). by repeat constructor.
Qed.

Lemma trailers_break_framing_witness :
  exists h s e', msg_serialize chunked_response = Ok h /\
    encode_message chunked_response ["abc"] [("k", "v"); ("l", "w")] new_encoder =
      Ok (h +:+ s, e') /\
    read_chunks 10 (chars s) = Some ("abc", ["k: v"; "0"; "l: w"], "").
Proof.
  assert (exists h, msg_serialize chunked_response = Ok h) as [h Eh] by (vm_compute; eauto).
  destruct (trailers_break_framing chunked_response h ["abc"] ("k", "v") ("l", "w") new_encoder 10)
    as (s & e' & E & Hr).
  - exact Eh.
  - reflexivity.
  - reflexivity.
  - discriminate.
  - repeat constructor; vm_compute; congruence.
  - reflexivity.
  - reflexivity.
  - cbn. lia.
  - exists h, s, e'. split_and!; [exact Eh|exact E|exact Hr].
Defined.

(** ** The protocol of the encoder *)

(** The calls, and the order the assertions allow: a header, body parts,
    trailers only after a body part, the end. *)
Inductive encoder_call := call_header | call_body (d : string) | call_trailer (k v : string) | call_eom.

Definition encoder_step `{Message T} (msg : T) (c : encoder_call) (e : encoder)
    : outcome (string * encoder) :=
  match c with
  | call_header => encode_header msg e
  | call_body d => encode_body d e
  | call_trailer k v => encode_trailer k v e
  | call_eom => encode_eom e
  end.

Fixpoint encoder_run `{Message T} (msg : T) (cs : list encoder_call) (e : encoder)
    : outcome encoder :=
  match cs with
  | [] => mret e
  | c :: cs => '(_, e) ← encoder_step msg c e; encoder_run msg cs e
  end.

(** The same as a regular language, recognised by a state and the call to come:
    messages of a header, body parts, trailers after body parts and an end, one
    after the other, cut off anywhere. *)
Fixpoint allowed (s : encoder_state) (cs : list encoder_call) : bool :=
  match cs with
  | [] => true
  | call_header :: cs => bool_decide (s = ZERO) && allowed HEADER cs
  | call_body _ :: cs => bool_decide (s = HEADER \/ s = BODY) && allowed BODY cs
  | call_trailer _ _ :: cs => bool_decide (s = BODY \/ s = TRAILER) && allowed TRAILER cs
  | call_eom :: cs => bool_decide (s <> ZERO) && allowed ZERO cs
  end.

(** On messages that serialize, the encoder's assertions hold exactly on the
    sequences: header, then body parts, then trailers - these only after a body
    part -, then the end, repeated; in particular a trailer right after a
    header ends the process. *)
Theorem encoder_protocol `{Message T} (msg : T) (h : string) (cs : list encoder_call) (e : encoder) :
  msg_serialize msg = Ok h ->
  is_ok (encoder_run msg cs e) = allowed (enc_state e) cs.
Proof.
  intros Hs. revert e. induction cs as [|c cs IH]; intros e; [done|].
  cbn [encoder_run]. destruct e as [ch st].
  destruct c as [|d|k v|]; cbn [encoder_step allowed enc_state];
    unfold encode_header, encode_body, encode_trailer, encode_eom, state_is; rewrite ?Hs;
    cbn [enc_state enc_chunked];
    destruct st; cbn [cassert mbind outcome_bind mret outcome_ret bool_decide];
    rewrite ?bool_decide_eq_true_2 by (rewrite ?elem_of_cons; (done || tauto || by left));
    rewrite ?bool_decide_eq_false_2 by
      (rewrite ?elem_of_cons, ?elem_of_nil; (intros ?; intuition congruence));
    try destruct (empty d); try destruct ch; cbn; rewrite ?IH; done.
Qed.

Lemma encoder_protocol_witness :
  exists h, msg_serialize chunked_response = Ok h /\
    is_ok (encoder_run chunked_response [call_header; call_trailer "k" "v"] new_encoder) = false.
Proof.
  assert (exists h, msg_serialize chunked_response = Ok h) as [h Eh] by (vm_compute; eauto).
  exists h. split; [exact Eh|]. rewrite (encoder_protocol _ _ _ _ Eh). reflexivity.
Defined.
