(* ===== verification/Connector.v ===== *)
(** * The connector (src/src/connector.h, src/src/protocol/http_handler.h)

    A connector owns a socket, its read buffer, a deadline timer and a handler.
    The socket is the environment: an asynchronous operation is started by
    recording it in the state and completed by a [*_done] operation, which is
    the body of its completion lambda.  The handler is known through the class
    [HttpHandler]; what the connector needs of it is [HandlerLaws].

    A connector calls [on_write] of its handler, which may call [do_write] of the
    connector before it returns: [do_write_with] has this, [do_write] is what is
    left of it for the handlers that do not call back ([QuietHandler]). *)

From S2P Require Import Prelude ReusableBuffer.

(** ** The interface of a handler ([http_handler]) *)

(** What [on_write(chunk)] does: it returns, having assigned a string to the
    chunk or left it alone; an exception leaves it, or worse; or it calls
    [connector()->do_write()] and goes on with the handler as that leaves it. *)
Inductive writing (H : Type) :=
| returns (answer : bool) (chunk : option string) (h : H)
| fails (e : failure)
| calls_do_write (h : H) (go_on : H -> writing H).
Arguments returns {H} _ _ _.
Arguments fails {H} _.
Arguments calls_do_write {H} _ _.

(** [H] is the state of the handler and [T] the type of the closures it asks to
    be posted. *)
Class HttpHandler (H T : Type) := {
  on_write : H -> writing H;
  (** [write_feedbacks()]: pairs of success and error callbacks. *)
  write_feedbacks : H -> list (T * T) * H;
  should_stop : H -> bool;
  (** What [trigger_timeout_event] posts. *)
  timeout_event : H -> list T }.

(** A handler whose [on_write] does not call back: its answer, the chunk, which is
    empty when it is called, and the handler. *)
Class QuietHandler (H T : Type) `{HttpHandler H T} := {
  quiet_write : H -> (bool * string) * H;
  quiet h : exists chunk, on_write h = returns (quiet_write h).1.1 chunk (quiet_write h).2 /\
    default "" chunk = (quiet_write h).1.2 }.

(** Running [on_write] on a stock of the bytes [q] and the feedbacks [p]: what it
    gives out are the first bytes, it keeps the rest and the feedbacks, and when it
    calls back, it has not given out anything. *)
Inductive lawful {H T : Type} (outbox : H -> string) (pending : H -> list (T * T)) :
    string -> list (T * T) -> writing H -> Prop :=
| lawful_returns q p answer chunk h :
    q = default "" chunk +:+ outbox h -> pending h = p -> (answer = false -> default "" chunk = "") ->
    lawful outbox pending q p (returns answer chunk h)
| lawful_fails q p e : lawful outbox pending q p (fails e)
| lawful_calls h go_on :
    (forall h', lawful outbox pending (outbox h') (pending h') (go_on h')) ->
    lawful outbox pending (outbox h) (pending h) (calls_do_write h go_on).

(** The bytes and the feedbacks a handler has in stock, and how [on_write] and
    [write_feedbacks] take them out. *)
Class HandlerLaws (H T : Type) `{HttpHandler H T} := {
  outbox : H -> string;
  pending : H -> list (T * T);
  on_write_lawful h : lawful outbox pending (outbox h) (pending h) (on_write h);
  (** It answers true and gives out something, when there is something. *)
  on_write_progress h answer chunk h' :
    on_write h = returns answer chunk h' -> outbox h <> "" -> answer = true /\ default "" chunk <> "";
  feedbacks_all h : (write_feedbacks h).1 = pending h;
  feedbacks_taken h : pending (write_feedbacks h).2 = [];
  feedbacks_outbox h : outbox (write_feedbacks h).2 = outbox h }.

Section Connector.
Context {H T : Type} `{HttpHandler H T} (N : nat) (order : argument_order).

Record connector := {
  _handler : H;
  _rb : reusable_buffer;
  _out : string;
  _ttl : Z;
  (** the deadline timer has a wait under way *)
  deadline : bool;
  _writing : bool;
  _stopped : bool;
  (** the memory handed to [async_read_some] *)
  reading : option (nat * nat);
  (** the feedbacks captured by the completion of [async_write] *)
  in_flight : option (list (T * T));
  (** the buffers given to [async_write], first to last *)
  writes : list string;
  (** the closures posted to the [io_service], first to last *)
  posted : list T }.

Definition set_handler (h : H) (c : connector) : connector :=
  {| _handler := h; _rb := _rb c; _out := _out c; _ttl := _ttl c; deadline := deadline c;
     _writing := _writing c; _stopped := _stopped c; reading := reading c;
     in_flight := in_flight c; writes := writes c; posted := posted c |}.

Definition set_rb (b : reusable_buffer) (r : option (nat * nat)) (c : connector) : connector :=
  {| _handler := _handler c; _rb := b; _out := _out c; _ttl := _ttl c; deadline := deadline c;
     _writing := _writing c; _stopped := _stopped c; reading := r;
     in_flight := in_flight c; writes := writes c; posted := posted c |}.

Definition set_out (s : string) (c : connector) : connector :=
  {| _handler := _handler c; _rb := _rb c; _out := s; _ttl := _ttl c; deadline := deadline c;
     _writing := _writing c; _stopped := _stopped c; reading := reading c;
     in_flight := in_flight c; writes := writes c; posted := posted c |}.

Definition set_timer (ttl : Z) (d : bool) (c : connector) : connector :=
  {| _handler := _handler c; _rb := _rb c; _out := _out c; _ttl := ttl; deadline := d;
     _writing := _writing c; _stopped := _stopped c; reading := reading c;
     in_flight := in_flight c; writes := writes c; posted := posted c |}.

Definition set_stopped (c : connector) : connector :=
  {| _handler := _handler c; _rb := _rb c; _out := _out c; _ttl := _ttl c; deadline := deadline c;
     _writing := _writing c; _stopped := true; reading := reading c;
     in_flight := in_flight c; writes := writes c; posted := posted c |}.

Definition set_write (w : bool) (cbs : option (list (T * T))) (ws : list string) (c : connector)
    : connector :=
  {| _handler := _handler c; _rb := _rb c; _out := _out c; _ttl := _ttl c; deadline := deadline c;
     _writing := w; _stopped := _stopped c; reading := reading c;
     in_flight := cbs; writes := ws; posted := posted c |}.

(** [io_service().post] of several closures. *)
Definition post (ts : list T) (c : connector) : connector :=
  {| _handler := _handler c; _rb := _rb c; _out := _out c; _ttl := _ttl c; deadline := deadline c;
     _writing := _writing c; _stopped := _stopped c; reading := reading c;
     in_flight := in_flight c; writes := writes c; posted := posted c ++ ts |}.

Definition new_connector (h : H) : connector :=
  {| _handler := h; _rb := new_buffer N; _out := ""; _ttl := 0; deadline := false;
     _writing := false; _stopped := false; reading := None; in_flight := None; writes := [];
     posted := [] |}.

(** ** The timer *)
Definition cancel_deadline (c : connector) : connector := set_timer (_ttl c) false c.
Definition schedule_deadline (msec : Z) (c : connector) : connector := set_timer (_ttl c) true c.
Definition renew_ttl (c : connector) : connector :=
  if negb (_ttl c =? 0) then schedule_deadline (_ttl c) c else c.
Definition set_timeout (ms : Z) (c : connector) : connector :=
  renew_ttl (set_timer ms (deadline c) c).

(** The completion of the wait, when the deadline has expired. *)
Definition deadline_done (c : connector) : connector :=
  renew_ttl (post (timeout_event (_handler c)) (set_timer (_ttl c) false c)).

(** [stop()], on either kind of socket: the timer is cancelled, the socket shut
    down, its operations cancelled. *)
Definition stop (c : connector) : connector :=
  if negb (_stopped c) then set_timer 0 false (set_stopped c) else c.

Definition close (c : connector) : connector := stop c.

(** ** Reading *)
Definition do_read (c : connector) : connector :=
  if _stopped c then c
  else
    let c := renew_ttl c in
    let '(buf, b) := reserve N order (_rb c) in
    set_rb b (Some buf) c.

Inductive io_error := operation_canceled | other_error.

#[export] Instance io_error_eq_dec : EqDecision io_error.
Proof. solve_decision. Defined.

(** The completion of [async_read_some]: [data] has been read into the reserved
    memory; [on_read] is the handler's, which may call back [do_write]. *)
Definition read_done (on_read : list Z -> connector -> outcome (bool * connector))
    (data : list Z) (c : connector) : outcome connector :=
  let off := match reading c with Some (off, _) => off | None => 0%nat end in
  let c := cancel_deadline (set_rb (fill off data (_rb c)) None c) in
  _ ← cassert (negb (Z.of_nat (length data) =? 0));
  let '(ptr, b) := produce N (length data) (_rb c) in
  tmp ← of_option Undefined ptr;
  let c := set_rb b None c in
  '(ok, c) ← on_read (take (length data) (drop tmp (mem (_rb c)))) c;
  if (ok : bool) then
    let '(_, b) := consume N (tmp + length data) (_rb c) in
    mret (do_read (set_rb b (reading c) c))
  else mret (stop c).

Definition read_failed (ec : io_error) (c : connector) : connector :=
  let c := cancel_deadline (set_rb (_rb c) None c) in
  if bool_decide (ec <> operation_canceled) then stop c else c.

(** ** Writing *)
Definition take_feedbacks (c : connector) : list (T * T) * connector :=
  let '(cbs, h) := write_feedbacks (_handler c) in (cbs, set_handler h c).

(** What follows the call of [on_write]. *)
Definition finish_write (answer : bool) (c : connector) : connector :=
  if negb answer then
    let '(cbs, c) := take_feedbacks c in post (fst <$> cbs) c
  else if empty (_out c) && should_stop (_handler c) then
    let '(cbs, c) := take_feedbacks c in stop (post (fst <$> cbs) c)
  else if empty (_out c) then c
  else
    let '(cbs, c) := take_feedbacks c in
    set_write true (Some cbs) (writes c ++ [_out c]) c.

(** [_out] is the memory of the write under way: it must stay as it is until the
    write completes, and no second write may be started. *)
Definition assign_out (chunk : option string) (c : connector) : outcome connector :=
  match chunk with
  | Some s => _ ← guard_ub (negb (_writing c)); mret (set_out s c)
  | None => mret c
  end.

Definition write_allowed (answer : bool) (c : connector) : bool :=
  negb (_writing c && answer && negb (empty (_out c))).

(** The call of [on_write], [again] for the [do_write] it calls. *)
Fixpoint call_on_write (again : connector -> option (outcome connector)) (t : writing H) (c : connector)
    : option (outcome (bool * connector)) :=
  match t with
  | returns answer chunk h => Some (c ← assign_out chunk (set_handler h c); mret (answer, c))
  | fails e => Some (Crash e)
  | calls_do_write h go_on =>
      match again (set_handler h c) with
      | Some (Ok c) => call_on_write again (go_on (_handler c)) c
      | Some (Crash e) => Some (Crash e)
      | None => None
      end
  end.

(** [do_write()], with at most [fuel] calls of it inside each other: [None] when
    there are more. *)
Fixpoint do_write_with (fuel : nat) (c : connector) : option (outcome connector) :=
  match fuel with
  | O => None
  | S fuel =>
      if _writing c || _stopped c then Some (mret c)
      else
        let c := renew_ttl c in
        let c := set_out "" c in
        match call_on_write (do_write_with fuel) (on_write (_handler c)) c with
        | None => None
        | Some r => Some ('(answer, c) ← r; _ ← guard_ub (write_allowed answer c); mret (finish_write answer c))
        end
  end.

(** The completion of [async_write]: what it does before [do_write]. *)
Definition write_completed (ec : option io_error) (c : connector) : connector :=
  let cbs := default [] (in_flight c) in
  let c := set_write false None (writes c) (cancel_deadline c) in
  match ec with
  | None => post (fst <$> cbs) c
  | Some e =>
      let c := if bool_decide (e <> operation_canceled) then stop c else c in
      post (snd <$> cbs) c
  end.

Definition write_done_with (fuel : nat) (ec : option io_error) (c : connector) : option (outcome connector) :=
  match ec with
  | None => do_write_with fuel (write_completed ec c)
  | Some _ => Some (mret (write_completed ec c))
  end.

(** *** Without calls back *)
Section Quiet.
Context `{!QuietHandler H T}.

Definition do_write (c : connector) : connector :=
  if _writing c || _stopped c then c
  else
    let c := renew_ttl c in
    let c := set_out "" c in
    let '((answer, out), h) := quiet_write (_handler c) in
    finish_write answer (set_out out (set_handler h c)).

Definition write_done (ec : option io_error) (c : connector) : connector :=
  match ec with None => do_write (write_completed ec c) | Some _ => write_completed ec c end.

End Quiet.

(** [start()], the answer of the handler's [start] given. *)
Definition start_connector (started : bool) (c : connector) : connector :=
  if started then do_read c else c.
End Connector.
Arguments connector : clear implicits.
Arguments Build_connector {H T}.

(** ** The write side *)
Section Begun.
Context {H T : Type}.
Implicit Types c : connector H T.

(** [do_write] before [on_write]. *)
Lemma begun_writing c : _writing (set_out "" (renew_ttl c)) = _writing c.
Proof. unfold renew_ttl. by case_match. Qed.

Lemma begun_handler c : _handler (set_out "" (renew_ttl c)) = _handler c.
Proof. unfold renew_ttl. by case_match. Qed.

Lemma do_write_with_step `{HttpHandler H T} fuel c :
  _writing c = false -> _stopped c = false ->
  do_write_with (S fuel) c =
    match call_on_write (do_write_with fuel) (on_write (_handler c)) (set_out "" (renew_ttl c)) with
    | None => None
    | Some r => Some ('(answer, c) ← r; _ ← guard_ub (write_allowed answer c); mret (finish_write answer c))
    end.
Proof. intros Hw Hs. cbn [do_write_with]. by rewrite Hw, Hs, begun_handler. Qed.

End Begun.

Section Writing.
Context {H T : Type} `{HandlerLaws H T}.
Implicit Types c : connector H T.

(** The bytes and feedbacks the handler has ever had are accounted for: written
    or in stock, posted, in flight or in stock; one write at a time. *)
Record accounted (c : connector H T) (produced : string) (asked : list (T * T)) : Prop := {
  acc_bytes : concat_str (writes c) +:+ outbox (_handler c) = produced;
  acc_one : _writing c = bool_decide (is_Some (in_flight c));
  acc_feedbacks : exists settled : list ((T * T) * bool),
    posted c = (fun s : (T * T) * bool => if s.2 then s.1.1 else s.1.2) <$> settled /\
    (fst <$> settled) ++ default [] (in_flight c) ++ pending (_handler c) = asked }.

(** What happens to the write side of a connector.  Between its own operations
    the handler may be given bytes and feedbacks. *)
Inductive write_step : connector H T * string * list (T * T) ->
    connector H T * string * list (T * T) -> Prop :=
| step_handler c p q h s fs :
    outbox h = outbox (_handler c) +:+ s -> pending h = pending (_handler c) ++ fs ->
    write_step (c, p, q) (set_handler h c, p +:+ s, q ++ fs)
| step_do_write fuel c c' p q : do_write_with fuel c = Some (Ok c') -> write_step (c, p, q) (c', p, q)
| step_write_done fuel c c' p q ec :
    is_Some (in_flight c) -> write_done_with fuel ec c = Some (Ok c') -> write_step (c, p, q) (c', p, q)
| step_stop c p q : write_step (c, p, q) (stop c, p, q)
| step_set_timeout c p q ms : write_step (c, p, q) (set_timeout ms c, p, q).

(** Nothing is left to do: stopped, a write under way, or no bytes in stock. *)
Definition settled_down (c : connector H T) : Prop :=
  _stopped c = true \/ _writing c = true \/ outbox (_handler c) = "".

(** The fields of the write side are those of [c]. *)
Definition same_writes c c' : Prop :=
  _handler c' = _handler c /\ _writing c' = _writing c /\ in_flight c' = in_flight c /\
  writes c' = writes c /\ posted c' = posted c.

Lemma same_renew c : same_writes c (renew_ttl c).
Proof. unfold renew_ttl. by case_match. Qed.

Lemma same_stop c : same_writes c (stop c).
Proof. unfold stop. by case_match. Qed.

Lemma stop_stopped c : _stopped (stop c) = true.
Proof. unfold stop. by destruct (_stopped c) eqn:E. Qed.

Lemma same_timeout ms c : same_writes c (set_timeout ms c).
Proof. unfold set_timeout. apply (same_renew (set_timer ms (deadline c) c)). Qed.

Lemma accounted_same c c' p q : same_writes c c' -> accounted c p q -> accounted c' p q.
Proof.
  intros (E1 & E2 & E3 & E4 & E5) [A1 A2 A3]. constructor.
  - by rewrite E4, E1.
  - by rewrite E2, E3.
  - rewrite E5, E3, E1. exact A3.
Qed.

Lemma accounted_new N h : accounted (new_connector N h) (outbox h) (pending h).
Proof. constructor; [done|done|]. by exists []. Qed.

(** Feedbacks posted at once. *)
Lemma settle_all (cbs : list (T * T)) (b : bool) (settled : list ((T * T) * bool)) :
  (fun s : (T * T) * bool => if s.2 then s.1.1 else s.1.2) <$> settled ++ ((fun x => (x, b)) <$> cbs) =
    ((fun s : (T * T) * bool => if s.2 then s.1.1 else s.1.2) <$> settled)
      ++ ((if b then fst else snd) <$> cbs) /\
  fst <$> settled ++ ((fun x => (x, b)) <$> cbs) = (fst <$> settled) ++ cbs.
Proof.
  split.
  - rewrite fmap_app. f_equal. rewrite <- list_fmap_compose. apply list_fmap_ext.
    intros i x _. by destruct b.
  - rewrite fmap_app. f_equal. rewrite <- list_fmap_compose. apply list_fmap_id.
Qed.

Lemma accounted_take_post c p q (b : bool) :
  in_flight c = None -> accounted c p q ->
  let '(cbs, c') := take_feedbacks c in
  accounted (post ((if b then fst else snd) <$> cbs) c') p q /\
  outbox (_handler c') = outbox (_handler c).
Proof.
  intros Hn [A1 A2 (settled & A3 & A4)]. unfold take_feedbacks.
  pose proof (feedbacks_all (_handler c)) as F1.
  pose proof (feedbacks_taken (_handler c)) as F2.
  pose proof (feedbacks_outbox (_handler c)) as F3.
  destruct (write_feedbacks (_handler c)) as [cbs h]. cbn [fst snd] in *.
  split; [|exact F3]. constructor; cbn.
  - by rewrite F3.
  - exact A2.
  - rewrite Hn, F2 in *. cbn [default app] in *.
    destruct (settle_all cbs b settled) as [S1 S2].
    exists (settled ++ ((fun x => (x, b)) <$> cbs)). rewrite S1, S2, A3. split; [done|].
    rewrite F1, app_nil_r. exact A4.
Qed.

(** What is under way while [on_write] runs: the stock is [stock] and [fbs], and
    either nothing is being written and nothing is in [_out], or a write was
    started by a call back, which took the feedbacks. *)
Record handing c (stock : string) (fbs : list (T * T)) (p : string) (q : list (T * T)) : Prop := {
  hd_bytes : concat_str (writes c) +:+ stock = p;
  hd_one : _writing c = bool_decide (is_Some (in_flight c));
  hd_feedbacks : exists settled : list ((T * T) * bool),
    posted c = (fun s : (T * T) * bool => if s.2 then s.1.1 else s.1.2) <$> settled /\
    (fst <$> settled) ++ default [] (in_flight c) ++ fbs = q;
  hd_mid : (_writing c = false /\ _out c = "") \/ (_writing c = true /\ fbs = []) }.

Definition mid c : Prop := (_writing c = false /\ _out c = "") \/ (_writing c = true /\ pending (_handler c) = []).

Lemma handing_accounted c p q : handing c (outbox (_handler c)) (pending (_handler c)) p q <-> accounted c p q /\ mid c.
Proof.
  split.
  - intros [B1 B2 B3 B4]. done.
  - intros [[B1 B2 B3] B4]. done.
Qed.

Lemma not_writing c p q : accounted c p q -> _writing c = false -> in_flight c = None.
Proof. intros A E. pose proof (acc_one _ _ _ A) as Hn. rewrite E in Hn. by destruct (in_flight c). Qed.

(** What [on_write] has given out, and not been started to be written. *)
Lemma finish_write_spec answer c p q :
  (_writing c = false -> concat_str (writes c) +:+ _out c +:+ outbox (_handler c) = p /\ (answer = false -> _out c = "")) ->
  (_writing c = true -> concat_str (writes c) +:+ outbox (_handler c) = p /\ pending (_handler c) = []) ->
  _writing c = bool_decide (is_Some (in_flight c)) ->
  (exists settled : list ((T * T) * bool),
    posted c = (fun s : (T * T) * bool => if s.2 then s.1.1 else s.1.2) <$> settled /\
    (fst <$> settled) ++ default [] (in_flight c) ++ pending (_handler c) = q) ->
  write_allowed answer c = true ->
  accounted (finish_write answer c) p q /\ mid (finish_write answer c).
Proof.
  intros Hf Ht B1 B2 Ha. unfold finish_write. pose proof (feedbacks_all (_handler c)) as F1.
  pose proof (feedbacks_taken (_handler c)) as F2. pose proof (feedbacks_outbox (_handler c)) as F3.
  (* feedbacks taken and posted, where nothing is given out *)
  assert (Hpost : (_writing c = false -> _out c = "") ->
    let c' := post (fst <$> (take_feedbacks c).1) (take_feedbacks c).2 in accounted c' p q /\ mid c').
  { intros Ho. unfold take_feedbacks. destruct (write_feedbacks (_handler c)) as [cbs h]. cbn [fst snd] in *. subst cbs.
    destruct (_writing c) eqn:Ew.
    - destruct (Ht eq_refl) as [Hb Hp]. rewrite Hp in *. split; [|right; by rewrite <- Ew].
      constructor; cbn; [by rewrite F3|by rewrite Ew, B1|]. rewrite F2, app_nil_r. exact B2.
    - destruct (Hf eq_refl) as [Hb _]. rewrite (Ho eq_refl), string_app_nil_l in Hb. split; [|left; by split; [rewrite <- Ew|apply Ho]].
      constructor; cbn; [by rewrite F3|by rewrite Ew, B1|]. destruct B2 as (settled & S1 & S2).
      destruct (settle_all (pending (_handler c)) true settled) as [T1 T2].
      exists (settled ++ ((fun x => (x, true)) <$> pending (_handler c))). rewrite T1, T2, S1, F2, app_nil_r. split; [done|].
      rewrite <- S2. destruct (in_flight c); [done|]. apply app_nil_r. }
  destruct answer; cbn [negb].
  2:{ specialize (Hpost ltac:(intros E; by apply Hf)). by destruct (take_feedbacks c). }
  destruct (empty (_out c)) eqn:Eo; cbn [andb].
  - apply bool_decide_eq_true in Eo. destruct (should_stop (_handler c)).
    + specialize (Hpost ltac:(done)). destruct (take_feedbacks c) as [cbs c2]. cbn [fst snd] in Hpost. destruct Hpost as [P1 P2].
      split; [exact (accounted_same _ _ _ _ (same_stop _) P1)|]. unfold mid, stop in *. by destruct (_stopped (post _ _)).
    + destruct (_writing c) eqn:Ew.
      * destruct (Ht eq_refl) as [Hb Hp]. split; [by constructor; [|rewrite Ew|]|by right].
      * destruct (Hf eq_refl) as [Hb _]. rewrite Eo, string_app_nil_l in Hb. split; [by constructor; [|rewrite Ew|]|by left].
  - assert (Ew : _writing c = false).
    { unfold write_allowed in Ha. rewrite Eo in Ha. by destruct (_writing c). }
    destruct (Hf Ew) as [Hb _]. destruct B2 as (settled & S1 & S2). rewrite Ew in B1.
    unfold take_feedbacks. destruct (write_feedbacks (_handler c)) as [cbs h]. cbn [fst snd] in *. subst cbs.
    split; [|by right]. constructor; cbn.
    + by rewrite concat_str_app, F3; cbn [concat_str]; rewrite string_app_nil_r, string_app_assoc.
    + done.
    + exists settled. split; [done|]. rewrite F2, app_nil_r. by destruct (in_flight c).
Qed.

Lemma call_on_write_spec again :
  (forall c c' p q, accounted c p q -> mid c -> again c = Some (Ok c') -> accounted c' p q /\ mid c') ->
  forall t c c' stock fbs p q answer, handing c stock fbs p q -> lawful outbox pending stock fbs t ->
  call_on_write again t c = Some (Ok (answer, c')) -> write_allowed answer c' = true ->
  accounted (finish_write answer c') p q /\ mid (finish_write answer c').
Proof.
  intros Hag t. induction t as [answer' chunk h|e|h go_on IH]; intros c c' stock fbs p q answer [B1 B2 B3 B4] L E Ha; cbn [call_on_write] in E.
  - inversion L as [? ? ? ? ? Hq Hp Hfalse| |]; subst. injection E as E. apply bind_Ok_inv in E as (c1 & E0 & [= -> ->]).
    assert (X : c' = set_out (match chunk with Some s => s | None => _out c end) (set_handler h c) /\
      (_writing c = true -> chunk = None)).
    { destruct chunk as [s|]; cbn in E0; [|injection E0 as <-; by split; [destruct c|]].
      destruct (_writing c); [done|]. cbn in E0. injection E0 as <-. done. }
    destruct X as [-> Hnone]. apply finish_write_spec; [| |exact B2|exact B3|exact Ha]; cbn.
    + intros Ew. destruct B4 as [[_ Ho]|[Ew' _]]; [|congruence]. rewrite Ho. split; [by destruct chunk|]. by destruct chunk.
    + intros Ew. rewrite (Hnone Ew) in *. destruct B4 as [[Ew' _]|[_ Hfb]]; [congruence|]. done.
  - discriminate.
  - inversion L as [| |? ? HL]; subst. destruct (again (set_handler h c)) as [[c1|e]|] eqn:Eg; [|discriminate..].
    destruct (Hag (set_handler h c) c1 (concat_str (writes c) +:+ outbox h) q) as [A1 M1]; [by constructor|exact B4|exact Eg|].
    apply (IH (_handler c1) c1 c' (outbox (_handler c1)) (pending (_handler c1))); [by apply handing_accounted|apply HL|exact E|exact Ha].
Qed.

Lemma do_write_with_spec fuel c c' p q :
  accounted c p q -> do_write_with fuel c = Some (Ok c') -> accounted c' p q /\ (mid c -> mid c').
Proof.
  revert c c' p q. induction fuel as [|fuel IH]; intros c c' p q A E; cbn [do_write_with] in E; [done|].
  destruct (_writing c || _stopped c) eqn:Eg; [injection E as <-; done|]. apply orb_false_elim in Eg as [Ew _].
  set (c1 := set_out "" (renew_ttl c)) in E.
  assert (A1 : accounted c1 p q).
  { apply (accounted_same c); [|exact A]. exact (same_renew c). }
  assert (M1 : mid c1) by (left; split; [unfold c1; by rewrite begun_writing|done]).
  destruct (call_on_write (do_write_with fuel) (on_write (_handler c1)) c1) as [r|] eqn:Ec; [|done]. injection E as E.
  apply bind_Ok_inv in E as ([answer c2] & -> & E). inv_outcome. subst c'.
  destruct (call_on_write_spec (do_write_with fuel)) with (t := on_write (_handler c1)) (c := c1) (c' := c2) (answer := answer)
    (stock := outbox (_handler c1)) (fbs := pending (_handler c1)) (p := p) (q := q) as [A2 M2];
    [|by apply handing_accounted|apply on_write_lawful|exact Ec|assumption|done].
  intros d d' p' q' Ad Md Ed. destruct (IH _ _ _ _ Ad Ed) as [? ?]. auto.
Qed.

Lemma write_completed_accounted ec c p q :
  is_Some (in_flight c) -> accounted c p q -> accounted (write_completed ec c) p q.
Proof.
  intros [cbs Hf] A. unfold write_completed. rewrite Hf. cbn [default].
  set (c1 := set_write false None (writes c) (cancel_deadline c)).
  assert (Hp : forall b : bool, accounted (post ((if b then fst else snd) <$> cbs) c1) p q).
  { intros b. destruct A as [A1 A2 (settled & A3 & A4)]. rewrite Hf in A4.
    destruct (settle_all cbs b settled) as [S1 S2]. constructor; cbn; [done|done|].
    exists (settled ++ ((fun x => (x, b)) <$> cbs)). rewrite S1, S2, A3. split; [done|].
    rewrite <- app_assoc. exact A4. }
  destruct ec as [e|]; [|exact (Hp true)].
  case_bool_decide; [|exact (Hp false)].
  apply (accounted_same (post (snd <$> cbs) c1)); [|exact (Hp false)].
  unfold stop. by case_match.
Qed.

Lemma write_done_with_spec fuel ec c c' p q :
  is_Some (in_flight c) -> accounted c p q -> write_done_with fuel ec c = Some (Ok c') -> accounted c' p q.
Proof.
  intros Hf A E. apply (write_completed_accounted ec) in A; [|done]. unfold write_done_with in E.
  destruct ec; [by injection E as <-|by eapply do_write_with_spec].
Qed.

Lemma write_step_accounted s s' :
  write_step s s' -> accounted s.1.1 s.1.2 s.2 -> accounted s'.1.1 s'.1.2 s'.2.
Proof.
  intros St A. destruct St; cbn [fst snd] in *.
  - destruct A as [A1 A2 (settled & A3 & A4)]. constructor; cbn; [|done|].
    + rewrite H2, <- A1. by rewrite string_app_assoc.
    + exists settled. split; [done|]. rewrite H3, <- A4. by rewrite <- !app_assoc.
  - by eapply do_write_with_spec.
  - by eapply write_done_with_spec.
  - by eapply accounted_same; [apply same_stop|].
  - by eapply accounted_same; [apply same_timeout|].
Qed.
End Writing.

(** ** Handlers that do not call back *)
Section Quietly.
Context {H T : Type} `{HttpHandler H T}.
Implicit Types c : connector H T.

(** Then [do_write] needs no fuel, and is the one above. *)
Lemma do_write_quiet `{!QuietHandler H T} fuel c : do_write_with (S fuel) c = Some (Ok (do_write c)).
Proof.
  cbn [do_write_with]. unfold do_write. destruct (_writing c) eqn:Ew; [done|]. destruct (_stopped c); [done|]. cbn [orb].
  set (c1 := set_out "" (renew_ttl c)). assert (Ew1 : _writing c1 = false) by (unfold c1; by rewrite ?begun_writing, ?begun_handler).
  destruct (quiet (_handler c1)) as (chunk & E & D). rewrite E. destruct (quiet_write (_handler c1)) as [[answer out] h].
  cbn [fst snd] in *. subst out. cbn [call_on_write]. unfold assign_out, write_allowed.
  destruct chunk as [s|]; change (_writing (set_handler h c1)) with (_writing c1); rewrite ?Ew1;
    cbn [negb guard_ub mbind outcome_bind mret outcome_ret].
  - change (_writing (set_out _ _)) with (_writing c1). by rewrite Ew1.
  - change (_writing (set_handler _ _)) with (_writing c1). by rewrite Ew1.
Qed.

Lemma write_done_quiet `{!QuietHandler H T} fuel ec c : write_done_with (S fuel) ec c = Some (Ok (write_done ec c)).
Proof. destruct ec; [done|]. apply do_write_quiet. Qed.

(** [on_write] that does not call back: [do_write] comes to an end. *)
Lemma do_write_returns fuel c answer chunk h :
  on_write (_handler c) = returns answer chunk h -> exists c', do_write_with (S fuel) c = Some (Ok c').
Proof.
  intros E. cbn [do_write_with]. destruct (_writing c) eqn:Ew; [by eexists|]. destruct (_stopped c); [by eexists|]. cbn [orb].
  set (c1 := set_out "" (renew_ttl c)). assert (Ew1 : _writing c1 = false) by (unfold c1; by rewrite ?begun_writing, ?begun_handler).
  assert (Eh : _handler c1 = _handler c) by (unfold c1; by rewrite ?begun_writing, ?begun_handler).
  rewrite Eh, E. cbn [call_on_write]. unfold assign_out, write_allowed.
  destruct chunk as [s|]; change (_writing (set_handler h c1)) with (_writing c1); rewrite ?Ew1.
  - cbn [negb guard_ub mbind outcome_bind mret outcome_ret]. change (_writing (set_out _ _)) with (_writing c1). rewrite Ew1. by eexists.
  - cbn [mbind outcome_bind mret outcome_ret]. change (_writing (set_handler _ _)) with (_writing c1). rewrite Ew1. by eexists.
Qed.

Context `{!HandlerLaws H T, !QuietHandler H T}.

Lemma quiet_progress h : outbox h <> "" -> (quiet_write h).1.1 = true /\ (quiet_write h).1.2 <> "".
Proof. intros Hq. destruct (quiet h) as (chunk & E & <-). by eapply on_write_progress. Qed.

Lemma quiet_takes h : outbox h = (quiet_write h).1.2 +:+ outbox (quiet_write h).2.
Proof.
  destruct (quiet h) as (chunk & E & <-). pose proof (on_write_lawful h) as L. rewrite E in L. by inversion L.
Qed.

Lemma do_write_settles c : settled_down (do_write c).
Proof.
  unfold do_write. destruct (_writing c) eqn:Ew; [by right; left|].
  destruct (_stopped c) eqn:Es; [by left|]. cbn [orb].
  set (c1 := set_out "" (renew_ttl c)). pose proof (quiet_takes (_handler c1)) as W1.
  pose proof (quiet_progress (_handler c1)) as W2. destruct (quiet_write (_handler c1)) as [[answer out] h]. cbn [fst snd] in *.
  assert (Ho : answer = false \/ out = "" -> outbox h = "").
  { intros Hn. destruct (decide (outbox (_handler c1) = "")) as [E|E].
    - rewrite E in W1. by destruct out.
    - destruct (W2 E) as [Ha Hs]. destruct Hn as [Hn|Hn]; congruence. }
  unfold finish_write, take_feedbacks. cbn [_out set_out _handler set_handler].
  pose proof (feedbacks_outbox h) as F3. destruct (write_feedbacks h) as [cbs h2]. cbn [fst snd] in *.
  destruct answer; cbn [negb].
  - destruct (empty out) eqn:Eo; cbn [andb].
    + apply bool_decide_eq_true in Eo. destruct (should_stop h); [left; apply stop_stopped|]. right; right. cbn. auto.
    + by right; left.
  - right; right. cbn. rewrite F3. auto.
Qed.

Lemma do_write_accounted c p q :
  accounted c p q -> accounted (do_write c) p q /\ settled_down (do_write c).
Proof.
  intros A. split; [|apply do_write_settles]. eapply do_write_with_spec; [exact A|apply (do_write_quiet 0)].
Qed.
End Quietly.

(** ** The read side *)
Section Reading.
Context {H T : Type} `{HttpHandler H T} (N : nat) (HN : (0 < N)%nat).
Implicit Types c : connector H T.

(** Between two reads the buffer has nothing in it. *)
Definition drained c : Prop :=
  valid N (_rb c) /\ contents N (_rb c) = [].

Lemma drained_reserve b :
  valid N b -> contents N b = [] ->
  reserve N avail_first b = ((0%nat, N), {| bound := false; mem := mem b; wr := 0; rd := 0 |}).
Proof.
  intros Hv Hc. pose proof (contents_length N HN b Hv) as L. rewrite Hc in L.
  destruct Hv as [H1 H2 H3 H4]. cbn in L. unfold reserve, avail_mem.
  destruct (bound b) eqn:Eb; [lia|].
  assert (wr b = rd b) as -> by lia. by rewrite !Nat.ltb_irrefl.
Qed.

(** The first bytes of the buffer, produced and consumed. *)
Lemma produce_first m data :
  length m = N -> (0 < length data <= N)%nat -> (Z.of_nat N < 2 ^ 64)%Z ->
  exists b, produce N (length data) {| bound := false; mem := list_inserts 0 data m; wr := 0; rd := 0 |}
      = (Some 0%nat, b) /\ mem b = list_inserts 0 data m /\
    valid N (snd (consume N (0 + length data) b)) /\
    contents N (snd (consume N (0 + length data) b)) = [].
Proof.
  intros Hm [Hl Hle] H64. unfold produce, avail_mem. cbn [wr rd bound mem].
  rewrite Nat.ltb_irrefl. cbn [wr rd bound mem]. rewrite (proj2 (Nat.leb_le _ _) Hle).
  cbn [Nat.add]. destruct (Nat.eqb_spec (length data) N) as [E|E]; eexists;
    (split; [reflexivity|]); (split; [done|]); unfold consume; cbn [wr rd bound mem].
  - rewrite (proj2 (Nat.ltb_lt 0 _)) by lia. rewrite (proj2 (Nat.leb_le _ N)) by lia.
    rewrite (proj2 (Nat.eqb_eq _ N)) by done. cbn [andb snd].
    split; [constructor; cbn; rewrite ?length_inserts; lia|]. apply slice_empty.
  - rewrite (proj2 (Nat.ltb_lt 0 _)) by lia. rewrite Nat.leb_refl.
    rewrite (proj2 (Nat.eqb_neq _ N)) by done. cbn [andb snd].
    split; [constructor; cbn; rewrite ?length_inserts; lia|]. apply slice_empty.
Qed.

Lemma do_read_spec c :
  drained c -> _stopped c = false ->
  do_read N avail_first c = set_rb {| bound := false; mem := mem (_rb c); wr := 0; rd := 0 |}
    (Some (0%nat, N)) (renew_ttl c).
Proof.
  intros [Hv Hc] Hs. unfold do_read. rewrite Hs.
  assert (_rb (renew_ttl c) = _rb c) as -> by (unfold renew_ttl; by case_match).
  by rewrite drained_reserve.
Qed.

(** A read hands exactly the bytes received to [on_read], in a connector with no
    deadline; if [on_read] succeeds and leaves the buffer alone, the buffer is
    drained again. *)
Lemma read_done_spec on_read data c :
  drained c -> _stopped c = false -> (0 < length data <= N)%nat -> (Z.of_nat N < 2 ^ 64)%Z ->
  exists c1, deadline c1 = false /\ _handler c1 = _handler c /\ _stopped c1 = false /\
    read_done N avail_first on_read data (do_read N avail_first c) =
      ('(ok, c2) ← on_read data c1;
       if (ok : bool) then
         mret (do_read N avail_first (set_rb (snd (consume N (0 + length data) (_rb c2))) (reading c2) c2))
       else mret (stop c2)) /\
    forall c2, _rb c2 = _rb c1 ->
      drained (set_rb (snd (consume N (0 + length data) (_rb c2))) (reading c2) c2).
Proof.
  intros Hd Hs Hl H64. rewrite do_read_spec by done. destruct Hd as [Hv Hc].
  destruct (produce_first (mem (_rb c)) data) as (b & Ep & Em & Hv' & Hc');
    [apply Hv|done|done|].
  set (c0 := cancel_deadline (set_rb (fill 0 data {| bound := false; mem := mem (_rb c);
    wr := 0; rd := 0 |}) None (set_rb {| bound := false; mem := mem (_rb c); wr := 0; rd := 0 |}
    (Some (0%nat, N)) (renew_ttl c)))).
  exists (set_rb b None c0). split_and!; [done| | | |].
  - cbn. unfold renew_ttl. by case_match.
  - cbn. unfold renew_ttl. by case_match.
  - unfold read_done. cbn [reading set_rb _rb].
    rewrite (proj2 (Z.eqb_neq _ 0)) by lia. cbn [negb cassert mbind outcome_bind].
    match goal with |- context [produce N _ ?x] => change x with
      {| bound := false; mem := list_inserts 0 data (mem (_rb c)); wr := 0; rd := 0 |} end.
    rewrite Ep. cbn [of_option mbind outcome_bind]. rewrite Em.
    pose proof (slice_inserts_here 0 data (mem (_rb c))) as Hsl. unfold slice in Hsl.
    rewrite Nat.sub_0_r in Hsl. cbn [Nat.add] in *. rewrite Hsl.
    2:{ rewrite (valid_mem _ _ Hv). lia. }
    match goal with |- context [on_read data ?x] => change x with (set_rb b None c0) end.
    destruct (on_read data (set_rb b None c0)) as [[ok c2]|]; [|done].
    cbn [mbind outcome_bind]. destruct ok; [|done]. by destruct (consume N (length data) (_rb c2)).
  - intros c2 E. unfold drained. cbn [_rb set_rb]. rewrite E. by split.
Qed.
End Reading.

(** ** Theorems *)

(** C21: Whatever the handler is given and whenever writes are asked for, end or
    fail, also out of the handler's own [on_write], the bytes given to the socket
    followed by the bytes still in the handler are the bytes produced, in order; at
    most one write is under way; and every feedback is, in order, posted once - its
    first callback after a success, its second after a failure -, in flight or
    still in the handler.  So for every handler that obeys [HandlerLaws], in every
    state that is reached without undefined behaviour; and the next [do_write] has
    none unless [on_write] calls it back or throws. *)
Theorem connector_writes_in_order {H T : Type} `{HandlerLaws H T} (N : nat) (h0 : H)
    (c : connector H T) (produced : string) (asked : list (T * T)) :
  rtc write_step (new_connector N h0, outbox h0, pending h0) (c, produced, asked) ->
  concat_str (writes c) +:+ outbox (_handler c) = produced /\
  _writing c = bool_decide (is_Some (in_flight c)) /\
  (exists settled : list ((T * T) * bool),
    posted c = (fun s : (T * T) * bool => if s.2 then s.1.1 else s.1.2) <$> settled /\
    (fst <$> settled) ++ default [] (in_flight c) ++ pending (_handler c) = asked) /\
  (forall fuel answer chunk h, on_write (_handler c) = returns answer chunk h ->
     exists c', do_write_with (S fuel) c = Some (Ok c') /\
       concat_str (writes c') +:+ outbox (_handler c') = produced).
Proof.
  intros R.
  assert (A : accounted c produced asked).
  { assert (G : forall s s' : connector H T * string * list (T * T), rtc write_step s s' ->
      accounted s.1.1 s.1.2 s.2 -> accounted s'.1.1 s'.1.2 s'.2).
    { induction 1; eauto using write_step_accounted. }
    exact (G _ _ R (accounted_new N h0)). }
  destruct A as [A1 A2 A3]. do 3 (split; [done|]). intros fuel answer chunk h E.
  destruct (do_write_returns fuel c answer chunk h E) as [c' E']. exists c'. split; [exact E'|].
  eapply acc_bytes, do_write_with_spec; [|exact E']. by constructor.
Qed.

(** A handler that calls [do_write] back before its [on_write] returns: when that
    starts a write, the string that [on_write] then assigns to its chunk takes the
    memory of the write under way from it. *)
Theorem write_in_write {H T : Type} `{HttpHandler H T} (fuel : nat) (c c1 : connector H T) (h h1 : H)
    (go_on : H -> writing H) (answer : bool) (chunk : string) :
  _writing c = false -> _stopped c = false -> on_write (_handler c) = calls_do_write h go_on ->
  do_write_with fuel (set_handler h (set_out "" (renew_ttl c))) = Some (Ok c1) -> _writing c1 = true ->
  go_on (_handler c1) = returns answer (Some chunk) h1 ->
  do_write_with (S fuel) c = Some (Crash Undefined).
Proof.
  intros Ew Es Eo E Ew1 Eg. cbn [do_write_with]. rewrite Ew, Es. cbn [orb].
  assert (Eh : _handler (set_out "" (renew_ttl c)) = _handler c) by apply begun_handler.
  rewrite Eh, Eo. cbn [call_on_write]. rewrite E, Eg. cbn [call_on_write]. unfold assign_out. cbn. by rewrite Ew1.
Qed.

(** [do_write] of a handler that does not call back leaves nothing undone: afterwards
    the connector is stopped, or a write is under way, or the handler has no bytes in
    stock; likewise when a write completes; and a stopped connector starts no
    operation. *)
Theorem do_write_leaves_nothing {H T : Type} `{HandlerLaws H T} `{!QuietHandler H T} (N : nat)
    (order : argument_order) (c : connector H T) :
  settled_down (do_write c) /\ settled_down (write_done None c) /\
  (_stopped c = true -> do_write c = c /\ do_read N order c = c /\
    writes (write_done None c) = writes c).
Proof.
  split_and!; [apply do_write_settles|apply do_write_settles|].
  intros Hs. unfold do_read, write_done, do_write. cbn. rewrite Hs. by rewrite orb_true_r.
Qed.

(** A completed read hands the handler exactly the bytes that arrived, with
    the deadline cancelled; when the handler accepts them the buffer is empty
    again and the next read is started, with the whole buffer unless the
    connector was stopped, and otherwise the connector is stopped. *)
Theorem read_delivers {H T : Type} `{HttpHandler H T} (N : nat)
    (on_read : list Z -> connector H T -> outcome (bool * connector H T))
    (data : list Z) (c : connector H T) :
  (0 < N)%nat -> (Z.of_nat N < 2 ^ 64)%Z -> drained N c -> _stopped c = false ->
  (0 < length data <= N)%nat ->
  exists c1, deadline c1 = false /\ _handler c1 = _handler c /\ _stopped c1 = false /\
    forall ok c2, on_read data c1 = Ok (ok, c2) -> _rb c2 = _rb c1 ->
      exists c3, read_done N avail_first on_read data (do_read N avail_first c) = Ok c3 /\
        (if ok then if _stopped c2 then reading c3 = reading c2
                    else reading c3 = Some (0%nat, N)
         else _stopped c3 = true).
Proof.
  intros HN H64 Hd Hs Hl.
  destruct (read_done_spec N HN on_read data c Hd Hs Hl H64) as (c1 & E1 & E2 & Es1 & E3 & E4).
  exists c1. split_and!; [done|done|done|]. intros ok c2 Eo Erb. rewrite E3, Eo.
  cbn [mbind outcome_bind]. specialize (E4 c2 Erb). destruct ok.
  - eexists. split; [reflexivity|].
    destruct (_stopped c2) eqn:Es.
    + unfold do_read. cbn [_stopped set_rb]. by rewrite Es.
    + by rewrite do_read_spec.
  - eexists. split; [reflexivity|]. apply stop_stopped.
Qed.

(** ** A handler that keeps its bytes and feedbacks in two lists *)
Record simple_handler := { bytes : string; feedbacks : list (Z * Z) }.

#[export] Instance simple_http_handler : HttpHandler simple_handler Z := {|
  on_write h :=
    if empty (bytes h) then returns false None h
    else returns true (Some (bytes h)) {| bytes := ""; feedbacks := feedbacks h |};
  write_feedbacks h := (feedbacks h, {| bytes := bytes h; feedbacks := [] |});
  should_stop _ := false;
  timeout_event _ := [] |}.

#[export] Instance simple_handler_laws : HandlerLaws simple_handler Z.
Proof.
  refine {| outbox := bytes; pending := feedbacks |}.
  - intros h. cbn. unfold empty. case_bool_decide as E; constructor; cbn; rewrite ?E, ?string_app_nil_r; done.
  - intros h a k h'. cbn. unfold empty. case_bool_decide as E; [done|]. by intros [= <- <- _].
  - done.
  - done.
  - done.
Defined.

#[export] Instance simple_handler_quiet : QuietHandler simple_handler Z.
Proof.
  refine {| quiet_write h := if empty (bytes h) then ((false, ""), h)
              else ((true, bytes h), {| bytes := ""; feedbacks := feedbacks h |}) |}.
  intros h. cbn. destruct (empty (bytes h)); by eexists.
Defined.

(** A handler that asks for a write while it is asked for one. *)
Record nervous_handler := { stock : list string }.

#[export] Instance nervous_http_handler : HttpHandler nervous_handler Z := {|
  on_write h :=
    match stock h with
    | [] => returns true (Some "") h
    | [s] => returns true (Some s) {| stock := [] |}
    | s :: l => calls_do_write {| stock := l |} (fun h => returns true (Some s) h)
    end;
  write_feedbacks h := ([], h);
  should_stop _ := false;
  timeout_event _ := [] |}.

Lemma connector_writes_in_order_witness :
  let h := {| bytes := "ab"; feedbacks := [(1, 2)] |} in
  exists c c' : connector simple_handler Z,
    rtc write_step (new_connector 4 h, outbox h, pending h) (c, "abcd", [(1, 2)]) /\
    writes c = ["ab"] /\ outbox (_handler c) = "cd" /\
    concat_str (writes c) +:+ outbox (_handler c) = "abcd" /\ do_write_with 1 c = Some (Ok c').
Proof.
  intros h. set (c1 := do_write (new_connector 4 h)).
  set (c := set_handler {| bytes := "cd"; feedbacks := [] |} c1).
  assert (R : rtc write_step (new_connector 4 h, outbox h, pending h) (c, "abcd", [(1, 2)])).
  { eapply rtc_l; [apply (step_do_write 1 _ c1); vm_compute; reflexivity|].
    eapply rtc_l; [|apply rtc_refl].
    exact (step_handler c1 "ab" [(1, 2)] {| bytes := "cd"; feedbacks := [] |} "cd" [] eq_refl eq_refl). }
  destruct (connector_writes_in_order 4 h _ _ _ R) as (H1 & _ & _ & H2).
  destruct (H2 0%nat true (Some "cd") {| bytes := ""; feedbacks := [] |} eq_refl) as (c' & E & _).
  exists c, c'. split; [exact R|]. split; [reflexivity|]. split; [reflexivity|]. split; [exact H1|exact E].
Defined.

Lemma write_in_write_witness :
  do_write_with 2 (new_connector 4 {| stock := ["a"; "b"] |}) = Some (Crash Undefined).
Proof.
  refine (write_in_write (H := nervous_handler) (T := Z) 1 (new_connector 4 {| stock := ["a"; "b"] |}) _ {| stock := ["b"] |} {| stock := [] |}
    (fun h => returns true (Some "a") h) true "a" eq_refl eq_refl eq_refl _ _ _); [vm_compute; reflexivity|reflexivity|reflexivity].
Defined.

Lemma read_delivers_witness :
  let c : connector simple_handler Z := new_connector 4 {| bytes := ""; feedbacks := [] |} in
  exists c3, read_done 4 avail_first (fun _ c => Ok (true, c)) [1; 2; 3]%Z (do_read 4 avail_first c) = Ok c3 /\
    reading c3 = Some (0%nat, 4%nat).
Proof.
  intros c.
  destruct (read_delivers 4 (fun _ c => Ok (true, c)) [1; 2; 3]%Z c) as (c1 & _ & _ & Es & Hr);
    [lia|lia| |reflexivity|cbn; lia|].
  { split; [apply valid_new_buffer; lia|vm_compute; reflexivity]. }
  destruct (Hr true c1 eq_refl eq_refl) as (c3 & E & Er). rewrite Es in Er.
  exists c3. split; [exact E|exact Er].
Defined.
