(* ===== verification/HandlerHttp1.v ===== *)
(** * The HTTP/1 handler (src/src/protocol/handler_http1.h)

    [handler_http1<traits>]: a connection whose transactions each have a remote
    object, fed by the decoder, and a local object, polled for what the user
    wrote.  The handler works inside its connector, so its operations act on
    [connector handler task].  Objects live in two stores: a weak pointer is an
    identity that the store may no longer know. *)

From Stdlib Require Import Sorted.
From stdpp Require Import sorting.
From S2P Require Import Prelude HttpCommons StructuredData HttpMessages Errors UserObjects.
From S2P Require Import Encoder ReusableBuffer Connector.

(** The closures posted to the [io_service]. *)
Inductive task :=
| task_timeout                                  (* connection_t::timeout *)
| task_cleared (id : nat)                       (* loc->cleared() *)
| task_error (id : nat) (e : error_code)        (* loc->error(e) *)
| task_end (id : nat)                           (* posted by response::end() *)
| task_local (id : nat) (t : local_task)        (* a callback of a local object *)
| task_remote (id : nat) (t : remote_task).     (* a callback of a remote object *)

(** What the user of the connection is told. *)
Inductive connection_event :=
| connection_failed (e : error_code)
| new_request_pair (remote local : nat)         (* request_cb of a server *)
| request_sent.                                 (* request_cb of a client *)

(** ** Traits ([server_traits], [client_traits])

    [RM] and [LM] are the messages of the remote and of the local objects. *)
Class Traits (RM LM : Type) := {
  is_server : bool;
  remote_data : RM -> http_structured_data;
  set_remote_data : http_structured_data -> RM -> RM;
  (** [{}], which takes the place of an object. *)
  fresh_remote : RM -> outcome RM;
  is_continue : RM -> bool;
  local_data : LM -> http_structured_data;
  local_message :: Message LM;
  pull_remote : trigger RM -> remote_object RM -> list remote_task * remote_object RM;
  local_get_state : local_object LM -> local_state * local_object LM;
  local_error : local_object LM -> list local_task * local_object LM;
  local_cleared : local_object LM -> list local_task * local_object LM }.

#[export] Instance server_traits : Traits http_request http_response := {|
  is_server := true;
  remote_data := base;
  set_remote_data := set_base;
  fresh_remote _ := new_request false HTTP_GET;
  is_continue _ := false;
  local_data := response_base;
  local_message := response_message;
  pull_remote := Remote.pull;
  local_get_state := Local.get_state;
  local_error := Local.error;
  local_cleared := Local.cleared |}.

Definition set_response_base (d : http_structured_data) (r : http_response) : http_response :=
  {| response_base := d; _status_code := _status_code r; _status_message := _status_message r |}.

(** A fresh response has no status yet: the member is what the memory holds, of
    which nothing is known.  It is a value for each object that is replaced. *)
Class Garbage := garbage : http_response -> Z.

#[export] Instance client_traits `{mem : Garbage} : Traits http_response http_request := {|
  is_server := false;
  remote_data := response_base;
  set_remote_data := set_response_base;
  fresh_remote r := new_response (garbage r);
  is_continue r := _status_code r =? 100;
  local_data := base;
  local_message := request_message;
  pull_remote := Remote.client_pull;
  local_get_state o := (Local.client_get_state o, o);
  local_error := Local.client_error;
  local_cleared := Local.client_cleared |}.

Section Handler.
Context {RM LM : Type} `{Traits RM LM}.

Record handler := {
  persistent : bool;
  local_objects : list nat;
  remote_objects : list nat;
  encoder_ : encoder;
  current_decoded_object : RM;
  serialization : string;
  user_close : bool;
  decoding_error : bool;
  pending_clear_callbacks : list (task * task);
  managing_continue : bool;
  (** the objects, and the identity of the next ones *)
  locals : gmap nat (local_object LM);
  remotes : gmap nat (remote_object RM);
  next_id : nat;
  (** the user's view of the connection, first to last *)
  events : list connection_event }.

Definition set_persistent (b : bool) (h : handler) : handler :=
  {| persistent := b; local_objects := local_objects h; remote_objects := remote_objects h;
     encoder_ := encoder_ h; current_decoded_object := current_decoded_object h;
     serialization := serialization h; user_close := user_close h;
     decoding_error := decoding_error h; pending_clear_callbacks := pending_clear_callbacks h;
     managing_continue := managing_continue h; locals := locals h; remotes := remotes h;
     next_id := next_id h; events := events h |}.

Definition set_queues (ls rs : list nat) (h : handler) : handler :=
  {| persistent := persistent h; local_objects := ls; remote_objects := rs;
     encoder_ := encoder_ h; current_decoded_object := current_decoded_object h;
     serialization := serialization h; user_close := user_close h;
     decoding_error := decoding_error h; pending_clear_callbacks := pending_clear_callbacks h;
     managing_continue := managing_continue h; locals := locals h; remotes := remotes h;
     next_id := next_id h; events := events h |}.

Definition set_output (e : encoder) (s : string) (h : handler) : handler :=
  {| persistent := persistent h; local_objects := local_objects h; remote_objects := remote_objects h;
     encoder_ := e; current_decoded_object := current_decoded_object h;
     serialization := s; user_close := user_close h;
     decoding_error := decoding_error h; pending_clear_callbacks := pending_clear_callbacks h;
     managing_continue := managing_continue h; locals := locals h; remotes := remotes h;
     next_id := next_id h; events := events h |}.

Definition set_decoding (obj : RM) (err cont : bool) (h : handler) : handler :=
  {| persistent := persistent h; local_objects := local_objects h; remote_objects := remote_objects h;
     encoder_ := encoder_ h; current_decoded_object := obj;
     serialization := serialization h; user_close := user_close h;
     decoding_error := err; pending_clear_callbacks := pending_clear_callbacks h;
     managing_continue := cont; locals := locals h; remotes := remotes h;
     next_id := next_id h; events := events h |}.

Definition set_callbacks (cbs : list (task * task)) (h : handler) : handler :=
  {| persistent := persistent h; local_objects := local_objects h; remote_objects := remote_objects h;
     encoder_ := encoder_ h; current_decoded_object := current_decoded_object h;
     serialization := serialization h; user_close := user_close h;
     decoding_error := decoding_error h; pending_clear_callbacks := cbs;
     managing_continue := managing_continue h; locals := locals h; remotes := remotes h;
     next_id := next_id h; events := events h |}.

Definition set_user_close (h : handler) : handler :=
  {| persistent := persistent h; local_objects := local_objects h; remote_objects := remote_objects h;
     encoder_ := encoder_ h; current_decoded_object := current_decoded_object h;
     serialization := serialization h; user_close := true;
     decoding_error := decoding_error h; pending_clear_callbacks := pending_clear_callbacks h;
     managing_continue := managing_continue h; locals := locals h; remotes := remotes h;
     next_id := next_id h; events := events h |}.

Definition set_stores (ls : gmap nat (local_object LM)) (rs : gmap nat (remote_object RM)) (n : nat)
    (h : handler) : handler :=
  {| persistent := persistent h; local_objects := local_objects h; remote_objects := remote_objects h;
     encoder_ := encoder_ h; current_decoded_object := current_decoded_object h;
     serialization := serialization h; user_close := user_close h;
     decoding_error := decoding_error h; pending_clear_callbacks := pending_clear_callbacks h;
     managing_continue := managing_continue h; locals := ls; remotes := rs;
     next_id := n; events := events h |}.

Definition tell (e : connection_event) (h : handler) : handler :=
  {| persistent := persistent h; local_objects := local_objects h; remote_objects := remote_objects h;
     encoder_ := encoder_ h; current_decoded_object := current_decoded_object h;
     serialization := serialization h; user_close := user_close h;
     decoding_error := decoding_error h; pending_clear_callbacks := pending_clear_callbacks h;
     managing_continue := managing_continue h; locals := locals h; remotes := remotes h;
     next_id := next_id h; events := events h ++ [e] |}.

Definition new_handler (obj : RM) : handler :=
  {| persistent := true; local_objects := []; remote_objects := []; encoder_ := new_encoder;
     current_decoded_object := obj; serialization := ""; user_close := false;
     decoding_error := false; pending_clear_callbacks := []; managing_continue := false;
     locals := ∅; remotes := ∅; next_id := 0; events := [] |}.

(** ** The interface to the connector *)
Definition http1_on_write (h : handler) : writing handler :=
  if negb (empty (serialization h)) then returns true (Some (serialization h)) (set_output (encoder_ h) "" h)
  else returns false None h.

Definition http1_write_feedbacks (h : handler) : list (task * task) * handler :=
  (pending_clear_callbacks h, set_callbacks [] h).

Definition http1_should_stop (h : handler) : bool :=
  match local_objects h with [] => negb (persistent h) | _ => false end.

#[export] Instance http1_handler : HttpHandler handler task := {|
  on_write := http1_on_write;
  write_feedbacks := http1_write_feedbacks;
  should_stop := http1_should_stop;
  timeout_event _ := [task_timeout] |}.

#[export] Instance http1_laws : HandlerLaws handler task.
Proof.
  refine {| outbox := serialization; pending := pending_clear_callbacks |}; [| |done..].
  - intros h. cbn. unfold http1_on_write, empty. case_bool_decide as E; constructor; cbn; rewrite ?E, ?string_app_nil_r; done.
  - intros h a k h'. cbn. unfold http1_on_write, empty. case_bool_decide as E; cbn; [done|]. by intros [= <- <- _].
Defined.

(** It does not call back. *)
#[export] Instance http1_quiet : QuietHandler handler task.
Proof.
  refine {| quiet_write h :=
    if negb (empty (serialization h)) then ((true, serialization h), set_output (encoder_ h) "" h) else ((false, ""), h) |}.
  intros h. cbn. unfold http1_on_write. destruct (negb (empty (serialization h))); by eexists.
Defined.

(** The handler in its connector. *)
Abbreviation world := (connector handler task).

Definition on_handler (f : handler -> handler) (w : world) : world := set_handler (f (_handler w)) w.

Definition post_local (id : nat) (ts : list local_task) (w : world) : world :=
  post (task_local id <$> ts) w.
Definition post_remote (id : nat) (ts : list remote_task) (w : world) : world :=
  post (task_remote id <$> ts) w.

Definition put_local (id : nat) (o : local_object LM) (w : world) : world :=
  on_handler (fun h => set_stores (<[id := o]> (locals h)) (remotes h) (next_id h) h) w.
Definition put_remote (id : nat) (r : remote_object RM) (w : world) : world :=
  on_handler (fun h => set_stores (locals h) (<[id := r]> (remotes h)) (next_id h) h) w.

(** A call on a remote object that is there. *)
Definition call_remote (id : nat) (t : trigger RM) (w : world) : outcome world :=
  r ← of_option Undefined (remotes (_handler w) !! id);
  let '(ts, r) := pull_remote t r in
  mret (post_remote id ts (put_remote id r w)).

(** A call on a local object, through its weak pointer. *)
Definition call_local (id : nat)
    (f : local_object LM -> list local_task * local_object LM) (w : world) : world :=
  match locals (_handler w) !! id with
  | Some o => let '(ts, o) := f o in post_local id ts (put_local id o w)
  | None => w
  end.

(** [connection_t::error]. *)
Definition connection_error_ (e : error_code) (w : world) : world :=
  on_handler (tell (connection_failed e)) w.

(** [notify_all(err)]. *)
Fixpoint error_remotes (ids : list nat) (e : error_code) (w : world) : outcome world :=
  match ids with
  | [] => mret w
  | id :: ids => w ← call_remote id (t_error e) w; error_remotes ids e w
  end.

Definition error_locals (ids : list nat) (e : error_code) (w : world) : world :=
  foldl (fun w id => call_local id local_error w) w ids.

Definition notify_all (e : error_code) (w : world) : outcome world :=
  let h := _handler w in
  w ← error_remotes (remote_objects h) e w;
  let w := error_locals (local_objects h) e w in
  mret (on_handler (set_queues [] []) w).

(** ** Output *)

(** [serialization.append(encoder...)], then [do_write()]. *)
Definition append (r : encoder -> outcome (string * encoder)) (w : world) : outcome world :=
  '(s, e) ← r (encoder_ (_handler w));
  mret (on_handler (fun h => set_output e (serialization h +:+ s) h) w).

Definition append_write (r : encoder -> outcome (string * encoder)) (w : world) : outcome world :=
  do_write <$> append r w.

Definition notify_local_headers (loc : LM) (w : world) : outcome world :=
  let w :=
    if has hf_connection (local_data loc)
    then on_handler (set_persistent
           (bool_decide (header_get hf_connection (local_data loc) = hv_keepalive))) w
    else w in
  append_write (@encode_header LM local_message loc) w.

Definition notify_local_body (body : string) (w : world) : outcome world :=
  append_write (encode_body body) w.

Definition notify_local_trailer (k v : string) (w : world) : outcome world :=
  append_write (encode_trailer k v) w.

Definition notify_local_end (w : world) : outcome world := append_write encode_eom w.

(** The interim response of [send_continue]; the constructor leaves the status
    open until [status(100)] sets it. *)
Definition continue_response : outcome http_response :=
  r ← new_response 0;
  d ← protocol HTTP11 (response_base r);
  mret (status 100 (set_response_base d r)).

Definition encode_continue (e : encoder) : outcome (string * encoder) :=
  r ← continue_response;
  '(s, e) ← encode_header r e;
  '(t, e) ← encode_eom e;
  mret (s +:+ t, e).

(** [connection_t::cleared()]: a client tells its user. *)
Definition connection_cleared (w : world) : world :=
  if is_server then w else on_handler (tell request_sent) w.

(** [poll_local(loc)]: its answer says that the object is done. *)
Fixpoint poll_local (fuel : nat) (id : nat) (w : world) : outcome (bool * world) :=
  match fuel with
  | O => Crash Undefined
  | S fuel =>
      o ← of_option Undefined (locals (_handler w) !! id);
      let '(st, o) := local_get_state o in
      '(p, o) ← Local.take_piece st o;
      let w := put_local id o w in
      match p with
      | None => mret (false, w)
      | Some (Local.piece_headers m) => w ← notify_local_headers m w; poll_local fuel id w
      | Some (Local.piece_body s) => w ← notify_local_body s w; poll_local fuel id w
      | Some (Local.piece_trailer k v) => w ← notify_local_trailer k v w; poll_local fuel id w
      | Some Local.piece_end =>
          let w := on_handler (fun h => set_callbacks (pending_clear_callbacks h
                     ++ [(task_cleared id, task_error id missing_stream_element)]) h) w in
          w ← notify_local_end w;
          mret (true, connection_cleared w)
      | Some Local.piece_continue =>
          w ← append_write encode_continue w;
          mret (false, w)
      end
  end.

(** A poll takes at most one turn for each piece in the object, and one more. *)
Definition poll_fuel (id : nat) (w : world) : nat :=
  match locals (_handler w) !! id with
  | Some o => S (length (Local.buffered o))
  | None => 0
  end.

(** [notify_local_content()]; the branch of a lost object empties the queue. *)
Fixpoint notify_loop (ids : list nat) (w : world) : outcome world :=
  match ids with
  | [] => mret w
  | id :: ids =>
      match locals (_handler w) !! id with
      | Some _ =>
          '(done, w) ← poll_local (poll_fuel id w) id w;
          if (done : bool) then
            notify_loop ids
              (on_handler (fun h => set_queues (tail (local_objects h)) (remote_objects h) h) w)
          else mret w
      | None =>
          let w := connection_error_ missing_stream_element w in
          notify_all missing_stream_element w
      end
  end.

Definition notify_local_content (w : world) : outcome world :=
  notify_loop (local_objects (_handler w)) w.

(** ** Input: the callbacks of the decoder *)

(** [get_user_handlers()]. *)
Definition get_user_handlers (rem : remote_object RM) (w : world) : (nat * nat) * world :=
  let h := _handler w in
  let id := next_id h in
  ((id, id), on_handler (fun h => set_queues (local_objects h ++ [id]) (remote_objects h ++ [id])
     (set_stores (<[id := Local.new]> (locals h)) (<[id := rem]> (remotes h)) (S id) h)) w).

(** [get_current()]. *)
Definition get_current (w : world) : outcome (option nat * world) :=
  let h := _handler w in
  if decoding_error h then mret (None, w)
  else
    match remote_objects h with
    | [] =>
        let w := on_handler (fun h => set_decoding (current_decoded_object h) true
                   (managing_continue h) h) w in
        mret (None, connection_error_ invalid_read w)
    | id :: _ =>
        r ← of_option Undefined (remotes h !! id);
        if terminated r then mret (None, connection_error_ invalid_read w)
        else mret (Some id, w)
    end.

Definition with_current (f : nat -> world -> outcome world) (w : world) : outcome world :=
  '(cur, w) ← get_current w;
  match cur with None => mret w | Some id => f id w end.

Definition pop_remote (w : world) : world :=
  on_handler (fun h => set_queues (local_objects h) (tail (remote_objects h)) h) w.

(** [decoding_failure()]: [back()] and [pop_front()] of an empty list are
    undefined. *)
Definition decoding_failure : world -> outcome world :=
  with_current (fun id w =>
    w ← call_remote id (t_error decoding) w;
    let w := pop_remote w in
    back ← of_option Undefined (last (local_objects (_handler w)));
    let w := call_local back local_error w in
    mret (on_handler (fun h => set_queues (tail (local_objects h)) (remote_objects h) h) w)).

(** [decoding_end()] and its specialization for a client. *)
Definition decoding_end : world -> outcome world :=
  with_current (fun id w =>
    if is_server then pop_remote <$> call_remote id t_finished w
    else
      let w := pop_remote w in
      if managing_continue (_handler w) then call_remote id t_continue w
      else call_remote id t_finished w).

Definition decoded_trailer (k v : string) : world -> outcome world :=
  with_current (fun id w =>
    if managing_continue (_handler w) then mret w else call_remote id (t_trailer k v) w).

Definition decoded_body (b : string) : world -> outcome world :=
  with_current (fun id w => call_remote id (t_body b) w).

(** [update_persistent()]. *)
Definition update_persistent (w : world) : outcome world :=
  let h := _handler w in
  let d := remote_data (current_decoded_object h) in
  let keep := bool_decide (header_get hf_connection d = hv_keepalive) in
  let p :=
    if bool_decide (_protocol d = HTTP10)
    then persistent h && (has hf_connection d && keep)
    else persistent h && (negb (has hf_connection d) || keep) in
  d ← keepalive p d;
  mret (on_handler (fun h => set_decoding (set_remote_data d (current_decoded_object h))
    (decoding_error h) (managing_continue h) (set_persistent p h)) w).

(** [decoded_headers()] and its specialization for a client. *)
Definition decoded_headers : world -> outcome world :=
  with_current (fun id w =>
    w ← update_persistent w;
    let h := _handler w in
    let cont := if is_server then managing_continue h
                else is_continue (current_decoded_object h) in
    w ← (if negb is_server && cont then mret w
         else call_remote id (t_headers (current_decoded_object h)) w);
    obj ← fresh_remote (current_decoded_object h);
    mret (on_handler (fun h => set_decoding obj (decoding_error h) cont h) w)).

(** [decoding_start(data)] with [decoder_begin()], which on a server creates the
    two objects of the transaction, [rem] the remote one, and hands them to the
    user. *)
Definition decoding_start (rem : remote_object RM) (w : world) : world :=
  let w := on_handler (fun h => set_decoding (current_decoded_object h) false false h) w in
  if is_server then
    let '((r, l), w) := get_user_handlers rem w in
    on_handler (tell (new_request_pair r l)) w
  else w.

(** ** The end of the connection *)
Definition close_connection (w : world) : outcome world :=
  let w := on_handler set_user_close w in
  notify_all connection_closed (stop w).

(** [on_connector_nulled()]: the error callbacks are called at once, and each
    [loc->error] posts. *)
Definition on_connector_nulled (w : world) : outcome world :=
  if user_close (_handler w) then mret w
  else
    w ← notify_all closed_by_client w;
    let w := connection_error_ closed_by_client w in
    let w := foldl (fun w cb => match cb.2 with
        | task_error id _ => call_local id local_error w | _ => w end)
      w (pending_clear_callbacks (_handler w)) in
    mret (on_handler (set_callbacks []) w).

(** ** The user and the event loop *)

(** The calls of the user on a local object; [end()] of a response is posted. *)
Definition user_call (id : nat) (c : call LM) (w : world) : outcome world :=
  o ← of_option Undefined (locals (_handler w) !! id);
  match c with
  | c_end =>
      if is_server then mret (post [task_end id] w)
      else
        w ← notify_local_content (put_local id (Local.finish o) w);
        mret (call_local id (fun o => ([], Local.set_myself true o)) w)
  | _ => notify_local_content (put_local id (write_call c o) w)
  end.

(** A posted closure runs. *)
Definition run_task (t : task) (w : world) : outcome world :=
  match t with
  | task_cleared id => mret (call_local id local_cleared w)
  | task_error id _ => mret (call_local id local_error w)
  | task_end id =>
      o ← of_option Undefined (locals (_handler w) !! id);
      w ← notify_local_content (put_local id (Local.finish o) w);
      mret (call_local id (fun o => ([], Local.set_myself (negb (ended o)) o)) w)
  | task_timeout | task_local _ _ | task_remote _ _ => mret w
  end.

(** ** Polling against a specification *)

(** What the encoder makes of the pieces of one object: the bytes, whether the
    object is done, and the encoder afterwards. *)
Fixpoint encode_pieces (ps : list (Local.piece (M := LM))) (e : encoder)
    : outcome (string * bool * encoder) :=
  match ps with
  | [] => mret ("", false, e)
  | p :: ps =>
      match p with
      | Local.piece_end => '(s, e) ← encode_eom e; mret (s, true, e)
      | Local.piece_continue => '(s, e) ← encode_continue e; mret (s, false, e)
      | _ =>
          '(s, e) ← match p with
            | Local.piece_headers m => @encode_header LM local_message m e
            | Local.piece_body b => encode_body b e
            | Local.piece_trailer k v => encode_trailer k v e
            | _ => mret ("", e) end;
          '(t, b, e) ← encode_pieces ps e;
          mret (s +:+ t, b, e)
      end
  end.

(** What it makes of a queue of objects: one after the other, as far as the
    first that is not done; also the number of those that are. *)
Fixpoint encode_objects (os : list (local_object LM)) (e : encoder)
    : outcome (string * nat * encoder) :=
  match os with
  | [] => mret ("", 0%nat, e)
  | o :: os =>
      '(s, b, e) ← encode_pieces (Local.buffered o) e;
      if (b : bool) then
        '(t, n, e) ← encode_objects os e;
        mret (s +:+ t, S n, e)
      else mret (s, 0%nat, e)
  end.

(** A poll of the class sees what is buffered, on the objects the class has. *)
Class TraitsLaws := {
  pollable : local_object LM -> Prop;
  pollable_after o p : pollable o -> pollable (Local.after_piece p o);
  poll_spec o : pollable o ->
    let '(st, o1) := local_get_state o in
    Local.take_piece st o1 =
      match Local.buffered o with
      | [] => Ok (None, o)
      | p :: _ => Ok (Some p, Local.after_piece p o)
      end }.
Context `{TraitsLaws}.

(** What writing and posting leave alone. *)
Definition objects (h : handler) :=
  (local_objects h, remote_objects h, locals h, remotes h, user_close h, next_id h).

Lemma take_feedbacks_objects (w : world) :
  objects (_handler (take_feedbacks w).2) = objects (_handler w) /\
  encoder_ (_handler (take_feedbacks w).2) = encoder_ (_handler w).
Proof. done. Qed.

Lemma do_write_objects (w : world) :
  objects (_handler (do_write w)) = objects (_handler w) /\
  encoder_ (_handler (do_write w)) = encoder_ (_handler w).
Proof.
  unfold do_write. destruct (_writing w || _stopped w); [done|].
  assert (E : _handler (set_out "" (renew_ttl w)) = _handler w) by (unfold renew_ttl; by case_match).
  cbv zeta. revert E. generalize (set_out "" (renew_ttl w)). intros c E.
  cbn [quiet_write http1_quiet]. unfold finish_write.
  rewrite E. destruct (empty (serialization (_handler w))) eqn:Ee; cbn [negb]; [done|].
  cbn [_out set_out]. by rewrite Ee.
Qed.

(** An HTTP/1 handler never lets [do_write] stop the connector: [should_stop] is
    asked only after an [on_write] that answered true, and that one has bytes. *)
Lemma do_write_never_stops (w : world) : _stopped (do_write w) = _stopped w.
Proof.
  unfold do_write. destruct (_writing w || _stopped w); [done|].
  assert (E : _stopped (set_out "" (renew_ttl w)) = _stopped w) by (unfold renew_ttl; by case_match).
  cbv zeta. revert E. generalize (set_out "" (renew_ttl w)). intros c E.
  cbn [quiet_write http1_quiet]. unfold finish_write.
  destruct (empty (serialization (_handler c))) eqn:Ee; cbn [negb].
  - by cbn.
  - cbn [_out set_out]. by rewrite Ee.
Qed.

Lemma append_write_spec r (w : world) s e :
  r (encoder_ (_handler w)) = Ok (s, e) ->
  exists w', append_write r w = Ok w' /\
    objects (_handler w') = objects (_handler w) /\ encoder_ (_handler w') = e /\
    forall p q, accounted w p q -> accounted w' (p +:+ s) q.
Proof.
  intros E. unfold append_write, append. rewrite E. eexists. split; [reflexivity|].
  destruct (do_write_objects (on_handler (fun h => set_output e (serialization h +:+ s) h) w))
    as [D1 D2]. rewrite D1, D2. split_and!; [done|done|].
  intros p q A. apply (do_write_accounted _ (p +:+ s) q).
  assert (St := step_handler w p q (set_output e (serialization (_handler w) +:+ s) (_handler w)) s []
    eq_refl (eq_sym (app_nil_r _))).
  rewrite app_nil_r in St. exact (write_step_accounted _ _ St A).
Qed.

(** Changes of the handler that leave its stock alone. *)
Lemma accounted_on_handler f (w : world) p q :
  (forall h, serialization (f h) = serialization h) ->
  (forall h, pending_clear_callbacks (f h) = pending_clear_callbacks h) ->
  accounted w p q -> accounted (on_handler f w) p q.
Proof.
  intros F1 F2 A.
  assert (St := step_handler w p q (f (_handler w)) "" []). cbn [outbox pending http1_laws] in St.
  rewrite F1, F2, !app_nil_r, !string_app_nil_r in St.
  exact (write_step_accounted _ _ (St eq_refl eq_refl) A).
Qed.

Definition feedback_of (id : nat) : task * task :=
  (task_cleared id, task_error id missing_stream_element).

(** The piece taken out is the first one buffered. *)
Definition poll_result (id : nat) (w : world) (s : string) (b : bool) (e : encoder) (w' : world) : Prop :=
  local_objects (_handler w') = local_objects (_handler w) /\
  encoder_ (_handler w') = e /\
  (exists o', pollable o' /\ locals (_handler w') = <[id := o']> (locals (_handler w))) /\
  forall p q, accounted w p q ->
    accounted w' (p +:+ s) (if b then (q ++ [feedback_of id])%list else q).

(** The encoder call for one piece, and the operation that makes it. *)
Definition encode_piece (p : Local.piece (M := LM)) (e : encoder) : outcome (string * encoder) :=
  match p with
  | Local.piece_headers m => @encode_header LM local_message m e
  | Local.piece_body b => encode_body b e
  | Local.piece_trailer k v => encode_trailer k v e
  | Local.piece_end => encode_eom e
  | Local.piece_continue => encode_continue e
  end.

Definition notify_piece (p : Local.piece (M := LM)) (w : world) : outcome world :=
  match p with
  | Local.piece_headers m => notify_local_headers m w
  | Local.piece_body b => notify_local_body b w
  | Local.piece_trailer k v => notify_local_trailer k v w
  | Local.piece_end => notify_local_end w
  | Local.piece_continue => append_write encode_continue w
  end.

Lemma append_write_crash r (w : world) f :
  r (encoder_ (_handler w)) = Crash f -> append_write r w = Crash f.
Proof. intros E. unfold append_write, append. by rewrite E. Qed.

Lemma notify_piece_spec p (w : world) :
  match encode_piece p (encoder_ (_handler w)) with
  | Ok (s, e) => exists w', notify_piece p w = Ok w' /\
      objects (_handler w') = objects (_handler w) /\ encoder_ (_handler w') = e /\
      forall p q, accounted w p q -> accounted w' (p +:+ s) q
  | Crash f => notify_piece p w = Crash f
  end.
Proof.
  destruct p as [|m|b|k v|]; cbn [encode_piece notify_piece].
  2:{ unfold notify_local_headers. set (w0 := if has _ _ then _ else w).
      assert (E1 : objects (_handler w0) = objects (_handler w)) by (subst w0; by case_match).
      assert (E2 : encoder_ (_handler w0) = encoder_ (_handler w)) by (subst w0; by case_match).
      assert (E3 : forall p q, accounted w p q -> accounted w0 p q).
      { intros p q A. subst w0. case_match; [|done]. by apply accounted_on_handler. }
      rewrite <- E2, <- E1. destruct (encode_header m (encoder_ (_handler w0))) as [[s e]|f] eqn:E.
      - destruct (append_write_spec _ w0 s e E) as (w' & H1 & H2 & H3 & H4).
        exists w'. split_and!; auto.
      - by apply append_write_crash. }
  all: match goal with |- context [match ?r with Ok _ => _ | Crash _ => _ end] =>
    destruct r as [[s e]|f] eqn:E end;
    [exact (append_write_spec _ w s e E)|by apply append_write_crash].
Qed.

(** A poll, piece by piece. *)
Lemma poll_local_step fuel id (w : world) o :
  locals (_handler w) !! id = Some o -> pollable o ->
  poll_local (S fuel) id w =
    match Local.buffered o with
    | [] => Ok (false, put_local id o w)
    | p :: _ =>
        let w := put_local id (Local.after_piece p o) w in
        match p with
        | Local.piece_end =>
            let w := on_handler (fun h => set_callbacks (pending_clear_callbacks h
                       ++ [feedback_of id]) h) w in
            w ← notify_piece p w; mret (true, connection_cleared w)
        | Local.piece_continue => w ← notify_piece p w; mret (false, w)
        | _ => w ← notify_piece p w; poll_local fuel id w
        end
    end.
Proof.
  intros Hl Hp. cbn [poll_local]. rewrite Hl. cbn [of_option mbind outcome_bind].
  pose proof (poll_spec o Hp) as P. destruct (local_get_state o) as [st o1]. rewrite P.
  destruct (Local.buffered o) as [|[] ps]; done.
Qed.

Lemma accounted_put id o (w : world) p q : accounted w p q -> accounted (put_local id o w) p q.
Proof. by apply accounted_on_handler. Qed.

Lemma accounted_end id (w : world) p q :
  accounted w p q ->
  accounted (on_handler (fun h => set_callbacks (pending_clear_callbacks h ++ [feedback_of id]) h) w)
    p (q ++ [feedback_of id]).
Proof.
  intros A.
  assert (St := step_handler w p q (set_callbacks (pending_clear_callbacks (_handler w)
    ++ [feedback_of id]) (_handler w)) "" [feedback_of id] (eq_sym (string_app_nil_r _)) eq_refl).
  rewrite string_app_nil_r in St. exact (write_step_accounted _ _ St A).
Qed.

Lemma objects_fields h h' :
  objects h' = objects h -> local_objects h' = local_objects h /\ locals h' = locals h.
Proof. by intros [= -> _ -> _ _ _]. Qed.

Lemma buffered_after_mid p ps (o : local_object LM) :
  Local.buffered o = p :: ps -> p <> Local.piece_end ->
  Local.buffered (Local.after_piece p o) = ps.
Proof. apply Local.buffered_after. Qed.

Lemma encode_pieces_cons p ps e :
  encode_pieces (p :: ps) e =
    '(s, e) ← encode_piece p e;
    match p with
    | Local.piece_end => mret (s, true, e)
    | Local.piece_continue => mret (s, false, e)
    | _ => '(t, b, e) ← encode_pieces ps e; mret (s +:+ t, b, e)
    end.
Proof. by destruct p. Qed.

Lemma poll_local_spec fuel id (w : world) o :
  locals (_handler w) !! id = Some o -> pollable o -> (length (Local.buffered o) < fuel)%nat ->
  match encode_pieces (Local.buffered o) (encoder_ (_handler w)) with
  | Ok (s, b, e) => exists w', poll_local fuel id w = Ok (b, w') /\ poll_result id w s b e w'
  | Crash f => poll_local fuel id w = Crash f
  end.
Proof.
  revert w o. induction fuel as [|fuel IH]; intros w o Hl Hp Hf; [lia|].
  rewrite (poll_local_step fuel id w o Hl Hp).
  destruct (Local.buffered o) as [|p ps] eqn:Eb.
  { eexists. split; [reflexivity|]. split_and!; [done|done|by exists o|].
    intros p q A. rewrite string_app_nil_r. by apply accounted_put. }
  rewrite encode_pieces_cons. cbv zeta. set (w0 := put_local id (Local.after_piece p o) w).
  assert (Hp0 : pollable (Local.after_piece p o)) by by apply pollable_after.
  assert (A0 : forall x q, accounted w x q -> accounted w0 x q) by (intros; by apply accounted_put).
  assert (L0 : locals (_handler w0) = <[id := Local.after_piece p o]> (locals (_handler w))) by done.
  assert (Mid : p <> Local.piece_end -> p <> Local.piece_continue ->
    match ('(s, e) ← encode_piece p (encoder_ (_handler w));
           '(t, b, e) ← encode_pieces ps e; mret (s +:+ t, b, e)) with
    | Ok (s, b, e) => exists w', (w ← notify_piece p w0; poll_local fuel id w) = Ok (b, w') /\
        poll_result id w s b e w'
    | Crash f => (w ← notify_piece p w0; poll_local fuel id w) = Crash f
    end).
  { intros Hne _. pose proof (notify_piece_spec p w0) as Hn.
    change (encoder_ (_handler w0)) with (encoder_ (_handler w)) in Hn.
    destruct (encode_piece p (encoder_ (_handler w))) as [[s e]|f]; cbn; [|by rewrite Hn].
    destruct Hn as (w1 & En & [Eo El]%objects_fields & Ee & A1). rewrite En. cbn.
    pose proof (buffered_after_mid p ps o Eb Hne) as Ebuf.
    specialize (IH w1 (Local.after_piece p o)). rewrite Ebuf, El, L0, Ee in IH.
    rewrite lookup_insert_eq in IH. specialize (IH eq_refl Hp0 ltac:(cbn in Hf; lia)).
    destruct (encode_pieces ps e) as [[[t b] e']|f]; cbn; [|done].
    destruct IH as (w' & Ep & R1 & R2 & (o' & Ho' & R3) & R4). exists w'. split; [done|].
    split_and!; [by rewrite R1, Eo|done| |].
    - exists o'. split; [done|]. rewrite R3, El, L0. by rewrite insert_insert_eq.
    - intros x q A. rewrite <- string_app_assoc. auto. }
  destruct p as [|m|d|k v|];
    [|apply Mid; discriminate|apply Mid; discriminate|apply Mid; discriminate|]; clear Mid IH.
  - pose proof (notify_piece_spec Local.piece_continue w0) as Hn.
    change (encoder_ (_handler w0)) with (encoder_ (_handler w)) in Hn.
    destruct (encode_piece _ (encoder_ (_handler w))) as [[s e]|f]; cbn [mbind outcome_bind] in *;
      [|by rewrite Hn].
    destruct Hn as (w1 & En & [Eo El]%objects_fields & Ee & A1). rewrite En.
    exists w1. split; [done|]. split_and!; [done|done| |auto]. eexists. split; [exact Hp0|]. by rewrite El.
  - set (w1 := on_handler _ w0). pose proof (notify_piece_spec Local.piece_end w1) as Hn.
    change (encoder_ (_handler w1)) with (encoder_ (_handler w)) in Hn.
    destruct (encode_piece _ (encoder_ (_handler w))) as [[s e]|f]; cbn [mbind outcome_bind] in *;
      [|by rewrite Hn].
    destruct Hn as (w2 & En & [Eo El]%objects_fields & Ee & A1). rewrite En.
    exists (connection_cleared w2). split; [done|].
    assert (C : forall x q, accounted w2 x q -> accounted (connection_cleared w2) x q).
    { intros x q A. unfold connection_cleared. destruct is_server; [done|]. by apply accounted_on_handler. }
    split_and!.
    + unfold connection_cleared. by case_match.
    + unfold connection_cleared. by case_match.
    + eexists. split; [exact Hp0|]. transitivity (locals (_handler w2)); [|by rewrite El].
      unfold connection_cleared. by case_match.
    + intros x q A. apply C, A1, accounted_end. auto.
Qed.

Lemma drop_tail {A} n (l : list A) : drop n (tail l) = drop (S n) l.
Proof. destruct l; [by destruct n|done]. Qed.

Lemma notify_loop_spec ids os (w : world) :
  NoDup ids ->
  Forall2 (fun id o => locals (_handler w) !! id = Some o /\ pollable o) ids os ->
  match encode_objects os (encoder_ (_handler w)) with
  | Ok (s, n, e) => exists w', notify_loop ids w = Ok w' /\ encoder_ (_handler w') = e /\
      local_objects (_handler w') = drop n (local_objects (_handler w)) /\
      forall p q, accounted w p q -> accounted w' (p +:+ s) (q ++ (feedback_of <$> take n ids))
  | Crash f => notify_loop ids w = Crash f
  end.
Proof.
  intros Hnd. revert os w. induction Hnd as [|id ids Hid Hnd IH]; intros os w HF.
  { apply Forall2_nil_inv_l in HF as ->. exists w. split_and!; [done|done|done|].
    intros p q A. by rewrite string_app_nil_r, app_nil_r. }
  apply Forall2_cons_inv_l in HF as (o & os' & [Hl Hp] & HF & ->).
  cbn [notify_loop encode_objects]. rewrite Hl.
  assert (poll_fuel id w = S (length (Local.buffered o))) as -> by (unfold poll_fuel; by rewrite Hl).
  pose proof (poll_local_spec (S (length (Local.buffered o))) id w o Hl Hp ltac:(lia)) as P.
  destruct (encode_pieces (Local.buffered o) (encoder_ (_handler w))) as [[[s b] e]|f];
    cbn [mbind outcome_bind]; [|by rewrite P].
  destruct P as (w1 & E1 & R1 & R2 & (o' & _ & R3) & R4). rewrite E1. cbn [mbind outcome_bind].
  destruct b.
  2:{ exists w1. split_and!; [done|done|by rewrite R1|]. intros p q A.
      rewrite app_nil_r. exact (R4 _ _ A). }
  set (w2 := on_handler _ w1).
  assert (HF2 : Forall2 (fun id o => locals (_handler w2) !! id = Some o /\ pollable o) ids os').
  { apply Forall2_same_length_lookup. split; [by eapply Forall2_length|].
    intros i x y Hx Hy. cbn. rewrite R3.
    rewrite lookup_insert_ne; [by eapply Forall2_lookup_lr in HF|].
    intros ->. apply Hid. by eapply list_elem_of_lookup_2. }
  specialize (IH os' w2 HF2). change (encoder_ (_handler w2)) with (encoder_ (_handler w1)) in IH.
  rewrite R2 in IH. destruct (encode_objects os' e) as [[[t n] e']|f]; cbn [mbind outcome_bind];
    [|exact IH].
  destruct IH as (w' & E & I1 & I2 & I3). exists w'. split_and!; [done|done| |].
  - rewrite I2. cbn [_handler w2 on_handler set_handler local_objects set_queues].
    by rewrite R1, drop_tail.
  - intros p q A. cbn [take fmap list_fmap]. rewrite <- string_app_assoc.
    assert (A2 : accounted w2 (p +:+ s) (q ++ [feedback_of id])).
    { apply accounted_on_handler; [done|done|]. exact (R4 _ _ A). }
    specialize (I3 _ _ A2). rewrite <- app_assoc in I3. exact I3.
Qed.

(** ** The decoder's side *)
Lemma get_current_some (w : world) id w' :
  get_current w = Ok (Some id, w') ->
  w' = w /\ head (remote_objects (_handler w)) = Some id /\
  exists r, remotes (_handler w) !! id = Some r /\ terminated r = false.
Proof.
  unfold get_current. destruct (decoding_error (_handler w)); [by intros [= ]|].
  destruct (remote_objects (_handler w)) as [|i ids]; [by intros [= ]|].
  destruct (remotes (_handler w) !! i) as [r|] eqn:E; [|done].
  cbn. destruct (terminated r) eqn:Et; intros [= -> ->]. eauto.
Qed.

(** ** The queues only grow by new transactions *)

(** The operations of the handler and of its environment. *)
Inductive operation :=
| op_decoding_start (rem : remote_object RM)
| op_decoded_headers
| op_decoded_body (b : string)
| op_decoded_trailer (k v : string)
| op_decoding_end
| op_decoding_failure
| op_user_call (id : nat) (c : call LM)
| op_run_task (t : task)
| op_do_write
| op_write_done (ec : option io_error)
| op_close
| op_connector_nulled.

Definition perform (o : operation) (w : world) : outcome world :=
  match o with
  | op_decoding_start rem => mret (decoding_start rem w)
  | op_decoded_headers => decoded_headers w
  | op_decoded_body b => decoded_body b w
  | op_decoded_trailer k v => decoded_trailer k v w
  | op_decoding_end => decoding_end w
  | op_decoding_failure => decoding_failure w
  | op_user_call id c => user_call id c w
  | op_run_task t => run_task t w
  | op_do_write => mret (do_write w)
  | op_write_done ec => mret (write_done ec w)
  | op_close => close_connection w
  | op_connector_nulled => on_connector_nulled w
  end.

Fixpoint perform_all (os : list operation) (w : world) : outcome world :=
  match os with [] => mret w | o :: os => w ← perform o w; perform_all os w end.

Definition shrinks (w w' : world) : Prop :=
  local_objects (_handler w') `suffix_of` local_objects (_handler w) /\
  remote_objects (_handler w') `suffix_of` remote_objects (_handler w) /\
  next_id (_handler w') = next_id (_handler w).

#[local] Instance shrinks_preorder : PreOrder shrinks.
Proof.
  split.
  - intros w. done.
  - intros w1 w2 w3 (A1 & A2 & A3) (B1 & B2 & B3). split_and!; [by etrans|by etrans|congruence].
Qed.

Lemma shrinks_objects w w' : objects (_handler w') = objects (_handler w) -> shrinks w w'.
Proof. intros [= E1 E2 _ _ _ E3]. unfold shrinks. by rewrite E1, E2, E3. Qed.

Lemma shrinks_do_write w : shrinks w (do_write w).
Proof. apply shrinks_objects, do_write_objects. Qed.

Lemma shrinks_append_write r w w' : append_write r w = Ok w' -> shrinks w w'.
Proof.
  unfold append_write, append. intros E. inv_outcome. destruct a0 as [s e]. inv_outcome. subst.
  by etrans; [|apply shrinks_do_write].
Qed.

Lemma shrinks_notify_piece p w w' : notify_piece p w = Ok w' -> shrinks w w'.
Proof.
  destruct p; cbn; try apply shrinks_append_write.
  unfold notify_local_headers. case_match; intros E%shrinks_append_write; [|done].
  by etrans; [|exact E].
Qed.

Lemma shrinks_poll fuel id w b w' : poll_local fuel id w = Ok (b, w') -> shrinks w w'.
Proof.
  revert w. induction fuel as [|fuel IH]; intros w E; [done|]. cbn [poll_local] in E. inv_outcome.
  destruct (local_get_state a) as [st o]. inv_outcome. destruct a0 as [p o'].
  assert (S : shrinks w (put_local id o' w)) by done. revert E S.
  generalize (put_local id o' w). intros w0 E S.
  destruct p as [[|m|d|k v|]|]; inv_outcome; simplify_eq.
  - etrans; [exact S|]. by eapply shrinks_append_write.
  - etrans; [exact S|]. etrans; [by eapply (shrinks_notify_piece (Local.piece_headers m))|by apply IH].
  - etrans; [exact S|]. etrans; [by eapply (shrinks_notify_piece (Local.piece_body d))|by apply IH].
  - etrans; [exact S|]. etrans; [by eapply (shrinks_notify_piece (Local.piece_trailer k v))|by apply IH].
  - etrans; [exact S|]. etrans; [|unfold connection_cleared; by case_match; [|]].
    match goal with E : notify_local_end _ = Ok _ |- _ =>
      apply (shrinks_notify_piece Local.piece_end) in E; etrans; [|exact E]; done end.
  - exact S.
Qed.

Lemma tail_suffix {A} (l : list A) : tail l `suffix_of` l.
Proof. destruct l as [|x l]; [done|]. by exists [x]. Qed.

Lemma shrinks_call_remote id t w w' : call_remote id t w = Ok w' -> shrinks w w'.
Proof.
  unfold call_remote. intros E. inv_outcome. destruct (pull_remote t a). by inv_outcome; subst.
Qed.

Lemma shrinks_call_local id f w : shrinks w (call_local id f w).
Proof. unfold call_local. case_match; [|done]. by destruct (f _). Qed.

Lemma shrinks_error_remotes ids e w w' : error_remotes ids e w = Ok w' -> shrinks w w'.
Proof.
  revert w. induction ids as [|id ids IH]; intros w E; cbn [error_remotes] in E; inv_outcome;
    [by subst|]. etrans; [by eapply shrinks_call_remote|by apply IH].
Qed.

Lemma shrinks_foldl {A} (f : world -> A -> world) l w :
  (forall w a, shrinks w (f w a)) -> shrinks w (foldl f w l).
Proof.
  intros Hf. revert w. induction l as [|a l IH]; intros w; [done|]. cbn [foldl].
  etrans; [apply Hf|apply IH].
Qed.

Lemma shrinks_notify_all e w w' : notify_all e w = Ok w' -> shrinks w w'.
Proof.
  unfold notify_all. intros E. inv_outcome. subst w'.
  etrans; [by eapply shrinks_error_remotes|].
  etrans; [apply (shrinks_foldl (fun w id => call_local id local_error w)
    (local_objects (_handler w))); intros; apply shrinks_call_local|].
  split_and!; cbn; [apply suffix_nil|apply suffix_nil|done].
Qed.

Lemma shrinks_notify_loop ids w w' : notify_loop ids w = Ok w' -> shrinks w w'.
Proof.
  revert w. induction ids as [|id ids IH]; intros w E; cbn [notify_loop] in E; [by inv_outcome; subst|].
  destruct (locals (_handler w) !! id).
  - inv_outcome. destruct a as [b w1]. apply shrinks_poll in E0.
    etrans; [exact E0|]. destruct b; [|by inv_outcome; subst].
    etrans; [|by apply IH]. split_and!; cbn; [apply tail_suffix|done|done].
  - etrans; [|by eapply shrinks_notify_all]. done.
Qed.

Lemma shrinks_get_current w o w' : get_current w = Ok (o, w') -> shrinks w w'.
Proof.
  unfold get_current. intros E.
  destruct (decoding_error (_handler w)); [by inv_outcome; simplify_eq|].
  destruct (remote_objects (_handler w)); [by inv_outcome; simplify_eq|].
  inv_outcome. case_match; by inv_outcome; simplify_eq.
Qed.

Lemma shrinks_with_current f w w' :
  (forall id w w', f id w = Ok w' -> shrinks w w') -> with_current f w = Ok w' -> shrinks w w'.
Proof.
  unfold with_current. intros Hf E. inv_outcome. destruct a as [[id|] w1].
  - etrans; [by eapply shrinks_get_current|by eapply Hf].
  - inv_outcome. subst. by eapply shrinks_get_current.
Qed.

Lemma shrinks_pop_remote w : shrinks w (pop_remote w).
Proof. split_and!; [done|apply tail_suffix|done]. Qed.

Lemma shrinks_pop_local w :
  shrinks w (on_handler (fun h => set_queues (tail (local_objects h)) (remote_objects h) h) w).
Proof. split_and!; [apply tail_suffix|done|done]. Qed.

Lemma shrinks_update_persistent w w' : update_persistent w = Ok w' -> shrinks w w'.
Proof. unfold update_persistent. cbv zeta. intros E. inv_outcome. by subst. Qed.

Lemma shrinks_decoded_headers w w' : decoded_headers w = Ok w' -> shrinks w w'.
Proof.
  apply shrinks_with_current. clear. cbv zeta. intros id w w' E. inv_outcome. subst w'.
  etrans; [by eapply shrinks_update_persistent|].
  assert (S : shrinks a a0) by (destruct (negb is_server && _); [by inv_outcome; subst|by eapply shrinks_call_remote]).
  etrans; [exact S|]. done.
Qed.

Lemma shrinks_decoding_end w w' : decoding_end w = Ok w' -> shrinks w w'.
Proof.
  apply shrinks_with_current. clear. cbv zeta. intros id w w' E. destruct is_server.
  - inv_outcome. subst. etrans; [by eapply shrinks_call_remote|apply shrinks_pop_remote].
  - etrans; [apply shrinks_pop_remote|]. case_match; by eapply shrinks_call_remote.
Qed.

Lemma shrinks_decoding_failure w w' : decoding_failure w = Ok w' -> shrinks w w'.
Proof.
  apply shrinks_with_current. clear. cbv zeta. intros id w w' E. inv_outcome. subst w'.
  etrans; [by eapply shrinks_call_remote|]. etrans; [apply shrinks_pop_remote|].
  etrans; [apply shrinks_call_local|]. apply shrinks_pop_local.
Qed.

Lemma shrinks_user_call id c w w' : user_call id c w = Ok w' -> shrinks w w'.
Proof.
  unfold user_call. intros E. inv_outcome.
  destruct c; try (etrans; [|by eapply shrinks_notify_loop]; done).
  destruct is_server; inv_outcome; subst; [done|].
  etrans; [|apply shrinks_call_local]. etrans; [|by eapply shrinks_notify_loop]. done.
Qed.

Lemma shrinks_run_task t w w' : run_task t w = Ok w' -> shrinks w w'.
Proof.
  destruct t; cbn; intros E; inv_outcome; subst; try done; try apply shrinks_call_local.
  etrans; [|apply shrinks_call_local]. etrans; [|by eapply shrinks_notify_loop]. done.
Qed.

Lemma shrinks_write_done ec w : shrinks w (write_done ec w).
Proof.
  unfold write_done, write_completed. destruct ec.
  - case_bool_decide; [|done]. unfold stop. by case_match.
  - etrans; [|apply shrinks_do_write]. done.
Qed.

Lemma shrinks_connector_nulled w w' : on_connector_nulled w = Ok w' -> shrinks w w'.
Proof.
  unfold on_connector_nulled. intros E. case_match; [by inv_outcome; subst|]. inv_outcome. subst w'.
  etrans; [by eapply shrinks_notify_all|].
  etrans; [|by apply (shrinks_foldl (fun w (cb : task * task) => match cb.2 with
        | task_error id _ => call_local id local_error w | _ => w end)
      (pending_clear_callbacks (_handler (connection_error_ closed_by_client a)))
      (connection_error_ closed_by_client a)); intros ? [? []]; try done; apply shrinks_call_local].
  done.
Qed.

(** Identities in the order of their transactions, all of the past. *)
Definition in_order (ids : list nat) (n : nat) : Prop :=
  StronglySorted lt ids /\ Forall (fun id => (id < n)%nat) ids.

Definition queues_in_order (w : world) : Prop :=
  in_order (local_objects (_handler w)) (next_id (_handler w)) /\
  in_order (remote_objects (_handler w)) (next_id (_handler w)).

Lemma in_order_suffix ids ids' n : in_order ids n -> ids' `suffix_of` ids -> in_order ids' n.
Proof.
  intros [H1 H2] [k ->]. apply StronglySorted_app in H1 as (_ & _ & H1).
  apply Forall_app in H2 as [_ H2]. by split.
Qed.

Lemma in_order_snoc ids n : in_order ids n -> in_order (ids ++ [n]) (S n).
Proof.
  intros [H1 H2]. split.
  - apply StronglySorted_app. split_and!; [|done|repeat constructor].
    intros x y Hx ->%list_elem_of_singleton. by eapply Forall_forall in H2.
  - apply Forall_app. split; [|repeat constructor]. eapply Forall_impl; [exact H2|]. cbn. lia.
Qed.

Lemma queues_shrink w w' : queues_in_order w -> shrinks w w' -> queues_in_order w'.
Proof.
  intros [H1 H2] (S1 & S2 & E). unfold queues_in_order. rewrite E.
  split; [exact (in_order_suffix _ _ _ H1 S1)|exact (in_order_suffix _ _ _ H2 S2)].
Qed.

(** Only the beginning of a transaction puts anything into the queues. *)
Lemma perform_shrinks o w w' :
  match o with op_decoding_start _ => False | _ => True end -> perform o w = Ok w' -> shrinks w w'.
Proof.
  intros Ho E. destruct o; cbn [perform] in E; [destruct Ho|..]; clear Ho; inv_outcome; subst.
  - by apply shrinks_decoded_headers.
  - eapply shrinks_with_current; [|exact E]. intros id x y; apply shrinks_call_remote.
  - eapply shrinks_with_current; [|exact E]. intros id x y. cbv beta. case_match; [by intros [= ->]|].
    apply shrinks_call_remote.
  - by apply shrinks_decoding_end.
  - by apply shrinks_decoding_failure.
  - by eapply shrinks_user_call.
  - by eapply shrinks_run_task.
  - apply shrinks_do_write.
  - apply shrinks_write_done.
  - unfold close_connection in E. etrans; [|by eapply shrinks_notify_all].
    unfold stop. by case_match.
  - by apply shrinks_connector_nulled.
Qed.

Lemma perform_in_order o w w' : queues_in_order w -> perform o w = Ok w' -> queues_in_order w'.
Proof.
  intros Q E. destruct o as [rem| | | | | | | | | | |]; [|eapply queues_shrink; [exact Q|]; eapply perform_shrinks; [|exact E]; exact I..].
  cbn [perform] in E. inv_outcome. subst w'. unfold decoding_start. destruct is_server; [|exact Q].
  destruct Q as [Q1 Q2]. split; cbn; by apply in_order_snoc.
Qed.

(** The transactions that a list of operations begins, on a server. *)
Fixpoint begun (os : list operation) : nat :=
  match os with
  | [] => 0
  | op_decoding_start _ :: os => (if is_server then 1 else 0) + begun os
  | _ :: os => begun os
  end.

Lemma suffix_app_l {A} (k l l' : list A) : l `suffix_of` l' -> l ++ k `suffix_of` l' ++ k.
Proof. intros [m ->]. exists m. by rewrite app_assoc. Qed.

(** The queue holds the transactions that were begun, in the order of their
    beginning, but for the first ones. *)
Lemma perform_all_queue os w w' :
  perform_all os w = Ok w' ->
  local_objects (_handler w') `suffix_of` local_objects (_handler w) ++ seq (next_id (_handler w)) (begun os) /\
  next_id (_handler w') = (next_id (_handler w) + begun os)%nat.
Proof.
  revert w. induction os as [|o os IH]; intros w E; cbn [perform_all] in E; inv_outcome.
  { subst w'. cbn. by rewrite app_nil_r, Nat.add_0_r. }
  destruct (IH _ E) as [I1 I2]. clear IH E. rename a into w1.
  assert (X : forall n, (forall l, local_objects (_handler w1) ++ l `suffix_of` (local_objects (_handler w) ++ seq (next_id (_handler w)) n) ++ l) ->
    next_id (_handler w1) = (next_id (_handler w) + n)%nat ->
    local_objects (_handler w') `suffix_of` local_objects (_handler w) ++ seq (next_id (_handler w)) (n + begun os) /\
    next_id (_handler w') = (next_id (_handler w) + (n + begun os))%nat).
  { intros n H1 H2. rewrite H2 in I1, I2. split; [|lia]. rewrite seq_app, app_assoc. etrans; [exact I1|apply H1]. }
  assert (Y : shrinks w w1 -> forall l, local_objects (_handler w1) ++ l `suffix_of` (local_objects (_handler w) ++ []) ++ l)
    by (intros S l; rewrite app_nil_r; apply suffix_app_l, S).
  destruct o as [rem| | | | | | | | | | |]; cbn [begun];
    [|assert (S : shrinks w w1) by (eapply perform_shrinks; [|exact E0]; exact I);
      apply (X 0%nat); [by apply Y|rewrite Nat.add_0_r; apply S]..].
  cbn [perform] in E0. inv_outcome. subst w1. revert X Y. unfold decoding_start. destruct is_server; intros X Y.
  - apply (X 1%nat); [|cbn; lia]. intros l. done.
  - apply (X 0%nat); [by apply Y|cbn; lia].
Qed.

Lemma perform_all_in_order os w w' :
  queues_in_order w -> perform_all os w = Ok w' -> queues_in_order w'.
Proof.
  revert w. induction os as [|o os IH]; intros w Q E; cbn [perform_all] in E; inv_outcome;
    [by subst|]. eapply IH; [|exact E]. by eapply perform_in_order.
Qed.

Lemma in_order_nodup ids n : in_order ids n -> NoDup ids.
Proof.
  intros [HS _]. induction HS as [|x l Hs IH Hx]; constructor; [|done].
  intros Hin. eapply Forall_forall in Hx; [|exact Hin]. lia.
Qed.

(** What a run of the queue comes to, on the objects it has. *)
Lemma notify_local_content_spec (w : world) os :
  queues_in_order w ->
  Forall2 (fun id o => locals (_handler w) !! id = Some o /\ pollable o)
    (local_objects (_handler w)) os ->
  match encode_objects os (encoder_ (_handler w)) with
  | Ok (s, n, e) => exists w', notify_local_content w = Ok w' /\ encoder_ (_handler w') = e /\
      local_objects (_handler w') = drop n (local_objects (_handler w)) /\
      forall p q, accounted w p q ->
        accounted w' (p +:+ s) (q ++ (feedback_of <$> take n (local_objects (_handler w))))
  | Crash f => notify_local_content w = Crash f
  end.
Proof.
  intros [Q _] HF. apply notify_loop_spec; [by eapply in_order_nodup|done].
Qed.

(** ** Theorems *)

(** C12: Responses go to the connector in the order of their requests.  Whatever has
    happened on a connection, its queue holds the objects of the transactions in the
    order in which they were begun, the first ones gone; and when the user writes
    something to an object (it becomes [o]), the bytes that are handed over are those
    that the encoder makes of the objects of the queue, one after the other, each
    whole before the next is begun.  The objects that are done leave the queue, and
    their feedbacks are kept for the write; the assertions of the encoder fail
    exactly when that encoding fails. *)
Theorem responses_in_order (os : list operation) (w0 w : world) (id : nat) (o : local_object LM)
    (objs : list (local_object LM)) :
  queues_in_order w0 -> perform_all os w0 = Ok w ->
  let w1 := put_local id o w in
  let waiting := local_objects (_handler w) in
  Forall2 (fun id o => locals (_handler w1) !! id = Some o /\ pollable o) waiting objs ->
  (exists gone, local_objects (_handler w0) ++ seq (next_id (_handler w0)) (begun os) = gone ++ waiting) /\
  StronglySorted lt waiting /\
  match encode_objects objs (encoder_ (_handler w)) with
  | Ok (s, n, e) => exists w', notify_local_content w1 = Ok w' /\ encoder_ (_handler w') = e /\
      local_objects (_handler w') = drop n waiting /\
      forall p q, accounted w p q ->
        accounted w' (p +:+ s) (q ++ (feedback_of <$> take n waiting))
  | Crash f => notify_local_content w1 = Crash f
  end.
Proof.
  intros Q E w1 waiting HF. destruct (perform_all_queue os w0 w E) as [[gone G] _].
  assert (Q1 : queues_in_order w1) by exact (perform_all_in_order os w0 w Q E).
  split; [by exists gone|]. split; [apply Q1|]. pose proof (notify_local_content_spec w1 objs Q1 HF) as N.
  change (encoder_ (_handler w1)) with (encoder_ (_handler w)) in N. change (local_objects (_handler w1)) with waiting in N.
  destruct (encode_objects objs _) as [[[s n] e]|f]; [|exact N]. destruct N as (w' & N1 & N2 & N3 & N4).
  exists w'. do 3 (split; [done|]). intros p q A. by apply N4, accounted_put.
Qed.

(** An HTTP/1 connection is never closed by [do_write], whatever the
    persistency negotiated: when all responses are written and the connection
    is not persistent, [should_stop] holds, but [on_write] has nothing to write
    and the connector returns before asking. *)
Theorem http1_never_closes (w : world) :
  _stopped (do_write w) = _stopped w /\
  (http1_should_stop (_handler w) = true -> serialization (_handler w) = "" ->
   _writing w = false -> _stopped w = false ->
   http1_should_stop (_handler (do_write w)) = true /\ _writing (do_write w) = false /\
   _stopped (do_write w) = false).
Proof.
  split; [apply do_write_never_stops|]. intros Hs Hz Hw Hn.
  rewrite do_write_never_stops. split_and!; [| |done].
  - destruct (do_write_objects w) as [Eo _]. revert Hs. unfold http1_should_stop.
    assert (persistent (_handler (do_write w)) = persistent (_handler w)) as ->;
      [|by injection Eo as ->].
    unfold do_write. rewrite Hw, Hn. cbn [orb].
    assert (E : _handler (set_out "" (renew_ttl w)) = _handler w) by (unfold renew_ttl; by case_match).
    cbv zeta. revert E. generalize (set_out "" (renew_ttl w)). intros c E.
    cbn [quiet_write http1_quiet]. unfold finish_write. by rewrite E, Hz.
  - unfold do_write. rewrite Hw, Hn. cbn [orb].
    assert (E : _handler (set_out "" (renew_ttl w)) = _handler w) by (unfold renew_ttl; by case_match).
    assert (E2 : _writing (set_out "" (renew_ttl w)) = false) by (unfold renew_ttl; by case_match).
    cbv zeta. revert E E2. generalize (set_out "" (renew_ttl w)). intros c E E2.
    cbn [quiet_write http1_quiet]. unfold finish_write. by rewrite E, Hz.
Qed.

End Handler.

#[export] Instance server_laws : @TraitsLaws http_request http_response server_traits.
Proof.
  refine {| pollable _ := True |}; [done|].
  intros o _. pose proof (Local.take_piece_spec o) as P. cbn [local_get_state server_traits].
  destruct (Local.get_state o). apply P.
Defined.

#[export] Instance client_laws `{mem : Garbage} : @TraitsLaws http_response http_request client_traits.
Proof.
  refine {| pollable o := continue_required o = false |}.
  - intros o p H. by destruct p.
  - intros o H. apply (Local.client_take_piece_spec o H).
Defined.

(** A request that cannot be decoded errs against the wrong response when
    earlier ones are still open: the error goes to the last response of the
    queue, but the first one is taken out of it, and with no response open any
    more (the user was faster than the decoder) the queue is read while
    empty. *)
Theorem decoding_failure_queue (w : connector (handler (RM := http_request) (LM := http_response)) task)
    (id : nat) (r : remote_object http_request) (ls : list nat) :
  decoding_error (_handler w) = false ->
  head (remote_objects (_handler w)) = Some id -> remotes (_handler w) !! id = Some r ->
  terminated r = false -> local_objects (_handler w) = ls ->
  match ls with
  | [] => decoding_failure w = Crash Undefined
  | first :: rest => exists w', decoding_failure w = Ok w' /\
      local_objects (_handler w') = rest /\
      forall k o, locals (_handler w) !! k = Some o -> last ls <> Some k ->
        locals (_handler w') !! k = Some o
  end.
Proof.
  intros Hd Hh Hr Ht Hl. unfold decoding_failure, with_current, get_current. rewrite Hd.
  destruct (remote_objects (_handler w)) as [|i ids] eqn:Eq; [done|]. injection Hh as ->.
  rewrite Hr. cbn [of_option mbind outcome_bind]. rewrite Ht. cbn [mret outcome_ret mbind outcome_bind].
  unfold call_remote. rewrite Hr. cbn [of_option mbind outcome_bind pull_remote server_traits Remote.pull].
  unfold Remote.error. rewrite Ht. cbn [mret outcome_ret mbind outcome_bind].
  match goal with |- context [pop_remote ?x] => set (w1 := pop_remote x) end.
  change (local_objects (_handler w1)) with (local_objects (_handler w)). rewrite Hl.
  destruct ls as [|first rest]; [done|].
  destruct (last (first :: rest)) as [b|] eqn:Eb; [|by apply last_None in Eb].
  cbn [of_option mbind outcome_bind]. eexists. split; [reflexivity|].
  assert (El : local_objects (_handler (call_local b local_error w1)) = first :: rest).
  { unfold call_local. change (locals (_handler w1)) with (locals (_handler w)).
    destruct (locals (_handler w) !! b); [|exact Hl]. cbn. exact Hl. }
  split; [exact (f_equal tail El)|]. intros k o Hk Hne. cbn. unfold call_local.
  change (locals (_handler w1)) with (locals (_handler w)).
  destruct (locals (_handler w) !! b); [|exact Hk]. cbn.
  rewrite lookup_insert_ne; [exact Hk|congruence].
Qed.

(** ** A server with two pipelined requests, the second answered first *)
Definition remote0 : remote_object http_request := fresh all_callbacks sample_request.

Definition server0 : connector (handler (RM := http_request) (LM := http_response)) task :=
  new_connector 4 (new_handler sample_request).

Definition ok_response : http_response :=
  {| response_base := sample_data; _status_code := 200; _status_message := "OK" |}.

Definition two_requests : list operation :=
  [op_decoding_start remote0; op_decoding_end; op_decoding_start remote0;
   op_user_call 1 (c_headers ok_response)].

Lemma server0_in_order : queues_in_order server0.
Proof. split; split; constructor. Qed.

(** The user has answered the second request, and begun to answer the first. *)
Definition second_first : list operation :=
  [op_decoding_start remote0; op_decoding_end; op_decoding_start remote0; op_decoding_end;
   op_user_call 1 (c_headers ok_response); op_user_call 1 (c_body "two"); op_user_call 1 c_end; op_run_task (task_end 1);
   op_user_call 0 (c_headers ok_response)].

Definition after_second_first : connector (handler (RM := http_request) (LM := http_response)) task :=
  match perform_all second_first server0 with Ok w => w | Crash _ => server0 end.

Definition object_in (w : connector (handler (RM := http_request) (LM := http_response)) task) (id : nat) : local_object http_response :=
  default Local.new (locals (_handler w) !! id).

(** What is handed over when the first is ended: its end, and the second response. *)
Lemma responses_in_order_witness :
  let w := after_second_first in
  let o := Local.finish (object_in w 0) in
  exists w' s, notify_local_content (put_local 0 o w) = Ok w' /\ local_objects (_handler w) = [0; 1]%nat /\
    local_objects (_handler w') = [] /\ len s = 31 /\
    encode_objects [o; object_in w 1] (encoder_ (_handler w)) = Ok (s, 2%nat, encoder_ (_handler w')).
Proof.
  cbv zeta. set (w := after_second_first). set (o := Local.finish (object_in w 0)).
  destruct (responses_in_order second_first server0 w 0%nat o [o; object_in w 1]) as (_ & _ & R).
  - exact server0_in_order.
  - vm_compute. reflexivity.
  - assert (EL : local_objects (_handler w) = [0; 1]%nat) by (vm_compute; reflexivity). rewrite EL.
    constructor; [split; [vm_compute; reflexivity|exact I]|]. constructor; [split; [vm_compute; reflexivity|exact I]|]. constructor.
  - destruct (encode_objects [o; object_in w 1] (encoder_ (_handler w))) as [[[s n] e]|f] eqn:Ee.
    + assert (En : n = 2%nat /\ len s = 31) by (vm_compute in Ee; injection Ee as <- <- _; split; reflexivity).
      destruct En as [-> El]. destruct R as (w' & R1 & R2 & R3 & _). exists w', s. split; [exact R1|].
      split; [vm_compute; reflexivity|]. split; [rewrite R3; vm_compute; reflexivity|]. split; [exact El|]. by rewrite R2.
    + exfalso. vm_compute in Ee. discriminate Ee.
Defined.

Definition lingering : connector (handler (RM := http_request) (LM := http_response)) task :=
  new_connector 4 (set_persistent false (new_handler sample_request)).

Lemma http1_never_closes_witness :
  http1_should_stop (_handler (do_write lingering)) = true /\
  _writing (do_write lingering) = false /\ _stopped (do_write lingering) = false.
Proof. exact (proj2 (http1_never_closes lingering) eq_refl eq_refl eq_refl eq_refl). Defined.

Lemma decoding_failure_queue_witness :
  exists w w', perform_all two_requests server0 = Ok w /\
    local_objects (_handler w) = [0; 1]%nat /\ decoding_failure w = Ok w' /\
    local_objects (_handler w') = [1]%nat.
Proof.
  destruct (perform_all two_requests server0) as [w|f] eqn:E.
  2:{ vm_compute in E. discriminate. }
  assert (EL : local_objects (_handler w) = [0; 1]%nat).
  { revert E. vm_compute. intros [= <-]. reflexivity. }
  destruct (remotes (_handler w) !! 1%nat) as [r|] eqn:Er.
  2:{ revert E Er. vm_compute. intros [= <-]. discriminate. }
  destruct (decoding_failure_queue w 1%nat r [0; 1]%nat) as (w' & Ed & El & _).
  - revert E. vm_compute. intros [= <-]. reflexivity.
  - revert E. vm_compute. intros [= <-]. reflexivity.
  - exact Er.
  - revert E Er. vm_compute. intros [= <-] [= <-]. reflexivity.
  - exact EL.
  - exists w, w'. split_and!; [reflexivity|exact EL|exact Ed|exact El].
Defined.
