(* ===== verification/Multiplexer.v ===== *)
(** * Sharing a client connection (src/src/http/client/client_connection_multiplexer.{h,cpp})

    Several handlers share one connection and its one timer: the timer runs at
    the greatest common divisor of the timeouts asked for, and a handler is told
    every [periodicity] ticks.  [std::size_t] arithmetic wraps. *)

From Equations Require Import Equations.
From S2P Require Import Prelude Errors.


(** [GCD<t>(u, v)]. *)
#[local] Obligation Tactic := idtac.
Equations GCD (u v : Z) : Z by wf (Z.abs_nat v) lt :=
  GCD u v with Z.eq_dec v 0 => {
    | left _ => u;
    | right _ => GCD v (u mod v) }.
Next Obligation. intros u v H _. pose proof (Z.mod_bound_abs u v H). lia. Qed.

(** A [client_connection_handler]; [alive] says whether its weak pointer can
    still be locked, the identity stands for its address. *)
Record connection_handler := {
  handler_id : nat;
  alive : bool;
  periodicity : Z;
  tcb : bool;
  ecb : bool }.

(** What the handlers' users are told. *)
Inductive mux_event := timed_out (id : nat) | failed (id : nat) (e : error_code).

Record multiplexer := {
  handlers_list : list connection_handler;
  timeout_interval : Z;
  self_periodicity : Z;
  max_periodicity : Z;
  tick_count : Z;
  (** the callbacks left with the connection: ours or empty ones, the timeout
      it was given, and whether it was closed *)
  registered : bool;
  connection_timeout : Z;
  connection_closed_ : bool;
  next_handler : nat;
  told : list mux_event }.

Definition set_periodicity (p : Z) (h : connection_handler) : connection_handler :=
  {| handler_id := handler_id h; alive := alive h; periodicity := p; tcb := tcb h; ecb := ecb h |}.

Definition set_list (l : list connection_handler) (m : multiplexer) : multiplexer :=
  {| handlers_list := l; timeout_interval := timeout_interval m;
     self_periodicity := self_periodicity m; max_periodicity := max_periodicity m;
     tick_count := tick_count m; registered := registered m;
     connection_timeout := connection_timeout m; connection_closed_ := connection_closed_ m;
     next_handler := next_handler m; told := told m |}.

Definition set_registered (r : bool) (ms : Z) (m : multiplexer) : multiplexer :=
  {| handlers_list := handlers_list m; timeout_interval := timeout_interval m;
     self_periodicity := self_periodicity m; max_periodicity := max_periodicity m;
     tick_count := tick_count m; registered := r;
     connection_timeout := ms; connection_closed_ := connection_closed_ m;
     next_handler := next_handler m; told := told m |}.

Definition tell_users (es : list mux_event) (m : multiplexer) : multiplexer :=
  {| handlers_list := handlers_list m; timeout_interval := timeout_interval m;
     self_periodicity := self_periodicity m; max_periodicity := max_periodicity m;
     tick_count := tick_count m; registered := registered m;
     connection_timeout := connection_timeout m; connection_closed_ := connection_closed_ m;
     next_handler := next_handler m; told := told m ++ es |}.

Definition new_multiplexer : multiplexer :=
  {| handlers_list := []; timeout_interval := 0; self_periodicity := 1; max_periodicity := 1;
     tick_count := 0; registered := false; connection_timeout := 0; connection_closed_ := false;
     next_handler := 0; told := [] |}.

(** [init()] leaves the error and request-sent callbacks with the connection. *)
Definition init (m : multiplexer) : multiplexer := set_registered true (connection_timeout m) m.

(** [deregister_handlers(conn)]. *)
Definition deregister_handlers (m : multiplexer) : multiplexer := set_registered false 0 m.

(** [get_handler()]; the user holds the result. *)
Definition get_handler (m : multiplexer) : multiplexer :=
  {| handlers_list := handlers_list m ++ [{| handler_id := next_handler m; alive := true;
       periodicity := 0; tcb := false; ecb := false |}];
     timeout_interval := timeout_interval m; self_periodicity := self_periodicity m;
     max_periodicity := max_periodicity m; tick_count := tick_count m; registered := registered m;
     connection_timeout := connection_timeout m; connection_closed_ := connection_closed_ m;
     next_handler := S (next_handler m); told := told m |}.

(** [update_timeout(ms)]: [ms] is a [std::chrono::milliseconds] count. *)
Definition new_periodicity (multiplier count interval : Z) (s : connection_handler)
    : connection_handler :=
  if alive s then
    if periodicity s =? 0 then set_periodicity (count / interval) s
    else set_periodicity (u64 (periodicity s * multiplier)) s
  else s.

Definition update_timeout (ms : Z) (m : multiplexer) : outcome multiplexer :=
  _ ← cassert (0 <? ms);
  let old_gcd := if timeout_interval m =? 0 then ms else timeout_interval m in
  let count := ms in
  let interval := GCD count old_gcd in
  let multiplier := old_gcd / interval in
  mret {| handlers_list := new_periodicity multiplier count interval <$> handlers_list m;
          timeout_interval := interval;
          self_periodicity := u64 (self_periodicity m * multiplier);
          max_periodicity := Z.max (u64 (max_periodicity m * multiplier)) (count / interval);
          tick_count := u64 (tick_count m * multiplier);
          registered := registered m; connection_timeout := interval;
          connection_closed_ := connection_closed_ m; next_handler := next_handler m;
          told := told m |}.

(** [client_connection_handler::on_timeout], of the handler [id]. *)
Definition on_timeout (id : nat) (ms : Z) (m : multiplexer) : outcome multiplexer :=
  let set_tcb h := if Nat.eqb (handler_id h) id
    then {| handler_id := handler_id h; alive := alive h; periodicity := periodicity h;
            tcb := true; ecb := ecb h |} else h in
  update_timeout ms (set_list (set_tcb <$> handlers_list m) m).

Definition on_error (id : nat) (m : multiplexer) : multiplexer :=
  let set_ecb h := if Nat.eqb (handler_id h) id
    then {| handler_id := handler_id h; alive := alive h; periodicity := periodicity h;
            tcb := tcb h; ecb := true |} else h in
  set_list (set_ecb <$> handlers_list m) m.

(** [clear_expired()] erases the expired handlers at the front of the list. *)
Fixpoint drop_expired (l : list connection_handler) : list connection_handler :=
  match l with
  | [] => []
  | h :: l' => if alive h then l else drop_expired l'
  end.

Definition clear_expired (m : multiplexer) : multiplexer :=
  let m := set_list (drop_expired (handlers_list m)) m in
  if bool_decide (handlers_list m = []) then deregister_handlers m else m.

(** [timeout()]. *)
Definition fires (tick : Z) (h : connection_handler) : bool :=
  alive h && negb (periodicity h =? 0) && (tick mod periodicity h =? 0).

Definition due (tick : Z) (l : list connection_handler) : list mux_event :=
  omap (fun h => if fires tick h && tcb h then Some (timed_out (handler_id h)) else None) l.

Definition timeout (m : multiplexer) : multiplexer :=
  let tick := u64 (tick_count m + 1) in
  let m := {| handlers_list := handlers_list m; timeout_interval := timeout_interval m;
     self_periodicity := self_periodicity m; max_periodicity := max_periodicity m;
     tick_count := tick; registered := registered m;
     connection_timeout := connection_timeout m; connection_closed_ := connection_closed_ m;
     next_handler := next_handler m; told := told m ++ due tick (handlers_list m) |} in
  clear_expired m.

(** The broadcast of an error, of the connection or of [close()]. *)
Definition errors_of (e : error_code) (l : list connection_handler) : list mux_event :=
  omap (fun h => if alive h && ecb h then Some (failed (handler_id h) e) else None) l.

Definition connection_failed_ (e : error_code) (m : multiplexer) : multiplexer :=
  deregister_handlers (set_list [] (tell_users (errors_of e (handlers_list m)) m)).

Definition close (m : multiplexer) : multiplexer :=
  let m := deregister_handlers (tell_users (errors_of connection_closed (handlers_list m)) m) in
  {| handlers_list := handlers_list m; timeout_interval := timeout_interval m;
     self_periodicity := self_periodicity m; max_periodicity := max_periodicity m;
     tick_count := tick_count m; registered := registered m;
     connection_timeout := connection_timeout m; connection_closed_ := true;
     next_handler := next_handler m; told := told m |}.

(** ** The divisor *)
Lemma GCD_gcd u v : 0 <= u -> 0 <= v -> GCD u v = Z.gcd u v.
Proof.
  funelim (GCD u v); intros Hu Hv.
  - subst v. rewrite Z.gcd_0_r. lia.
  - rewrite H; [|lia|apply Z.mod_pos_bound; lia].
    rewrite Z.gcd_comm, Z.gcd_mod by done. apply Z.gcd_comm.
Qed.

(** The interval of reference before an update. *)
Definition base_interval (ms : Z) (m : multiplexer) : Z :=
  if timeout_interval m =? 0 then ms else timeout_interval m.

Lemma gcd_interval ms m :
  0 < ms -> 0 <= timeout_interval m ->
  let g := GCD ms (base_interval ms m) in
  0 < g /\ ms / g * g = ms /\ base_interval ms m / g * g = base_interval ms m /\
  0 < base_interval ms m.
Proof.
  intros Hms Hi. assert (Hb : 0 < base_interval ms m).
  { unfold base_interval. destruct (Z.eqb_spec (timeout_interval m) 0); lia. }
  cbn zeta. rewrite GCD_gcd by lia.
  assert (Hg : 0 < Z.gcd ms (base_interval ms m)).
  { pose proof (Z.gcd_nonneg ms (base_interval ms m)).
    destruct (Z.eq_dec (Z.gcd ms (base_interval ms m)) 0) as [E|E]; [|lia].
    apply Z.gcd_eq_0_l in E. lia. }
  destruct (Z.gcd_divide_l ms (base_interval ms m)) as [x Hx].
  destruct (Z.gcd_divide_r ms (base_interval ms m)) as [y Hy].
  split_and!; [done| | |done].
  - rewrite Hx at 1. rewrite Z.div_mul by lia. lia.
  - rewrite Hy at 1. rewrite Z.div_mul by lia. lia.
Qed.

(** ** Time is kept *)

(** No product of the update leaves 64 bits. *)
Definition update_fits (ms : Z) (m : multiplexer) : Prop :=
  let mult := base_interval ms m / GCD ms (base_interval ms m) in
  in_range 64 (tick_count m * mult) /\
  Forall (fun h => in_range 64 (periodicity h * mult)) (handlers_list m).

Lemma update_timeout_eq ms m :
  0 < ms ->
  exists m', update_timeout ms m = Ok m' /\
    timeout_interval m' = GCD ms (base_interval ms m) /\
    connection_timeout m' = timeout_interval m' /\
    tick_count m' = u64 (tick_count m * (base_interval ms m / GCD ms (base_interval ms m))) /\
    handlers_list m' = new_periodicity (base_interval ms m / GCD ms (base_interval ms m)) ms
      (GCD ms (base_interval ms m)) <$> handlers_list m.
Proof.
  intros H. unfold update_timeout. rewrite (proj2 (Z.ltb_lt 0 ms) H).
  cbn [cassert mbind outcome_bind]. eexists. split; [reflexivity|]. by split_and!.
Qed.

Lemma new_periodicity_period mult count g h base :
  0 < g -> count / g * g = count -> mult * g = base -> in_range 64 (periodicity h * mult) ->
  alive h = true ->
  periodicity (new_periodicity mult count g h) * g =
    if periodicity h =? 0 then count else periodicity h * base.
Proof.
  intros Hg Hc Hm Hr Ha. unfold new_periodicity. rewrite Ha.
  destruct (Z.eqb_spec (periodicity h) 0); cbn [periodicity set_periodicity]; [done|].
  rewrite wrap_id by done. rewrite <- Hm. ring.
Qed.

(** ** Ticks *)

(** The multiples of [p] in the [n] numbers after [c]. *)
Fixpoint multiples (p c : Z) (n : nat) : Z :=
  match n with
  | O => 0
  | S n => (if (c + 1) mod p =? 0 then 1 else 0) + multiples p (c + 1) n
  end.

Lemma multiples_div p c n : 0 < p -> 0 <= c -> multiples p c n = (c + Z.of_nat n) / p - c / p.
Proof.
  intros Hp. revert c. induction n as [|n IH]; intros c Hc; cbn [multiples].
  - rewrite Z.add_0_r. lia.
  - rewrite IH by lia. replace (c + Z.of_nat (S n)) with (c + 1 + Z.of_nat n) by lia.
    enough (E : (c + 1) / p = c / p + (if (c + 1) mod p =? 0 then 1 else 0)) by lia.
    pose proof (Z.div_mod c p ltac:(lia)) as D. pose proof (Z.mod_pos_bound c p Hp) as B.
    destruct (Z.eq_dec (c mod p) (p - 1)) as [M|M].
    + assert (c + 1 = (c / p + 1) * p) as -> by lia.
      rewrite Z.mod_mul, Z.div_mul by lia. rewrite Z.eqb_refl. lia.
    + assert (Em : (c + 1) mod p = c mod p + 1) by (symmetry; apply (Z.mod_unique _ _ (c / p)); lia).
      assert (Ed : (c + 1) / p = c / p)
        by (symmetry; apply (Z.div_unique _ _ _ (c mod p + 1)); lia).
      rewrite Em, Ed. destruct (Z.eqb_spec (c mod p + 1) 0); lia.
Qed.

Fixpoint timeouts (n : nat) (m : multiplexer) : multiplexer :=
  match n with O => m | S n => timeouts n (timeout m) end.

(** How often a handler has been told of a timeout. *)
Definition told_of (id : nat) (es : list mux_event) : Z :=
  Z.of_nat (length (List.filter (fun e => match e with timed_out i => Nat.eqb i id | _ => false end) es)).

Lemma told_of_app id es fs : told_of id (es ++ fs) = told_of id es + told_of id fs.
Proof. unfold told_of. rewrite List.filter_app, length_app. lia. Qed.

(** The handler [h] is the only one of its identity. *)
Definition only (h : connection_handler) (l : list connection_handler) : Prop :=
  exists l1 l2, l = l1 ++ h :: l2 /\
    Forall (fun x => handler_id x <> handler_id h) (l1 ++ l2).

Lemma told_due_other id tick l :
  Forall (fun x => handler_id x <> id) l -> told_of id (due tick l) = 0.
Proof.
  induction 1 as [|x l Hx HF IH]; [done|]. unfold due in *. cbn [omap list_omap].
  destruct (fires tick x && tcb x); [|done].
  unfold told_of in *. cbn [List.filter]. by rewrite (proj2 (Nat.eqb_neq _ _) Hx).
Qed.

Lemma due_app tick l k : due tick (l ++ k) = (due tick l ++ due tick k)%list.
Proof. apply omap_app. Qed.

Lemma told_due h tick l :
  only h l -> told_of (handler_id h) (due tick l) = if fires tick h && tcb h then 1 else 0.
Proof.
  intros (l1 & l2 & -> & [H1 H2]%Forall_app). rewrite due_app, told_of_app.
  rewrite told_due_other by done.
  assert (E : due tick (h :: l2) =
    ((if fires tick h && tcb h then [timed_out (handler_id h)] else []) ++ due tick l2)%list).
  { unfold due. cbn [omap list_omap]. by destruct (fires tick h && tcb h). }
  rewrite E, told_of_app, (told_due_other _ _ l2) by done.
  destruct (fires tick h && tcb h); unfold told_of; cbn [List.filter]; [|done].
  by rewrite Nat.eqb_refl.
Qed.

Lemma drop_expired_only h l : alive h = true -> only h l -> only h (drop_expired l).
Proof.
  intros Ha (l1 & l2 & -> & HF). induction l1 as [|x l1 IH]; cbn [app drop_expired].
  - rewrite Ha. by exists [], l2.
  - destruct (alive x); [by exists (x :: l1), l2|]. apply IH. by apply Forall_cons in HF as [_ HF].
Qed.

Lemma timeout_only h m :
  alive h = true -> only h (handlers_list m) ->
  only h (handlers_list (timeout m)) /\ tick_count (timeout m) = u64 (tick_count m + 1) /\
  told (timeout m) = (told m ++ due (u64 (tick_count m + 1)) (handlers_list m))%list.
Proof.
  intros Ha Ho. unfold timeout, clear_expired. cbn [handlers_list set_list].
  pose proof (drop_expired_only h _ Ha Ho) as Hd.
  rewrite bool_decide_eq_false_2; [by split_and!|].
  destruct Hd as (l1 & l2 & -> & _). by destruct l1.
Qed.

Lemma timeouts_told h n m :
  alive h = true -> tcb h = true -> 0 < periodicity h -> only h (handlers_list m) ->
  0 <= tick_count m -> tick_count m + Z.of_nat n < 2 ^ 64 ->
  told_of (handler_id h) (told (timeouts n m)) =
    told_of (handler_id h) (told m) + multiples (periodicity h) (tick_count m) n.
Proof.
  intros Ha Ht Hp. revert m. induction n as [|n IH]; intros m Ho H0 H64; cbn [timeouts multiples]; [lia|].
  destruct (timeout_only h m Ha Ho) as (Ho' & Ec & Et).
  assert (Ew : u64 (tick_count m + 1) = tick_count m + 1) by (apply wrap_id; unfold in_range; lia).
  rewrite Ew in Ec, Et. rewrite IH; [|done|lia|lia]. rewrite Ec, Et, told_of_app, told_due by done.
  unfold fires. rewrite Ha, Ht, (proj2 (Z.eqb_neq (periodicity h) 0)) by lia.
  cbn [andb negb]. rewrite andb_true_r. lia.
Qed.

(** ** Theorems *)

(** A new timeout changes the interval of the connection's timer to a
    divisor of the old one and of the timeout asked for, and keeps time: the
    ticks counted stand for the same time as before, every handler that had a
    timeout keeps it, and a handler that had none gets the one asked for -
    whichever handler asked. *)
Theorem update_timeout_keeps_time (ms : Z) (m : multiplexer) :
  0 < ms -> 0 <= timeout_interval m -> update_fits ms m ->
  exists m', update_timeout ms m = Ok m' /\ 0 < timeout_interval m' /\
    connection_timeout m' = timeout_interval m' /\
    (timeout_interval m' | ms) /\ (timeout_interval m' | base_interval ms m) /\
    tick_count m' * timeout_interval m' = tick_count m * base_interval ms m /\
    Forall2 (fun h h' => alive h = true ->
        periodicity h' * timeout_interval m' =
          if periodicity h =? 0 then ms else periodicity h * base_interval ms m)
      (handlers_list m) (handlers_list m').
Proof.
  intros Hms Hi [Ft Fh]. destruct (gcd_interval ms m Hms Hi) as (Hg & Hc & Hb & _).
  destruct (update_timeout_eq ms m Hms) as (m' & E & Ei & Ec & Et & El).
  exists m'. rewrite Et, El, Ec, Ei. split_and!; try done.
  - exists (ms / GCD ms (base_interval ms m)). lia.
  - exists (base_interval ms m / GCD ms (base_interval ms m)). lia.
  - rewrite wrap_id by done. rewrite <- Z.mul_assoc. by rewrite Hb.
  - apply Forall2_fmap_r. apply Forall_Forall2_diag. eapply Forall_impl; [exact Fh|].
    intros h Hh Ha. by apply new_periodicity_period.
Qed.

(** Two handlers; the first asks for [a] milliseconds and the second then
    for [b].  The second already has the period of the first, keeps it, and is
    never told every [b] milliseconds unless [a = b]. *)
Theorem second_timeout_lost (a b : Z) :
  0 < a < 2 ^ 32 -> 0 < b < 2 ^ 32 ->
  exists m h0 h1, (m ← on_timeout 0 a (get_handler (get_handler new_multiplexer));
                   on_timeout 1 b m) = Ok m /\
    handlers_list m = [h0; h1] /\ handler_id h1 = 1%nat /\ tcb h1 = true /\
    periodicity h0 * timeout_interval m = a /\ periodicity h1 * timeout_interval m = a.
Proof.
  intros Ha Hb. unfold on_timeout.
  match goal with |- context [update_timeout a ?x] => set (m0 := x) end. destruct (update_timeout_eq a m0) as (m1 & E1 & Ei1 & _ & Et1 & El1); [lia|].
  rewrite E1. cbn [mbind outcome_bind].
  assert (B0 : base_interval a m0 = a) by done.
  assert (G0 : GCD a a = a) by (rewrite GCD_gcd by lia; rewrite Z.gcd_diag; lia).
  rewrite B0, G0, Z.div_same in * by lia.
  set (m2 := set_list ((fun h => if Nat.eqb (handler_id h) 1
    then {| handler_id := handler_id h; alive := alive h; periodicity := periodicity h;
            tcb := true; ecb := ecb h |} else h) <$> handlers_list m1) m1).
  destruct (update_timeout_eq b m2) as (m3 & E3 & Ei3 & _ & Et3 & El3); [lia|].
  assert (B2 : base_interval b m2 = a).
  { unfold base_interval. cbn [timeout_interval m2 set_list]. rewrite Ei1.
    destruct (Z.eqb_spec a 0); lia. }
  destruct (gcd_interval b m2) as (Hg & Hc & Hbb & _); [lia|cbn [timeout_interval m2 set_list]; lia|].
  rewrite B2 in *.
  assert (L2 : handlers_list m2 = [
    {| handler_id := 0; alive := true; periodicity := 1; tcb := true; ecb := false |};
    {| handler_id := 1; alive := true; periodicity := 1; tcb := true; ecb := false |}]).
  { cbn [handlers_list m2 set_list]. rewrite El1. cbn. unfold new_periodicity, set_periodicity.
    cbn. by rewrite Z.div_same by lia. }
  rewrite L2 in El3. cbn in El3. unfold new_periodicity, set_periodicity in El3. cbn in El3.
  assert (W : u64 (1 * (a / GCD b a)) = a / GCD b a).
  { rewrite Z.mul_1_l. apply wrap_id. unfold in_range. split; [apply Z.div_pos; lia|].
    apply Z.le_lt_trans with a; [apply Z.div_le_upper_bound; nia|].
    change (2 ^ 32) with 4294967296 in *. change (2 ^ 64) with 18446744073709551616. lia. }
  rewrite W in El3. eexists m3, _, _. split; [exact E3|]. split; [exact El3|].
  cbn [handler_id tcb periodicity]. rewrite Ei3. by split_and!.
Qed.

Lemma second_timeout_lost_witness :
  exists m h0 h1, (m ← on_timeout 0 1000 (get_handler (get_handler new_multiplexer));
                   on_timeout 1 300 m) = Ok m /\
    handlers_list m = [h0; h1] /\ periodicity h1 * timeout_interval m = 1000.
Proof.
  destruct (second_timeout_lost 1000 300) as (m & h0 & h1 & E & El & _ & _ & _ & Ep); [lia|lia|].
  exists m, h0, h1. split_and!; [exact E|exact El|exact Ep].
Defined.

Lemma update_timeout_keeps_time_witness :
  let m := {| handlers_list := [{| handler_id := 0; alive := true; periodicity := 1; tcb := true;
                                   ecb := false |}];
              timeout_interval := 1000; self_periodicity := 1; max_periodicity := 1;
              tick_count := 3; registered := true; connection_timeout := 1000;
              connection_closed_ := false; next_handler := 1; told := [] |} in
  exists m', update_timeout 2500 m = Ok m' /\ tick_count m' * timeout_interval m' = 3000.
Proof.
  intros m. destruct (update_timeout_keeps_time 2500 m) as (m' & E & _ & _ & _ & _ & Et & _).
  - lia.
  - vm_compute. congruence.
  - split; [vm_compute; split; congruence|]. repeat constructor; vm_compute; congruence.
  - exists m'. split; [exact E|exact Et].
Defined.

(** While nothing else happens, a handler with callback and period [p] is
    told, in [n] ticks after tick [c], exactly once for each multiple of [p] in
    [(c, c + n]]. *)
Theorem ticks_reach_handler (h : connection_handler) (n : nat) (m : multiplexer) :
  alive h = true -> tcb h = true -> 0 < periodicity h -> only h (handlers_list m) ->
  0 <= tick_count m -> tick_count m + Z.of_nat n < 2 ^ 64 ->
  told_of (handler_id h) (told (timeouts n m)) - told_of (handler_id h) (told m) =
    (tick_count m + Z.of_nat n) / periodicity h - tick_count m / periodicity h.
Proof.
  intros Ha Ht Hp Ho H0 H64. rewrite (timeouts_told h n m) by done. rewrite multiples_div by done. lia.
Qed.

Lemma ticks_reach_handler_witness :
  let h := {| handler_id := 0; alive := true; periodicity := 3; tcb := true; ecb := false |} in
  let m := set_list [h] new_multiplexer in
  told_of 0 (told (timeouts 7 m)) - told_of 0 (told m) = 2.
Proof.
  intros h m. refine (eq_trans (ticks_reach_handler h 7 m eq_refl eq_refl _ _ _ _) _).
  - reflexivity.
  - exists [], []. split; [reflexivity|constructor].
  - vm_compute. congruence.
  - vm_compute. reflexivity.
  - vm_compute. reflexivity.
Defined.
