(* ===== verification/Http2Stream.v ===== *)
(** * Streams of an HTTP/2 connection (stream.{h,cpp}, stream_client.{h,cpp} of src/src/http2)

    A stream turns a message of the user into calls of nghttp2 and hands its
    body over when nghttp2 asks for data.  nghttp2 is not part of the program:
    a call is recorded, and its result is the parameter [rc].  The stream of a
    server and the stream of a client have the same members and, where they do
    not differ, the same functions. *)

From Stdlib Require Import Sorted.
From S2P Require Import Prelude CppStd MultiMap Utils HttpCommons StructuredData HttpMessages.

(** The calls: with the name-value list, and whether a data provider is given. *)
Inductive ng_call :=
| resume_data
| submit_response (nva : headers_map) (provider : bool)
| submit_request (nva : headers_map) (provider : bool)
| submit_trailer (nva : headers_map)
| submit_headers (nva : headers_map)
| do_write_call.

#[export] Instance ng_call_eq_dec : EqDecision ng_call.
Proof. solve_decision. Defined.

Record stream := {
  status_ : Z;
  headers_sent : bool;
  body_sent : bool;
  resume_needed_ : bool;
  eof_ : bool;
  errored : bool;
  closed_ : bool;
  body : list string;
  body_index : Z;
  nva : headers_map;
  nvlen : Z;
  trailers : headers_map;
  prepared_headers : headers_map;
  (** the calls made, the feedbacks asked for and whether the destructor ran *)
  calls : list ng_call;
  callbacks_asked : nat;
  destroyed : bool }.

Definition new_stream (status : Z) : stream :=
  {| status_ := status; headers_sent := false; body_sent := false; resume_needed_ := false;
     eof_ := false; errored := false; closed_ := false; body := []; body_index := 0; nva := [];
     nvlen := 0; trailers := []; prepared_headers := []; calls := []; callbacks_asked := 0;
     destroyed := false |}.

Definition set_flags (hs bs rn eof cl : bool) (s : stream) : stream :=
  {| status_ := status_ s; headers_sent := hs; body_sent := bs; resume_needed_ := rn;
     eof_ := eof; errored := errored s; closed_ := cl; body := body s; body_index := body_index s;
     nva := nva s; nvlen := nvlen s; trailers := trailers s; prepared_headers := prepared_headers s;
     calls := calls s; callbacks_asked := callbacks_asked s; destroyed := destroyed s |}.

Definition set_body (b : list string) (i : Z) (s : stream) : stream :=
  {| status_ := status_ s; headers_sent := headers_sent s; body_sent := body_sent s;
     resume_needed_ := resume_needed_ s; eof_ := eof_ s; errored := errored s; closed_ := closed_ s;
     body := b; body_index := i; nva := nva s; nvlen := nvlen s; trailers := trailers s;
     prepared_headers := prepared_headers s; calls := calls s;
     callbacks_asked := callbacks_asked s; destroyed := destroyed s |}.

Definition set_trailers (t : headers_map) (s : stream) : stream :=
  {| status_ := status_ s; headers_sent := headers_sent s; body_sent := body_sent s;
     resume_needed_ := resume_needed_ s; eof_ := eof_ s; errored := errored s; closed_ := closed_ s;
     body := body s; body_index := body_index s; nva := nva s; nvlen := nvlen s; trailers := t;
     prepared_headers := prepared_headers s; calls := calls s;
     callbacks_asked := callbacks_asked s; destroyed := destroyed s |}.

Definition set_headers_ (st : Z) (v : headers_map) (n : Z) (p : headers_map) (s : stream) : stream :=
  {| status_ := st; headers_sent := headers_sent s; body_sent := body_sent s;
     resume_needed_ := resume_needed_ s; eof_ := eof_ s; errored := errored s; closed_ := closed_ s;
     body := body s; body_index := body_index s; nva := v; nvlen := n; trailers := trailers s;
     prepared_headers := p; calls := calls s;
     callbacks_asked := callbacks_asked s; destroyed := destroyed s |}.

Definition call_ng (cs : list ng_call) (s : stream) : stream :=
  {| status_ := status_ s; headers_sent := headers_sent s; body_sent := body_sent s;
     resume_needed_ := resume_needed_ s; eof_ := eof_ s; errored := errored s; closed_ := closed_ s;
     body := body s; body_index := body_index s; nva := nva s; nvlen := nvlen s;
     trailers := trailers s; prepared_headers := prepared_headers s; calls := calls s ++ cs;
     callbacks_asked := callbacks_asked s; destroyed := destroyed s |}.

Definition ask_callbacks (s : stream) : stream :=
  {| status_ := status_ s; headers_sent := headers_sent s; body_sent := body_sent s;
     resume_needed_ := resume_needed_ s; eof_ := eof_ s; errored := errored s; closed_ := closed_ s;
     body := body s; body_index := body_index s; nva := nva s; nvlen := nvlen s;
     trailers := trailers s; prepared_headers := prepared_headers s; calls := calls s;
     callbacks_asked := S (callbacks_asked s); destroyed := destroyed s |}.

Definition destroy (s : stream) : stream :=
  {| status_ := status_ s; headers_sent := headers_sent s; body_sent := body_sent s;
     resume_needed_ := resume_needed_ s; eof_ := eof_ s; errored := errored s; closed_ := closed_ s;
     body := body s; body_index := body_index s; nva := nva s; nvlen := nvlen s;
     trailers := trailers s; prepared_headers := prepared_headers s; calls := calls s;
     callbacks_asked := callbacks_asked s; destroyed := true |}.

(** ** The body as nghttp2 reads it *)
Definition has_trailers (s : stream) : bool := negb (bool_decide (trailers s = [])).

Definition body_empty (s : stream) : bool :=
  match body s with
  | [] => true
  | [chunk] => len chunk =? body_index s
  | _ => false
  end.

Definition defer (s : stream) : bool := negb (eof_ s) && negb (has_trailers s) && body_empty s.

(** The sum of the sizes, the index taken off after the first. *)
Definition body_length (s : stream) : Z :=
  match body s with
  | [] => 0
  | first :: rest => foldl (fun r chunk => u64 (r + len chunk)) (u64 (len first - body_index s)) rest
  end.

Definition is_last_frame (length : Z) (s : stream) : bool :=
  eof_ s && negb (has_trailers s) && (body_length s =? length).

Definition body_eof (s : stream) : bool := body_empty s && (eof_ s || has_trailers s).

(** The answers of the read callback: deferred, or the bytes and the flags
    [NGHTTP2_DATA_FLAG_EOF] and [NGHTTP2_DATA_FLAG_NO_END_STREAM]. *)
Inductive read_answer :=
| deferred
| data (bytes : string) (eof no_end_stream : bool).

(** [substr]-like copies of [memcpy] and [copy_n]. *)
Definition sub_string (s : string) (off n : Z) : string :=
  of_chars (take (Z.to_nat n) (drop (Z.to_nat off) (chars s))).

(** The copy of [min(len, length)] bytes of the first chunk. *)
Definition take_bytes (length : Z) (s : stream) : string * stream :=
  match body s with
  | [] => ("", s)
  | first :: rest =>
      let r := Z.min (len first - body_index s) length in
      let bytes := sub_string first (body_index s) r in
      let index := body_index s + r in
      if index =? len first then (bytes, set_body rest 0 s)
      else (bytes, set_body (body s) index s)
  end.

Definition mark_body_sent (s : stream) : stream :=
  set_flags (headers_sent s) true (resume_needed_ s) (eof_ s) (closed_ s) s.

(** [stream::data_source_read_callback]. *)
Definition data_source_read_callback (length : Z) (s : stream) : read_answer * stream :=
  if defer s then
    (deferred, set_flags (headers_sent s) (body_sent s) true (eof_ s) (closed_ s) s)
  else
    let no_end := has_trailers s in
    let '(bytes, s) := if body_empty s then ("", s) else take_bytes length s in
    let eof := body_eof s || is_last_frame length s in
    let s := if eof then mark_body_sent s else s in
    (data bytes eof no_end, s).

(** [stream_client::data_source_read_callback] looks for the end before it
    takes the bytes. *)
Definition client_data_source_read_callback (length : Z) (s : stream) : read_answer * stream :=
  if defer s then
    (deferred, set_flags (headers_sent s) (body_sent s) true (eof_ s) (closed_ s) s)
  else
    let eof := body_eof s || is_last_frame length s in
    let s := if eof then mark_body_sent s else s in
    let no_end := has_trailers s in
    let '(bytes, s) := if body_empty s then ("", s) else take_bytes length s in
    (data bytes eof no_end, s).

(** ** Submitting *)
Section Submit.
Context (rc : ng_call -> Z).

(** [create_headers] allocates [nvlen] pairs, whatever list is then written;
    writing more is out of bounds. *)
Definition write_nva (hs : headers_map) (s : stream) : outcome headers_map :=
  _ ← guard_ub (Z.of_nat (length hs) <=? nvlen s);
  mret hs.

Definition submit_trailers (s : stream) : outcome stream :=
  t ← write_nva (trailers s) s;
  mret (call_ng [submit_trailer t] s).

Definition flush_101 (s : stream) : outcome stream :=
  let c := submit_headers (nva s) in
  _ ← cassert (rc c =? 0);
  mret (call_ng [c] s).

(** [stream::flush()]. *)
Definition flush (s : stream) : outcome stream :=
  if closed_ s then mret s
  else
    s ← (if negb (status_ s =? 101) then
           if resume_needed_ s then
             mret (set_flags (headers_sent s) (body_sent s) false (eof_ s) (closed_ s)
                     (call_ng [resume_data] s))
           else if negb (headers_sent s) then
             let c := submit_response (nva s) true in
             _ ← cassert (rc c =? 0);
             mret (set_flags true (body_sent s) (resume_needed_ s) (eof_ s) (closed_ s) (call_ng [c] s))
           else if body_sent s && eof_ s then submit_trailers s
           else mret s
         else flush_101 s);
    mret (call_ng [do_write_call] s).

(** [stream_client::flush()] submits its request without a data provider. *)
Definition client_flush (s : stream) : outcome stream :=
  if closed_ s then mret s
  else
    s ← (if negb (status_ s =? 101) then
           if resume_needed_ s then
             mret (set_flags (headers_sent s) (body_sent s) false (eof_ s) (closed_ s)
                     (call_ng [resume_data] s))
           else if negb (headers_sent s) then
             mret (set_flags true (body_sent s) (resume_needed_ s) (eof_ s) (closed_ s)
                     (call_ng [submit_request (nva s) false] s))
           else if body_sent s && eof_ s then submit_trailers s
           else mret s
         else flush_101 s);
    mret (call_ng [do_write_call] s).

(** [die()]. *)
Definition die (s : stream) : stream :=
  if eof_ s || errored s then destroy s
  else set_flags (headers_sent s) (body_sent s) (resume_needed_ s) (eof_ s) true s.

(** The calls of the local object: [on_body], [on_trailer], [on_eom]. *)
Definition on_body (fl : stream -> outcome stream) (d : string) (s : stream) : outcome stream :=
  fl (set_body (body s ++ [d]) (body_index s) s).

Definition on_trailer (key value : string) (s : stream) : stream :=
  set_trailers (insert key value (trailers s)) s.

Definition on_eom (fl : stream -> outcome stream) (s : stream) : outcome stream :=
  let s := set_flags (headers_sent s) (body_sent s) (resume_needed_ s) true (closed_ s) s in
  if closed_ s then mret (die s) else fl (ask_callbacks s).

(** ** The header list *)

(** The predicate of [filter]; [icompare] always answers. *)
Definition says (o : outcome bool) : bool := match o with Ok b => b | Crash _ => false end.

Definition is_one_of (names : list string) (h : header_t) : bool :=
  existsb (fun n => says (icompare h.1 n)) names.

Definition server_filtered : list string :=
  ["connection"; "keep-alive"; "upgrade"; "proxy-connection"].
Definition client_filtered : list string :=
  ["connection"; "keep-alive"; "host"; "upgrade"; "proxy-connection"].

(** Connection-specific fields go, a transfer coding becomes [trailers]. *)
Definition prepare (names : list string) (d : http_structured_data) : outcome http_structured_data :=
  let d := filter_headers (is_one_of names) d in
  if has hf_transfer_encoding d then
    header hf_transfer_encoding "trailers" (remove_header hf_transfer_encoding d)
  else mret d.

(** The first pair of a key taken out ([erase(found)]). *)
Fixpoint erase_first (k : string) (m : headers_map) : headers_map :=
  match m with
  | [] => []
  | h :: m => if bool_decide (h.1 = k) then m else h :: erase_first k m
  end.

Definition merge (prepared : headers_map) (it : header_t) : headers_map :=
  match find it.1 prepared with
  | Some v => erase_first it.1 (insert it.1 (v +:+ ", " +:+ it.2) prepared)
  | None => insert it.1 it.2 prepared
  end.

Definition merge_all (prepared hs : headers_map) : headers_map := foldl merge prepared hs.

(** [stream::on_header(resp)]. *)
Definition on_header (resp : http_response) (s : stream) : outcome stream :=
  d ← prepare server_filtered (response_base resp);
  let st := _status_code resp in
  let prepared := insert ":status" (to_string st) (prepared_headers s) in
  let prepared := merge_all prepared (headers d) in
  let s := set_headers_ st (nva s) (Z.of_nat (length prepared)) prepared s in
  v ← write_nva prepared s;
  flush (set_headers_ st v (nvlen s) prepared s).

(** [req_pseudo_headers]. *)
Record req_pseudo_headers := {
  pseudo_method : string;
  pseudo_scheme : string;
  pseudo_authority : string;
  pseudo_path : string }.

Definition init_path (path method : string) : string :=
  if negb (empty path) then path else if bool_decide (method = "OPTIONS") then "*" else "/".

Definition pseudo_of (req : http_request) : outcome req_pseudo_headers :=
  m ← method_string req;
  let p := init_path (_path req) m in
  mret {| pseudo_method := m; pseudo_scheme := _schema req;
          pseudo_authority := header_get hf_host (base req);
          pseudo_path := if negb (empty (_query req)) then p +:+ questionmark +:+ _query req else p |}.

(** [stream_client::on_header(req)]. *)
Definition client_on_header (req : http_request) (s : stream) : outcome stream :=
  ps ← pseudo_of req;
  d ← prepare client_filtered (base req);
  let prepared := merge_all (prepared_headers s) (headers d) in
  let n := Z.of_nat (length prepared) + 4 in
  _ ← cassert (negb (empty (pseudo_method ps)));
  _ ← cassert (negb (empty (pseudo_scheme ps)));
  _ ← cassert (negb (empty (pseudo_path ps)));
  _ ← cassert (negb (empty (pseudo_authority ps)));
  let s := set_headers_ (status_ s) (nva s) n prepared s in
  v ← write_nva ([(":method", pseudo_method ps); (":scheme", pseudo_scheme ps);
                  (":path", pseudo_path ps); (":authority", pseudo_authority ps)] ++ prepared) s;
  client_flush (set_headers_ (status_ s) v n prepared s).
End Submit.

(** ** The body is handed over in order *)
Lemma sub_string_split s i n :
  0 <= i -> 0 <= n -> i + n <= len s ->
  sub_string s i n +:+ sub_string s (i + n) (len s) = sub_string s i (len s).
Proof.
  intros Hi Hn Hl. unfold sub_string. rewrite <- of_chars_app. f_equal. unfold len in *.
  rewrite (take_ge (drop (Z.to_nat (i + n)) _)) by (rewrite length_drop; lia).
  rewrite (take_ge (drop (Z.to_nat i) _) (Z.to_nat (Z.of_nat (length (chars s)))))
    by (rewrite length_drop; lia).
  rewrite Z2Nat.inj_add, Nat.add_comm by lia.
  rewrite <- (take_drop (Z.to_nat n) (drop (Z.to_nat i) (chars s))) at 2. f_equal.
  rewrite drop_drop. f_equal. lia.
Qed.

Lemma len_sub_string s i n :
  0 <= i -> 0 <= n -> i + n <= len s -> len (sub_string s i n) = n.
Proof.
  intros Hi Hn Hl. unfold sub_string, len in *. rewrite chars_of_chars, length_take, length_drop. lia.
Qed.

Lemma sub_string_all s : sub_string s 0 (len s) = s.
Proof.
  unfold sub_string, len. rewrite Nat2Z.id. cbn [Z.to_nat drop].
  rewrite firstn_all. apply of_chars_chars.
Qed.

Lemma sub_string_end s : sub_string s (len s) (len s) = "".
Proof. unfold sub_string, len. rewrite Nat2Z.id, drop_all. by destruct (length _). Qed.

Definition rest_of (first : string) (i : Z) : string := sub_string first i (len first).

(** What is still to be read. *)
Definition remaining (s : stream) : string :=
  match body s with
  | [] => ""
  | first :: rest => rest_of first (body_index s) +:+ concat_str rest
  end.

Definition total_length (l : list string) : Z := len (concat_str l).

(** The index lies in the first chunk, and is 0 without one. *)
Definition body_ok (s : stream) : Prop :=
  match body s with
  | [] => body_index s = 0
  | first :: _ => 0 <= body_index s <= len first
  end.

Lemma rest_zero first : rest_of first 0 = first.
Proof. apply sub_string_all. Qed.

Lemma total_cons c l : total_length (c :: l) = len c + total_length l.
Proof. unfold total_length. cbn [concat_str]. apply len_app. Qed.

Lemma total_nonneg l : 0 <= total_length l.
Proof. apply len_nonneg. Qed.

Lemma len_rest first i : 0 <= i <= len first -> len (rest_of first i) = len first - i.
Proof.
  intros H. assert (E : sub_string first 0 i +:+ rest_of first i = rest_of first 0).
  { apply (sub_string_split first 0 i); lia. }
  rewrite rest_zero in E. apply (f_equal len) in E. rewrite len_app, len_sub_string in E by lia. lia.
Qed.

Lemma take_bytes_spec length s :
  body_ok s -> 0 <= length ->
  let '(bytes, s') := take_bytes length s in
  bytes +:+ remaining s' = remaining s /\ body_ok s' /\ len bytes <= length /\
  eof_ s' = eof_ s /\ trailers s' = trailers s /\
  (0 < length -> len bytes = 0 -> remaining s = "" \/ exists rest, body s = "" :: rest \/
     exists first, body s = first :: rest /\ body_index s = len first).
Proof.
  unfold body_ok at 1. intros Hi Hl. unfold take_bytes, remaining.
  destruct (body s) as [|first rest] eqn:Eb.
  { unfold body_ok. rewrite Eb. split_and!; try done. by left. }
  set (r := Z.min (len first - body_index s) length).
  assert (Hr : 0 <= r /\ body_index s + r <= len first) by lia.
  assert (Lb : len (sub_string first (body_index s) r) = r) by (apply len_sub_string; lia).
  pose proof (len_nonneg first).
  destruct (Z.eqb_spec (body_index s + r) (len first)) as [E|E]; cbn [body body_index set_body eof_ trailers].
  - split_and!.
    + assert (Es : sub_string first (body_index s) r = rest_of first (body_index s)).
      { unfold rest_of. rewrite <- (sub_string_split first (body_index s) r) by lia.
        rewrite E, sub_string_end. by rewrite string_app_nil_r. }
      rewrite Es. f_equal. destruct rest as [|c rest]; [done|].
      cbn [concat_str]. by rewrite rest_zero.
    + unfold body_ok. cbn [body body_index set_body].
      destruct rest as [|c rest]; [done|]. pose proof (len_nonneg c). lia.
    + lia.
    + done.
    + done.
    + intros Hpos H0. right. exists rest. right. exists first. split; [done|]. lia.
  - split_and!.
    + rewrite <- string_app_assoc. f_equal. unfold rest_of. apply sub_string_split; lia.
    + unfold body_ok. cbn [body body_index set_body]. lia.
    + lia.
    + done.
    + done.
    + intros Hpos H0. lia.
Qed.

Lemma body_empty_remaining s : body_ok s -> body_empty s = true -> remaining s = "".
Proof.
  unfold body_ok. intros Hi. unfold body_empty, remaining. destruct (body s) as [|c [|d l]]; [done| |done].
  intros E%Z.eqb_eq. rewrite <- E. unfold rest_of. rewrite sub_string_end. done.
Qed.

Lemma body_length_remaining s :
  body_ok s -> total_length (body s) < 2 ^ 64 -> body_length s = len (remaining s).
Proof.
  unfold body_ok. intros Hi Ht. unfold body_length, remaining. destruct (body s) as [|first rest]; [done|].
  rewrite len_app, len_rest by done. rewrite total_cons in Ht. pose proof (total_nonneg rest).
  assert (G : forall l r, 0 <= r -> r + total_length l < 2 ^ 64 ->
    foldl (fun r chunk => u64 (r + len chunk)) r l = r + total_length l).
  { clear. induction l as [|c l IH]; intros r Hr Hl; cbn [foldl].
    - change (total_length []) with 0. lia.
    - rewrite total_cons in Hl |- *. pose proof (total_nonneg l). pose proof (len_nonneg c).
      rewrite wrap_id by (unfold in_range; lia). rewrite IH by lia. lia. }
  rewrite wrap_id by (unfold in_range; lia). rewrite G by lia. done.
Qed.

(** What a read callback answers. *)
Definition read_ok (length : Z) (s : stream) (a : read_answer) (s' : stream) : Prop :=
  body_ok s' /\ eof_ s' = eof_ s /\ trailers s' = trailers s /\
  match a with
  | deferred => remaining s = "" /\ remaining s' = "" /\ eof_ s = false /\ trailers s = []
  | data bytes _ no_end =>
      bytes +:+ remaining s' = remaining s /\ len bytes <= length /\ no_end = has_trailers s
  end.

Lemma defer_spec s :
  body_ok s -> defer s = true -> remaining s = "" /\ eof_ s = false /\ trailers s = [].
Proof.
  unfold defer, has_trailers. rewrite !andb_true_iff, !negb_true_iff, negb_false_iff, bool_decide_eq_true.
  intros Hok [[He Ht] Hb]. auto using body_empty_remaining.
Qed.

Lemma body_ok_same s s' :
  body s' = body s -> body_index s' = body_index s -> body_ok s -> body_ok s'.
Proof. unfold body_ok. intros -> ->. done. Qed.

Lemma remaining_same s s' :
  body s' = body s -> body_index s' = body_index s -> remaining s' = remaining s.
Proof. unfold remaining. intros -> ->. done. Qed.

(** The bytes taken in a read, whatever is left of the body. *)
Lemma taken_spec length s :
  body_ok s -> 0 <= length ->
  let '(bytes, s') := if body_empty s then ("", s) else take_bytes length s in
  bytes +:+ remaining s' = remaining s /\ body_ok s' /\ len bytes <= length /\
  eof_ s' = eof_ s /\ trailers s' = trailers s.
Proof.
  intros Hok Hl. destruct (body_empty s) eqn:Eb; [by split_and!|].
  pose proof (take_bytes_spec length s Hok Hl) as P. destruct (take_bytes length s). tauto.
Qed.

Lemma read_callback_ok length s :
  body_ok s -> 0 <= length ->
  read_ok length s (data_source_read_callback length s).1 (data_source_read_callback length s).2.
Proof.
  intros Hok Hl. unfold data_source_read_callback. destruct (defer s) eqn:Ed.
  { destruct (defer_spec s Hok Ed) as (H1 & H2 & H3). split_and!; try done; by eapply body_ok_same. }
  pose proof (taken_spec length s Hok Hl) as P.
  destruct (if body_empty s then _ else _) as [bytes s1]. destruct P as (P1 & P2 & P3 & P4 & P5).
  destruct (body_eof s1 || is_last_frame length s1); cbn [fst snd];
    (split_and!; [by eapply body_ok_same|done|done|done|done|done]).
Qed.

Lemma client_read_callback_ok length s :
  body_ok s -> 0 <= length ->
  read_ok length s (client_data_source_read_callback length s).1
    (client_data_source_read_callback length s).2.
Proof.
  intros Hok Hl. unfold client_data_source_read_callback. destruct (defer s) eqn:Ed.
  { destruct (defer_spec s Hok Ed) as (H1 & H2 & H3). split_and!; try done; by eapply body_ok_same. }
  set (eof := body_eof s || is_last_frame length s).
  set (s0 := if eof then mark_body_sent s else s).
  assert (Hok0 : body_ok s0) by (subst s0; destruct eof; [by eapply body_ok_same|done]).
  assert (Er : remaining s0 = remaining s) by (subst s0; by destruct eof).
  assert (Ee : eof_ s0 = eof_ s) by (subst s0; by destruct eof).
  assert (Et : trailers s0 = trailers s) by (subst s0; by destruct eof).
  pose proof (taken_spec length s0 Hok0 Hl) as P.
  destruct (if body_empty s0 then _ else _) as [bytes s1]. destruct P as (P1 & P2 & P3 & P4 & P5).
  unfold read_ok, has_trailers. cbn [fst snd]. rewrite Et. split_and!; try done; congruence.
Qed.

(** Writes of the user and reads of nghttp2, in any order. *)
Inductive transfer := write (d : string) | read (length : Z).

Fixpoint transfers (cb : Z -> stream -> read_answer * stream) (l : list transfer) (s : stream)
    : string * stream :=
  match l with
  | [] => ("", s)
  | write d :: l => transfers cb l (set_body (body s ++ [d]) (body_index s) s)
  | read n :: l =>
      let '(a, s) := cb n s in
      let '(out, s) := transfers cb l s in
      (match a with data bytes _ _ => bytes +:+ out | deferred => out end, s)
  end.

Definition written (l : list transfer) : string :=
  concat_str ((fun t => match t with write d => d | read _ => "" end) <$> l).

Lemma remaining_write d s :
  body_ok s -> remaining (set_body (body s ++ [d]) (body_index s) s) = remaining s +:+ d.
Proof.
  unfold body_ok. intros Hi. unfold remaining. cbn [body body_index set_body].
  destruct (body s) as [|first rest]; cbn [app].
  - rewrite Hi, rest_zero. cbn. by rewrite string_app_nil_r.
  - rewrite concat_str_app. cbn [concat_str]. by rewrite string_app_nil_r, string_app_assoc.
Qed.

Lemma body_ok_write d s :
  body_ok s -> body_ok (set_body (body s ++ [d]) (body_index s) s).
Proof.
  unfold body_ok. cbn [body body_index set_body]. destruct (body s) as [|first rest]; cbn [app]; [|done].
  intros ->. pose proof (len_nonneg d). lia.
Qed.

Lemma transfers_in_order cb l s :
  (forall n s, body_ok s -> 0 <= n -> read_ok n s (cb n s).1 (cb n s).2) ->
  body_ok s -> Forall (fun t => match t with read n => 0 <= n | write _ => True end) l ->
  let '(out, s') := transfers cb l s in
  out +:+ remaining s' = remaining s +:+ written l /\ body_ok s'.
Proof.
  intros Hcb Hok HF. revert s Hok. induction HF as [|t l Ht HF IH]; intros s Hok.
  { cbn. by rewrite string_app_nil_r. }
  destruct t as [d|n]; cbn [transfers].
  - specialize (IH _ (body_ok_write d s Hok)).
    destruct (transfers cb l _) as [out s']. destruct IH as [IH1 IH2]. split; [|done].
    rewrite IH1, remaining_write by done. unfold written. cbn [fmap list_fmap concat_str].
    by rewrite string_app_assoc.
  - pose proof (Hcb n s Hok Ht) as R. destruct (cb n s) as [a s1]. cbn [fst snd] in R.
    destruct R as (R1 & _ & _ & R2). specialize (IH s1 R1).
    destruct (transfers cb l s1) as [out s']. destruct IH as [IH1 IH2]. split; [|done].
    unfold written. cbn [fmap list_fmap concat_str]. rewrite string_app_nil_l.
    destruct a as [|bytes e ne].
    + destruct R2 as (R2 & R3 & _). rewrite IH1, R2, R3. done.
    + destruct R2 as (R2 & _). rewrite string_app_assoc, IH1, <- string_app_assoc, R2. done.
Qed.

(** ** The end of the body *)

Lemma body_empty_flags s : body_ok s -> body_eof s = true -> remaining s = "".
Proof. unfold body_eof. intros Hok [H _]%andb_prop. by apply body_empty_remaining. Qed.

Lemma is_last_frame_spec length s :
  body_ok s -> total_length (body s) < 2 ^ 64 ->
  is_last_frame length s = eof_ s && negb (has_trailers s) && (len (remaining s) =? length).
Proof. intros Hok Ht. unfold is_last_frame. by rewrite body_length_remaining. Qed.

Lemma take_bytes_total length s :
  total_length (body (take_bytes length s).2) <= total_length (body s).
Proof.
  unfold take_bytes. destruct (body s) as [|first rest] eqn:E; cbn [snd]; [by rewrite E|].
  destruct (_ =? _); cbn [snd body set_body]; [|lia]. rewrite total_cons. pose proof (len_nonneg first). lia.
Qed.

Lemma taken_total length s :
  total_length (body (if body_empty s then ("", s) else take_bytes length s).2)
    <= total_length (body s).
Proof. destruct (body_empty s); [done|apply take_bytes_total]. Qed.

(** The flag with bytes left over: the last test was [is_last_frame]. *)
Lemma early_flag length s rem :
  0 < length -> body_ok s -> total_length (body s) < 2 ^ 64 -> (rem <> "" -> remaining s <> "") ->
  (body_eof s || is_last_frame length s = true /\ rem <> "" <->
   eof_ s = true /\ trailers s = [] /\ len (remaining s) = length /\ rem <> "").
Proof.
  intros Hl Hok Ht Hr. rewrite is_last_frame_spec by done.
  rewrite orb_true_iff, !andb_true_iff, Z.eqb_eq. unfold has_trailers.
  rewrite negb_involutive, bool_decide_eq_true. split.
  - intros [[H|H] Hn]; [|tauto]. by destruct (Hr Hn (body_empty_flags s Hok H)).
  - tauto.
Qed.

(** ** The header list *)
Definition joined (vs : list string) : list string :=
  match vs with [] => [] | _ => [join ", " vs] end.

Lemma values_erase_first k m k' :
  values k' (erase_first k m) = if decide (k = k') then tail (values k m) else values k' m.
Proof.
  induction m as [|h m IH]; cbn [erase_first]; [by destruct (decide _)|].
  case_bool_decide as E; rewrite !values_cons; [subst k|rewrite IH].
  - destruct (decide (h.1 = k')) as [<-|]; [|done]. by rewrite decide_True.
  - destruct (decide (k = k')) as [<-|]; [|done]. by rewrite decide_False, decide_False.
Qed.

Lemma erase_first_elem k m h : h ∈ erase_first k m -> h ∈ m.
Proof.
  induction m as [|x m IH]; cbn [erase_first]; [done|].
  rewrite elem_of_cons. case_bool_decide; [tauto|]. rewrite elem_of_cons. tauto.
Qed.

Lemma wf_erase_first k m : wf m -> wf (erase_first k m).
Proof.
  unfold wf. induction 1 as [|h m Hm IH Hh]; cbn [erase_first]; [constructor|].
  case_bool_decide; [done|]. constructor; [done|].
  rewrite Forall_forall in Hh |- *. intros x Hx. by apply Hh, (erase_first_elem k).
Qed.

Lemma values_merge p it k :
  wf p -> (length (values it.1 p) <= 1)%nat ->
  values k (merge p it) =
    if decide (it.1 = k) then
      match values it.1 p with v :: _ => [v +:+ ", " +:+ it.2] | [] => [it.2] end
    else values k p.
Proof.
  intros Hw Hl. unfold merge. rewrite find_values.
  destruct (values it.1 p) as [|v [|w l]] eqn:E; cbn in Hl; [| |lia]; cbn [head].
  - destruct (decide (it.1 = k)) as [<-|]; [|by apply values_insert_ne].
    by rewrite values_insert_eq, E.
  - rewrite values_erase_first. destruct (decide (it.1 = k)) as [<-|]; [|by apply values_insert_ne].
    by rewrite values_insert_eq, E.
Qed.

Lemma wf_merge p it : wf p -> wf (merge p it).
Proof.
  intros Hw. unfold merge. destruct (find _ _); [apply wf_erase_first|]; by apply wf_insert.
Qed.

Lemma join_snoc sep vs v :
  vs <> [] -> join sep (vs ++ [v]) = join sep vs +:+ sep +:+ v.
Proof.
  destruct vs as [|w vs]; [done|]. intros _. cbn [app]. rewrite !join_cons, fmap_app, concat_str_app.
  cbn [fmap list_fmap concat_str]. by rewrite string_app_nil_r, string_app_assoc.
Qed.

Lemma joined_snoc vs v :
  joined (vs ++ [v]) =
    match joined vs with w :: _ => [w +:+ ", " +:+ v] | [] => [v] end.
Proof.
  destruct vs as [|w vs]; [done|]. unfold joined at 2. cbn [app].
  change (joined (w :: (vs ++ [v]))) with [join ", " ((w :: vs) ++ [v])]. by rewrite join_snoc.
Qed.

Lemma joined_length vs : (length (joined vs) <= 1)%nat.
Proof. destruct vs; cbn; lia. Qed.

Lemma merge_all_spec hs l p :
  wf p -> (forall k, values k p = joined (values k l)) ->
  wf (merge_all p hs) /\ forall k, values k (merge_all p hs) = joined (values k (l ++ hs)).
Proof.
  revert l p. induction hs as [|h hs IH]; intros l p Hw Hp; cbn [merge_all foldl].
  { split; [done|]. intros k. by rewrite app_nil_r. }
  assert (Hl : (length (values h.1 p) <= 1)%nat) by (rewrite Hp; apply joined_length).
  destruct (IH (l ++ [h])%list (merge p h)) as [H1 H2].
  - by apply wf_merge.
  - intros k. rewrite values_merge, values_app by done. rewrite values_cons.
    destruct (decide (h.1 = k)) as [<-|]; cbn [values fmap list_fmap filter].
    + rewrite Hp. change (values h.1 []) with (@nil string). by rewrite joined_snoc.
    + change (values k []) with (@nil string). by rewrite app_nil_r, Hp.
  - split; [done|]. intros k. rewrite H2, <- app_assoc. done.
Qed.

(** What [prepare] leaves of a field. *)
Definition hidden (names : list string) (k : string) : bool := is_one_of names (k, "").

Definition prepared_values (names : list string) (d : http_structured_data) (k : string)
    : list string :=
  if hidden names k then []
  else if bool_decide (k = hf_transfer_encoding) && has hf_transfer_encoding d then ["trailers"]
  else values k (_headers d).

Lemma values_filtered names d k :
  values k (_headers (filter_headers (is_one_of names) d)) =
    if hidden names k then [] else values k (_headers d).
Proof.
  unfold filter_headers. cbn [_headers set_headers]. rewrite filter_loop_filter.
  induction (_headers d) as [|h m IH]; [by destruct (hidden _ _)|].
  assert (Hh : is_one_of names h = hidden names h.1) by done.
  rewrite filter_cons, values_cons, Hh.
  destruct (hidden names h.1) eqn:E; cbn [decide]; case_decide; try done; rewrite ?values_cons, IH;
    destruct (decide (h.1 = k)) as [<-|]; rewrite ?E; done.
Qed.

Lemma prepare_ok names d :
  wf (_headers d) -> hidden names hf_transfer_encoding = false ->
  exists d', prepare names d = Ok d' /\ wf (_headers d') /\
    forall k, values k (_headers d') = prepared_values names d k.
Proof.
  intros Hw Ht. unfold prepare. set (f := filter_headers (is_one_of names) d).
  assert (Hwf : wf (_headers f)) by (subst f; cbn; rewrite filter_loop_filter; by apply wf_filter).
  assert (Hv := values_filtered names d). fold f in Hv.
  assert (Eh : has hf_transfer_encoding f = has hf_transfer_encoding d).
  { unfold has, header_get. rewrite !find_values, Hv, Ht. done. }
  rewrite Eh. destruct (has hf_transfer_encoding d) eqn:Ed.
  - exists (insert_header hf_transfer_encoding "trailers" (remove_header hf_transfer_encoding f)).
    split; [reflexivity|].
    unfold insert_header, remove_header. cbn [_headers set_headers]. split; [by apply wf_insert, wf_erase|]. intros k.
    rewrite values_insert_erase by done. unfold prepared_values. rewrite Ed, andb_true_r, Hv.
    destruct (decide (hf_transfer_encoding = k)) as [<-|Hne].
    + by rewrite Ht, bool_decide_eq_true_2.
    + by rewrite bool_decide_eq_false_2.
  - exists f. split; [done|]. split; [done|]. intros k. rewrite Hv. unfold prepared_values.
    by rewrite Ed, andb_false_r.
Qed.

(** ** Calls made *)
Definition is_trailer (c : ng_call) : bool := match c with submit_trailer _ => true | _ => false end.

Lemma read_calls cb length s :
  cb = data_source_read_callback \/ cb = client_data_source_read_callback ->
  calls (cb length s).2 = calls s.
Proof.
  assert (T : forall s, calls (if body_empty s then ("", s) else take_bytes length s).2 = calls s).
  { intros t. destruct (body_empty t); [done|]. unfold take_bytes. destruct (body t); [done|].
    by destruct (_ =? _). }
  intros [-> | ->]; unfold data_source_read_callback, client_data_source_read_callback;
    (destruct (defer s); [done|]); cbv zeta.
  - pose proof (T s) as P. destruct (if body_empty s then _ else _) as [b t]. cbn [snd] in *.
    by destruct (body_eof t || _).
  - set (t := if body_eof s || is_last_frame length s then mark_body_sent s else s).
    pose proof (T t) as P. destruct (if body_empty t then _ else _) as [b u]. cbn [snd] in *.
    rewrite P. subst t. by destruct (_ || _).
Qed.

Definition reads (cb : Z -> stream -> read_answer * stream) (ns : list Z) (s : stream) : stream := foldl (fun s n => (cb n s).2) s ns.

Lemma reads_calls (cb : Z -> stream -> read_answer * stream) ns s :
  cb = data_source_read_callback \/ cb = client_data_source_read_callback ->
  calls (reads cb ns s) = calls s.
Proof.
  intros Hcb. revert s. induction ns as [|n ns IH]; intros s; [done|].
  cbn [reads foldl]. etrans; [apply IH|]. by apply read_calls.
Qed.

Lemma reads_trailers ns s : trailers (reads data_source_read_callback ns s) = trailers s.
Proof.
  revert s. induction ns as [|n ns IH]; intros s; [done|]. cbn [reads foldl]. etrans; [apply IH|].
  unfold data_source_read_callback. destruct (defer s); [done|]. cbv zeta.
  assert (T : trailers (if body_empty s then ("", s) else take_bytes n s).2 = trailers s).
  { destruct (body_empty s); [done|]. unfold take_bytes. destruct (body s); [done|].
    by destruct (_ =? _). }
  destruct (if body_empty s then _ else _) as [b t]. cbn [snd] in *. by destruct (body_eof t || _).
Qed.

(** One call of the local object, or a read of nghttp2. *)
Inductive stream_op :=
| op_header (r : http_response)
| op_body (d : string)
| op_trailer (key value : string)
| op_eom
| op_read (length : Z)
| op_flush.

Definition run_op (rc : ng_call -> Z) (o : stream_op) (s : stream) : outcome stream :=
  match o with
  | op_header r => on_header rc r s
  | op_body d => on_body (flush rc) d s
  | op_trailer k v => mret (on_trailer k v s)
  | op_eom => on_eom (flush rc) s
  | op_read n => mret (data_source_read_callback n s).2
  | op_flush => flush rc s
  end.

Fixpoint run_ops (rc : ng_call -> Z) (os : list stream_op) (s : stream) : outcome stream :=
  match os with [] => mret s | o :: os => s ← run_op rc o s; run_ops rc os s end.

Definition is_response (c : ng_call) : bool :=
  match c with submit_response _ _ => true | _ => false end.

Definition responses (cs : list ng_call) : nat := length (filter (fun c => is_response c = true) cs).

(** A response at most once, and trailers after it only. *)
Definition submitted_in_order (cs : list ng_call) : Prop :=
  (responses cs <= 1)%nat /\
  forall l1 t l2, cs = (l1 ++ submit_trailer t :: l2)%list -> responses l1 = 1%nat.

Definition submit_inv (s : stream) : Prop :=
  submitted_in_order (calls s) /\ responses (calls s) = if headers_sent s then 1%nat else O.

Lemma responses_app l1 l2 : responses (l1 ++ l2) = (responses l1 + responses l2)%nat.
Proof. unfold responses. by rewrite filter_app, length_app. Qed.

Lemma responses_one c : responses [c] = if is_response c then 1%nat else O.
Proof. unfold responses. rewrite filter_cons. by destruct (is_response c). Qed.

Lemma submitted_snoc cs c :
  submitted_in_order cs -> (is_response c = true -> responses cs = O) ->
  (is_trailer c = true -> responses cs = 1%nat) -> submitted_in_order (cs ++ [c]).
Proof.
  intros [H1 H2] Hr Ht. split.
  - rewrite responses_app, responses_one.
    destruct (is_response c) eqn:E; [rewrite Hr by done|]; lia.
  - intros l1 t l2. destruct l2 as [|c' l2] using rev_ind.
    + intros [-> ->]%app_inj_tail. by apply Ht.
    + rewrite app_comm_cons, app_assoc. intros [-> _]%app_inj_tail. by eapply H2.
Qed.

Lemma submit_inv_call c s s' :
  submit_inv s -> calls s' = calls s ++ [c] -> is_trailer c = false \/ headers_sent s = true ->
  (if is_response c then headers_sent s = false /\ headers_sent s' = true
   else headers_sent s' = headers_sent s) -> submit_inv s'.
Proof.
  intros [H1 H2] E Ht Hr. unfold submit_inv. rewrite E. split.
  - apply submitted_snoc; [done| |].
    + intros Ec. rewrite Ec in Hr. destruct Hr as [Hr _]. by rewrite H2, Hr.
    + intros Ec. destruct Ht as [Ht|Ht]; [congruence|]. by rewrite H2, Ht.
  - rewrite responses_app, responses_one, H2.
    destruct (is_response c); [destruct Hr as [-> ->]; done|rewrite Hr].
    destruct (headers_sent s); done.
Qed.

Lemma submit_inv_same s s' :
  calls s' = calls s -> headers_sent s' = headers_sent s -> submit_inv s -> submit_inv s'.
Proof. intros E1 E2. unfold submit_inv. by rewrite E1, E2. Qed.

Lemma flush_inv rc s s' : submit_inv s -> flush rc s = Ok s' -> submit_inv s'.
Proof.
  unfold flush. intros Hi. destruct (closed_ s); [by intros [= <-]|].
  assert (K : forall s1, submit_inv s1 -> submit_inv (call_ng [do_write_call] s1)).
  { intros s1 H1. eapply (submit_inv_call do_write_call s1); [done|done|by left|done]. }
  intros H. apply bind_Ok_inv in H as (s1 & H & [= <-]). apply K. clear K.
  destruct (negb (status_ s =? 101)).
  - destruct (resume_needed_ s).
    { injection H as <-. by eapply (submit_inv_call resume_data s); [..|left|]. }
    destruct (negb (headers_sent s)) eqn:Eh.
    + cbv zeta in H. inv_outcome. subst s1. apply negb_true_iff in Eh.
      eapply (submit_inv_call (submit_response (nva s) true) s); [done|done|by left|done].
    + apply negb_false_iff in Eh. destruct (body_sent s && eof_ s); [|by injection H as <-].
      unfold submit_trailers, write_nva in H. inv_outcome. subst.
      eapply (submit_inv_call (submit_trailer (trailers s)) s); [done|done|by right|done].
  - unfold flush_101 in H. cbv zeta in H. inv_outcome. subst s1.
    eapply (submit_inv_call (submit_headers (nva s)) s); [done|done|by left|done].
Qed.

Lemma run_op_inv rc o s s' : submit_inv s -> run_op rc o s = Ok s' -> submit_inv s'.
Proof.
  intros Hi. destruct o as [r|d|k v| |n|]; cbn [run_op].
  - unfold on_header. intros H. apply bind_Ok_inv in H as (d & _ & H). cbv zeta in H.
    apply bind_Ok_inv in H as (v & _ & H). eapply flush_inv; [|exact H]. by eapply submit_inv_same.
  - unfold on_body. intros H. eapply flush_inv; [|exact H]. by eapply submit_inv_same.
  - intros [= <-]. by eapply submit_inv_same.
  - unfold on_eom. cbv zeta. cbn [closed_ set_flags]. destruct (closed_ s); intros H.
    + injection H as <-. unfold die. cbn [eof_ set_flags orb]. by eapply submit_inv_same.
    + eapply flush_inv; [|exact H]. by eapply submit_inv_same.
  - intros [= <-]. eapply submit_inv_same; [apply read_calls; by left| |done].
    unfold data_source_read_callback. destruct (defer s); [done|]. cbv zeta.
    assert (T : headers_sent (if body_empty s then ("", s) else take_bytes n s).2 = headers_sent s).
    { destruct (body_empty s); [done|]. unfold take_bytes. destruct (body s); [done|].
      by destruct (_ =? _). }
    destruct (if body_empty s then _ else _) as [b t]. cbn [snd] in *. by destruct (body_eof t || _).
  - by apply flush_inv.
Qed.

Lemma run_ops_inv rc os s s' : submit_inv s -> run_ops rc os s = Ok s' -> submit_inv s'.
Proof.
  revert s. induction os as [|o os IH]; intros s Hi; cbn [run_ops]; [by intros [= <-]|].
  intros H. apply bind_Ok_inv in H as (t & H1 & H2). eapply IH; [|exact H2]. by eapply run_op_inv.
Qed.

(** ** Properties *)

(** C23: Whatever the writes of the user and the reads of nghttp2, and
    whatever the lengths it asks for, the bytes handed over are the bytes
    written, in order and each once: the bytes handed over followed by what is
    still in the stream are the bytes written.  It holds of the stream of the
    server and of the stream of the client. *)
Theorem body_in_order (server : bool) (l : list transfer) (st : Z) :
  Forall (fun t => match t with read n => 0 <= n | write _ => True end) l ->
  let '(out, s') :=
    transfers (if server then data_source_read_callback else client_data_source_read_callback) l
      (new_stream st) in
  out +:+ remaining s' = written l.
Proof.
  intros HF. destruct server;
    [pose proof (transfers_in_order data_source_read_callback l (new_stream st)
                   (fun n s => read_callback_ok n s)) as P
    |pose proof (transfers_in_order client_data_source_read_callback l (new_stream st)
                   (fun n s => client_read_callback_ok n s)) as P];
    specialize (P eq_refl HF); destruct (transfers _ _ _) as [out s'];
    destruct P as [P _]; by rewrite P.
Qed.

Lemma body_in_order_witness :
  let l := [write "hello"; read 2; write ", world"; read 2; read 2; read 100] in
  let '(out, s') := transfers data_source_read_callback l (new_stream 200) in
  out +:+ remaining s' = "hello, world" /\ out = "hello, world".
Proof.
  split; [|by vm_compute].
  apply (body_in_order true [write "hello"; read 2; write ", world"; read 2; read 2; read 100] 200).
  repeat constructor; lia.
Defined.

(** When the end of the body is announced too early.  nghttp2 does not
    call back after [NGHTTP2_DATA_FLAG_EOF].  The server sets the flag with
    bytes left exactly when what is left {i after} the read has the length that
    was asked for, and the client exactly when the whole of what was there
    {i before} had it but not in one chunk: the test is made against the length
    of a read and not against what it took, so these last bytes are lost. *)
Theorem end_of_body_flag (length : Z) (s : stream) :
  0 < length -> body_ok s -> total_length (body s) < 2 ^ 64 -> defer s = false ->
  (let '(a, s') := data_source_read_callback length s in
   (exists bytes no_end, a = data bytes true no_end) /\ remaining s' <> "" <->
   eof_ s = true /\ trailers s = [] /\ len (remaining s') = length) /\
  (let '(a, s') := client_data_source_read_callback length s in
   (exists bytes no_end, a = data bytes true no_end) /\ remaining s' <> "" <->
   eof_ s = true /\ trailers s = [] /\ len (remaining s) = length /\ remaining s' <> "").
Proof.
  intros Hl Hok Ht Hd. split.
  - unfold data_source_read_callback. rewrite Hd. cbv zeta.
    pose proof (taken_spec length s Hok ltac:(lia)) as P. pose proof (taken_total length s) as Q.
    destruct (if body_empty s then _ else _) as [bytes s1]. destruct P as (_ & P2 & _ & P4 & P5).
    cbn [snd] in Q.
    pose proof (early_flag length s1 (remaining s1) Hl P2 ltac:(lia) (fun H => H)) as R.
    rewrite P4, P5 in R.
    assert (Hn : len (remaining s1) = length -> remaining s1 <> "").
    { intros Hn E. rewrite E in Hn. change (len "") with 0 in Hn. lia. }
    destruct (body_eof s1 || is_last_frame length s1).
    + change (remaining (mark_body_sent s1)) with (remaining s1).
      split; [intros [_ H]; tauto|]. intros H. split; [eauto|tauto].
    + split; [by intros [(? & ? & [=]) _]|]. intros H. exfalso. destruct R as [_ R].
      destruct R as [R _]; [tauto|done].
  - unfold client_data_source_read_callback. rewrite Hd. cbv zeta.
    set (eof := body_eof s || is_last_frame length s).
    set (s0 := if eof then mark_body_sent s else s).
    assert (Hok0 : body_ok s0) by (subst s0; destruct eof; [by eapply body_ok_same|done]).
    assert (Er : remaining s0 = remaining s) by (subst s0; by destruct eof).
    pose proof (taken_spec length s0 Hok0 ltac:(lia)) as P.
    destruct (if body_empty s0 then _ else _) as [bytes s1]. destruct P as (P1 & _).
    assert (Hr : remaining s1 <> "" -> remaining s <> "").
    { intros Hn E. rewrite Er, E in P1. apply Hn, len_zero. apply (f_equal len) in P1.
      rewrite len_app in P1. change (len "") with 0 in P1.
      pose proof (len_nonneg bytes). pose proof (len_nonneg (remaining s1)). lia. }
    pose proof (early_flag length s (remaining s1) Hl Hok Ht Hr) as R. fold eof in R. split.
    + intros [(? & ? & [= <- -> <-]) Hn]. tauto.
    + intros H. destruct R as [_ R]. specialize (R H) as [-> Hn]. eauto.
Qed.

Definition two_chunks : stream := set_flags true false false true false (set_body ["ab"; "cd"] 0 (new_stream 200)).

Lemma end_of_body_flag_witness :
  (let '(a, s') := data_source_read_callback 2 two_chunks in
   a = data "ab" true false /\ remaining s' = "cd" /\
   ((exists bytes no_end, a = data bytes true no_end) /\ remaining s' <> "" <->
    eof_ two_chunks = true /\ trailers two_chunks = [] /\ len (remaining s') = 2)) /\
  client_data_source_read_callback 4 two_chunks =
    (data "ab" true false, mark_body_sent (set_body ["cd"] 0 two_chunks)).
Proof.
  split; [|by vm_compute].
  split; [by vm_compute|]. split; [by vm_compute|].
  apply (end_of_body_flag 2 two_chunks); [lia|vm_compute; split; congruence|by vm_compute|by vm_compute].
Defined.

(** The list of name-value pairs given to nghttp2 for the headers of a
    response: one pair per name, sorted; the values a name had are joined by
    [", "]; the fields that belong to a connection are gone whatever their case,
    and a transfer coding is [trailers].  Only the submission can fail. *)
Theorem response_header_list (rc : ng_call -> Z) (r : http_response) (s s' : stream) :
  wf (_headers (response_base r)) -> prepared_headers s = [] ->
  on_header rc r s = Ok s' ->
  wf (nva s') /\ prepared_headers s' = nva s' /\ nvlen s' = Z.of_nat (length (nva s')) /\
  forall k, values k (nva s') =
    joined ((if bool_decide (k = ":status") then [to_string (_status_code r)] else []) ++
            prepared_values server_filtered (response_base r) k).
Proof.
  intros Hw Hp. unfold on_header.
  destruct (prepare_ok server_filtered (response_base r) Hw) as (d & E & Hwd & Hv);
    [by vm_compute|].
  rewrite E, Hp. cbn [mbind outcome_bind]. cbv zeta. set (code := to_string _). intros H.
  apply bind_Ok_inv in H as (v & Hn & H). unfold write_nva in Hn. inv_outcome. subst v.
  assert (F : nva s' = merge_all (insert ":status" code []) (headers d) /\
    prepared_headers s' = nva s' /\
    nvlen s' = Z.of_nat (length (nva s'))).
  { revert H. unfold flush. destruct (closed_ _); [by intros [= <-]|]. intros H.
    apply bind_Ok_inv in H as (s1 & H & [= <-]). revert H.
    destruct (negb _); [|unfold flush_101; cbv zeta; intros H; inv_outcome; by subst s1].
    destruct (resume_needed_ _); [by intros [= <-]|].
    destruct (negb _); [cbv zeta; intros H; inv_outcome; by subst s1|].
    destruct (body_sent _ && _); [|by intros [= <-]].
    unfold submit_trailers, write_nva. intros H. inv_outcome. by subst s1. }
  destruct F as (F1 & F2 & F3). rewrite F1 in F2, F3 |- *.
  destruct (merge_all_spec (headers d) [(":status", code)] (insert ":status" code []))
    as [G1 G2]; [by repeat constructor| |].
  { intros k. cbn [insert]. rewrite values_cons. cbn [fst snd]. by destruct (decide _). }
  split_and!; try done. intros k. rewrite G2, values_app, headers_copy, Hv by done. f_equal. f_equal.
  rewrite values_cons. cbn [fst snd]. destruct (decide (":status" = k)) as [<-|Hne].
  - by rewrite bool_decide_eq_true_2.
  - by rewrite bool_decide_eq_false_2.
Qed.

Definition example_response : http_response :=
  {| response_base := set_headers [("cookie", "a=1"); ("cookie", "b=2"); ("keep-alive", "timeout=5");
                                   ("transfer-encoding", "chunked")] (blank_data http_response_type);
     _status_code := 200; _status_message := "OK" |}.

Definition all_fine (c : ng_call) : Z := 0.

Definition started : outcome stream := on_header all_fine example_response (new_stream 200).

Lemma response_header_list_witness :
  match started with
  | Ok s' =>
      nva s' = [(":status", "200"); ("cookie", "a=1, b=2"); ("transfer-encoding", "trailers")] /\
      values "cookie" (nva s') = ["a=1, b=2"]
  | Crash _ => False
  end.
Proof.
  destruct started as [s'|] eqn:E; [|by vm_compute in E].
  pose proof (response_header_list all_fine example_response (new_stream 200) s') as P.
  destruct P as (_ & _ & _ & P); [repeat constructor; vm_compute; congruence|done|exact E|].
  split; [|rewrite P; by vm_compute]. vm_compute in E. injection E as <-. by vm_compute.
Defined.

(** The array for the trailers is allocated for as many pairs as the
    headers had ([nvlen], not [trailers_nvlen]): a flush that submits trailers
    writes out of bounds exactly when there are more trailers than headers, and
    otherwise submits all of them. *)
Theorem trailers_need_room (rc : ng_call -> Z) (s : stream) :
  closed_ s = false -> status_ s <> 101 -> resume_needed_ s = false -> headers_sent s = true ->
  body_sent s = true -> eof_ s = true ->
  flush rc s =
    if Z.of_nat (length (trailers s)) <=? nvlen s
    then Ok (call_ng [do_write_call] (call_ng [submit_trailer (trailers s)] s))
    else Crash Undefined.
Proof.
  intros Hc Hs Hr Hh Hb He. unfold flush, submit_trailers, write_nva. rewrite Hc, Hr, Hh, Hb, He.
  apply Z.eqb_neq in Hs. rewrite Hs. cbn [negb andb]. destruct (_ <=? _); done.
Qed.

Lemma trailers_need_room_witness :
  let s := set_trailers [("a", "1"); ("b", "2")]
    (set_headers_ 200 [(":status", "200")] 1 [(":status", "200")]
      (set_flags true true false true false (new_stream 200))) in
  flush all_fine s = Crash Undefined.
Proof. cbv zeta. rewrite trailers_need_room; [by vm_compute|done..]. Defined.

(** Trailers can only go out in a flush that finds the body sent, and the
    last flush is that of [on_eom].  When the body is not marked sent by then,
    for instance because a read was deferred ([resume_needed_]) or bytes are
    left, they are never submitted, whatever is read afterwards, although every
    later read announces with [NGHTTP2_DATA_FLAG_NO_END_STREAM] that the end of
    the stream comes with them. *)
Theorem trailers_lost (rc : ng_call -> Z) (s s' : stream) (ns : list Z) :
  closed_ s = false -> status_ s <> 101 -> headers_sent s = true -> body_sent s = false ->
  has_trailers s = true -> on_eom (flush rc) s = Ok s' ->
  calls (reads data_source_read_callback ns s') =
    calls s ++ (if resume_needed_ s then [resume_data] else []) ++ [do_write_call] /\
  forall n, exists bytes eof,
    (data_source_read_callback n (reads data_source_read_callback ns s')).1 = data bytes eof true.
Proof.
  intros Hc Hs Hh Hb Ht. unfold on_eom. cbv zeta. cbn [closed_ set_flags]. rewrite Hc. unfold flush.
  cbn [closed_ status_ resume_needed_ headers_sent body_sent ask_callbacks set_flags].
  apply Z.eqb_neq in Hs. rewrite Hs, Hh, Hb. cbn [negb andb]. intros H.
  assert (E : calls s' = calls s ++ (if resume_needed_ s then [resume_data] else []) ++ [do_write_call]
    /\ trailers s' = trailers s).
  { destruct (resume_needed_ s); injection H as <-; cbn [calls call_ng set_flags ask_callbacks trailers];
      split; rewrite <- ?app_assoc; done. }
  destruct E as [E1 E2]. split; [rewrite reads_calls by (by left); exact E1|]. intros n.
  assert (E3 : has_trailers (reads data_source_read_callback ns s') = true).
  { unfold has_trailers in *. rewrite reads_trailers. by rewrite E2. }
  set (t := reads _ ns s') in *. unfold data_source_read_callback, defer. rewrite E3.
  rewrite andb_false_r. cbn [andb]. cbv zeta.
  destruct (if body_empty t then _ else _) as [b u]. eauto.
Qed.

Lemma trailers_lost_witness :
  let s := set_trailers [("digest", "x")] (set_headers_ 200 [(":status", "200")] 1 [(":status", "200")]
             (set_flags true false true false false (new_stream 200))) in
  match on_eom (flush all_fine) s with
  | Ok s' => calls (reads data_source_read_callback [16; 16] s') = [resume_data; do_write_call]
  | Crash _ => False
  end.
Proof.
  cbv zeta. set (s := set_trailers _ _). destruct (on_eom (flush all_fine) s) as [s'|] eqn:E; [|done].
  destruct (trailers_lost all_fine s s' [16; 16]) as [P _]; try done.
Defined.

(** However the local object, its flushes and the reads of nghttp2 follow
    each other, a response is submitted at most once on a stream, and trailers
    only after it. *)
Theorem response_submitted_once (rc : ng_call -> Z) (os : list stream_op) (st : Z) (s' : stream) :
  run_ops rc os (new_stream st) = Ok s' -> submitted_in_order (calls s').
Proof.
  intros H. apply (run_ops_inv rc os (new_stream st) s'); [|done].
  split; [|done]. split; [cbn; lia|]. intros [|] t l2; done.
Qed.

Lemma response_submitted_once_witness :
  match run_ops all_fine [op_header example_response; op_body "hi"; op_read 10; op_trailer "a" "b";
                          op_read 10; op_eom] (new_stream 200) with
  | Ok s' => submitted_in_order (calls s') /\
      filter (fun c => is_response c || is_trailer c = true) (calls s') =
        [submit_response [(":status", "200"); ("cookie", "a=1, b=2");
                          ("transfer-encoding", "trailers")] true; submit_trailer [("a", "b")]]
  | Crash _ => False
  end.
Proof.
  set (os := [_; _; _; _; _; _]). destruct (run_ops all_fine os (new_stream 200)) as [s'|] eqn:E;
    [|by vm_compute in E].
  split; [by apply (response_submitted_once all_fine os 200)|]. vm_compute in E. injection E as <-.
  by vm_compute.
Defined.
