(* ===== verification/Http2Session.v ===== *)
(** * Sessions of HTTP/2 (session.{h,cpp}, session_client.{h,cpp} of src/src/http2)

    A session is the handler between the connector and nghttp2.  nghttp2 keeps
    for every stream identifier the pointer to the stream of the program
    ([user_data]); the streams themselves are on a heap ([objects]), since a
    pointer can outlive its stream.  The callbacks of nghttp2 are the operations
    here, with what nghttp2 answers as arguments: the code [rv] of a call, and
    [want_write] for [nghttp2_session_want_write].

    The first section is shared by the session of a server ([M] is
    [http_request]) and the session of a client ([M] is [http_response]). *)

From S2P Require Import Prelude CppStd MultiMap Utils HttpCommons StructuredData HttpMessages Errors UserObjects Http2Stream.

(** ** Frames and constants of nghttp2 the callbacks look at *)
Definition NGHTTP2_DATA : Z := 0.
Definition NGHTTP2_HEADERS : Z := 1.
Definition NGHTTP2_HCAT_REQUEST : Z := 0.
Definition NGHTTP2_HCAT_RESPONSE : Z := 1.
Definition NGHTTP2_HCAT_HEADERS : Z := 3.
Definition NGHTTP2_FLAG_END_STREAM : Z := 1.
Definition NGHTTP2_SETTINGS_ENABLE_PUSH : Z := 2.
Definition NGHTTP2_SETTINGS_MAX_CONCURRENT_STREAMS : Z := 3.
Definition NGHTTP2_ERR_FLOODED : Z := -904.
Definition NGHTTP2_ERR_CALLBACK_FAILURE : Z := -902.

Record frame := {
  frame_type : Z;
  frame_flags : Z;
  stream_id : Z;
  frame_cat : Z }.

Definition ends_stream (f : frame) : bool :=
  negb (Z.land (frame_flags f) NGHTTP2_FLAG_END_STREAM =? 0).

(** What the session asks of its connector and of nghttp2. *)
Inductive session_call :=
| c_do_write
| c_close
| c_set_timeout (ms : Z)
| c_submit_settings (iv : list (Z * Z))
| c_submit_goaway (error_code : Z)
| c_submit_rst_stream (id : Z)
| c_connection_error (e : error_code)
| c_write_error (k : nat)
| c_user_feedback (k : nat)
| c_post_timeout.

(** A stream: the sending half [out], and the message being received. *)
Record h2_stream (M : Type) := {
  id_ : Z;
  out : stream;
  incoming : M;
  _headers_sent : bool;
  (** [req] (of a client [res]) is set, and what was called on it *)
  receiver : bool;
  told : list (trigger M);
  (** errors given to the local object, while somebody holds it *)
  local_held : bool;
  local_errors : list error_code }.
Arguments id_ {M} _.
Arguments out {M} _.
Arguments incoming {M} _.
Arguments _headers_sent {M} _.
Arguments receiver {M} _.
Arguments told {M} _.
Arguments local_held {M} _.
Arguments local_errors {M} _.

Record session (M : Type) := {
  objects : gmap nat (h2_stream M);
  next_object : nat;
  user_data : gmap Z nat;
  listeners : list nat;
  pending : list nat;
  stream_counter : Z;
  gone : bool;
  user_close : bool;
  (** [connector() != nullptr] *)
  connected : bool;
  session_calls : list session_call }.
Arguments objects {M} _.
Arguments next_object {M} _.
Arguments user_data {M} _.
Arguments listeners {M} _.
Arguments pending {M} _.
Arguments stream_counter {M} _.
Arguments gone {M} _.
Arguments user_close {M} _.
Arguments connected {M} _.
Arguments session_calls {M} _.

Section Session.
Context {M : Type}.
Implicit Types (s : session M) (x : h2_stream M).

Definition new_session : session M :=
  {| objects := ∅; next_object := O; user_data := ∅; listeners := []; pending := [];
     stream_counter := 0; gone := false; user_close := false; connected := true;
     session_calls := [] |}.

Definition set_out (o : stream) x : h2_stream M :=
  {| id_ := id_ x; out := o; incoming := incoming x; _headers_sent := _headers_sent x;
     receiver := receiver x; told := told x; local_held := local_held x;
     local_errors := local_errors x |}.

Definition set_incoming (m : M) (sent : bool) x : h2_stream M :=
  {| id_ := id_ x; out := out x; incoming := m; _headers_sent := sent;
     receiver := receiver x; told := told x; local_held := local_held x;
     local_errors := local_errors x |}.

Definition set_id (i : Z) x : h2_stream M :=
  {| id_ := i; out := out x; incoming := incoming x; _headers_sent := _headers_sent x;
     receiver := receiver x; told := told x; local_held := local_held x;
     local_errors := local_errors x |}.

Definition set_receiver (r : bool) x : h2_stream M :=
  {| id_ := id_ x; out := out x; incoming := incoming x; _headers_sent := _headers_sent x;
     receiver := r; told := told x; local_held := local_held x; local_errors := local_errors x |}.

(** A call on [req]: through a null pointer it is undefined. *)
Definition call_receiver (t : trigger M) x : outcome (h2_stream M) :=
  _ ← guard_ub (receiver x);
  mret {| id_ := id_ x; out := out x; incoming := incoming x; _headers_sent := _headers_sent x;
          receiver := receiver x; told := told x ++ [t]; local_held := local_held x;
          local_errors := local_errors x |}.

(** [notify_error(ec)] of a stream. *)
Definition stream_error (e : error_code) x : h2_stream M :=
  {| id_ := id_ x; out := out x; incoming := incoming x; _headers_sent := _headers_sent x;
     receiver := receiver x; told := told x ++ (if receiver x then [t_error e] else []);
     local_held := local_held x;
     local_errors := local_errors x ++ (if local_held x then [e] else []) |}.

Definition set_objects (o : gmap nat (h2_stream M)) s : session M :=
  {| objects := o; next_object := next_object s; user_data := user_data s;
     listeners := listeners s; pending := pending s; stream_counter := stream_counter s;
     gone := gone s; user_close := user_close s; connected := connected s;
     session_calls := session_calls s |}.

Definition set_listeners (l p : list nat) s : session M :=
  {| objects := objects s; next_object := next_object s; user_data := user_data s;
     listeners := l; pending := p; stream_counter := stream_counter s; gone := gone s;
     user_close := user_close s; connected := connected s; session_calls := session_calls s |}.

Definition set_state (g u c : bool) s : session M :=
  {| objects := objects s; next_object := next_object s; user_data := user_data s;
     listeners := listeners s; pending := pending s; stream_counter := stream_counter s;
     gone := g; user_close := u; connected := c; session_calls := session_calls s |}.

Definition set_user_data (i : Z) (k : nat) s : session M :=
  {| objects := objects s; next_object := next_object s; user_data := <[i := k]> (user_data s);
     listeners := listeners s; pending := pending s; stream_counter := stream_counter s;
     gone := gone s; user_close := user_close s; connected := connected s;
     session_calls := session_calls s |}.

Definition add_calls (cs : list session_call) s : session M :=
  {| objects := objects s; next_object := next_object s; user_data := user_data s;
     listeners := listeners s; pending := pending s; stream_counter := stream_counter s;
     gone := gone s; user_close := user_close s; connected := connected s;
     session_calls := session_calls s ++ cs |}.

Definition count_stream s : session M :=
  {| objects := objects s; next_object := S (next_object s); user_data := user_data s;
     listeners := listeners s; pending := pending s; stream_counter := stream_counter s + 1;
     gone := gone s; user_close := user_close s; connected := connected s;
     session_calls := session_calls s |}.

(** Through a pointer to a stream that is no more, anything is undefined. *)
Definition on_object (k : nat) (f : h2_stream M -> outcome (h2_stream M)) s : outcome (session M) :=
  match objects s !! k with
  | None => Crash Undefined
  | Some x => y ← f x; mret (set_objects (<[k := y]> (objects s)) s)
  end.

(** ** Operations common to both sessions *)
Definition do_write s : session M := if connected s then add_calls [c_do_write] s else s.

Definition write_if (want_write : bool) s : session M := if want_write then do_write s else s.

(** [nghttp2_submit_settings] of the pairs [iv], which answers [r]: an error is
    thrown. *)
Definition submit_settings (iv : list (Z * Z)) (r : Z) s : outcome (session M) :=
  let s := add_calls [c_submit_settings iv] s in
  if negb (r =? 0) then Crash Terminated else mret (do_write s).

Definition send_connection_header (max_concurrent_streams r : Z) s : outcome (session M) :=
  submit_settings [(NGHTTP2_SETTINGS_MAX_CONCURRENT_STREAMS, max_concurrent_streams)] r s.

Definition start (max_concurrent_streams r : Z) s : outcome (bool * session M) :=
  if negb (connected s) then mret (false, s)
  else s ← send_connection_header max_concurrent_streams r s; mret (true, do_write s).

Definition go_away (r : Z) s : outcome (session M) :=
  let s := add_calls [c_submit_goaway 2] s in
  if r <? 0 then Crash Terminated else mret (set_state true (user_close s) (connected s) s).

Definition set_timeout (ms : Z) s : session M :=
  if connected s then add_calls [c_set_timeout ms] s else s.

(** [trigger_timeout_event] posts the call of the user's timeout. *)
Definition trigger_timeout_event s : outcome (session M) :=
  if connected s then mret (add_calls [c_post_timeout] s) else Crash AssertFailed.

Definition close s : session M :=
  let s := set_state (gone s) true (connected s) s in
  if connected s then add_calls [c_close] s else s.

Definition subscribe (k : nat) s : outcome (session M) :=
  _ ← cassert (bool_decide (k ∉ listeners s));
  mret (set_listeners (listeners s ++ [k]) (pending s) s).

Definition unsubscribe (k : nat) s : session M :=
  set_listeners (filter (fun i => i <> k) (listeners s)) (pending s) s.

(** [notify_error]: through the listeners in their order. *)
Definition notify_error (e : error_code) s : outcome (session M) :=
  foldl (fun o k => s ← o; on_object k (fun x => mret (stream_error e x)) s) (mret s) (listeners s).

Definition finished_stream s : session M :=
  {| objects := objects s; next_object := next_object s; user_data := user_data s;
     listeners := listeners s; pending := pending s; stream_counter := stream_counter s - 1;
     gone := gone s; user_close := user_close s; connected := connected s;
     session_calls := session_calls s |}.

Definition on_connector_nulled s : outcome (session M) :=
  let e := if user_close s then connection_closed else closed_by_client in
  let s := add_calls (c_connection_error e :: (c_write_error <$> pending s)) s in
  notify_error e s.

Definition write_feedbacks s : list nat * session M := (pending s, set_listeners (listeners s) [] s).

Definition should_stop (want_read want_write : Z) : bool := (want_read =? 0) && (want_write =? 0).

(** [on_write]: what [nghttp2_session_mem_send] returned. *)
Definition on_write (consumed : Z) (bytes chunk : string) s : outcome (bool * string) :=
  if negb (connected s) then mret (false, chunk)
  else if consumed <? 0 then Crash Terminated
  else mret (true, bytes).

(** The destructor of a stream, when [die] called it. *)
Definition settle_destroyed (k : nat) s : session M :=
  match objects s !! k with
  | Some x =>
      if destroyed (out x) then unsubscribe k (set_objects (delete k (objects s)) s) else s
  | None => s
  end.

Definition kill_stream (k : nat) s : outcome (session M) :=
  s ← on_object k (fun x => mret (set_out (die (out x)) x)) s;
  mret (settle_destroyed k s).

(** [on_stream_close_callback]. *)
Definition on_stream_close_callback (i : Z) (want_write : bool) s : outcome (session M) :=
  _ ← cassert (bool_decide (is_Some (user_data s !! i)));
  k ← of_option AssertFailed (user_data s !! i);
  s ← kill_stream k s;
  mret (write_if want_write s).

(** [frame_not_send_callback]. *)
Definition frame_not_send_callback (f : frame) (rc : Z) s : outcome (session M) :=
  if negb (frame_type f =? NGHTTP2_HEADERS) || negb (frame_cat f =? NGHTTP2_HCAT_REQUEST)
  then mret s
  else
    s ← (match user_data s !! stream_id f with Some k => kill_stream k s | None => mret s end);
    let s := add_calls [c_submit_rst_stream (stream_id f)] s in
    if negb (rc =? 0) then Crash Terminated else mret s.

(** The call of a local object reaches its stream; what it asked of the session
    is done here: the feedback, and the destruction. *)
Definition local_call (k : nat) (f : stream -> outcome stream) s : outcome (session M) :=
  match objects s !! k with
  | None => Crash Undefined
  | Some x =>
      o ← f (out x);
      let s := set_objects (<[k := set_out o x]> (objects s)) s in
      let asked := Nat.ltb (callbacks_asked (out x)) (callbacks_asked o) in
      let s := if asked && local_held x then set_listeners (listeners s) (pending s ++ [k]) s else s in
      mret (settle_destroyed k s)
  end.

(** [create_stream(id)]: [m] is the fresh message, [told_user] whether the user
    is given the objects now, [st] the initial [status]; [rv] is the answer of
    [nghttp2_session_set_stream_user_data], not called for a negative [id]. *)
Definition create_stream (m : outcome M) (told_user : bool) (st i rv : Z) s : outcome (nat * session M) :=
  let k := next_object s in
  s ← subscribe k s;
  m ← m;
  _ ← guard_ub (connected s);
  let x := {| id_ := i; out := new_stream st; incoming := m; _headers_sent := false;
              receiver := true; told := []; local_held := true; local_errors := [] |} in
  let s := set_objects (<[k := x]> (objects s)) s in
  let s := if told_user then add_calls [c_user_feedback k] s else s in
  let s := if (0 <=? i) && (rv =? 0) then set_user_data i k s else s in
  mret (k, count_stream s).
End Session.

(** ** The events of nghttp2 while it reads *)
Inductive h2_event :=
| ev_begin_headers (f : frame) (rv : Z)
| ev_header (f : frame) (name value : string)
| ev_frame (f : frame)
| ev_data (i : Z) (d : string)
| ev_stream_close (i : Z).

Section Reading.
Context {M : Type}.
Context (on_event : h2_event -> session M -> outcome (session M)).

Fixpoint run_events (evs : list h2_event) (s : session M) : outcome (session M) :=
  match evs with
  | [] => mret s
  | ev :: evs => s ← on_event ev s; run_events evs s
  end.

(** [on_read(data, len)]: [nghttp2_session_mem_recv] makes the callbacks [evs]
    and returns [rv]; [r] is the answer to a [GOAWAY]. *)
Definition on_read (evs : list h2_event) (rv len r : Z) (want_write : bool) (s : session M)
    : outcome (bool * session M) :=
  s ← run_events evs s;
  if (rv <? 0) && negb ((rv =? NGHTTP2_ERR_FLOODED) || (rv =? NGHTTP2_ERR_CALLBACK_FAILURE))
  then mret (false, s)
  else
    s ← (if rv <? 0 then go_away r s else mret s);
    _ ← cassert (u32 rv =? len);
    mret (true, write_if want_write s).
End Reading.

(** ** The session of a server: requests are received *)
Module Server.
(** [moved m] is what [std::move] leaves of a message. *)
Section Server.
Context (moved : http_request -> http_request) (want_write : bool) (garbage : Z).

Abbreviation server_stream := (h2_stream http_request).
Abbreviation server_session := (session http_request).

(** The constructor of [stream]. *)
Definition initial_request : outcome http_request :=
  r ← new_request false HTTP_GET;
  d ← protocol HTTP11 (base r);
  mret (set_base (channel HTTP20 d) r).

Definition on_request_header_complete (x : server_stream) : outcome server_stream :=
  x' ← call_receiver (t_headers (incoming x)) x;
  mret (set_incoming (moved (incoming x)) true x').

Definition set_base_with (f : http_structured_data -> outcome http_structured_data) (r : http_request)
    : outcome http_request :=
  d ← f (base r); mret (set_base d r).

Definition add_header (key value : string) (x : server_stream) : outcome server_stream :=
  if negb (_headers_sent x) then
    r ← set_base_with (header key value) (incoming x);
    mret (set_incoming r (_headers_sent x) x)
  else call_receiver (t_trailer key value) x.

Definition on_request_body (d : string) (x : server_stream) : outcome server_stream :=
  call_receiver (t_body d) x.

Definition on_request_finished (x : server_stream) : outcome server_stream :=
  x ← call_receiver t_finished x;
  mret (set_receiver false x).

(** [uri_host]. *)
Definition uri_host (p : string) (r : http_request) : outcome http_request :=
  r ← set_base_with (hostname p) r;
  mret (urihost p r).

(** Up to the first [d], and from it on. *)
Fixpoint scan (d : ascii) (l : list ascii) : list ascii * list ascii :=
  match l with
  | [] => ([], [])
  | c :: l' => if Ascii.eqb c d then ([], l) else let '(a, b) := scan d l' in (c :: a, b)
  end.

(** The value of [:path]. *)
Definition split_path (value : string) (r : http_request) : http_request :=
  let '(decoded_path, from_k) := scan "?"%char (chars value) in
  let r := path (of_chars decoded_path) r in
  let decoded_query := of_chars (scan "#"%char from_k).1 in
  let r := if negb (empty decoded_query) then query decoded_query r else r in
  let decoded_fragment := of_chars from_k in
  if negb (empty decoded_fragment) then fragment decoded_fragment r else r.

(** One name and value of the header block of a request. *)
Definition header_field (name value : string) (x : server_stream) : outcome server_stream :=
  let update f := mret (set_incoming (f (incoming x)) (_headers_sent x) x) in
  if bool_decide (name = ":path") then update (split_path value)
  else if bool_decide (name = ":scheme") then update (schema value)
  else if bool_decide (name = ":method") then update (method_of_string value)
  else if bool_decide (name = ":authority") then
    r ← uri_host value (incoming x);
    mret (set_incoming r (_headers_sent x) x)
  else add_header name value x.

Definition on_begin_headers_callback (f : frame) (rv : Z) (s : server_session) : outcome server_session :=
  if negb (frame_type f =? NGHTTP2_HEADERS) || negb (frame_cat f =? NGHTTP2_HCAT_REQUEST)
  then mret s
  else snd <$> create_stream initial_request true garbage (stream_id f) rv s.

Definition on_header_callback (f : frame) (name value : string) (s : server_session)
    : outcome server_session :=
  s ← (if (frame_type f =? NGHTTP2_HEADERS) && (frame_cat f =? NGHTTP2_HCAT_REQUEST) then
         match user_data s !! stream_id f with
         | Some k => on_object k (header_field name value) s
         | None => mret s
         end
       else mret s);
  mret (write_if want_write s).

(** What a frame does to its stream. *)
Definition frame_on_stream (f : frame) (x : server_stream) : outcome server_stream :=
  x ← (if (frame_type f =? NGHTTP2_HEADERS) && (frame_cat f =? NGHTTP2_HCAT_REQUEST)
       then on_request_header_complete x else mret x);
  if ends_stream f then on_request_finished x else mret x.

Definition on_frame_recv_callback (f : frame) (s : server_session) : outcome server_session :=
  s ← (match user_data s !! stream_id f with
       | Some k => on_object k (frame_on_stream f) s
       | None => mret s
       end);
  mret (write_if want_write s).

(** The pointer is used without a test. *)
Definition on_data_chunk_recv_callback (i : Z) (d : string) (s : server_session) : outcome server_session :=
  k ← of_option Undefined (user_data s !! i);
  s ← on_object k (on_request_body d) s;
  mret (write_if want_write s).

Definition on_event (ev : h2_event) (s : server_session) : outcome server_session :=
  match ev with
  | ev_begin_headers f rv => on_begin_headers_callback f rv s
  | ev_header f name value => on_header_callback f name value s
  | ev_frame f => on_frame_recv_callback f s
  | ev_data i d => on_data_chunk_recv_callback i d s
  | ev_stream_close i => on_stream_close_callback i want_write s
  end.
End Server.
End Server.

(** ** The session of a client: responses are received *)
Module Client.
Section Client.
Context (moved : http_response -> http_response) (want_write : bool) (garbage : Z).

Abbreviation client_stream := (h2_stream http_response).
Abbreviation client_session := (session http_response).

(** The constructor of [stream_client]; [garbage] is its indeterminate status code. *)
Definition initial_response : outcome http_response :=
  r ← new_response garbage;
  d ← protocol HTTP11 (response_base r);
  mret {| response_base := channel HTTP20 d; _status_code := _status_code r;
          _status_message := _status_message r |}.

Definition on_response_header_complete (x : client_stream) : outcome client_stream :=
  x' ← call_receiver (t_headers (incoming x)) x;
  mret (set_incoming (moved (incoming x)) true x').

Definition response_with (f : http_structured_data -> outcome http_structured_data) (r : http_response)
    : outcome http_response :=
  d ← f (response_base r);
  mret {| response_base := d; _status_code := _status_code r; _status_message := _status_message r |}.

Definition add_header (key value : string) (x : client_stream) : outcome client_stream :=
  if negb (_headers_sent x) then
    r ← response_with (header key value) (incoming x);
    mret (set_incoming r (_headers_sent x) x)
  else call_receiver (t_trailer key value) x.

Definition on_response_body (d : string) (x : client_stream) : outcome client_stream :=
  call_receiver (t_body d) x.

Definition on_response_finished (x : client_stream) : outcome client_stream :=
  x ← call_receiver t_finished x;
  mret (set_receiver false x).

(** [status(s)]: also the status the sending half looks at. *)
Definition set_status (st : Z) (x : client_stream) : client_stream :=
  let o := out x in
  set_incoming (status st (incoming x)) (_headers_sent x)
    (set_out (set_headers_ st (nva o) (nvlen o) (prepared_headers o) o) x).

(** [std::stoi] of a status, which throws on what is no number. *)
Definition header_field (name value : string) (x : client_stream) : outcome client_stream :=
  if bool_decide (name = ":authority") then
    r ← response_with (hostname value) (incoming x);
    mret (set_incoming r (_headers_sent x) x)
  else if bool_decide (name = ":status") then
    n ← of_option Terminated (stoi value);
    mret (set_status n x)
  else add_header name value x.

Definition on_begin_headers_callback (f : frame) (rv : Z) (s : client_session) : outcome client_session :=
  match user_data s !! stream_id f with
  | Some _ => mret s
  | None => snd <$> create_stream initial_response false 200 (stream_id f) rv s
  end.

Definition on_header_callback (f : frame) (name value : string) (s : client_session)
    : outcome client_session :=
  s ← (if (frame_type f =? NGHTTP2_HEADERS) && negb (frame_cat f =? NGHTTP2_HCAT_REQUEST) then
         match user_data s !! stream_id f with
         | Some k => on_object k (header_field name value) s
         | None => mret s
         end
       else mret s);
  mret (write_if want_write s).

Definition frame_on_stream (f : frame) (x : client_stream) : outcome client_stream :=
  x ← (if (frame_type f =? NGHTTP2_HEADERS) && negb (frame_cat f =? NGHTTP2_HCAT_REQUEST)
       then on_response_header_complete x else mret x);
  if ends_stream f then on_response_finished x else mret x.

Definition on_frame_recv_callback (f : frame) (s : client_session) : outcome client_session :=
  s ← (match user_data s !! stream_id f with
       | Some k => on_object k (frame_on_stream f) s
       | None => mret s
       end);
  mret (write_if want_write s).

Definition on_data_chunk_recv_callback (i : Z) (d : string) (s : client_session) : outcome client_session :=
  s ← (match user_data s !! i with
       | Some k => on_object k (on_response_body d) s
       | None => mret s
       end);
  mret (write_if want_write s).

Definition on_event (ev : h2_event) (s : client_session) : outcome client_session :=
  match ev with
  | ev_begin_headers f rv => on_begin_headers_callback f rv s
  | ev_header f name value => on_header_callback f name value s
  | ev_frame f => on_frame_recv_callback f s
  | ev_data i d => on_data_chunk_recv_callback i d s
  | ev_stream_close i => on_stream_close_callback i want_write s
  end.

(** [get_user_handlers]: a stream without an identifier yet, and
    [nghttp2_submit_request], which gives it one and keeps the pointer. *)
Definition get_user_handlers (s : client_session) : outcome (nat * client_session) :=
  create_stream initial_response false 200 (-1) 0 s.

Definition submitted (k : nat) (i : Z) (s : client_session) : outcome client_session :=
  s ← on_object k (fun x => mret (set_id i x)) s;
  mret (if 0 <? i then set_user_data i k s else s).

(** [on_write] reads nghttp2 before it looks at the connector. *)
Definition client_on_write (consumed : Z) (bytes : string) (s : client_session) : outcome (bool * string) :=
  if consumed <? 0 then Crash Terminated
  else mret (connected s, bytes).
End Client.
End Client.

(** ** Streams do not mix *)
Definition ev_id (ev : h2_event) : Z :=
  match ev with
  | ev_begin_headers f _ | ev_header f _ _ | ev_frame f => stream_id f
  | ev_data i _ | ev_stream_close i => i
  end.

(** What nghttp2's stream [i] is, through its pointer. *)
Definition view {M} (i : Z) (s : session M) : option (h2_stream M) :=
  k ← user_data s !! i; objects s !! k.

(** No two identifiers have the same stream, and numbers of objects are not
    used again. *)
Record wf_session {M} (s : session M) : Prop := {
  wf_user_data : forall i k, user_data s !! i = Some k -> (k < next_object s)%nat;
  wf_injective : forall i j k, user_data s !! i = Some k -> user_data s !! j = Some k -> i = j }.

Section Views.
Context {M : Type}.
Implicit Types (s : session M) (x : h2_stream M).

Lemma wf_same s s' :
  next_object s' = next_object s -> user_data s' = user_data s -> wf_session s -> wf_session s'.
Proof. intros E1 E2 [H1 H2]. split; rewrite ?E1, E2; done. Qed.

Lemma view_same i s s' :
  user_data s' = user_data s -> objects s' = objects s -> view i s' = view i s.
Proof. unfold view. by intros -> ->. Qed.

Lemma write_if_same b s :
  objects (write_if b s) = objects s /\ user_data (write_if b s) = user_data s /\
  next_object (write_if b s) = next_object s.
Proof. unfold write_if, do_write. destruct b; [|done]. by destruct (connected s). Qed.

Lemma write_if_views b s : wf_session s -> wf_session (write_if b s) /\ forall i, view i (write_if b s) = view i s.
Proof.
  intros H. destruct (write_if_same b s) as (E1 & E2 & E3).
  split; [by apply (wf_same s)|]. intros i. by apply view_same.
Qed.

(** An operation on the stream of [i] leaves the others alone. *)
Definition touches (i : Z) s s' : Prop :=
  wf_session s' /\ forall j, j <> i -> view j s' = view j s.

Lemma touches_refl i s : wf_session s -> touches i s s.
Proof. by split. Qed.

Lemma touches_write i b s s' : touches i s s' -> touches i s (write_if b s').
Proof.
  intros [H1 H2]. destruct (write_if_views b s' H1) as [H3 H4].
  split; [done|]. intros j Hj. by rewrite H4, H2.
Qed.

Lemma on_object_touches i k f s s' :
  wf_session s -> user_data s !! i = Some k -> on_object k f s = Ok s' ->
  touches i s s' /\ exists x y, view i s = Some x /\ f x = Ok y /\ view i s' = Some y.
Proof.
  intros Hw Hi. unfold on_object. destruct (objects s !! k) as [x|] eqn:Ek; [|done].
  intros H. apply bind_Ok_inv in H as (y & Hy & [= <-]). unfold touches, view.
  cbn [user_data objects set_objects]. split; [split; [by apply (wf_same s)|]|].
  - intros j Hj. destruct (user_data s !! j) as [l|] eqn:Ej; [|done]. cbn.
    apply lookup_insert_ne. intros ->. apply Hj. by eapply (wf_injective s Hw).
  - exists x, y. rewrite Hi. cbn. by rewrite lookup_insert_eq.
Qed.

Lemma kill_stream_touches i k s s' :
  wf_session s -> user_data s !! i = Some k -> kill_stream k s = Ok s' -> touches i s s'.
Proof.
  intros Hw Hi. unfold kill_stream. intros H. apply bind_Ok_inv in H as (s1 & H1 & [= <-]).
  pose proof (on_object_touches i k _ s s1 Hw Hi H1) as [[Hw1 Ht] _].
  assert (Hi1 : user_data s1 = user_data s).
  { unfold on_object in H1. destruct (objects s !! k); [|done].
    apply bind_Ok_inv in H1 as (y & _ & [= <-]). done. }
  unfold settle_destroyed. destruct (objects s1 !! k) as [x|]; [|done].
  destruct (destroyed (out x)); [|done].
  split; [by apply (wf_same s1)|]. intros j Hj. rewrite <- Ht by done. unfold view.
  cbn [user_data objects set_objects unsubscribe set_listeners].
  destruct (user_data s1 !! j) as [l|] eqn:Ej; [|done]. cbn. apply lookup_delete_ne.
  intros ->. rewrite Hi1 in Ej. apply Hj. by eapply (wf_injective s Hw).
Qed.

Lemma object_event i k f b s s' :
  wf_session s -> user_data s !! i = Some k -> on_object k f s = Ok s' ->
  touches i s (write_if b s') /\
  forall x, view i s = Some x -> exists y, view i (write_if b s') = Some y /\ f x = Ok y.
Proof.
  intros Hw Hk H. destruct (on_object_touches i k f s s' Hw Hk H) as [Ht (x & y & Hx & Hf & Hy)].
  split; [by apply touches_write|]. intros x0 Hx0. exists y.
  destruct (write_if_views b s' (proj1 Ht)) as [_ Hv]. rewrite Hv. split; [done|]. congruence.
Qed.

Lemma view_pointer i s x : view i s = Some x -> exists k, user_data s !! i = Some k.
Proof. unfold view. destruct (user_data s !! i); [eauto|done]. Qed.

(** The stream a session makes. *)
Definition fresh_stream (st i : Z) (m : M) : h2_stream M :=
  {| id_ := i; out := new_stream st; incoming := m; _headers_sent := false; receiver := true;
     told := []; local_held := true; local_errors := [] |}.

Lemma create_stream_touches (m : outcome M) b st i rv s k s' :
  wf_session s -> create_stream m b st i rv s = Ok (k, s') ->
  touches i s s' /\
  (0 <= i -> rv = 0 -> exists m0, m = Ok m0 /\ view i s' = Some (fresh_stream st i m0)).
Proof.
  intros Hw H. unfold create_stream in H. cbv zeta in H.
  apply bind_Ok_inv in H as (s1 & H1 & H). unfold subscribe in H1.
  apply bind_Ok_inv in H1 as (u1 & _ & [= <-]).
  apply bind_Ok_inv in H as (a & Ha & H). apply bind_Ok_inv in H as (u2 & _ & H).
  injection H as <- <-. cbn [objects set_listeners].
  set (x := {| id_ := i |}). set (s1 := set_objects _ _).
  assert (Hs : forall t : session M, objects (if b then add_calls [c_user_feedback (next_object s)] t else t) = objects t /\
    user_data (if b then add_calls [c_user_feedback (next_object s)] t else t) = user_data t /\
    next_object (if b then add_calls [c_user_feedback (next_object s)] t else t) = next_object t)
    by (intros t; by destruct b).
  destruct (Hs s1) as (E1 & E2 & E3). set (s2 := if b then _ else s1) in *.
  assert (Eo : objects (count_stream (if (0 <=? i) && (rv =? 0) then set_user_data i (next_object s) s2 else s2))
    = <[next_object s := x]> (objects s)) by (destruct (_ && _); cbn; by rewrite E1).
  assert (Eu : user_data (count_stream (if (0 <=? i) && (rv =? 0) then set_user_data i (next_object s) s2 else s2))
    = if (0 <=? i) && (rv =? 0) then <[i := next_object s]> (user_data s) else user_data s)
    by (destruct (_ && _); cbn; by rewrite E2).
  assert (En : next_object (count_stream (if (0 <=? i) && (rv =? 0) then set_user_data i (next_object s) s2 else s2))
    = S (next_object s)) by (destruct (_ && _); cbn; by rewrite E3).
  set (s3 := count_stream _) in *. clearbody s3. clear E1 E2 E3 Hs s1 s2.
  destruct Hw as [W1 W2]. split; [split; [split|]|].
  - intros j l. rewrite Eu, En. destruct (_ && _); [|intros Hj; specialize (W1 _ _ Hj); lia].
    destruct (decide (i = j)) as [<-|Hne]; [rewrite lookup_insert_eq; intros [= <-]; lia|].
    rewrite lookup_insert_ne by done. intros Hj. specialize (W1 _ _ Hj). lia.
  - intros j1 j2 l. rewrite Eu. destruct (_ && _); [|apply W2].
    destruct (decide (i = j1)) as [<-|H1], (decide (i = j2)) as [<-|H2]; try done;
      rewrite ?lookup_insert_eq, ?lookup_insert_ne by done.
    + intros [= <-] Hj. specialize (W1 _ _ Hj). lia.
    + intros Hj [= <-]. specialize (W1 _ _ Hj). lia.
    + apply W2.
  - intros j Hj. unfold view. rewrite Eo, Eu.
    assert (Ej : (if (0 <=? i) && (rv =? 0) then <[i := next_object s]> (user_data s) else user_data s) !! j
      = user_data s !! j) by (destruct (_ && _); [by apply lookup_insert_ne|done]).
    rewrite Ej. destruct (user_data s !! j) as [l|] eqn:El; [|done]. cbn. apply lookup_insert_ne.
    specialize (W1 _ _ El). lia.
  - intros Hi ->. exists a. split; [done|]. unfold view. rewrite Eo, Eu.
    destruct (Z.leb_spec 0 i); [|lia]. change (0 =? 0) with true. cbn [andb].
    rewrite lookup_insert_eq. cbn [mbind option_bind]. by rewrite lookup_insert_eq.
Qed.
End Views.

(** The events of one stream, out of all. *)
Definition events_of (i : Z) (evs : list h2_event) : list h2_event :=
  filter (fun ev => ev_id ev = i) evs.

Fixpoint run_stream {A} (step : h2_event -> A -> outcome A) (evs : list h2_event) (x : A)
    : outcome A :=
  match evs with [] => mret x | ev :: evs => x ← step ev x; run_stream step evs x end.

Lemma run_stream_app {A} (step : h2_event -> A -> outcome A) l1 l2 x :
  run_stream step (l1 ++ l2) x = y ← run_stream step l1 x; run_stream step l2 y.
Proof.
  revert x. induction l1 as [|ev l1 IH]; intros x; cbn [app run_stream]; [done|].
  destruct (step ev x); cbn; [apply IH|done].
Qed.

(** A session whose events touch the stream of their identifier only: what an
    event that is [quiet] does is [step]. *)
Section Demultiplex.
Context {M : Type} (on_event : h2_event -> session M -> outcome (session M)).
Context (step : h2_event -> h2_stream M -> outcome (h2_stream M)) (quiet : h2_event -> bool).
Context (on_event_touches : forall ev s s',
  wf_session s -> on_event ev s = Ok s' -> touches (ev_id ev) s s').
Context (on_event_step : forall ev s s' x,
  wf_session s -> quiet ev = true -> view (ev_id ev) s = Some x -> on_event ev s = Ok s' ->
  exists y, view (ev_id ev) s' = Some y /\ step ev x = Ok y).

Lemma run_events_view i evs s s' x :
  wf_session s -> view i s = Some x -> forallb quiet (events_of i evs) = true ->
  run_events on_event evs s = Ok s' ->
  exists y, view i s' = Some y /\ run_stream step (events_of i evs) x = Ok y.
Proof.
  revert s x. induction evs as [|ev evs IH]; intros s x Hw Hv Hq; cbn [run_events].
  { intros [= <-]. by exists x. }
  intros H. apply bind_Ok_inv in H as (s1 & H1 & H). unfold events_of in Hq |- *.
  rewrite filter_cons in Hq |- *. destruct (on_event_touches ev s s1 Hw H1) as [Hw1 Ht].
  destruct (decide (ev_id ev = i)) as [<-|Hne].
  - cbn [forallb] in Hq. apply andb_prop in Hq as [Hq1 Hq].
    destruct (on_event_step ev s s1 x Hw Hq1 Hv H1) as (y & Hy & Hs).
    destruct (IH s1 y Hw1 Hy Hq H) as (z & Hz & Hr). exists z. split; [done|].
    cbn [run_stream]. by rewrite Hs.
  - apply (IH s1 x Hw1); [|done|done]. by rewrite Ht.
Qed.

(** The first event of [i] and what comes after. *)
Lemma run_events_split i evs s s' ev rest :
  wf_session s -> events_of i evs = ev :: rest -> run_events on_event evs s = Ok s' ->
  exists s1 s2 evs2, wf_session s1 /\ on_event ev s1 = Ok s2 /\ events_of i evs2 = rest /\
    view i s1 = view i s /\ run_events on_event evs2 s2 = Ok s'.
Proof.
  revert s. induction evs as [|e evs IH]; intros s Hw Hf; [done|]. cbn [run_events].
  intros H. apply bind_Ok_inv in H as (s1 & H1 & H). unfold events_of in Hf.
  rewrite filter_cons in Hf. destruct (on_event_touches e s s1 Hw H1) as [Hw1 Ht].
  destruct (decide (ev_id e = i)) as [He|Hne].
  - injection Hf as -> <-. by exists s, s1, evs.
  - destruct (IH s1 Hw1 Hf H) as (t1 & t2 & evs2 & A1 & A2 & A3 & A4 & A5).
    exists t1, t2, evs2. split_and!; try done. by rewrite A4, Ht.
Qed.
End Demultiplex.

(** ** The two sessions are of this kind *)
Section Server_events.
Context (moved : http_request -> http_request) (want_write : bool) (garbage : Z).
Implicit Types (s : session http_request).

Definition is_request (f : frame) : bool :=
  (frame_type f =? NGHTTP2_HEADERS) && (frame_cat f =? NGHTTP2_HCAT_REQUEST).

Definition server_quiet (ev : h2_event) : bool :=
  match ev with
  | ev_begin_headers f _ => negb (is_request f)
  | ev_stream_close _ => false
  | _ => true
  end.

Definition server_step (ev : h2_event) (x : h2_stream http_request) : outcome (h2_stream http_request) :=
  match ev with
  | ev_header f name value => if is_request f then Server.header_field name value x else mret x
  | ev_frame f => Server.frame_on_stream moved f x
  | ev_data _ d => Server.on_request_body d x
  | ev_begin_headers _ _ | ev_stream_close _ => mret x
  end.

Abbreviation server_on_event := (Server.on_event moved want_write garbage).

Lemma server_event ev s s' :
  wf_session s -> server_on_event ev s = Ok s' ->
  touches (ev_id ev) s s' /\
  (forall x, server_quiet ev = true -> view (ev_id ev) s = Some x ->
   exists y, view (ev_id ev) s' = Some y /\ server_step ev x = Ok y).
Proof.
  intros Hw.
  destruct ev as [f rv|f n v|f|i d|i]; cbn [ev_id Server.on_event server_quiet server_step]; intros H.
  - unfold Server.on_begin_headers_callback in H. unfold is_request.
    destruct (frame_type f =? NGHTTP2_HEADERS), (frame_cat f =? NGHTTP2_HCAT_REQUEST); cbn [negb orb andb] in *;
      try (injection H as <-; split; [by apply touches_refl|eauto]).
    apply fmap_Ok_inv in H as ([k s1] & H & ->). split; [by eapply create_stream_touches|done].
  - unfold Server.on_header_callback in H. apply bind_Ok_inv in H as (s1 & H & [= <-]).
    fold (is_request f) in H. destruct (is_request f); [|injection H as <-].
    + destruct (user_data s !! stream_id f) as [k|] eqn:Ek.
      * destruct (object_event _ _ _ want_write _ _ Hw Ek H) as [H1 H2]. split; [done|]. eauto.
      * injection H as <-. split; [by apply touches_write, touches_refl|].
        intros x _ Hx. destruct (view_pointer _ _ _ Hx). congruence.
    + split; [by apply touches_write, touches_refl|]. intros x _ Hx. exists x.
      destruct (write_if_views want_write s Hw) as [_ Hv]. by rewrite Hv.
  - unfold Server.on_frame_recv_callback in H. apply bind_Ok_inv in H as (s1 & H & [= <-]).
    destruct (user_data s !! stream_id f) as [k|] eqn:Ek.
    * destruct (object_event _ _ _ want_write _ _ Hw Ek H) as [H1 H2]. split; [done|]. eauto.
    * injection H as <-. split; [by apply touches_write, touches_refl|].
      intros x _ Hx. destruct (view_pointer _ _ _ Hx). congruence.
  - unfold Server.on_data_chunk_recv_callback in H. apply bind_Ok_inv in H as (k & Ek & H).
    apply bind_Ok_inv in H as (s1 & H & [= <-]).
    destruct (user_data s !! i) as [k'|] eqn:E; [|done]. injection Ek as ->.
    destruct (object_event _ _ _ want_write _ _ Hw E H) as [H1 H2]. split; [done|]. eauto.
  - unfold on_stream_close_callback in H. apply bind_Ok_inv in H as (? & _ & H).
    apply bind_Ok_inv in H as (k & Ek & H). apply bind_Ok_inv in H as (s1 & H & [= <-]).
    destruct (user_data s !! i) as [k'|] eqn:E; [|done]. injection Ek as ->.
    split; [|done]. apply touches_write. by eapply kill_stream_touches.
Qed.
End Server_events.

Section Client_events.
Context (moved : http_response -> http_response) (want_write : bool) (garbage : Z).
Implicit Types (s : session http_response).

Definition is_response_headers (f : frame) : bool :=
  (frame_type f =? NGHTTP2_HEADERS) && negb (frame_cat f =? NGHTTP2_HCAT_REQUEST).

Definition client_quiet (ev : h2_event) : bool :=
  match ev with ev_stream_close _ => false | _ => true end.

Definition client_step (ev : h2_event) (x : h2_stream http_response) : outcome (h2_stream http_response) :=
  match ev with
  | ev_header f name value => if is_response_headers f then Client.header_field name value x else mret x
  | ev_frame f => Client.frame_on_stream moved f x
  | ev_data _ d => Client.on_response_body d x
  | ev_begin_headers _ _ | ev_stream_close _ => mret x
  end.

Abbreviation client_on_event := (Client.on_event moved want_write garbage).

Lemma client_event ev s s' :
  wf_session s -> client_on_event ev s = Ok s' ->
  touches (ev_id ev) s s' /\
  (forall x, client_quiet ev = true -> view (ev_id ev) s = Some x ->
   exists y, view (ev_id ev) s' = Some y /\ client_step ev x = Ok y).
Proof.
  intros Hw.
  destruct ev as [f rv|f n v|f|i d|i]; cbn [ev_id Client.on_event client_quiet client_step]; intros H.
  - unfold Client.on_begin_headers_callback in H.
    destruct (user_data s !! stream_id f) as [k|] eqn:Ek.
    + injection H as <-. split; [by apply touches_refl|eauto].
    + apply fmap_Ok_inv in H as ([k s1] & H & ->). split; [by eapply create_stream_touches|].
      intros x _ Hx. destruct (view_pointer _ _ _ Hx). congruence.
  - unfold Client.on_header_callback in H. apply bind_Ok_inv in H as (s1 & H & [= <-]).
    fold (is_response_headers f) in H. destruct (is_response_headers f); [|injection H as <-].
    + destruct (user_data s !! stream_id f) as [k|] eqn:Ek.
      * destruct (object_event _ _ _ want_write _ _ Hw Ek H) as [H1 H2]. split; [done|]. eauto.
      * injection H as <-. split; [by apply touches_write, touches_refl|].
        intros x _ Hx. destruct (view_pointer _ _ _ Hx). congruence.
    + split; [by apply touches_write, touches_refl|]. intros x _ Hx. exists x.
      destruct (write_if_views want_write s Hw) as [_ Hv]. by rewrite Hv.
  - unfold Client.on_frame_recv_callback in H. apply bind_Ok_inv in H as (s1 & H & [= <-]).
    destruct (user_data s !! stream_id f) as [k|] eqn:Ek.
    * destruct (object_event _ _ _ want_write _ _ Hw Ek H) as [H1 H2]. split; [done|]. eauto.
    * injection H as <-. split; [by apply touches_write, touches_refl|].
      intros x _ Hx. destruct (view_pointer _ _ _ Hx). congruence.
  - unfold Client.on_data_chunk_recv_callback in H. apply bind_Ok_inv in H as (s1 & H & [= <-]).
    destruct (user_data s !! i) as [k|] eqn:Ek.
    * destruct (object_event _ _ _ want_write _ _ Hw Ek H) as [H1 H2]. split; [done|]. eauto.
    * injection H as <-. split; [by apply touches_write, touches_refl|].
      intros x _ Hx. destruct (view_pointer _ _ _ Hx). congruence.
  - unfold on_stream_close_callback in H. apply bind_Ok_inv in H as (? & _ & H).
    apply bind_Ok_inv in H as (k & Ek & H). apply bind_Ok_inv in H as (s1 & H & [= <-]).
    destruct (user_data s !! i) as [k'|] eqn:E; [|done]. injection Ek as ->.
    split; [|done]. apply touches_write. by eapply kill_stream_touches.
Qed.
End Client_events.

(** ** Messages, from their events *)

(** The fields of a header block, in order. *)
Fixpoint header_fields {A} (field : string -> string -> A -> outcome A) (hs : list (string * string))
    (x : A) : outcome A :=
  match hs with [] => mret x | h :: hs => x ← field h.1 h.2 x; header_fields field hs x end.

Definition header_events (f : frame) (hs : list (string * string)) : list h2_event :=
  (fun h => ev_header f h.1 h.2) <$> hs.

Definition request_frame (i : Z) (flags : Z) : frame :=
  {| frame_type := NGHTTP2_HEADERS; frame_flags := flags; stream_id := i; frame_cat := NGHTTP2_HCAT_REQUEST |}.
Definition data_frame (i : Z) (flags : Z) : frame :=
  {| frame_type := NGHTTP2_DATA; frame_flags := flags; stream_id := i; frame_cat := 0 |}.
Definition response_frame (i : Z) (flags cat : Z) : frame :=
  {| frame_type := NGHTTP2_HEADERS; frame_flags := flags; stream_id := i; frame_cat := cat |}.

(** The fields a request or a response has before its header block ended. *)
Definition receiving {M} (ts : list (trigger M)) (sent : bool) (x : h2_stream M) : Prop :=
  told x = ts /\ _headers_sent x = sent /\ receiver x = true.

Lemma server_field_receiving name value x y :
  receiving [] false x -> Server.header_field name value x = Ok y -> receiving [] false y.
Proof.
  intros (H1 & H2 & H3). unfold Server.header_field, Server.add_header. rewrite H2. cbn [negb].
  repeat case_bool_decide; try (intros [= <-]; by split_and!);
    intros E; apply bind_Ok_inv in E as (r & _ & [= <-]); by split_and!.
Qed.

Lemma client_field_receiving name value x y :
  receiving [] false x -> Client.header_field name value x = Ok y -> receiving [] false y.
Proof.
  intros (H1 & H2 & H3). unfold Client.header_field, Client.add_header. rewrite H2. cbn [negb].
  repeat case_bool_decide; intros E; apply bind_Ok_inv in E as (r & _ & [= <-]); by split_and!.
Qed.

Lemma header_fields_inv {A} (field : string -> string -> A -> outcome A) (P : A -> Prop) hs x y :
  (forall n v x y, P x -> field n v x = Ok y -> P y) -> P x -> header_fields field hs x = Ok y -> P y.
Proof.
  intros HP. revert x. induction hs as [|h hs IH]; intros x Hx; cbn [header_fields]; [by intros [= <-]|].
  intros H. apply bind_Ok_inv in H as (z & H1 & H). by eapply IH, H; eapply HP, H1.
Qed.

Lemma run_header_events {A} (step : h2_event -> A -> outcome A) field f hs x :
  (forall n v x, step (ev_header f n v) x = field n v x) ->
  run_stream step (header_events f hs) x = header_fields field hs x.
Proof.
  intros Hs. revert x. induction hs as [|h hs IH]; intros x; cbn; [done|]. rewrite Hs.
  destruct (field h.1 h.2 x); cbn; [apply IH|done].
Qed.

Lemma call_receiver_told {M} (t : trigger M) x y :
  call_receiver t x = Ok y ->
  told y = told x ++ [t] /\ _headers_sent y = _headers_sent x /\ receiver y = receiver x /\
  incoming y = incoming x.
Proof. unfold call_receiver. intros H. apply bind_Ok_inv in H as (? & _ & [= <-]). done. Qed.

(** The content of a message: a chunk ([Some]), or the end of a DATA frame that
    does not end the stream ([None]). *)
Definition body_event (i : Z) (b : option string) : h2_event :=
  match b with Some d => ev_data i d | None => ev_frame (data_frame i 0) end.

Definition chunks {M} (bs : list (option string)) : list (trigger M) :=
  (fun d => t_body d) <$> omap id bs.

Lemma run_body_events {M} (step : h2_event -> h2_stream M -> outcome (h2_stream M)) i bs x y :
  (forall d x, step (ev_data i d) x = call_receiver (t_body d) x) ->
  (forall x, step (ev_frame (data_frame i 0)) x = mret x) ->
  run_stream step (body_event i <$> bs) x = Ok y ->
  told y = told x ++ chunks bs /\ _headers_sent y = _headers_sent x /\
  receiver y = receiver x /\ incoming y = incoming x.
Proof.
  intros Hd Hf. revert x. induction bs as [|b bs IH]; intros x; cbn [fmap list_fmap run_stream].
  { intros [= <-]. by rewrite app_nil_r. }
  destruct b as [d|]; cbn [body_event]; rewrite ?Hd, ?Hf; intros H.
  - apply bind_Ok_inv in H as (z & H1 & H).
    apply call_receiver_told in H1 as (E1 & E2 & E3 & E4).
    destruct (IH z H) as (F1 & F2 & F3 & F4). rewrite F1, E1, <- app_assoc, F2, E2, F3, E3, F4, E4. done.
  - apply IH in H. exact H.
Qed.

(** What nghttp2 reports of the request [i]; without content the header block
    ends the stream. *)
Definition request_events (i : Z) (hs : list (string * string)) (content : option (list (option string)))
    : list h2_event :=
  match content with
  | None =>
      ev_begin_headers (request_frame i 5) 0 ::
      header_events (request_frame i 5) hs ++ [ev_frame (request_frame i 5)]
  | Some bs =>
      ev_begin_headers (request_frame i 4) 0 ::
      header_events (request_frame i 4) hs ++ [ev_frame (request_frame i 4)] ++
      (body_event i <$> bs) ++ [ev_frame (data_frame i 1)]
  end.

(** The request a header block stands for. *)
Definition request_of (hs : list (string * string)) : outcome http_request :=
  r ← Server.initial_request;
  x ← header_fields Server.header_field hs (fresh_stream 0 0 r);
  mret (incoming x).

(** Fields read and write the message only. *)
Definition same_request (x y : h2_stream http_request) : Prop :=
  incoming x = incoming y /\ _headers_sent x = false /\ _headers_sent y = false.

Lemma field_same_request name value x y x' :
  same_request x y -> Server.header_field name value x = Ok x' ->
  exists y', Server.header_field name value y = Ok y' /\ same_request x' y'.
Proof.
  unfold same_request, Server.header_field, Server.add_header. intros (H1 & H2 & H3).
  rewrite H1, H2, H3. cbn [negb].
  repeat case_bool_decide; try (intros [= <-]; by eexists);
    (intros E; apply bind_Ok_inv in E as (r & -> & [= <-]); cbn; by eexists).
Qed.

Lemma request_of_block st i r0 hs x :
  Server.initial_request = Ok r0 ->
  header_fields Server.header_field hs (fresh_stream st i r0) = Ok x -> request_of hs = Ok (incoming x).
Proof.
  unfold request_of. intros ->. cbn [mbind outcome_bind].
  assert (G : forall hs x y x', same_request x y -> header_fields Server.header_field hs x = Ok x' ->
    exists y', header_fields Server.header_field hs y = Ok y' /\ same_request x' y').
  { clear. induction hs as [|h hs IH]; intros x y x' Hs; cbn [header_fields].
    - intros [= <-]. eauto.
    - intros H. apply bind_Ok_inv in H as (z & H1 & H).
      destruct (field_same_request _ _ _ y _ Hs H1) as (y1 & E1 & Hs1). rewrite E1. cbn. by eapply IH. }
  intros H. destruct (G hs (fresh_stream st i r0) (fresh_stream 0 0 r0) x (conj eq_refl (conj eq_refl eq_refl)) H) as (y & -> & E & _).
  cbn. by rewrite E.
Qed.

(** What the frames do to a stream that is receiving. *)
Lemma server_frames moved i (x y : h2_stream http_request) :
  (Server.frame_on_stream moved (request_frame i 4) x = Ok y ->
    told y = told x ++ [t_headers (incoming x)] /\ receiver y = receiver x) /\
  (Server.frame_on_stream moved (request_frame i 5) x = Ok y ->
    told y = told x ++ [t_headers (incoming x); t_finished] /\ receiver y = false) /\
  (Server.frame_on_stream moved (data_frame i 1) x = Ok y ->
    told y = told x ++ [t_finished] /\ receiver y = false).
Proof.
  unfold Server.frame_on_stream, Server.on_request_header_complete, Server.on_request_finished,
    call_receiver.
  destruct (receiver x) eqn:E; [|split_and!; cbn; rewrite ?E; intros; discriminate].
  split_and!; cbn; rewrite ?E; intros [= <-]; cbn; rewrite <- ?app_assoc; by rewrite ?E.
Qed.

(** The stream-level run of a request. *)
Lemma run_request moved i hs content x y :
  receiving [] false x ->
  run_stream (server_step moved) (tail (request_events i hs content)) x = Ok y ->
  exists z, header_fields Server.header_field hs x = Ok z /\
    told y = t_headers (incoming z) :: chunks (default [] content) ++ [t_finished] /\
    receiver y = false.
Proof.
  intros Hx. destruct content as [bs|]; cbn [request_events tail default]; rewrite run_stream_app;
    intros H; apply bind_Ok_inv in H as (z & H1 & H);
    rewrite (run_header_events _ Server.header_field) in H1 by done; exists z; (split; [done|]).
  all: destruct (header_fields_inv _ _ hs x z (server_field_receiving) Hx H1) as (T1 & T2 & T3).
  - rewrite run_stream_app in H. apply bind_Ok_inv in H as (z1 & H2 & H).
    rewrite run_stream_app in H. apply bind_Ok_inv in H as (z2 & H3 & H).
    apply bind_Ok_inv in H2 as (z1' & H2 & [= ->]). apply bind_Ok_inv in H as (z3 & H & [= ->]).
    apply (server_frames moved i) in H2 as [A1 A2].
    destruct (run_body_events (server_step moved) i bs z1 z2 (fun _ _ => eq_refl) (fun _ => eq_refl) H3)
      as (B1 & _).
    apply (server_frames moved i) in H as [C1 C2]. rewrite C1, B1, A1, T1. done.
  - apply bind_Ok_inv in H as (z3 & H & [= ->]). apply (server_frames moved i) in H as [C1 C2].
    by rewrite C1, T1.
Qed.

(** ** Properties *)

(** C22: Requests on one connection do not mix.  Whatever nghttp2 reports in
    between of other streams (requests, content, ends, streams that are closed,
    frames without a stream), the object of the user of a request is told of
    exactly this: the request its own header block stands for, then the chunks
    of its own content in order, then its end; and then it is let go. *)
Theorem requests_demultiplexed (moved : http_request -> http_request) (want_write : bool)
    (garbage i : Z) (hs : list (string * string)) (content : option (list (option string)))
    (evs : list h2_event) (s s' : session http_request) :
  wf_session s -> 0 <= i -> events_of i evs = request_events i hs content ->
  run_events (Server.on_event moved want_write garbage) evs s = Ok s' ->
  exists r x, request_of hs = Ok r /\ view i s' = Some x /\
    told x = t_headers r :: chunks (default [] content) ++ [t_finished] /\ receiver x = false.
Proof.
  intros Hw Hi He H.
  pose proof (fun ev s s' Hw H => proj1 (server_event moved want_write garbage ev s s' Hw H)) as T.
  assert (S : forall ev s s' x, wf_session s -> server_quiet ev = true -> view (ev_id ev) s = Some x ->
    Server.on_event moved want_write garbage ev s = Ok s' ->
    exists y, view (ev_id ev) s' = Some y /\ server_step moved ev x = Ok y).
  { intros ev t t' x Ht Hq Hv Ho. by eapply (server_event moved want_write garbage ev t t' Ht Ho). }
  destruct (request_events i hs content) as [|ev rest] eqn:Er; [by destruct content|].
  destruct (run_events_split _ T i evs s s' ev rest Hw He H) as (s1 & s2 & evs2 & W1 & H1 & He2 & _ & H2).
  assert (Hev : exists fl, ev = ev_begin_headers (request_frame i fl) 0)
    by (destruct content; injection Er as <- _; eauto).
  destruct Hev as (fl & ->). pose proof (T _ _ _ W1 H1) as [W2 _].
  cbn in H1. apply fmap_Ok_inv in H1 as ([k s3] & H1 & ->).
  destruct (create_stream_touches _ _ _ _ _ _ _ _ W1 H1) as [_ C].
  destruct (C Hi eq_refl) as (r0 & Er0 & Hv). cbn [snd] in *.
  destruct (run_events_view _ (server_step moved) server_quiet T S i evs2 s3 s' _ W2 Hv) as (y & Hy & Hr);
    [|done|].
  { rewrite He2. replace rest with (tail (request_events i hs content)) by by rewrite Er.
    assert (G : forall f l, forallb server_quiet (header_events f l) = true)
      by (intros f l; induction l as [|h l IH]; [done|exact IH]).
    assert (G2 : forall l, forallb server_quiet (body_event i <$> l) = true)
      by (intros l; induction l as [|[d|] l IH]; [done|exact IH|exact IH]).
    destruct content; cbn [request_events tail]; rewrite ?forallb_app, ?G, ?G2; done. }
  rewrite He2 in Hr. replace rest with (tail (request_events i hs content)) in Hr by by rewrite Er.
  destruct (run_request moved i hs content (fresh_stream garbage i r0) y (conj eq_refl (conj eq_refl eq_refl)) Hr) as (z & Hz & Ht & Hrv).
  exists (incoming z), y. split; [by eapply request_of_block|done].
Qed.

Lemma wf_new_session {M} : wf_session (new_session (M := M)).
Proof. split; by intros ?. Qed.

Definition get_one : list (string * string) :=
  [(":method", "GET"); (":scheme", "https"); (":path", "/a"); (":authority", "x.org"); ("accept", "*/*")].
Definition post_three : list (string * string) :=
  [(":method", "POST"); (":scheme", "https"); (":path", "/b"); (":authority", "x.org")].

(** Two requests whose frames alternate. *)
Definition interleaved : list h2_event :=
  let p := request_events 3 post_three (Some [Some "one"; None; Some "two"]) in
  take 3 p ++ request_events 1 get_one None ++ drop 3 p.

Lemma requests_demultiplexed_witness :
  match run_events (Server.on_event id true 0) interleaved (new_session (M := http_request)) with
  | Ok s' => exists r x, request_of post_three = Ok r /\ view 3 s' = Some x /\
      told x = [t_headers r; t_body "one"; t_body "two"; t_finished] /\ _path r = "/b"
  | Crash _ => False
  end.
Proof.
  destruct (run_events (Server.on_event id true 0) interleaved new_session) as [s'|] eqn:E;
    [|by vm_compute in E].
  destruct (requests_demultiplexed id true 0 3 post_three (Some [Some "one"; None; Some "two"])
    interleaved new_session s') as (r & x & H1 & H2 & H3 & _);
    [apply wf_new_session|lia|by vm_compute|exact E|].
  exists r, x. split; [exact H1|]. split; [exact H2|]. split; [exact H3|].
  vm_compute in H1. injection H1 as <-. by vm_compute.
Defined.

Lemma scan_absent d l : d ∉ l -> Server.scan d l = (l, []).
Proof.
  induction l as [|c l IH]; [done|]. intros [H1 H2]%not_elem_of_cons. cbn [Server.scan].
  destruct (Ascii.eqb_spec c d); [congruence|]. by rewrite IH.
Qed.

Lemma scan_app d l r : d ∉ l -> Server.scan d (l ++ d :: r) = (l, d :: r).
Proof.
  induction l as [|c l IH]; cbn [Server.scan app].
  - intros _. by rewrite Ascii.eqb_refl.
  - intros [H1 H2]%not_elem_of_cons. destruct (Ascii.eqb_spec c d); [congruence|]. by rewrite IH.
Qed.

Lemma empty_cons c s : empty (String c s) = false.
Proof. done. Qed.

(** The [:path] of a request.  Without a question mark all of it is the
    path, a fragment included.  With one, the query keeps its question mark and
    the fragment begins at the question mark too, so that the request line
    written for the next server asks for another target:
    ["/p?q#f"] becomes ["/p??q#?q#f"]. *)
Theorem path_of_request (p q f name : string) (r : http_request) :
  free_of ["?"%char] p = true -> free_of ["#"%char] q = true -> p <> "" ->
  Server.split_path p r = path p r /\
  let r' := Server.split_path (p +:+ "?" +:+ q +:+ "#" +:+ f) r in
  _path r' = p /\ _query r' = "?" +:+ q /\ _fragment r' = "?" +:+ q +:+ "#" +:+ f /\
  start_line name r' =
    name +:+ " " +:+ p +:+ "?" +:+ ("?" +:+ q) +:+ "#" +:+ ("?" +:+ q +:+ "#" +:+ f) +:+ " " +:+
      protocol_string (base r) +:+ crlf.
Proof.
  intros Hp Hq Hne.
  assert (Hp' : "?"%char ∉ chars p) by (eapply free_of_elem; [done|by left]).
  assert (Hq' : "#"%char ∉ "?"%char :: chars q).
  { apply not_elem_of_cons. split; [done|]. eapply free_of_elem; [done|by left]. }
  split; [unfold Server.split_path; rewrite scan_absent by done; by rewrite of_chars_chars|].
  cbv zeta. unfold Server.split_path. rewrite chars_app.
  change (chars ("?" +:+ q +:+ "#" +:+ f)) with ("?"%char :: chars (q +:+ "#" +:+ f)).
  rewrite scan_app by done. cbv zeta.
  assert (E : "?"%char :: chars (q +:+ "#" +:+ f) = (("?"%char :: chars q) ++ "#"%char :: chars f)%list)
    by by rewrite chars_app.
  rewrite E at 1. rewrite E at 2. rewrite E. rewrite (scan_app "#"%char) by done. cbn [fst].
  rewrite of_chars_app, of_chars_chars.
  change (of_chars ("?"%char :: chars q)) with ("?" +:+ of_chars (chars q)).
  change (of_chars ("#"%char :: chars f)) with ("#" +:+ of_chars (chars f)).
  rewrite !of_chars_chars.
  change (empty ("?" +:+ q)) with false. change (empty (("?" +:+ q) +:+ "#" +:+ f)) with false.
  cbn [negb]. split; [done|]. split; [done|]. split; [done|].
  rewrite start_line_target. unfold target. cbn [_path _query _fragment fragment query path base].
  assert (Ep : empty p = false) by by apply bool_decide_eq_false. rewrite Ep.
  change (empty ("?" +:+ q)) with false. change (empty (("?" +:+ q) +:+ "#" +:+ f)) with false.
  by rewrite !string_app_assoc.
Qed.

Lemma path_of_request_witness :
  let r' := Server.split_path "/p?q=1#f" (match Server.initial_request with Ok r => r | Crash _ =>
    {| base := blank_data http_request_type; _ssl := false; _method := 0; _schema := ""; _urihost := "";
       _port := ""; _path := ""; _query := ""; _fragment := ""; _userinfo := ""; _params := ∅ |} end) in
  _path r' = "/p" /\ start_line "GET" r' = "GET /p??q=1#?q=1#f HTTP/1.1" +:+ crlf.
Proof.
  cbv zeta. set (r := match Server.initial_request with Ok r => r | Crash _ => _ end).
  destruct (path_of_request "/p" "q=1" "f" "GET" r) as (_ & H1 & _ & _ & H2); [by vm_compute..|done|].
  split; [exact H1|]. etrans; [exact H2|]. by vm_compute.
Defined.

(** C40: What [on_read] does with the answer of [nghttp2_session_mem_recv].  The
    whole input is taken, or the session asks to be stopped; but on
    [NGHTTP2_ERR_FLOODED] and [NGHTTP2_ERR_CALLBACK_FAILURE] it submits a GOAWAY
    and then asserts that all was read, with the negative answer: the process is
    aborted, whatever the GOAWAY did. *)
Theorem on_read_outcome {M} (on_event : h2_event -> session M -> outcome (session M))
    (evs : list h2_event) (rv len r : Z) (want_write : bool) (s s1 : session M) :
  0 <= len < 2 ^ 31 -> - 2 ^ 31 <= rv < 2 ^ 31 -> run_events on_event evs s = Ok s1 ->
  on_read on_event evs rv len r want_write s =
    if rv <? 0 then
      if (rv =? NGHTTP2_ERR_FLOODED) || (rv =? NGHTTP2_ERR_CALLBACK_FAILURE)
      then Crash (if r <? 0 then Terminated else AssertFailed)
      else Ok (false, s1)
    else if rv =? len then Ok (true, write_if want_write s1)
    else Crash AssertFailed.
Proof.
  intros Hl Hrv H. unfold on_read. rewrite H. cbn [mbind outcome_bind].
  destruct (Z.ltb_spec rv 0) as [Hn|Hn]; cbn [andb].
  - destruct ((rv =? NGHTTP2_ERR_FLOODED) || (rv =? NGHTTP2_ERR_CALLBACK_FAILURE)); [|done].
    cbn [negb]. unfold go_away. cbv zeta. destruct (r <? 0); [done|]. cbn [mbind outcome_bind mret].
    unfold cassert, wrap. destruct (Z.eqb_spec (rv mod 2 ^ 32) len) as [E|E]; [|done].
    change (2 ^ 32) with 4294967296 in E. change (2 ^ 31) with 2147483648 in *.
    zdiv_lia.
  - cbn [mbind outcome_bind mret outcome_ret]. rewrite wrap_id by (unfold in_range; lia).
    by destruct (rv =? len).
Qed.

Lemma on_read_outcome_witness :
  on_read (Server.on_event id false 0) interleaved NGHTTP2_ERR_FLOODED 100 0 true new_session =
    Crash AssertFailed /\
  is_ok (on_read (Server.on_event id false 0) interleaved 100 100 0 true new_session) = true.
Proof.
  destruct (run_events (Server.on_event id false 0) interleaved new_session) as [s1|] eqn:E;
    [|by vm_compute in E].
  assert (P := on_read_outcome (Server.on_event id false 0) interleaved NGHTTP2_ERR_FLOODED 100 0 true
    new_session s1 ltac:(lia) ltac:(unfold NGHTTP2_ERR_FLOODED; lia) E).
  assert (Q := on_read_outcome (Server.on_event id false 0) interleaved 100 100 0 true
    new_session s1 ltac:(lia) ltac:(lia) E).
  split; [exact P|]. rewrite Q. reflexivity.
Defined.

(** The stream-level run of a response that ends with trailers. *)
Definition trailers_only (ts : list (string * string)) : bool :=
  forallb (fun h => negb (bool_decide (h.1 = ":authority") || bool_decide (h.1 = ":status"))) ts.

Definition response_events (i : Z) (hs : list (string * string)) (bs : list (option string))
    (ts : list (string * string)) : list h2_event :=
  let f := response_frame i 4 NGHTTP2_HCAT_RESPONSE in
  let t := response_frame i 5 NGHTTP2_HCAT_HEADERS in
  ev_begin_headers f 0 :: header_events f hs ++ [ev_frame f] ++ (body_event i <$> bs) ++
  [ev_begin_headers t 0] ++ header_events t ts ++ [ev_frame t].

Definition trailer_calls {M} (ts : list (string * string)) : list (trigger M) :=
  (fun h => t_trailer h.1 h.2) <$> ts.

Lemma run_trailers ts x y :
  trailers_only ts = true -> _headers_sent x = true ->
  header_fields Client.header_field ts x = Ok y ->
  told y = told x ++ trailer_calls ts /\ incoming y = incoming x.
Proof.
  revert x. induction ts as [|h ts IH]; intros x Hs Hx; cbn [header_fields trailers_only forallb] in *.
  { intros [= <-]. by rewrite app_nil_r. }
  apply andb_prop in Hs as [Hh Hs]. apply negb_true_iff, orb_false_iff in Hh as [Ha Hb].
  intros H. apply bind_Ok_inv in H as (z & H1 & H). unfold Client.header_field, Client.add_header in H1.
  rewrite Ha, Hb, Hx in H1. cbn [negb] in H1. apply call_receiver_told in H1 as (E1 & E2 & E3 & E4).
  destruct (IH z Hs ltac:(congruence) H) as (F1 & F2).
  rewrite F1, E1, <- app_assoc. split; [done|congruence].
Qed.

Lemma client_frames moved i cat (x y : h2_stream http_response) :
  negb (cat =? NGHTTP2_HCAT_REQUEST) = true ->
  (Client.frame_on_stream moved (response_frame i 4 cat) x = Ok y ->
    told y = told x ++ [t_headers (incoming x)] /\ _headers_sent y = true /\ incoming y = moved (incoming x)) /\
  (Client.frame_on_stream moved (response_frame i 5 cat) x = Ok y ->
    told y = told x ++ [t_headers (incoming x); t_finished] /\ receiver y = false).
Proof.
  intros Hc. unfold Client.frame_on_stream, Client.on_response_header_complete,
    Client.on_response_finished, call_receiver. cbn [frame_cat response_frame frame_type]. rewrite Hc.
  destruct (receiver x) eqn:E; [|split_and!; cbn; rewrite ?E; intros; discriminate].
  split_and!; cbn; rewrite ?E; intros [= <-]; cbn; rewrite <- ?app_assoc; by rewrite ?E.
Qed.

Lemma run_response moved i hs bs ts x y :
  receiving [] false x -> trailers_only ts = true ->
  run_stream (client_step moved) (response_events i hs bs ts) x = Ok y ->
  exists z, header_fields Client.header_field hs x = Ok z /\
    told y = t_headers (incoming z) :: chunks bs ++ trailer_calls ts ++
             [t_headers (moved (incoming z)); t_finished].
Proof.
  intros Hx Hts H. unfold response_events in H. cbv zeta in H. cbn [run_stream client_step] in H.
  apply bind_Ok_inv in H as (x1 & [= <-] & H). rewrite run_stream_app in H.
  apply bind_Ok_inv in H as (z & H1 & H).
  rewrite (run_header_events _ Client.header_field) in H1 by done. exists z. split; [done|].
  destruct (header_fields_inv _ _ hs x z client_field_receiving Hx H1) as (T1 & T2 & T3).
  rewrite run_stream_app in H. apply bind_Ok_inv in H as (z1 & H2 & H).
  apply bind_Ok_inv in H2 as (z1' & H2 & [= ->]).
  apply (client_frames moved i _) in H2 as (A1 & A2 & A3); [|done].
  rewrite run_stream_app in H. apply bind_Ok_inv in H as (z2 & H3 & H).
  destruct (run_body_events (client_step moved) i bs z1 z2 (fun _ _ => eq_refl) (fun _ => eq_refl) H3)
    as (B1 & B2 & _ & B4).
  rewrite run_stream_app in H. apply bind_Ok_inv in H as (z3 & H4 & H).
  apply bind_Ok_inv in H4 as (z3' & H4 & [= ->]). injection H4 as <-.
  rewrite run_stream_app in H. apply bind_Ok_inv in H as (z4 & H5 & H).
  rewrite (run_header_events _ Client.header_field) in H5 by done.
  destruct (run_trailers ts z2 z4 Hts ltac:(congruence) H5) as (C1 & C2).
  apply bind_Ok_inv in H as (z5 & H & [= ->]).
  apply (client_frames moved i _) in H as (D1 & _); [|done].
  rewrite D1, C2, C1, B4, B1, A3, A1, T1, <- !app_assoc. done.
Qed.

(** A response with trailers, at the client.  The user is told of the
    headers, the chunks and the trailers in their order, and then of headers a
    second time, with the message that was moved away with the first ones:
    [on_frame_recv_callback] takes every HEADERS frame that is no request for
    the headers of the response. *)
Theorem trailers_repeat_headers (moved : http_response -> http_response) (want_write : bool)
    (garbage i : Z) (hs ts : list (string * string)) (bs : list (option string))
    (evs : list h2_event) (s s' : session http_response) (x0 : h2_stream http_response) :
  wf_session s -> view i s = Some x0 -> receiving [] false x0 -> trailers_only ts = true ->
  events_of i evs = response_events i hs bs ts ->
  run_events (Client.on_event moved want_write garbage) evs s = Ok s' ->
  exists z x, header_fields Client.header_field hs x0 = Ok z /\ view i s' = Some x /\
    told x = t_headers (incoming z) :: chunks bs ++ trailer_calls ts ++
             [t_headers (moved (incoming z)); t_finished].
Proof.
  intros Hw Hv Hx Hts He H.
  pose proof (fun ev s s' Hw H => proj1 (client_event moved want_write garbage ev s s' Hw H)) as T.
  assert (S : forall ev s s' x, wf_session s -> client_quiet ev = true -> view (ev_id ev) s = Some x ->
    Client.on_event moved want_write garbage ev s = Ok s' ->
    exists y, view (ev_id ev) s' = Some y /\ client_step moved ev x = Ok y).
  { intros ev t t' x Ht Hq Hy Ho. by eapply (client_event moved want_write garbage ev t t' Ht Ho). }
  destruct (run_events_view _ (client_step moved) client_quiet T S i evs s s' x0 Hw Hv) as (y & Hy & Hr);
    [|done|].
  { rewrite He. unfold response_events. cbv zeta.
    assert (G : forall f l, forallb client_quiet (header_events f l) = true)
      by (intros f l; induction l as [|h l IH]; [done|exact IH]).
    assert (G2 : forall l, forallb client_quiet (body_event i <$> l) = true)
      by (intros l; induction l as [|[d|] l IH]; [done|exact IH|exact IH]).
    cbn [forallb client_quiet andb]. rewrite ?forallb_app, ?G, ?G2. done. }
  rewrite He in Hr. destruct (run_response moved i hs bs ts x0 y Hx Hts Hr) as (z & Hz & Ht).
  by exists z, y.
Qed.

(** A request under way on stream 1. *)
Definition waiting_client : outcome (session http_response) :=
  '(k, s) ← Client.get_user_handlers 0 new_session;
  Client.submitted k 1 s.

Definition trailer_response : list h2_event :=
  response_events 1 [(":status", "200"); ("server", "x")] [Some "hello"] [("digest", "y")].

Lemma trailers_repeat_headers_witness :
  match waiting_client with
  | Ok s =>
      match view 1 s, run_events (Client.on_event id true 0) trailer_response s with
      | Some x0, Ok s' => exists z x, view 1 s' = Some x /\
          header_fields Client.header_field [(":status", "200"); ("server", "x")] x0 = Ok z /\
          told x = [t_headers (incoming z); t_body "hello"; t_trailer "digest" "y";
                    t_headers (incoming z); t_finished]
      | _, _ => False
      end
  | Crash _ => False
  end.
Proof.
  destruct waiting_client as [s|] eqn:Es; [|by vm_compute in Es].
  assert (Hw : wf_session s).
  { assert (Eu : user_data s = {[1 := O]} /\ next_object s = 1%nat)
      by (vm_compute in Es; injection Es as <-; by vm_compute).
    destruct Eu as [Eu En]. split; rewrite Eu, ?En.
    - intros i k [<- <-]%lookup_singleton_Some. lia.
    - intros i j k [<- <-]%lookup_singleton_Some [<- _]%lookup_singleton_Some. done. }
  destruct (view 1 s) as [x0|] eqn:Ev; [|exfalso; vm_compute in Es; injection Es as <-; by vm_compute in Ev].
  assert (Hx : receiving [] false x0)
    by (vm_compute in Es; injection Es as <-; vm_compute in Ev; injection Ev as <-; by split).
  destruct (run_events (Client.on_event id true 0) trailer_response s) as [s'|] eqn:Er;
    [|exfalso; vm_compute in Es; injection Es as <-; by vm_compute in Er].
  destruct (trailers_repeat_headers id true 0 1 [(":status", "200"); ("server", "x")] [("digest", "y")]
    [Some "hello"] trailer_response s s' x0) as (z & x & H1 & H2 & H3); try assumption;
    [reflexivity|reflexivity|].
  exists z, x. split; [exact H2|]. split; [exact H1|exact H3].
Defined.
