(* ===== verification/UrlParser.v ===== *)
(** * The URL parser (src/src/http_parser/http_parser.c)

    [http_parser_parse_url] with its character automaton [parse_url_char] and
    the automaton of the host part, as compiled by default (strict mode).  The
    states are those of [enum state] that concern URLs. *)

From S2P Require Import Prelude CppStd.

(** ** Character classes *)
Definition LOWER (c : ascii) : Z := Z.lor (byte_of c) 32.
Definition is_alpha (c : ascii) : bool := (97 <=? LOWER c) && (LOWER c <=? 122).
Definition is_num (c : ascii) : bool := in_class 48 57 c.
Definition is_alphanum (c : ascii) : bool := is_alpha c || is_num c.
Definition is_hex (c : ascii) : bool := is_num c || ((97 <=? LOWER c) && (LOWER c <=? 102)).
Definition one_of (cs : string) (c : ascii) : bool := existsb (Ascii.eqb c) (chars cs).
Definition is_mark : ascii -> bool := one_of "-_.!~*'()".
Definition is_userinfo_char (c : ascii) : bool := is_alphanum c || is_mark c || one_of "%;:&=+$," c.
Definition is_host_char (c : ascii) : bool := is_alphanum c || one_of ".-" c.

(** The bit table, eight characters a byte. *)
Definition normal_url_char : list Z :=
  [0; 0; 0; 0; 246; 255; 255; 127; 255; 255; 255; 255; 255; 255; 255; 127;
   0; 0; 0; 0; 0; 0; 0; 0; 0; 0; 0; 0; 0; 0; 0; 0].

Definition bit_at (a : list Z) (i : Z) : bool :=
  Z.testbit (default 0 (a !! Z.to_nat (Z.shiftr i 3))) (Z.land i 7).

Definition is_url_char (c : ascii) : bool := bit_at normal_url_char (byte_of c).

(** ** The automaton of a URL *)
Inductive state :=
| s_dead
| s_req_spaces_before_url
| s_req_schema
| s_req_schema_slash
| s_req_schema_slash_slash
| s_req_server_start
| s_req_server
| s_req_server_with_at
| s_req_path
| s_req_query_string_start
| s_req_query_string
| s_req_fragment_start
| s_req_fragment.

#[export] Instance state_eq_dec : EqDecision state.
Proof. solve_decision. Defined.

Definition server_char (ch : ascii) : state :=
  if Ascii.eqb ch "/"%char then s_req_path
  else if Ascii.eqb ch "?"%char then s_req_query_string_start
  else if Ascii.eqb ch "@"%char then s_req_server_with_at
  else if is_userinfo_char ch || one_of "[]" ch then s_req_server
  else s_dead.

Definition parse_url_char (s : state) (ch : ascii) : state :=
  if one_of " " ch || (byte_of ch =? 13) || (byte_of ch =? 10) then s_dead
  else if (byte_of ch =? 9) || (byte_of ch =? 12) then s_dead
  else
    match s with
    | s_req_spaces_before_url =>
        if one_of "/*" ch then s_req_path else if is_alpha ch then s_req_schema else s_dead
    | s_req_schema =>
        if is_alpha ch then s else if Ascii.eqb ch ":"%char then s_req_schema_slash else s_dead
    | s_req_schema_slash => if Ascii.eqb ch "/"%char then s_req_schema_slash_slash else s_dead
    | s_req_schema_slash_slash => if Ascii.eqb ch "/"%char then s_req_server_start else s_dead
    | s_req_server_with_at => if Ascii.eqb ch "@"%char then s_dead else server_char ch
    | s_req_server_start | s_req_server => server_char ch
    | s_req_path =>
        if is_url_char ch then s
        else if Ascii.eqb ch "?"%char then s_req_query_string_start
        else if Ascii.eqb ch "#"%char then s_req_fragment_start
        else s_dead
    | s_req_query_string_start | s_req_query_string =>
        if is_url_char ch then s_req_query_string
        else if Ascii.eqb ch "?"%char then s_req_query_string
        else if Ascii.eqb ch "#"%char then s_req_fragment_start
        else s_dead
    | s_req_fragment_start =>
        if is_url_char ch then s_req_fragment
        else if Ascii.eqb ch "?"%char then s_req_fragment
        else if Ascii.eqb ch "#"%char then s
        else s_dead
    | s_req_fragment =>
        if is_url_char ch then s
        else if one_of "?#" ch then s
        else s_dead
    | s_dead => s_dead
    end.

(** ** [struct http_parser_url] *)
Definition UF_SCHEMA : nat := 0.
Definition UF_HOST : nat := 1.
Definition UF_PORT : nat := 2.
Definition UF_PATH : nat := 3.
Definition UF_QUERY : nat := 4.
Definition UF_FRAGMENT : nat := 5.
Definition UF_USERINFO : nat := 6.
Definition UF_MAX : nat := 7.

(** [field_data] holds an offset and a length, 16 bits each. *)
Record http_parser_url := {
  field_set : Z;
  port : Z;
  field_data : list (Z * Z) }.

Definition http_parser_url_init : http_parser_url :=
  {| field_set := 0; port := 0; field_data := replicate UF_MAX (0, 0) |}.

Definition field (u : http_parser_url) (f : nat) : Z * Z := default (0, 0) (field_data u !! f).
Definition off u f : Z := (field u f).1.
Definition flen u f : Z := (field u f).2.
Definition has_field (u : http_parser_url) (f : nat) : bool := Z.testbit (field_set u) (Z.of_nat f).

Definition set_data (f : nat) (d : Z * Z) (u : http_parser_url) : http_parser_url :=
  {| field_set := field_set u; port := port u; field_data := <[f := d]> (field_data u) |}.

Definition mark_field (f : nat) (u : http_parser_url) : http_parser_url :=
  {| field_set := Z.lor (field_set u) (Z.shiftl 1 (Z.of_nat f)); port := port u;
     field_data := field_data u |}.

Definition grow (f : nat) (u : http_parser_url) : http_parser_url :=
  set_data f (off u f, u16 (flen u f + 1)) u.

(** [off = p - buf], [len = 1] (or the reset to 0 before it grows), and the mark. *)
Definition begin_field (f : nat) (i : Z) (u : http_parser_url) : http_parser_url :=
  mark_field f (set_data f (u16 i, 1) u).

(** ** [http_parse_host] *)
Inductive host_state :=
| s_http_host_dead
| s_http_userinfo_start
| s_http_userinfo
| s_http_host_start
| s_http_host_v6_start
| s_http_host
| s_http_host_v6
| s_http_host_v6_end
| s_http_host_v6_zone_start
| s_http_host_v6_zone
| s_http_host_port_start
| s_http_host_port.

#[export] Instance host_state_eq_dec : EqDecision host_state.
Proof. solve_decision. Defined.

Definition after_host (ch : ascii) : host_state :=
  if Ascii.eqb ch ":"%char then s_http_host_port_start else s_http_host_dead.

Definition in_zone (ch : ascii) : host_state :=
  if is_alphanum ch || one_of "%.-_~" ch then s_http_host_v6_zone else s_http_host_dead.

Definition in_v6 (s : host_state) (ch : ascii) : host_state :=
  if is_hex ch || one_of ":." ch then s_http_host_v6
  else if bool_decide (s = s_http_host_v6) && Ascii.eqb ch "%"%char then s_http_host_v6_zone_start
  else s_http_host_dead.

Definition http_parse_host_char (s : host_state) (ch : ascii) : host_state :=
  match s with
  | s_http_userinfo | s_http_userinfo_start =>
      if Ascii.eqb ch "@"%char then s_http_host_start
      else if is_userinfo_char ch then s_http_userinfo else s_http_host_dead
  | s_http_host_start =>
      if Ascii.eqb ch "["%char then s_http_host_v6_start
      else if is_host_char ch then s_http_host else s_http_host_dead
  | s_http_host => if is_host_char ch then s_http_host else after_host ch
  | s_http_host_v6_end => after_host ch
  | s_http_host_v6 => if Ascii.eqb ch "]"%char then s_http_host_v6_end else in_v6 s ch
  | s_http_host_v6_start => in_v6 s ch
  | s_http_host_v6_zone => if Ascii.eqb ch "]"%char then s_http_host_v6_end else in_zone ch
  | s_http_host_v6_zone_start => in_zone ch
  | s_http_host_port | s_http_host_port_start =>
      if is_num ch then s_http_host_port else s_http_host_dead
  | s_http_host_dead => s_http_host_dead
  end.

(** One character of the host at index [i]: the fields. *)
Definition host_fields (s new_s : host_state) (i : Z) (u : http_parser_url) : http_parser_url :=
  match new_s with
  | s_http_host | s_http_host_v6 =>
      let u := if bool_decide (s <> new_s) then set_data UF_HOST (u16 i, flen u UF_HOST) u else u in
      grow UF_HOST u
  | s_http_host_v6_zone_start | s_http_host_v6_zone => grow UF_HOST u
  | s_http_host_port =>
      if bool_decide (s <> s_http_host_port) then begin_field UF_PORT i u else grow UF_PORT u
  | s_http_userinfo =>
      if bool_decide (s <> s_http_userinfo) then begin_field UF_USERINFO i u else grow UF_USERINFO u
  | _ => u
  end.

(** [None]: a character was refused; the fields stay as they were then. *)
Fixpoint host_loop (l : list ascii) (i : Z) (s : host_state) (u : http_parser_url)
    : option host_state * http_parser_url :=
  match l with
  | [] => (Some s, u)
  | ch :: l =>
      let new_s := http_parse_host_char s ch in
      if bool_decide (new_s = s_http_host_dead) then (None, u)
      else host_loop l (i + 1) new_s (host_fields s new_s i u)
  end.

Definition host_ends_well (s : host_state) : bool :=
  match s with
  | s_http_host | s_http_host_v6_end | s_http_host_port | s_http_host_dead => true
  | _ => false
  end.

(** The answer is 0 ([true]) or 1. *)
Definition http_parse_host (buf : list ascii) (u : http_parser_url) (found_at : bool)
    : outcome (bool * http_parser_url) :=
  _ ← cassert (has_field u UF_HOST);
  let part := take (Z.to_nat (flen u UF_HOST)) (drop (Z.to_nat (off u UF_HOST)) buf) in
  let start := off u UF_HOST in
  let u := set_data UF_HOST (start, 0) u in
  let '(s, u) := host_loop part start (if found_at then s_http_userinfo_start else s_http_host_start) u in
  mret (match s with Some s => host_ends_well s | None => false end, u).

(** ** [http_parser_parse_url] *)

(** The field a state writes; [None] for a delimiter. *)
Definition field_of (s : state) : option nat :=
  match s with
  | s_req_schema => Some UF_SCHEMA
  | s_req_server_with_at | s_req_server => Some UF_HOST
  | s_req_path => Some UF_PATH
  | s_req_query_string => Some UF_QUERY
  | s_req_fragment => Some UF_FRAGMENT
  | _ => None
  end.

(** The first component is [false] for a dead state. *)
Fixpoint url_loop (l : list ascii) (i : Z) (s : state) (old_uf : nat) (found_at : bool)
    (u : http_parser_url) : outcome (bool * bool * http_parser_url) :=
  match l with
  | [] => mret (true, found_at, u)
  | ch :: l =>
      let s := parse_url_char s ch in
      let found_at := found_at || bool_decide (s = s_req_server_with_at) in
      match s with
      | s_dead => mret (false, found_at, u)
      | s_req_spaces_before_url => Crash AssertFailed
      | _ =>
          match field_of s with
          | None => url_loop l (i + 1) s old_uf found_at u
          | Some uf =>
              if Nat.eqb uf old_uf then url_loop l (i + 1) s old_uf found_at (grow uf u)
              else url_loop l (i + 1) s uf found_at (begin_field uf i u)
          end
      end
  end.

(** [strtoul(buf + off, NULL, 10)]: nothing ends the buffer, so digits that
    follow it in memory ([beyond]) are read too. *)
Definition port_value (buf beyond : list ascii) (u : http_parser_url) : Z :=
  eval_digits 10 0 (scan_digits 10 (drop (Z.to_nat (off u UF_PORT)) buf ++ beyond)).1.

Definition host_and_port : Z := Z.lor (Z.shiftl 1 (Z.of_nat UF_HOST)) (Z.shiftl 1 (Z.of_nat UF_PORT)).

(** The checks after the loop. *)
Definition finish_url (buf beyond : list ascii) (is_connect found_at : bool) (u : http_parser_url)
    : outcome (bool * http_parser_url) :=
  if has_field u UF_SCHEMA && negb (has_field u UF_HOST) then mret (false, u)
  else
    '(fine, u) ← (if has_field u UF_HOST then http_parse_host buf u found_at else mret (true, u));
    if negb fine then mret (false, u)
    else if is_connect && negb (field_set u =? host_and_port) then mret (false, u)
    else if has_field u UF_PORT then
      let v := port_value buf beyond u in
      if 65535 <? v then mret (false, u)
      else mret (true, {| field_set := field_set u; port := u16 v; field_data := field_data u |})
    else mret (true, u).

(** The answer is 0 ([true]) or 1; the offsets and lengths of fields that are
    not met stay what they were. *)
Definition http_parser_parse_url (buf : string) (beyond : list ascii) (is_connect : bool)
    (u : http_parser_url) : outcome (bool * http_parser_url) :=
  let u := {| field_set := 0; port := 0; field_data := field_data u |} in
  let l := chars buf in
  '(alive, found_at, u) ←
    url_loop l 0 (if is_connect then s_req_server_start else s_req_spaces_before_url) UF_MAX false u;
  if negb alive then mret (false, u) else finish_url l beyond is_connect found_at u.

(** ** The fields stay in the buffer *)

(** Field [f] is not set, or lies in the first [i] characters. *)
Definition fits (i : Z) (u : http_parser_url) (f : nat) : Prop :=
  has_field u f = true -> 0 <= off u f /\ 0 <= flen u f /\ off u f + flen u f <= i.

Definition in_bounds (i : Z) (u : http_parser_url) : Prop :=
  length (field_data u) = UF_MAX /\ 0 <= field_set u /\ forall f, fits i u f.

Lemma fits_mono i j u : i <= j -> in_bounds i u -> in_bounds j u.
Proof.
  intros Hij (H1 & H2 & H3). split_and!; [done|done|]. intros f Hf.
  destruct (H3 f Hf) as (A & B & C). split_and!; lia.
Qed.

Lemma field_set_data f d u g :
  (f < length (field_data u))%nat -> field (set_data f d u) g = if decide (f = g) then d else field u g.
Proof.
  intros H. unfold field, set_data. cbn [field_data]. destruct (decide (f = g)) as [<-|Hne].
  - by rewrite list_lookup_insert_eq.
  - by rewrite list_lookup_insert_ne.
Qed.

Lemma off_set_data f d u g :
  (f < length (field_data u))%nat -> off (set_data f d u) g = if decide (f = g) then d.1 else off u g.
Proof. intros H. unfold off. rewrite field_set_data by done. by destruct (decide _). Qed.

Lemma flen_set_data f d u g :
  (f < length (field_data u))%nat -> flen (set_data f d u) g = if decide (f = g) then d.2 else flen u g.
Proof. intros H. unfold flen. rewrite field_set_data by done. by destruct (decide _). Qed.

Lemma has_set_data f d u g : has_field (set_data f d u) g = has_field u g.
Proof. done. Qed.

Lemma has_mark f u g : has_field (mark_field f u) g = bool_decide (f = g) || has_field u g.
Proof.
  unfold has_field, mark_field. cbn [field_set]. rewrite Z.lor_spec, orb_comm. f_equal.
  rewrite Z.shiftl_1_l. case_bool_decide as E.
  - subst. apply Z.pow2_bits_true. lia.
  - apply Z.pow2_bits_false. lia.
Qed.

Lemma in_bounds_set i f d u :
  (f < UF_MAX)%nat -> in_bounds i u -> 0 <= d.1 -> 0 <= d.2 -> d.1 + d.2 <= i -> in_bounds i (set_data f d u).
Proof.
  intros Hf (H1 & H2 & H3) Ha Hb Hc. unfold in_bounds. split_and!; [|done|].
  - cbn. by rewrite length_insert.
  - intros g. unfold fits. rewrite has_set_data, off_set_data, flen_set_data by lia.
    destruct (decide (f = g)); [done|apply H3].
Qed.

Lemma in_bounds_mark i f u :
  in_bounds i u -> 0 <= off u f -> 0 <= flen u f -> off u f + flen u f <= i -> in_bounds i (mark_field f u).
Proof.
  intros (H1 & H2 & H3) Ha Hb Hc. unfold in_bounds. split_and!; [done| |].
  - cbn [field_set mark_field]. apply Z.lor_nonneg. split; [done|]. apply Z.shiftl_nonneg. lia.
  - intros g. unfold fits. rewrite has_mark. case_bool_decide as E; [subst; done|apply H3].
Qed.

Lemma in_bounds_begin i f u :
  (f < UF_MAX)%nat -> 0 <= i -> i + 1 < 2 ^ 16 -> in_bounds i u ->
  in_bounds (i + 1) (begin_field f i u) /\ has_field (begin_field f i u) f = true.
Proof.
  intros Hf H0 Hi Hu. assert (HL : length (field_data u) = UF_MAX) by apply Hu. unfold begin_field.
  split; [|rewrite has_mark; by rewrite bool_decide_eq_true_2]. rewrite wrap_id by (unfold in_range; lia).
  apply in_bounds_mark.
  - apply in_bounds_set; [done|eapply fits_mono; [|done]; lia|cbn; lia..].
  - rewrite off_set_data, decide_True by lia. cbn. lia.
  - rewrite flen_set_data, decide_True by lia. cbn. lia.
  - rewrite off_set_data, flen_set_data, !decide_True by lia. cbn. lia.
Qed.

Lemma in_bounds_grow i f u :
  (f < UF_MAX)%nat -> 0 <= i -> i + 1 < 2 ^ 16 -> in_bounds i u -> has_field u f = true ->
  in_bounds (i + 1) (grow f u) /\ has_field (grow f u) f = true.
Proof.
  intros Hf H0 Hi Hu Hs. split; [|done]. destruct (proj2 (proj2 Hu) f Hs) as (A & B & C).
  unfold grow. rewrite wrap_id by (unfold in_range; lia).
  apply in_bounds_set; [done|eapply fits_mono; [|done]; lia|cbn; lia..].
Qed.

Lemma url_loop_bounds l i s old found u :
  0 <= i -> i + Z.of_nat (length l) < 2 ^ 16 -> in_bounds i u ->
  (old = UF_MAX \/ ((old < UF_MAX)%nat /\ has_field u old = true)) ->
  exists alive fa u', url_loop l i s old found u = Ok (alive, fa, u') /\
    in_bounds (i + Z.of_nat (length l)) u'.
Proof.
  revert i s old found u. induction l as [|ch l IH]; intros i s old found u H0 Hl Hu Ho.
  { exists true, found, u. split; [done|]. cbn. by rewrite Z.add_0_r. }
  cbn [length] in Hl |- *. rewrite Nat2Z.inj_succ in Hl |- *.
  replace (i + Z.succ (Z.of_nat (length l))) with ((i + 1) + Z.of_nat (length l)) by lia.
  cbn [url_loop]. cbv zeta. set (s' := parse_url_char s ch). set (fa := found || _).
  assert (Hns : s' <> s_req_spaces_before_url).
  { subst s'. unfold parse_url_char, server_char.
    repeat match goal with |- (if ?b then _ else _) <> _ => destruct b; try done end.
    destruct s; repeat match goal with |- (if ?b then _ else _) <> _ => destruct b; try done end; done. }
  assert (Hskip : exists alive fa' u', url_loop l (i + 1) s' old fa u = Ok (alive, fa', u') /\
    in_bounds (i + 1 + Z.of_nat (length l)) u').
  { apply IH; [lia|lia|eapply fits_mono; [|done]; lia|done]. }
  assert (Hfield : forall uf, (uf < UF_MAX)%nat -> exists alive fa' u',
    (if Nat.eqb uf old then url_loop l (i + 1) s' old fa (grow uf u)
     else url_loop l (i + 1) s' uf fa (begin_field uf i u)) = Ok (alive, fa', u') /\
    in_bounds (i + 1 + Z.of_nat (length l)) u').
  { intros uf Huf. destruct (Nat.eqb_spec uf old) as [->|Hne].
    - destruct Ho as [->|[Ho1 Ho2]]; [unfold UF_MAX in *; lia|].
      destruct (in_bounds_grow i old u Huf H0 ltac:(lia) Hu Ho2) as [G1 G2].
      apply IH; [lia|lia|done|by right].
    - destruct (in_bounds_begin i uf u Huf H0 ltac:(lia) Hu) as [G1 G2].
      apply IH; [lia|lia|done|by right]. }
  destruct s' eqn:Es'; try done; cbn [field_of]; try (apply Hskip);
    try (apply Hfield; unfold UF_MAX, UF_SCHEMA, UF_HOST, UF_PATH, UF_QUERY, UF_FRAGMENT; lia).
  exists false, fa, u. split; [done|]. eapply fits_mono; [|done]. lia.
Qed.

(** States of the host in which no character of the host itself was met. *)
Definition before_host (s : host_state) : bool :=
  match s with
  | s_http_userinfo_start | s_http_userinfo | s_http_host_start | s_http_host_v6_start => true
  | _ => false
  end.

Lemma host_char_from s ch :
  (http_parse_host_char s ch = s_http_host -> s = s_http_host \/ s = s_http_host_start) /\
  (http_parse_host_char s ch = s_http_host_v6 -> s = s_http_host_v6 \/ s = s_http_host_v6_start) /\
  (before_host (http_parse_host_char s ch) = true -> before_host s = true).
Proof.
  unfold http_parse_host_char, in_v6, in_zone, after_host.
  destruct s; repeat match goal with |- context [if ?b then _ else _] => destruct b end;
    split_and!; intros; cbn in *; try done; auto.
Qed.

(** [f] is set and lies in the first [i] characters. *)
Definition lies (i : Z) (u : http_parser_url) (f : nat) : Prop :=
  has_field u f = true /\ 0 <= off u f /\ 0 <= flen u f /\ off u f + flen u f <= i.

Record host_inv (N i : Z) (s : host_state) (u : http_parser_url) : Prop := {
  hi_bounds : in_bounds N u;
  hi_host : lies i u UF_HOST;
  hi_fresh : before_host s = true -> flen u UF_HOST = 0;
  hi_port : s = s_http_host_port -> lies i u UF_PORT;
  hi_userinfo : s = s_http_userinfo -> lies i u UF_USERINFO }.

Lemma lies_mono i j u f : i <= j -> lies i u f -> lies j u f.
Proof. intros H (A & B & C & D). split_and!; [done|lia..]. Qed.

Lemma lies_set i f d u :
  (f < UF_MAX)%nat -> length (field_data u) = UF_MAX -> has_field u f = true ->
  0 <= d.1 -> 0 <= d.2 -> d.1 + d.2 <= i -> lies i (set_data f d u) f.
Proof.
  intros Hf HL Hs Ha Hb Hc. unfold lies. rewrite has_set_data, off_set_data, flen_set_data by lia.
  by rewrite !decide_True.
Qed.

Lemma lies_set_other i f g d u :
  (f < UF_MAX)%nat -> length (field_data u) = UF_MAX -> f <> g -> lies i u g -> lies i (set_data f d u) g.
Proof.
  intros Hf HL Hne. unfold lies. rewrite has_set_data, off_set_data, flen_set_data by lia.
  by rewrite !decide_False.
Qed.

Lemma lies_mark i f g u : lies i u g -> lies i (mark_field f u) g.
Proof. intros (A & B). split; [|done]. by rewrite has_mark, A, orb_true_r. Qed.

Ltac uf := unfold UF_MAX, UF_SCHEMA, UF_HOST, UF_PORT, UF_PATH, UF_QUERY, UF_FRAGMENT, UF_USERINFO in *; lia.

(** The field [f] starts or goes on at [i]; the host is another field. *)
Lemma side_field N i f (start : bool) u :
  (f < UF_MAX)%nat -> f <> UF_HOST -> 0 <= i -> i + 1 <= N -> N < 2 ^ 16 ->
  in_bounds N u -> lies i u UF_HOST -> (start = false -> lies i u f) ->
  let u' := if start then begin_field f i u else grow f u in
  in_bounds N u' /\ lies (i + 1) u' UF_HOST /\ lies (i + 1) u' f /\ flen u' UF_HOST = flen u UF_HOST.
Proof.
  intros Hf Hne H0 Hi HN Hu Hh Hs. assert (HL := proj1 Hu). cbv zeta.
  assert (Hh1 : lies (i + 1) u UF_HOST) by (eapply lies_mono; [|done]; lia).
  destruct start.
  - unfold begin_field. rewrite wrap_id by (unfold in_range; lia).
    assert (B : in_bounds N (set_data f (i, 1) u)) by (apply in_bounds_set; [done|done|cbn; lia..]).
    assert (Eo : off (set_data f (i, 1) u) f = i) by (rewrite off_set_data, decide_True by lia; done).
    assert (El : flen (set_data f (i, 1) u) f = 1) by (rewrite flen_set_data, decide_True by lia; done).
    split_and!.
    + apply in_bounds_mark; rewrite ?Eo, ?El; [done|lia..].
    + apply lies_mark. by apply lies_set_other.
    + split; [rewrite has_mark; by rewrite bool_decide_eq_true_2|].
      change (off (mark_field f ?v) f) with (off v f). change (flen (mark_field f ?v) f) with (flen v f).
      rewrite Eo, El. lia.
    + change (flen (mark_field f ?v) UF_HOST) with (flen v UF_HOST).
      rewrite flen_set_data, decide_False by lia. done.
  - destruct (Hs eq_refl) as (A & B & C & D). unfold grow. rewrite wrap_id by (unfold in_range; lia).
    split_and!.
    + apply in_bounds_set; [done|done|cbn; lia..].
    + by apply lies_set_other.
    + apply lies_set; [done|done|done|cbn; lia..].
    + rewrite flen_set_data, decide_False by lia. done.
Qed.

Lemma host_step N i s ch u :
  0 <= i -> i + 1 <= N -> N < 2 ^ 16 -> host_inv N i s u ->
  host_inv N (i + 1) (http_parse_host_char s ch) (host_fields s (http_parse_host_char s ch) i u).
Proof.
  intros H0 Hi HN [Hb Hh Hf Hp Hu]. destruct (host_char_from s ch) as (F1 & F2 & F3).
  assert (HL := proj1 Hb). destruct Hh as (A & B & C & D).
  set (n := http_parse_host_char s ch) in *.
  (* a character of the host: the offset may move, the length grows *)
  assert (G : forall o, 0 <= o -> o + flen u UF_HOST + 1 <= i + 1 -> before_host n = false ->
    n <> s_http_host_port -> n <> s_http_userinfo ->
    host_inv N (i + 1) n (set_data UF_HOST (o, flen u UF_HOST + 1) u)).
  { intros o Ho Hle Hn1 Hn2 Hn3. split; [| |congruence|done|done].
    - apply in_bounds_set; [uf|done|cbn; lia..].
    - apply lies_set; [uf|done|done|cbn; lia..]. }
  assert (W : u16 (flen u UF_HOST + 1) = flen u UF_HOST + 1) by (apply wrap_id; unfold in_range; lia).
  assert (Keep : n <> s_http_host_port -> n <> s_http_userinfo -> host_inv N (i + 1) n u).
  { intros Hn1 Hn2. split; [done|by split_and!; [|lia..]|auto|done|done]. }
  assert (Host : n = s_http_host \/ n = s_http_host_v6 ->
    host_inv N (i + 1) n (grow UF_HOST (if bool_decide (s <> n) then set_data UF_HOST (u16 i, flen u UF_HOST) u else u))).
  { intros Hn. case_bool_decide as Es.
    - assert (Hz : flen u UF_HOST = 0).
      { apply Hf. destruct Hn as [En|En]; rewrite En in *;
          [destruct (F1 eq_refl) as [-> | ->]|destruct (F2 eq_refl) as [-> | ->]]; done. }
      unfold grow. rewrite off_set_data, flen_set_data, !decide_True by uf. cbn [fst snd].
      rewrite W, wrap_id by (unfold in_range; lia).
      replace (set_data UF_HOST (i, flen u UF_HOST + 1) (set_data UF_HOST (i, flen u UF_HOST) u))
        with (set_data UF_HOST (i, flen u UF_HOST + 1) u)
        by (unfold set_data; cbn; by rewrite list_insert_insert_eq).
      apply G; [lia|lia|by destruct Hn as [-> | ->]..].
    - unfold grow. rewrite W. apply G; [lia|lia|by destruct Hn as [-> | ->]..]. }
  unfold host_fields. destruct n eqn:En; try (by apply Keep); try (apply Host; auto);
    try (unfold grow; rewrite W; apply G; [lia|lia|done..]).
  - (* user information *)
    destruct (side_field N i UF_USERINFO (bool_decide (s <> s_http_userinfo)) u) as (P1 & P2 & P3 & P4);
      [uf|done|done|done|done|done|done| |].
    { intros Hs%bool_decide_eq_false. apply Hu. by destruct (decide (s = s_http_userinfo)). }
    split; try done. intros _. rewrite <- (Hf (F3 eq_refl)), <- P4. by destruct (bool_decide _).
  - (* port *)
    destruct (side_field N i UF_PORT (bool_decide (s <> s_http_host_port)) u) as (P1 & P2 & P3 & P4);
      [uf|done|done|done|done|done|done| |].
    { intros Hs%bool_decide_eq_false. apply Hp. by destruct (decide (s = s_http_host_port)). }
    by split.
Qed.

Lemma host_loop_bounds N l i s u :
  0 <= i -> i + Z.of_nat (length l) <= N -> N < 2 ^ 16 -> host_inv N i s u ->
  in_bounds N (host_loop l i s u).2.
Proof.
  revert i s u. induction l as [|ch l IH]; intros i s u H0 Hl HN Hi; [apply Hi|].
  cbn [length] in Hl. rewrite Nat2Z.inj_succ in Hl. cbn [host_loop]. cbv zeta.
  case_bool_decide; [apply Hi|]. apply IH; [lia|lia|done|]. apply host_step; [done|lia|done|done].
Qed.

Lemma parse_host_bounds N buf u found :
  Z.of_nat (length buf) = N -> N < 2 ^ 16 -> in_bounds N u -> has_field u UF_HOST = true ->
  exists ok u', http_parse_host buf u found = Ok (ok, u') /\ in_bounds N u'.
Proof.
  intros HN Hlt Hb Hs. unfold http_parse_host. rewrite Hs. cbn [cassert mbind outcome_bind]. cbv zeta.
  set (s0 := if found then _ else _). set (part := take _ _). set (u0 := set_data UF_HOST _ u).
  destruct (proj2 (proj2 Hb) UF_HOST Hs) as (A & B & C).
  pose proof (host_loop_bounds N part (off u UF_HOST) s0 u0) as P.
  destruct (host_loop part (off u UF_HOST) s0 u0) as [s u1]. eexists _, u1. split; [done|].
  apply P; [lia| |done|].
  - subst part. rewrite length_take, length_drop. lia.
  - assert (HL := proj1 Hb).
    assert (H0 : in_bounds N u0) by (apply in_bounds_set; [uf|done|cbn; lia..]).
    split; [done|apply lies_set; [uf|done|done|cbn; lia..]| | |].
    + intros _. subst u0. rewrite flen_set_data, decide_True by uf. done.
    + by destruct found.
    + by destruct found.
Qed.

(** ** A target in origin form *)

(** The fields of [u] as strings; this is what the decoder takes. *)
Definition field_str (buf : string) (u : http_parser_url) (f : nat) : string :=
  of_chars (take (Z.to_nat (flen u f)) (drop (Z.to_nat (off u f)) (chars buf))).

Definition url_chars (s : string) : bool := forallb is_url_char (chars s).

(** Characters that keep the automaton in a state that writes [uf]. *)
Lemma url_loop_same l rest i s uf fa u :
  (uf < length (field_data u))%nat -> field_of s = Some uf -> s <> s_req_server_with_at ->
  Forall (fun c => parse_url_char s c = s) l ->
  0 <= flen u uf -> flen u uf + Z.of_nat (length l) < 2 ^ 16 ->
  url_loop (l ++ rest) i s uf fa u =
    url_loop rest (i + Z.of_nat (length l)) s uf fa
      (set_data uf (off u uf, flen u uf + Z.of_nat (length l)) u).
Proof.
  intros Hf Hs Hw HF. revert i u Hf. induction HF as [|c l Hc HF IH]; intros i u Hf H0 Hl.
  { cbn. rewrite !Z.add_0_r. f_equal. unfold set_data, off, flen, field. destruct u as [a b d]. cbn in *.
    f_equal. destruct (lookup_lt_is_Some_2 d uf Hf) as [[x y] E]. rewrite E. cbn.
    symmetry. by apply list_insert_id. }
  cbn [length] in Hl |- *. rewrite Nat2Z.inj_succ in Hl |- *. cbn [app url_loop]. cbv zeta.
  rewrite Hc, Hs. rewrite bool_decide_eq_false_2, orb_false_r, Nat.eqb_refl by done.
  assert (E : url_loop (l ++ rest) (i + 1) s uf fa (grow uf u) =
    url_loop rest (i + Z.succ (Z.of_nat (length l))) s uf fa
      (set_data uf (off u uf, flen u uf + Z.succ (Z.of_nat (length l))) u)).
  { unfold grow. rewrite wrap_id by (unfold in_range; lia).
    rewrite IH; rewrite ?off_set_data, ?flen_set_data, ?decide_True by done; cbn [fst snd].
    - f_equal; [lia|]. unfold set_data. cbn. rewrite list_insert_insert_eq. do 3 f_equal. lia.
    - cbn. by rewrite length_insert.
    - lia.
    - lia. }
  rewrite E. by destruct s.
Qed.

(** A character that starts the field of a state. *)
Lemma url_loop_begin c rest i s s' old uf fa u :
  parse_url_char s c = s' -> field_of s' = Some uf -> s' <> s_req_server_with_at -> uf <> old ->
  url_loop (c :: rest) i s old fa u = url_loop rest (i + 1) s' uf fa (begin_field uf i u).
Proof.
  intros Hc Hs Hw Hne. cbn [url_loop]. cbv zeta. rewrite Hc, Hs.
  rewrite bool_decide_eq_false_2, orb_false_r by done.
  destruct (Nat.eqb_spec uf old); [done|]. by destruct s'.
Qed.

(** A delimiter. *)
Lemma url_loop_skip c rest i s s' old fa u :
  parse_url_char s c = s' -> field_of s' = None -> s' <> s_dead -> s' <> s_req_spaces_before_url ->
  url_loop (c :: rest) i s old fa u = url_loop rest (i + 1) s' old fa u.
Proof.
  intros Hc Hs Hd Hb. cbn [url_loop]. cbv zeta. rewrite Hc, Hs.
  assert (Hw : s' <> s_req_server_with_at) by (intros ->; done).
  rewrite bool_decide_eq_false_2, orb_false_r by done. by destruct s'.
Qed.

(** The characters of the table are those of no other use in a URL. *)
Lemma url_char_plain c :
  is_url_char c = true ->
  parse_url_char s_req_path c = s_req_path /\
  parse_url_char s_req_query_string_start c = s_req_query_string /\
  parse_url_char s_req_query_string c = s_req_query_string /\
  parse_url_char s_req_fragment_start c = s_req_fragment /\
  parse_url_char s_req_fragment c = s_req_fragment.
Proof.
  intros H.
  assert (G : implb (is_url_char c)
    (bool_decide (parse_url_char s_req_path c = s_req_path) &&
     bool_decide (parse_url_char s_req_query_string_start c = s_req_query_string) &&
     bool_decide (parse_url_char s_req_query_string c = s_req_query_string) &&
     bool_decide (parse_url_char s_req_fragment_start c = s_req_fragment) &&
     bool_decide (parse_url_char s_req_fragment c = s_req_fragment)) = true).
  { revert c H. intros c _. revert c. apply forall_ascii. vm_compute. reflexivity. }
  rewrite H in G. cbn [implb] in G. rewrite !andb_true_iff, !bool_decide_eq_true in G. tauto.
Qed.

Lemma url_chars_forall s st :
  (forall c, is_url_char c = true -> parse_url_char st c = st) -> url_chars s = true ->
  Forall (fun c => parse_url_char st c = st) (chars s).
Proof.
  intros H Hs. unfold url_chars in Hs. apply Forall_forall. intros c Hc. apply H.
  rewrite forallb_forall in Hs. apply Hs. by apply list_elem_of_In.
Qed.

Definition span (uf : nat) (i n : Z) (u : http_parser_url) : http_parser_url :=
  mark_field uf (set_data uf (i, n) u).

(** A run of characters that is the field [uf]. *)
Lemma url_loop_field c l rest i s s' old uf fa u :
  (uf < length (field_data u))%nat -> parse_url_char s c = s' -> field_of s' = Some uf ->
  s' <> s_req_server_with_at -> uf <> old -> Forall (fun c => parse_url_char s' c = s') l ->
  0 <= i -> i + Z.of_nat (length (c :: l)) < 2 ^ 16 ->
  url_loop (c :: l ++ rest) i s old fa u =
    url_loop rest (i + Z.of_nat (length (c :: l))) s' uf fa (span uf i (Z.of_nat (length (c :: l))) u).
Proof.
  intros Hf Hc Hs Hw Hne HF H0 Hl. cbn [length] in *. rewrite Nat2Z.inj_succ in *.
  rewrite (url_loop_begin c _ i s s') with (uf := uf) by done. unfold begin_field.
  rewrite wrap_id by (unfold in_range; lia).
  assert (El : flen (mark_field uf (set_data uf (i, 1) u)) uf = 1)
    by (change (flen (set_data uf (i, 1) u) uf = 1); rewrite flen_set_data, decide_True by done; done).
  assert (Eo : off (mark_field uf (set_data uf (i, 1) u)) uf = i)
    by (change (off (set_data uf (i, 1) u) uf = i); rewrite off_set_data, decide_True by done; done).
  rewrite url_loop_same; rewrite ?El, ?Eo; try done; try lia.
  - f_equal; [lia|]. unfold span, mark_field, set_data. cbn. rewrite list_insert_insert_eq.
    do 3 f_equal. lia.
  - cbn. by rewrite length_insert.
Qed.

(** A field of [url_chars] that begins with [c]. *)
Definition path_part (p : string) : bool :=
  match chars p with c :: l => Ascii.eqb c "/"%char && forallb is_url_char l | [] => false end.

Definition origin_form (p q f : string) : string :=
  p +:+ (if empty q then "" else "?" +:+ q) +:+ (if empty f then "" else "#" +:+ f).

(** What the loop does with the query, after the path, and with the fragment. *)
Lemma query_loop q rest i old fa u :
  (UF_QUERY < length (field_data u))%nat -> url_chars q = true -> UF_QUERY <> old -> 0 <= i ->
  i + 1 + len q < 2 ^ 16 -> q <> "" ->
  url_loop ("?"%char :: chars q ++ rest) i s_req_path old fa u =
    url_loop rest (i + 1 + len q) s_req_query_string UF_QUERY fa (span UF_QUERY (i + 1) (len q) u).
Proof.
  intros Hf Hq Hne H0 Hl Hqe. rewrite (url_loop_skip _ _ i s_req_path s_req_query_string_start) by done.
  unfold len, url_chars in *. destruct (chars q) as [|c l] eqn:E.
  { by destruct Hqe; apply chars_inj. }
  cbn [forallb] in Hq. apply andb_prop in Hq as [Hc Hq]. cbn [app].
  apply url_loop_field; [done|by apply url_char_plain|done|done|done| |lia|lia].
  rewrite <- (chars_of_chars l). apply url_chars_forall; [intros; by apply url_char_plain|].
  unfold url_chars. by rewrite chars_of_chars.
Qed.

Lemma fragment_loop f rest i s old fa u :
  (UF_FRAGMENT < length (field_data u))%nat -> url_chars f = true -> UF_FRAGMENT <> old -> 0 <= i ->
  i + 1 + len f < 2 ^ 16 -> f <> "" -> s = s_req_path \/ s = s_req_query_string ->
  url_loop ("#"%char :: chars f ++ rest) i s old fa u =
    url_loop rest (i + 1 + len f) s_req_fragment UF_FRAGMENT fa (span UF_FRAGMENT (i + 1) (len f) u).
Proof.
  intros Hf Hq Hne H0 Hl Hfe Hs.
  rewrite (url_loop_skip _ _ i s s_req_fragment_start) by (by destruct Hs as [-> | ->]).
  unfold len, url_chars in *. destruct (chars f) as [|c l] eqn:E.
  { by destruct Hfe; apply chars_inj. }
  cbn [forallb] in Hq. apply andb_prop in Hq as [Hc Hq]. cbn [app].
  apply url_loop_field; [done|by apply url_char_plain|done|done|done| |lia|lia].
  rewrite <- (chars_of_chars l). apply url_chars_forall; [intros; by apply url_char_plain|].
  unfold url_chars. by rewrite chars_of_chars.
Qed.

Lemma path_loop p rest u :
  (UF_PATH < length (field_data u))%nat -> path_part p = true -> len p < 2 ^ 16 ->
  url_loop (chars p ++ rest) 0 s_req_spaces_before_url UF_MAX false u =
    url_loop rest (len p) s_req_path UF_PATH false (span UF_PATH 0 (len p) u).
Proof.
  unfold path_part, len. intros Hf Hp Hl. destruct (chars p) as [|c l]; [done|].
  apply andb_prop in Hp as [->%Ascii.eqb_eq Hp]. cbn [app].
  rewrite (url_loop_field _ _ _ _ _ s_req_path) with (uf := UF_PATH); try done.
  rewrite <- (chars_of_chars l). apply url_chars_forall; [intros; by apply url_char_plain|].
  unfold url_chars. by rewrite chars_of_chars.
Qed.

Lemma chars_origin p q f :
  chars (origin_form p q f) =
    (chars p ++ (if empty q then [] else "?"%char :: chars q) ++
     (if empty f then [] else "#"%char :: chars f))%list.
Proof.
  unfold origin_form. rewrite !chars_app. f_equal. f_equal; [by destruct (empty q)|by destruct (empty f)].
Qed.

(** The fields of an origin form. *)
Definition query_at (p q : string) : Z := len p + 1.
Definition fragment_at (p q : string) : Z := (if empty q then len p else len p + 1 + len q) + 1.

Definition origin_url (p q f : string) : http_parser_url :=
  let u := span UF_PATH 0 (len p) http_parser_url_init in
  let u := if empty q then u else span UF_QUERY (query_at p q) (len q) u in
  if empty f then u else span UF_FRAGMENT (fragment_at p q) (len f) u.

Lemma parse_origin_form p q f beyond :
  path_part p = true -> url_chars q = true -> url_chars f = true ->
  len (origin_form p q f) < 2 ^ 16 ->
  http_parser_parse_url (origin_form p q f) beyond false http_parser_url_init =
    Ok (true, origin_url p q f).
Proof.
  intros Hp Hq Hf Hl. unfold http_parser_parse_url. cbv zeta.
  change {| field_set := 0; port := 0; field_data := field_data http_parser_url_init |}
    with http_parser_url_init.
  assert (L : len (origin_form p q f) =
    len p + (if empty q then 0 else 1 + len q) + (if empty f then 0 else 1 + len f)).
  { unfold origin_form. rewrite !len_app. destruct (empty q), (empty f); rewrite ?len_app;
      change (len "?") with 1; change (len "#") with 1; change (len "") with 0; lia. }
  pose proof (len_nonneg p). pose proof (len_nonneg q). pose proof (len_nonneg f).
  assert (E : url_loop (chars (origin_form p q f)) 0 s_req_spaces_before_url UF_MAX false
    http_parser_url_init = Ok (true, false, origin_url p q f)).
  { rewrite chars_origin, path_loop; [|cbn; uf|done|destruct (empty q), (empty f); lia].
    unfold origin_url, fragment_at, query_at. cbv zeta.
    destruct (empty q) eqn:Eq, (empty f) eqn:Ef; rewrite ?Eq, ?Ef in *;
      try apply bool_decide_eq_false in Eq; try apply bool_decide_eq_false in Ef; cbn [app].
    - done.
    - rewrite <- (app_nil_r (chars f)), (fragment_loop f []); try done; [cbn; uf|lia|by left].
    - rewrite (query_loop q []); try done; [cbn; uf|lia].
    - rewrite (query_loop q ("#"%char :: chars f)); try done; [|cbn; uf|lia].
      rewrite <- (app_nil_r (chars f)), (fragment_loop f []); try done; [cbn; uf|lia|lia|by right]. }
  rewrite E. cbn [mbind outcome_bind negb]. unfold finish_url, origin_url.
  by destruct (empty q), (empty f).
Qed.

(** ** Without a colon there is no port *)
Lemma has_port_begin f i u :
  f <> UF_PORT -> has_field (begin_field f i u) UF_PORT = has_field u UF_PORT.
Proof. intros H. unfold begin_field. by rewrite has_mark, bool_decide_eq_false_2. Qed.

Lemma url_loop_no_port l i s old fa u r :
  has_field u UF_PORT = false -> url_loop l i s old fa u = Ok r -> has_field r.2 UF_PORT = false.
Proof.
  revert i s old fa u. induction l as [|ch l IH]; intros i s old fa u H; cbn [url_loop]; cbv zeta.
  { by intros [= <-]. }
  assert (F : forall s' uf, field_of s' = Some uf -> uf <> UF_PORT) by (intros [] uf; try done; by intros [= <-]).
  destruct (parse_url_char s ch) eqn:Es; cbn [field_of]; try done;
    repeat match goal with |- context [if ?b then _ else _] => destruct b end;
    try (by intros [= <-]); apply IH; try done; by rewrite has_port_begin.
Qed.

Lemma host_char_no_port s ch :
  ch <> ":"%char -> s <> s_http_host_port_start -> s <> s_http_host_port ->
  http_parse_host_char s ch <> s_http_host_port_start /\ http_parse_host_char s ch <> s_http_host_port.
Proof.
  intros Hc H1 H2. unfold http_parse_host_char, in_v6, in_zone, after_host.
  apply Ascii.eqb_neq in Hc. rewrite Hc.
  destruct s; repeat match goal with |- context [if ?b then _ else _] => destruct b end; done.
Qed.

Lemma host_loop_no_port l i s u :
  ":"%char ∉ l -> s <> s_http_host_port_start -> s <> s_http_host_port -> has_field u UF_PORT = false ->
  has_field (host_loop l i s u).2 UF_PORT = false.
Proof.
  revert i s u. induction l as [|ch l IH]; intros i s u Hl H1 H2 Hp; [done|].
  apply not_elem_of_cons in Hl as [Hc Hl]. cbn [host_loop]. cbv zeta.
  destruct (host_char_no_port s ch ltac:(done) H1 H2) as [H3 H4].
  set (n := http_parse_host_char s ch) in *. case_bool_decide; [done|]. apply IH; try done.
  unfold host_fields. destruct n; try done; repeat case_bool_decide; try done.
  by rewrite has_port_begin.
Qed.

Lemma connect_needs_colon buf beyond u :
  ":"%char ∉ chars buf ->
  is_ok (http_parser_parse_url buf beyond true u) = true ->
  exists u', http_parser_parse_url buf beyond true u = Ok (false, u').
Proof.
  intros Hc. unfold http_parser_parse_url. cbv zeta. set (u0 := {| field_set := 0 |}).
  destruct (url_loop (chars buf) 0 s_req_server_start UF_MAX false u0) as [[[alive fa] u1]|] eqn:E; [|done].
  pose proof (url_loop_no_port _ _ _ _ _ u0 _ eq_refl E) as P. cbn [snd] in P.
  cbn [mbind outcome_bind]. destruct alive; cbn [negb]; [|by eexists]. unfold finish_url.
  destruct (has_field u1 UF_SCHEMA && negb (has_field u1 UF_HOST)); [by eexists|].
  assert (G : forall fine u2, has_field u2 UF_PORT = false ->
    exists u', (if negb fine then mret (false, u2)
      else if true && negb (field_set u2 =? host_and_port) then mret (false, u2)
      else if has_field u2 UF_PORT then
        let v := port_value (chars buf) beyond u2 in
        if 65535 <? v then mret (false, u2)
        else mret (true, {| field_set := field_set u2; port := u16 v; field_data := field_data u2 |})
      else mret (true, u2)) = Ok (false, u')).
  { intros fine u2 H2. destruct fine; cbn [negb andb]; [|by eexists].
    destruct (Z.eqb_spec (field_set u2) host_and_port) as [Ef|]; cbn [negb]; [|by eexists].
    unfold has_field in H2. rewrite Ef in H2. by vm_compute in H2. }
  destruct (has_field u1 UF_HOST) eqn:Eh; cbn [mbind outcome_bind mret outcome_ret]; [|intros _; by apply G].
  unfold http_parse_host. rewrite Eh. cbn [cassert mbind outcome_bind]. cbv zeta.
  set (part := take _ _). set (s0 := if fa then _ else _).
  assert (Hp : ":"%char ∉ part).
  { intros Hin. apply Hc. subst part. apply elem_of_take in Hin as (k & Hk & _).
    rewrite lookup_drop in Hk. by eapply list_elem_of_lookup_2. }
  pose proof (host_loop_no_port part (off u1 UF_HOST) s0 (set_data UF_HOST (off u1 UF_HOST, 0) u1) Hp) as Q.
  destruct (host_loop part _ s0 _) as [s u2]. cbn [mbind outcome_bind mret outcome_ret].
  intros _. apply G. apply Q; [by destruct fa|by destruct fa|done].
Qed.

(** A field in the middle of three parts. *)
Lemma middle i n (l l1 l2 l3 : list ascii) :
  l = (l1 ++ l2 ++ l3)%list -> i = Z.of_nat (length l1) -> n = Z.of_nat (length l2) ->
  of_chars (take (Z.to_nat n) (drop (Z.to_nat i) l)) = of_chars l2.
Proof. intros -> -> ->. by rewrite !Nat2Z.id, drop_app_length, take_app_length. Qed.

Lemma origin_fields p q f :
  field_str (origin_form p q f) (origin_url p q f) UF_PATH = p /\
  field_str (origin_form p q f) (origin_url p q f) UF_QUERY = q /\
  field_str (origin_form p q f) (origin_url p q f) UF_FRAGMENT = f /\
  Forall (fun g => field_str (origin_form p q f) (origin_url p q f) g = "")
    [UF_SCHEMA; UF_HOST; UF_PORT; UF_USERINFO].
Proof.
  pose proof (len_nonneg p). pose proof (len_nonneg q).
  unfold field_str. rewrite chars_origin. unfold origin_url, fragment_at, query_at. cbv zeta.
  split_and!.
  - transitivity (of_chars (chars p)); [|apply of_chars_chars].
    destruct (empty q), (empty f); by eapply (middle _ _ _ []).
  - transitivity (of_chars (chars q)); [|apply of_chars_chars].
    destruct (empty q) eqn:Eq.
    { apply bool_decide_eq_true in Eq as ->. by destruct (empty f). }
    destruct (empty f);
      (eapply (middle _ _ _ (chars p ++ ["?"%char])); [by rewrite <- app_assoc| |done]);
      rewrite length_app; unfold len; cbn; lia.
  - transitivity (of_chars (chars f)); [|apply of_chars_chars].
    destruct (empty f) eqn:Ef.
    { apply bool_decide_eq_true in Ef as ->. by destruct (empty q). }
    destruct (empty q).
    + apply (middle _ _ _ (chars p ++ ["#"%char]) _ []); [by rewrite app_nil_r, <- app_assoc| |done].
      rewrite length_app. unfold len. cbn. lia.
    + apply (middle _ _ _ (chars p ++ "?"%char :: chars q ++ ["#"%char]) _ []); [| |done].
      * rewrite app_nil_r, <- (app_assoc (chars p)). cbn [app]. by rewrite <- app_assoc.
      * rewrite !length_app. unfold len. cbn. rewrite length_app. cbn. lia.
  - destruct (empty q), (empty f); repeat constructor.
Qed.

Lemma url_fields_ok (buf : string) (beyond : list ascii) (is_connect : bool) (u : http_parser_url) :
  length (field_data u) = UF_MAX -> len buf < 2 ^ 16 ->
  exists ok u', http_parser_parse_url buf beyond is_connect u = Ok (ok, u') /\
    length (field_data u') = UF_MAX /\
    forall f, has_field u' f = true -> 0 <= off u' f /\ 0 <= flen u' f /\ off u' f + flen u' f <= len buf.
Proof.
  intros HL Hl. unfold http_parser_parse_url. cbv zeta.
  set (u0 := {| field_set := 0; port := 0; field_data := field_data u |}).
  set (s0 := if is_connect then _ else _).
  destruct (url_loop_bounds (chars buf) 0 s0 UF_MAX false u0) as (alive & fa & u1 & E1 & H1);
    [lia|exact Hl| |by left|].
  { split_and!; [done|done|]. intros f Hf. unfold has_field, u0 in Hf. cbn in Hf. by rewrite Z.bits_0 in Hf. }
  rewrite Z.add_0_l in H1. fold (len buf) in H1.
  rewrite E1. cbn [mbind outcome_bind].
  assert (D : forall ok u', in_bounds (len buf) u' ->
    exists ok0 u'0, @Ok (bool * http_parser_url) (ok, u') = Ok (ok0, u'0) /\
    length (field_data u'0) = UF_MAX /\ forall f, has_field u'0 f = true ->
      0 <= off u'0 f /\ 0 <= flen u'0 f /\ off u'0 f + flen u'0 f <= len buf).
  { intros ok u' (A & _ & B). by exists ok, u'. }
  destruct alive; cbn [negb]; [|by apply D]. unfold finish_url.
  destruct (has_field u1 UF_SCHEMA && negb (has_field u1 UF_HOST)); [by apply D|].
  assert (P : exists fine u2, (if has_field u1 UF_HOST then http_parse_host (chars buf) u1 fa else mret (true, u1))
    = Ok (fine, u2) /\ in_bounds (len buf) u2).
  { destruct (has_field u1 UF_HOST) eqn:Eh; [by apply parse_host_bounds|]. by exists true, u1. }
  destruct P as (fine & u2 & -> & H2). cbn [mbind outcome_bind]. destruct fine; cbn [negb]; [|by apply D].
  destruct (is_connect && negb (field_set u2 =? host_and_port)); [by apply D|].
  destruct (has_field u2 UF_PORT); [|by apply D]. destruct (65535 <? _); by apply D.
Qed.

(** ** Properties *)

(** C27: Whatever the bytes of a URL (up to 65535 of them) and whatever follows
    them in memory, the URL parser runs to its end, none of its assertions
    fails, and every field it marks as set lies inside the URL, whether it
    accepts the URL or not. *)
Theorem url_fields_in_bounds (buf : string) (beyond : list ascii) (is_connect : bool) (u : http_parser_url) :
  length (field_data u) = UF_MAX -> len buf < 2 ^ 16 ->
  exists ok u', http_parser_parse_url buf beyond is_connect u = Ok (ok, u') /\
    length (field_data u') = UF_MAX /\
    forall f, has_field u' f = true -> 0 <= off u' f /\ 0 <= flen u' f /\ off u' f + flen u' f <= len buf.
Proof. apply url_fields_ok. Qed.

Lemma url_fields_in_bounds_witness :
  let u' := match http_parser_parse_url "http://u:p@[::1]:8080/a?b#c" [] false http_parser_url_init with
            | Ok (_, u') => u' | Crash _ => http_parser_url_init end in
  off u' UF_HOST = 12 /\ flen u' UF_HOST = 3 /\ off u' UF_PORT + flen u' UF_PORT <= 27.
Proof.
  cbv zeta.
  destruct (url_fields_in_bounds "http://u:p@[::1]:8080/a?b#c" [] false http_parser_url_init)
    as (ok & u' & E & _ & H); [done|by vm_compute|].
  rewrite E. specialize (H UF_PORT). vm_compute in E. injection E as <- <-.
  split; [done|]. split; [done|]. apply H. done.
Defined.

(** A target in origin form ("/path", a query and a fragment, each only
    there when it is not empty) made of characters of URLs is accepted, and its
    three parts are read back as they were; no other field is set. *)
Theorem origin_form_roundtrip (p q f : string) (beyond : list ascii) :
  path_part p = true -> url_chars q = true -> url_chars f = true ->
  len (origin_form p q f) < 2 ^ 16 ->
  exists u', http_parser_parse_url (origin_form p q f) beyond false http_parser_url_init = Ok (true, u') /\
    field_str (origin_form p q f) u' UF_PATH = p /\
    field_str (origin_form p q f) u' UF_QUERY = q /\
    field_str (origin_form p q f) u' UF_FRAGMENT = f /\
    Forall (fun g => field_str (origin_form p q f) u' g = "") [UF_SCHEMA; UF_HOST; UF_PORT; UF_USERINFO].
Proof.
  intros Hp Hq Hf Hl. exists (origin_url p q f). split; [by apply parse_origin_form|].
  apply origin_fields.
Qed.

Lemma origin_form_roundtrip_witness :
  exists u', http_parser_parse_url "/a/b?x=1#top" [] false http_parser_url_init = Ok (true, u') /\
    field_str "/a/b?x=1#top" u' UF_QUERY = "x=1".
Proof.
  destruct (origin_form_roundtrip "/a/b" "x=1" "top" []) as (u' & E & _ & H & _); [by vm_compute..|].
  exists u'. split; [exact E|exact H].
Defined.
