(* ===== verification/HttpParser.v ===== *)
(** * The HTTP/1 parser: its state and its tables (src/src/http_parser/http_parser.{h,c})

    [struct http_parser], the states of its automaton, the character tables,
    the byte-wise matchers of methods, of field names and of field values, and
    the functions that read the state.  The automaton itself is in
    [HttpExecute].  The program is compiled in strict mode, the default. *)

From S2P Require Import Prelude CppStd HttpMessages UrlParser.

(** ** [enum http_errno] *)
Inductive http_errno :=
| HPE_OK
| HPE_CB_message_begin
| HPE_CB_url
| HPE_CB_header_field
| HPE_CB_header_value
| HPE_CB_headers_complete
| HPE_CB_body
| HPE_CB_message_complete
| HPE_CB_status
| HPE_CB_chunk_header
| HPE_CB_chunk_complete
| HPE_INVALID_EOF_STATE
| HPE_HEADER_OVERFLOW
| HPE_CLOSED_CONNECTION
| HPE_INVALID_VERSION
| HPE_INVALID_STATUS
| HPE_INVALID_METHOD
| HPE_INVALID_URL
| HPE_INVALID_HOST
| HPE_INVALID_PORT
| HPE_INVALID_PATH
| HPE_INVALID_QUERY_STRING
| HPE_INVALID_FRAGMENT
| HPE_LF_EXPECTED
| HPE_INVALID_HEADER_TOKEN
| HPE_INVALID_CONTENT_LENGTH
| HPE_UNEXPECTED_CONTENT_LENGTH
| HPE_INVALID_CHUNK_SIZE
| HPE_INVALID_CONSTANT
| HPE_INVALID_INTERNAL_STATE
| HPE_STRICT
| HPE_PAUSED
| HPE_UNKNOWN.

#[export] Instance http_errno_eq_dec : EqDecision http_errno.
Proof. solve_decision. Defined.

Definition http_errnos : list http_errno :=
  [HPE_OK; HPE_CB_message_begin; HPE_CB_url; HPE_CB_header_field; HPE_CB_header_value;
   HPE_CB_headers_complete; HPE_CB_body; HPE_CB_message_complete; HPE_CB_status; HPE_CB_chunk_header;
   HPE_CB_chunk_complete; HPE_INVALID_EOF_STATE; HPE_HEADER_OVERFLOW; HPE_CLOSED_CONNECTION;
   HPE_INVALID_VERSION; HPE_INVALID_STATUS; HPE_INVALID_METHOD; HPE_INVALID_URL; HPE_INVALID_HOST;
   HPE_INVALID_PORT; HPE_INVALID_PATH; HPE_INVALID_QUERY_STRING; HPE_INVALID_FRAGMENT; HPE_LF_EXPECTED;
   HPE_INVALID_HEADER_TOKEN; HPE_INVALID_CONTENT_LENGTH; HPE_UNEXPECTED_CONTENT_LENGTH;
   HPE_INVALID_CHUNK_SIZE; HPE_INVALID_CONSTANT; HPE_INVALID_INTERNAL_STATE; HPE_STRICT; HPE_PAUSED;
   HPE_UNKNOWN].

(** The number of an error: its place in the enumeration. *)
Definition errno_code (e : http_errno) : Z :=
  match list_find (fun e' => e' = e) http_errnos with Some (n, _) => Z.of_nat n | None => 0 end.

(** ** The states *)
Inductive http_parser_type := HTTP_REQUEST | HTTP_RESPONSE | HTTP_BOTH.

#[export] Instance http_parser_type_eq_dec : EqDecision http_parser_type.
Proof. solve_decision. Defined.

(** [enum state].  The states that [parse_url_char] knows, from [s_dead] to
    [s_req_fragment], are those of [UrlParser], under [url]. *)
Inductive state :=
| url (s : UrlParser.state)
| s_start_req_or_res
| s_res_or_resp_H
| s_start_res
| s_res_H
| s_res_HT
| s_res_HTT
| s_res_HTTP
| s_res_first_http_major
| s_res_http_major
| s_res_first_http_minor
| s_res_http_minor
| s_res_first_status_code
| s_res_status_code
| s_res_status_start
| s_res_status
| s_res_line_almost_done
| s_start_req
| s_req_method
| s_req_http_start
| s_req_http_H
| s_req_http_HT
| s_req_http_HTT
| s_req_http_HTTP
| s_req_first_http_major
| s_req_http_major
| s_req_first_http_minor
| s_req_http_minor
| s_req_line_almost_done
| s_header_field_start
| s_header_field
| s_header_value_discard_ws
| s_header_value_discard_ws_almost_done
| s_header_value_discard_lws
| s_header_value_start
| s_header_value
| s_header_value_lws
| s_header_almost_done
| s_chunk_size_start
| s_chunk_size
| s_chunk_parameters
| s_chunk_size_almost_done
| s_headers_almost_done
| s_headers_done
| s_chunk_data
| s_chunk_data_almost_done
| s_chunk_data_done
| s_body_identity
| s_body_identity_eof
| s_message_done.

#[export] Instance parser_state_eq_dec : EqDecision state.
Proof. solve_decision. Defined.

(** [PARSING_HEADER]: the states up to [s_headers_done]. *)
Definition parsing_header (s : state) : bool :=
  match s with
  | s_chunk_data | s_chunk_data_almost_done | s_chunk_data_done
  | s_body_identity | s_body_identity_eof | s_message_done => false
  | _ => true
  end.

Inductive header_states :=
| h_general
| h_C
| h_CO
| h_CON
| h_matching_connection
| h_matching_proxy_connection
| h_matching_content_length
| h_matching_transfer_encoding
| h_matching_upgrade
| h_connection
| h_content_length
| h_transfer_encoding
| h_upgrade
| h_matching_transfer_encoding_chunked
| h_matching_connection_token_start
| h_matching_connection_keep_alive
| h_matching_connection_close
| h_matching_connection_upgrade
| h_matching_connection_token
| h_transfer_encoding_chunked
| h_connection_keep_alive
| h_connection_close
| h_connection_upgrade.

#[export] Instance header_states_eq_dec : EqDecision header_states.
Proof. solve_decision. Defined.

(** ** [struct http_parser] *)
Definition F_CHUNKED : Z := 1.
Definition F_CONNECTION_KEEP_ALIVE : Z := 2.
Definition F_CONNECTION_CLOSE : Z := 4.
Definition F_CONNECTION_UPGRADE : Z := 8.
Definition F_TRAILING : Z := 16.
Definition F_UPGRADE : Z := 32.
Definition F_SKIPBODY : Z := 64.
Definition F_CONTENTLENGTH : Z := 128.
Definition ULLONG_MAX : Z := 2 ^ 64 - 1.
Definition HTTP_MAX_HEADER_SIZE : Z := 80 * 1024.

(** [data], the pointer of the application, is the argument of the callbacks. *)
Record http_parser := {
  ptype : http_parser_type;
  flags : Z;
  pstate : state;
  header_state : header_states;
  index : Z;
  lenient_http_headers : bool;
  nread : Z;
  content_length : Z;
  http_major : Z;
  http_minor : Z;
  status_code : Z;
  pmethod : Z;
  errno : http_errno;
  upgrade : bool }.

Definition with_type (x : http_parser_type) (p : http_parser) : http_parser :=
  {| ptype := x; flags := flags p; pstate := pstate p; header_state := header_state p; index := index p;
     lenient_http_headers := lenient_http_headers p; nread := nread p; content_length := content_length p;
     http_major := http_major p; http_minor := http_minor p; status_code := status_code p;
     pmethod := pmethod p; errno := errno p; upgrade := upgrade p |}.
Definition with_flags (x : Z) (p : http_parser) : http_parser :=
  {| ptype := ptype p; flags := x; pstate := pstate p; header_state := header_state p; index := index p;
     lenient_http_headers := lenient_http_headers p; nread := nread p; content_length := content_length p;
     http_major := http_major p; http_minor := http_minor p; status_code := status_code p;
     pmethod := pmethod p; errno := errno p; upgrade := upgrade p |}.
Definition with_state (x : state) (p : http_parser) : http_parser :=
  {| ptype := ptype p; flags := flags p; pstate := x; header_state := header_state p; index := index p;
     lenient_http_headers := lenient_http_headers p; nread := nread p; content_length := content_length p;
     http_major := http_major p; http_minor := http_minor p; status_code := status_code p;
     pmethod := pmethod p; errno := errno p; upgrade := upgrade p |}.
Definition with_header_state (x : header_states) (p : http_parser) : http_parser :=
  {| ptype := ptype p; flags := flags p; pstate := pstate p; header_state := x; index := index p;
     lenient_http_headers := lenient_http_headers p; nread := nread p; content_length := content_length p;
     http_major := http_major p; http_minor := http_minor p; status_code := status_code p;
     pmethod := pmethod p; errno := errno p; upgrade := upgrade p |}.
Definition with_index (x : Z) (p : http_parser) : http_parser :=
  {| ptype := ptype p; flags := flags p; pstate := pstate p; header_state := header_state p; index := x;
     lenient_http_headers := lenient_http_headers p; nread := nread p; content_length := content_length p;
     http_major := http_major p; http_minor := http_minor p; status_code := status_code p;
     pmethod := pmethod p; errno := errno p; upgrade := upgrade p |}.
Definition with_nread (x : Z) (p : http_parser) : http_parser :=
  {| ptype := ptype p; flags := flags p; pstate := pstate p; header_state := header_state p;
     index := index p; lenient_http_headers := lenient_http_headers p; nread := x;
     content_length := content_length p; http_major := http_major p; http_minor := http_minor p;
     status_code := status_code p; pmethod := pmethod p; errno := errno p; upgrade := upgrade p |}.
Definition with_content_length (x : Z) (p : http_parser) : http_parser :=
  {| ptype := ptype p; flags := flags p; pstate := pstate p; header_state := header_state p;
     index := index p; lenient_http_headers := lenient_http_headers p; nread := nread p;
     content_length := x; http_major := http_major p; http_minor := http_minor p;
     status_code := status_code p; pmethod := pmethod p; errno := errno p; upgrade := upgrade p |}.
Definition with_http_major (x : Z) (p : http_parser) : http_parser :=
  {| ptype := ptype p; flags := flags p; pstate := pstate p; header_state := header_state p;
     index := index p; lenient_http_headers := lenient_http_headers p; nread := nread p;
     content_length := content_length p; http_major := x; http_minor := http_minor p;
     status_code := status_code p; pmethod := pmethod p; errno := errno p; upgrade := upgrade p |}.
Definition with_http_minor (x : Z) (p : http_parser) : http_parser :=
  {| ptype := ptype p; flags := flags p; pstate := pstate p; header_state := header_state p;
     index := index p; lenient_http_headers := lenient_http_headers p; nread := nread p;
     content_length := content_length p; http_major := http_major p; http_minor := x;
     status_code := status_code p; pmethod := pmethod p; errno := errno p; upgrade := upgrade p |}.
Definition with_status_code (x : Z) (p : http_parser) : http_parser :=
  {| ptype := ptype p; flags := flags p; pstate := pstate p; header_state := header_state p;
     index := index p; lenient_http_headers := lenient_http_headers p; nread := nread p;
     content_length := content_length p; http_major := http_major p; http_minor := http_minor p;
     status_code := x; pmethod := pmethod p; errno := errno p; upgrade := upgrade p |}.
Definition with_method (x : Z) (p : http_parser) : http_parser :=
  {| ptype := ptype p; flags := flags p; pstate := pstate p; header_state := header_state p;
     index := index p; lenient_http_headers := lenient_http_headers p; nread := nread p;
     content_length := content_length p; http_major := http_major p; http_minor := http_minor p;
     status_code := status_code p; pmethod := x; errno := errno p; upgrade := upgrade p |}.
Definition with_errno (x : http_errno) (p : http_parser) : http_parser :=
  {| ptype := ptype p; flags := flags p; pstate := pstate p; header_state := header_state p;
     index := index p; lenient_http_headers := lenient_http_headers p; nread := nread p;
     content_length := content_length p; http_major := http_major p; http_minor := http_minor p;
     status_code := status_code p; pmethod := pmethod p; errno := x; upgrade := upgrade p |}.
Definition with_upgrade (x : bool) (p : http_parser) : http_parser :=
  {| ptype := ptype p; flags := flags p; pstate := pstate p; header_state := header_state p;
     index := index p; lenient_http_headers := lenient_http_headers p; nread := nread p;
     content_length := content_length p; http_major := http_major p; http_minor := http_minor p;
     status_code := status_code p; pmethod := pmethod p; errno := errno p; upgrade := x |}.

Definition has_flag (p : http_parser) (f : Z) : bool := negb (Z.land (flags p) f =? 0).
Definition set_flag (f : Z) (p : http_parser) : http_parser := with_flags (Z.lor (flags p) f) p.

Definition start_state (p : http_parser) : state :=
  if bool_decide (ptype p = HTTP_REQUEST) then s_start_req else s_start_res.

Definition http_parser_init (t : http_parser_type) : http_parser :=
  {| ptype := t; flags := 0;
     pstate := match t with
               | HTTP_REQUEST => s_start_req
               | HTTP_RESPONSE => s_start_res
               | HTTP_BOTH => s_start_req_or_res
               end;
     header_state := h_general; index := 0; lenient_http_headers := false; nread := 0;
     content_length := 0; http_major := 0; http_minor := 0; status_code := 0; pmethod := 0;
     errno := HPE_OK; upgrade := false |}.

(** ** What is read of the state *)
Definition http_message_needs_eof (p : http_parser) : bool :=
  if bool_decide (ptype p = HTTP_REQUEST) then false
  else if (status_code p ÷ 100 =? 1) || (status_code p =? 204) || (status_code p =? 304)
          || has_flag p F_SKIPBODY then false
  else negb (has_flag p F_CHUNKED || negb (content_length p =? ULLONG_MAX)).

Definition http_should_keep_alive (p : http_parser) : bool :=
  if (0 <? http_major p) && (0 <? http_minor p) then
    if has_flag p F_CONNECTION_CLOSE then false else negb (http_message_needs_eof p)
  else if negb (has_flag p F_CONNECTION_KEEP_ALIVE) then false
  else negb (http_message_needs_eof p).

Definition http_body_is_final (p : http_parser) : bool := bool_decide (pstate p = s_message_done).

(** [NEW_MESSAGE()] *)
Definition new_message (p : http_parser) : state :=
  if http_should_keep_alive p then start_state p else url s_dead.

(** [http_parser_pause]: only without an error, or paused. *)
Definition http_parser_pause (paused : bool) (p : http_parser) : outcome http_parser :=
  if bool_decide (errno p = HPE_OK) || bool_decide (errno p = HPE_PAUSED)
  then mret (with_errno (if paused then HPE_PAUSED else HPE_OK) p)
  else Crash AssertFailed.

(** ** Characters *)
Definition CR : ascii := "013"%char.
Definition LF : ascii := "010"%char.
Definition TAB : ascii := "009"%char.
Definition is_ch (c ch : ascii) : bool := Ascii.eqb ch c.

(** [tokens]: the characters of a token, in lower case; 0 for the others. *)
Definition tokens : list Z :=
  [0; 0; 0; 0; 0; 0; 0; 0; 0; 0; 0; 0; 0; 0; 0; 0; 0; 0; 0; 0; 0; 0; 0; 0; 0; 0; 0; 0; 0; 0; 0; 0;
   0; 33; 0; 35; 36; 37; 38; 39; 0; 0; 42; 43; 0; 45; 46; 0;
   48; 49; 50; 51; 52; 53; 54; 55; 56; 57; 0; 0; 0; 0; 0; 0;
   0; 97; 98; 99; 100; 101; 102; 103; 104; 105; 106; 107; 108; 109; 110; 111;
   112; 113; 114; 115; 116; 117; 118; 119; 120; 121; 122; 0; 0; 0; 94; 95;
   96; 97; 98; 99; 100; 101; 102; 103; 104; 105; 106; 107; 108; 109; 110; 111;
   112; 113; 114; 115; 116; 117; 118; 119; 120; 121; 122; 0; 124; 0; 126; 0].

(** The table has 256 entries; those that are not written are 0. *)
Definition token (c : Z) : Z := default 0 (tokens !! Z.to_nat c).

(** [unhex]: the upper half is not written, hence 0 and not -1. *)
Definition unhex_table : list Z :=
  replicate 48 (-1) ++ [0; 1; 2; 3; 4; 5; 6; 7; 8; 9] ++ replicate 7 (-1) ++ [10; 11; 12; 13; 14; 15]
  ++ replicate 26 (-1) ++ [10; 11; 12; 13; 14; 15] ++ replicate 25 (-1).
Definition unhex (c : ascii) : Z := default 0 (unhex_table !! Z.to_nat (byte_of c)).

Definition is_header_char (ch : ascii) : bool :=
  is_ch CR ch || is_ch LF ch || is_ch TAB ch || ((31 <? byte_of ch) && negb (byte_of ch =? 127)).

Definition digit (ch : ascii) : Z := byte_of ch - 48.

(** [s[i]] of a C string, its terminator included; [None] beyond it. *)
Definition c_char (s : string) (i : Z) : option Z := ((byte_of <$> chars s) ++ [0]) !! Z.to_nat i.

(** ** Methods *)
Definition method_strings : list string :=
  ["DELETE"; "GET"; "HEAD"; "POST"; "PUT"; "CONNECT"; "OPTIONS"; "TRACE";
   "COPY"; "LOCK"; "MKCOL"; "MOVE"; "PROPFIND"; "PROPPATCH"; "SEARCH"; "UNLOCK";
   "BIND"; "REBIND"; "UNBIND"; "ACL"; "REPORT"; "MKACTIVITY"; "CHECKOUT"; "MERGE";
   "M-SEARCH"; "NOTIFY"; "SUBSCRIBE"; "UNSUBSCRIBE"; "PATCH"; "PURGE"; "MKCALENDAR"; "LINK";
   "UNLINK"].

Definition http_method_str (m : Z) : string :=
  if (0 <=? m) then default "<unknown>" (method_strings !! Z.to_nat m) else "<unknown>".

(** The method guessed from the first letter. *)
Definition first_method (ch : ascii) : option Z :=
  match ch with
  | "A"%char => Some HTTP_ACL
  | "B"%char => Some HTTP_BIND
  | "C"%char => Some HTTP_CONNECT
  | "D"%char => Some HTTP_DELETE
  | "G"%char => Some HTTP_GET
  | "H"%char => Some HTTP_HEAD
  | "L"%char => Some HTTP_LOCK
  | "M"%char => Some HTTP_MKCOL
  | "N"%char => Some HTTP_NOTIFY
  | "O"%char => Some HTTP_OPTIONS
  | "P"%char => Some HTTP_POST
  | "R"%char => Some HTTP_REPORT
  | "S"%char => Some HTTP_SUBSCRIBE
  | "T"%char => Some HTTP_TRACE
  | "U"%char => Some HTTP_UNLOCK
  | _ => None
  end.

(** The table of the corrections: the method so far, the index, the letter. *)
Definition method_corrections : list (Z * Z * ascii * Z) :=
  [(HTTP_POST, 1, "U"%char, HTTP_PUT);
   (HTTP_POST, 1, "A"%char, HTTP_PATCH);
   (HTTP_CONNECT, 1, "H"%char, HTTP_CHECKOUT);
   (HTTP_CONNECT, 2, "P"%char, HTTP_COPY);
   (HTTP_MKCOL, 1, "O"%char, HTTP_MOVE);
   (HTTP_MKCOL, 1, "E"%char, HTTP_MERGE);
   (HTTP_MKCOL, 2, "A"%char, HTTP_MKACTIVITY);
   (HTTP_MKCOL, 3, "A"%char, HTTP_MKCALENDAR);
   (HTTP_SUBSCRIBE, 1, "E"%char, HTTP_SEARCH);
   (HTTP_REPORT, 2, "B"%char, HTTP_REBIND);
   (HTTP_POST, 1, "R"%char, HTTP_PROPFIND);
   (HTTP_PROPFIND, 4, "P"%char, HTTP_PROPPATCH);
   (HTTP_PUT, 2, "R"%char, HTTP_PURGE);
   (HTTP_LOCK, 1, "I"%char, HTTP_LINK);
   (HTTP_UNLOCK, 2, "S"%char, HTTP_UNSUBSCRIBE);
   (HTTP_UNLOCK, 2, "B"%char, HTTP_UNBIND);
   (HTTP_UNLOCK, 3, "I"%char, HTTP_UNLINK)].

Definition corrected_method (m i : Z) (ch : ascii) : option Z :=
  snd <$> List.find (fun '(m', i', ch', _) => (m' =? m) && (i' =? i) && is_ch ch' ch) method_corrections.

(** ** Field names *)
Definition CONNECTION : string := "connection".
Definition PROXY_CONNECTION : string := "proxy-connection".
Definition CONTENT_LENGTH : string := "content-length".
Definition TRANSFER_ENCODING : string := "transfer-encoding".
Definition UPGRADE : string := "upgrade".
Definition CHUNKED : string := "chunked".
Definition KEEP_ALIVE : string := "keep-alive".
Definition CLOSE : string := "close".

(** [++index], 7 bits. *)
Definition bump (p : http_parser) : http_parser := with_index (wrap 7 (index p + 1)) p.

(** The comparison of a character with a word, at the index: a mismatch
    ([None]), or a match that completes the word or not. *)
Definition match_word (word : string) (i c : Z) : option bool :=
  if (len word <? i) || bool_decide (c_char word i <> Some c) then None
  else Some (i =? len word - 1).

(** The [h_matching_*] cases: the word is left, complete, or goes on. *)
Definition match_header (word : string) (complete : header_states) (c : Z) (p : http_parser) : http_parser :=
  let p := bump p in
  match match_word word (index p) c with
  | None => with_header_state h_general p
  | Some true => with_header_state complete p
  | Some false => p
  end.

(** One character of a field name, [c] its token: an error, if it is one. *)
Definition field_char (ch : ascii) (c : Z) (p : http_parser) : outcome (option http_errno * http_parser) :=
  match header_state p with
  | h_general => mret (None, p)
  | h_C => mret (None, with_header_state (if c =? 111 then h_CO else h_general) (bump p))
  | h_CO => mret (None, with_header_state (if c =? 110 then h_CON else h_general) (bump p))
  | h_CON =>
      mret (None, with_header_state
                    (if c =? 110 then h_matching_connection
                     else if c =? 116 then h_matching_content_length else h_general) (bump p))
  | h_matching_connection => mret (None, match_header CONNECTION h_connection c p)
  | h_matching_proxy_connection => mret (None, match_header PROXY_CONNECTION h_connection c p)
  | h_matching_content_length =>
      let q := match_header CONTENT_LENGTH h_content_length c p in
      if bool_decide (header_state q = h_content_length) then
        if has_flag p F_CONTENTLENGTH then mret (Some HPE_UNEXPECTED_CONTENT_LENGTH, bump p)
        else mret (None, set_flag F_CONTENTLENGTH q)
      else mret (None, q)
  | h_matching_transfer_encoding => mret (None, match_header TRANSFER_ENCODING h_transfer_encoding c p)
  | h_matching_upgrade => mret (None, match_header UPGRADE h_upgrade c p)
  | h_connection | h_content_length | h_transfer_encoding | h_upgrade =>
      mret (None, if is_ch " "%char ch then p else with_header_state h_general p)
  | _ => Crash AssertFailed
  end.

(** The loop over a field name stops at a character that is no token, at the end
    of the data, or at an error; the number counts the characters before. *)
Inductive field_stop := no_token (ch : ascii) | field_end | field_error (e : http_errno).

Fixpoint field_loop (l : list ascii) (n : nat) (p : http_parser) : outcome (field_stop * nat * http_parser) :=
  match l with
  | [] => mret (field_end, n, p)
  | ch :: l =>
      let c := token (byte_of ch) in
      if c =? 0 then mret (no_token ch, n, p)
      else
        '(e, p) ← field_char ch c p;
        match e with
        | Some e => mret (field_error e, n, p)
        | None => field_loop l (S n) p
        end
  end.

(** The first character of a name that has a known one. *)
Definition first_header_state (c : Z) : header_states :=
  if c =? 99 then h_C
  else if c =? 112 then h_matching_proxy_connection
  else if c =? 116 then h_matching_transfer_encoding
  else if c =? 117 then h_matching_upgrade
  else h_general.

(** ** Field values *)

(** The first character of a value. *)
Definition value_start (ch : ascii) (p : http_parser) : option http_errno * http_parser :=
  let c := LOWER ch in
  match header_state p with
  | h_upgrade => (None, with_header_state h_general (set_flag F_UPGRADE p))
  | h_transfer_encoding =>
      (None, with_header_state (if c =? 99 then h_matching_transfer_encoding_chunked else h_general) p)
  | h_content_length =>
      if is_num ch then (None, with_content_length (digit ch) p) else (Some HPE_INVALID_CONTENT_LENGTH, p)
  | h_connection =>
      (None, with_header_state
               (if c =? 107 then h_matching_connection_keep_alive
                else if c =? 99 then h_matching_connection_close
                else if c =? 117 then h_matching_connection_upgrade
                else h_matching_connection_token) p)
  | h_matching_connection_token_start => (None, p)
  | _ => (None, with_header_state h_general p)
  end.

(** [u * b + d] on 64 bits, or an error when it might overflow: [limit] is 10
    for lengths in decimal and 16 for chunk sizes. *)
Definition add_digit (b d : Z) (p : http_parser) : option http_parser :=
  let t := u64 (u64 (content_length p * b) + d) in
  if (ULLONG_MAX - b) / b <? content_length p then None else Some (with_content_length t p).

(** [match_header], for the state of a value. *)
Definition match_value (word : string) (complete other : header_states) (h : header_states) (c : Z)
    (p : http_parser) : header_states * http_parser :=
  let p := bump p in
  (match match_word word (index p) c with None => other | Some true => complete | Some false => h end, p).

(** The flag of a word of a [Connection] field that was recognised. *)
Definition connection_flag (h : header_states) (p : http_parser) : http_parser :=
  match h with
  | h_connection_keep_alive => set_flag F_CONNECTION_KEEP_ALIVE p
  | h_connection_close => set_flag F_CONNECTION_CLOSE p
  | h_connection_upgrade => set_flag F_CONNECTION_UPGRADE p
  | _ => p
  end.

(** One character of a value, [h] being the local [h_state]; the jump of
    [h_general] is in [value_loop]. *)
Definition value_char (ch : ascii) (h : header_states) (p : http_parser)
    : outcome (option http_errno * header_states * http_parser) :=
  let c := LOWER ch in
  match h with
  | h_general => mret (None, h, p)
  | h_connection | h_transfer_encoding => Crash AssertFailed
  | h_content_length =>
      if is_ch " "%char ch then mret (None, h, p)
      else if negb (is_num ch) then mret (Some HPE_INVALID_CONTENT_LENGTH, h, with_header_state h p)
      else match add_digit 10 (digit ch) p with
           | None => mret (Some HPE_INVALID_CONTENT_LENGTH, h, with_header_state h p)
           | Some p => mret (None, h, p)
           end
  | h_matching_transfer_encoding_chunked =>
      let '(h, p) := match_value CHUNKED h_transfer_encoding_chunked h_general h c p in mret (None, h, p)
  | h_matching_connection_token_start =>
      let h := if c =? 107 then h_matching_connection_keep_alive
               else if c =? 99 then h_matching_connection_close
               else if c =? 117 then h_matching_connection_upgrade
               else if negb (token c =? 0) then h_matching_connection_token
               else if (c =? 32) || (c =? 9) then h
               else h_general in
      mret (None, h, p)
  | h_matching_connection_keep_alive =>
      let '(h, p) := match_value KEEP_ALIVE h_connection_keep_alive h_matching_connection_token h c p in
      mret (None, h, p)
  | h_matching_connection_close =>
      let '(h, p) := match_value CLOSE h_connection_close h_matching_connection_token h c p in
      mret (None, h, p)
  | h_matching_connection_upgrade =>
      let '(h, p) := match_value UPGRADE h_connection_upgrade h_matching_connection_token h c p in
      mret (None, h, p)
  | h_matching_connection_token =>
      if is_ch ","%char ch then mret (None, h_matching_connection_token_start, with_index 0 p)
      else mret (None, h, p)
  | h_transfer_encoding_chunked =>
      mret (None, if is_ch " "%char ch then h else h_general, p)
  | h_connection_keep_alive | h_connection_close | h_connection_upgrade =>
      if is_ch ","%char ch then
        mret (None, h_matching_connection_token_start, with_index 0 (connection_flag h p))
      else mret (None, if is_ch " "%char ch then h else h_matching_connection_token, p)
  | _ => mret (None, h_general, p)
  end.

(** [memchr] of a character in the first [limit] ones. *)
Definition memchr (c : ascii) (limit : nat) (l : list ascii) : option nat :=
  fst <$> list_find (fun ch => ch = c) (take limit l).

(** The characters of a plain value are not looked at: the distance to the CR
    or the LF that ends it, or to the end of the data. *)
Definition value_jump (l : list ascii) : nat :=
  let limit := Z.to_nat (Z.min (Z.of_nat (length l)) HTTP_MAX_HEADER_SIZE) in
  match memchr CR limit l, memchr LF limit l with
  | Some cr, Some lf => if (lf <=? cr)%nat then lf else cr
  | Some cr, None => cr
  | None, Some lf => lf
  | None, None => length l
  end.

(** The loop over a value stops at a CR, at a LF, at the end of the data or at an
    error; [skip] characters are jumped over. *)
Inductive value_stop := at_cr | at_lf | value_end | value_error (e : http_errno).

Fixpoint value_loop (lenient : bool) (l : list ascii) (n skip : nat) (h : header_states) (p : http_parser)
    : outcome (value_stop * nat * header_states * http_parser) :=
  match l with
  | [] => mret (value_end, n, h, p)
  | ch :: l' =>
      match skip with
      | S skip => value_loop lenient l' (S n) skip h p
      | O =>
          if is_ch CR ch then mret (at_cr, n, h, p)
          else if is_ch LF ch then mret (at_lf, n, h, p)
          else if negb lenient && negb (is_header_char ch) then
            mret (value_error HPE_INVALID_HEADER_TOKEN, n, h, p)
          else if bool_decide (h = h_general) then
            value_loop lenient l' (S n) (pred (value_jump l)) h p
          else
            '(e, h, p) ← value_char ch h p;
            match e with
            | Some e => mret (value_error e, n, h, p)
            | None => value_loop lenient l' (S n) 0 h p
            end
      end
  end.

(** The flags a field leaves when its value is over. *)
Definition finished_header (p : http_parser) : http_parser :=
  match header_state p with
  | h_transfer_encoding_chunked => set_flag F_CHUNKED p
  | h => connection_flag h p
  end.
