(* ===== verification/HttpExecute.v ===== *)
(** * The HTTP/1 parser: the automaton (src/src/http_parser/http_parser.c)

    [http_parser_execute]: the locals of the function are the record [frame],
    one pass through the [switch] is [switch], one definition for each group of
    its cases, and the loop over the bytes is [loop].  The callbacks are
    functions on the parser, which they may change, and on a state [C] of their
    own. *)

From S2P Require Import Prelude CppStd HttpMessages UrlParser HttpParser.

(** ** The callbacks *)
Inductive notification :=
| message_begin
| headers_complete
| message_complete
| chunk_header
| chunk_complete.

Inductive data_kind :=
| header_field
| header_value
| url_data
| body
| status.

#[export] Instance data_kind_eq_dec : EqDecision data_kind.
Proof. solve_decision. Defined.

Definition cb_errno (n : notification) : http_errno :=
  match n with
  | message_begin => HPE_CB_message_begin
  | headers_complete => HPE_CB_headers_complete
  | message_complete => HPE_CB_message_complete
  | chunk_header => HPE_CB_chunk_header
  | chunk_complete => HPE_CB_chunk_complete
  end.

Definition cb_data_errno (k : data_kind) : http_errno :=
  match k with
  | header_field => HPE_CB_header_field
  | header_value => HPE_CB_header_value
  | url_data => HPE_CB_url
  | body => HPE_CB_body
  | status => HPE_CB_status
  end.

(** A null pointer is [None].  A data callback is given a pointer and a length:
    the bytes, and what follows them in memory. *)
Record http_parser_settings (C : Type) := {
  on_notify : notification -> option (http_parser -> C -> outcome (Z * http_parser * C));
  on_data : data_kind ->
    option (string -> list ascii -> http_parser -> C -> outcome (Z * http_parser * C)) }.
Arguments on_notify {C} _ _.
Arguments on_data {C} _ _.

(** ** The locals of [http_parser_execute]: [cur] is [p_state], [pos] is [p - data]. *)
Record frame (C : Type) := {
  parser : http_parser;
  client : C;
  cur : state;
  pos : nat;
  marks : data_kind -> option nat }.
Arguments parser {C} _.
Arguments client {C} _.
Arguments cur {C} _.
Arguments pos {C} _.
Arguments marks {C} _ _.

(** How a pass through the [switch] ends: [break], [goto reexecute], [return]. *)
Inductive after (C : Type) :=
| Break (f : frame C)
| Reexecute (f : frame C)
| Return (n : nat) (f : frame C).
Arguments Break {C} _.
Arguments Reexecute {C} _.
Arguments Return {C} _ _.

Section Execute.
Context {C : Type} (settings : http_parser_settings C).
(** The data, and what follows them in memory. *)
Context (data beyond : list ascii).

Implicit Types (f : frame C) (p : http_parser) (ch : ascii).

Definition on_parser (g : http_parser -> http_parser) f : frame C :=
  {| parser := g (parser f); client := client f; cur := cur f; pos := pos f; marks := marks f |}.
Definition update_state (s : state) f : frame C :=
  {| parser := parser f; client := client f; cur := s; pos := pos f; marks := marks f |}.
Definition move (n : nat) f : frame C :=
  {| parser := parser f; client := client f; cur := cur f; pos := n; marks := marks f |}.
Definition set_mark (k : data_kind) (m : option nat) f : frame C :=
  {| parser := parser f; client := client f; cur := cur f; pos := pos f;
     marks := fun k' => if decide (k' = k) then m else marks f k' |}.
(** [MARK]: an old mark stays. *)
Definition mark (k : data_kind) f : frame C :=
  match marks f k with None => set_mark k (Some (pos f)) f | Some _ => f end.

(** [UPDATE_STATE(s); break] *)
Definition goto (s : state) f : outcome (after C) := mret (Break (update_state s f)).
(** [SET_ERRNO(e); goto error] *)
Definition fail (e : http_errno) f : outcome (after C) := mret (Return (pos f) (on_parser (with_errno e) f)).
Definition strict_check (bad : bool) f (k : outcome (after C)) : outcome (after C) :=
  if bad then fail HPE_STRICT f else k.

(** [COUNT_HEADER_SIZE] *)
Definition count_header_size (n : nat) f (k : frame C -> outcome (after C)) : outcome (after C) :=
  let f := on_parser (fun p => with_nread (u32 (nread p + Z.of_nat n)) p) f in
  if HTTP_MAX_HEADER_SIZE <? nread (parser f) then fail HPE_HEADER_OVERFLOW f else k f.

(** A callback is run with the state of the frame in the parser; the state it
    leaves there is taken back.  [er]: what is returned when it fails, or
    pauses. *)
Definition called (cb : http_parser -> C -> outcome (Z * http_parser * C)) (e : http_errno) (er : nat) f
    (k : frame C -> outcome (after C)) : outcome (after C) :=
  '(r, p, c) ← cb (with_state (cur f) (parser f)) (client f);
  let p := if r =? 0 then p else with_errno e p in
  let f := {| parser := p; client := c; cur := pstate p; pos := pos f; marks := marks f |} in
  if bool_decide (errno p = HPE_OK) then k f else mret (Return er f).

Definition callback_notify (n : notification) (er : nat) f (k : frame C -> outcome (after C))
    : outcome (after C) :=
  _ ← cassert (bool_decide (errno (parser f) = HPE_OK));
  match on_notify settings n with
  | None => k f
  | Some cb => called cb (cb_errno n) er f k
  end.

(** [CALLBACK_DATA_]: [upto] is the end of the data. *)
Definition callback_data (d : data_kind) (upto er : nat) f (k : frame C -> outcome (after C))
    : outcome (after C) :=
  _ ← cassert (bool_decide (errno (parser f) = HPE_OK));
  match marks f d with
  | None => k f
  | Some m =>
      match on_data settings d with
      | None => k (set_mark d None f)
      | Some cb =>
          called (cb (of_chars (take (upto - m) (drop m data))) (drop upto data ++ beyond))
            (cb_data_errno d) er f (fun f => k (set_mark d None f))
      end
  end.

Definition break (f : frame C) : outcome (after C) := mret (Break f).
Definition reexecute (f : frame C) : outcome (after C) := mret (Reexecute f).

(** ** The status line and the request line *)

(** One more digit of a number of three digits at most, 16 bits wide. *)
Definition more_digits (get : http_parser -> Z) (set : Z -> http_parser -> http_parser) (e : http_errno)
    ch f : outcome (after C) :=
  let v := wrap 16 (wrap 16 (get (parser f) * 10) + digit ch) in
  let f := on_parser (set v) f in
  if 999 <? v then fail e f else break f.

(** [flags = 0; content_length = ULLONG_MAX] *)
Definition clear_message f : frame C := on_parser (fun p => with_content_length ULLONG_MAX (with_flags 0 p)) f.

Definition run_start_req_or_res ch f : outcome (after C) :=
  if is_ch CR ch || is_ch LF ch then break f
  else
    let f := clear_message f in
    if is_ch "H"%char ch then
      callback_notify message_begin (S (pos f)) (update_state s_res_or_resp_H f) break
    else reexecute (update_state s_start_req (on_parser (with_type HTTP_REQUEST) f)).

Definition run_res_or_resp_H ch f : outcome (after C) :=
  if is_ch "T"%char ch then goto s_res_HT (on_parser (with_type HTTP_RESPONSE) f)
  else if negb (is_ch "E"%char ch) then fail HPE_INVALID_CONSTANT f
  else goto s_req_method
         (on_parser (fun p => with_index 2 (with_method HTTP_HEAD (with_type HTTP_REQUEST p))) f).

Definition run_start_res ch f : outcome (after C) :=
  let f := clear_message f in
  let begin f := callback_notify message_begin (S (pos f)) f break in
  if is_ch "H"%char ch then begin (update_state s_res_H f)
  else if is_ch CR ch || is_ch LF ch then begin f
  else fail HPE_INVALID_CONSTANT f.

(** A letter of [HTTP/]. *)
Definition expect (c : ascii) (s : state) ch f : outcome (after C) :=
  strict_check (negb (is_ch c ch)) f (goto s f).

Definition run_res_version (s : state) ch f : outcome (after C) :=
  match s with
  | s_res_H => expect "T"%char s_res_HT ch f
  | s_res_HT => expect "T"%char s_res_HTT ch f
  | s_res_HTT => expect "P"%char s_res_HTTP ch f
  | s_res_HTTP => expect "/"%char s_res_first_http_major ch f
  | s_res_first_http_major =>
      if negb (is_num ch) then fail HPE_INVALID_VERSION f
      else goto s_res_http_major (on_parser (with_http_major (digit ch)) f)
  | s_res_http_major =>
      if is_ch "."%char ch then goto s_res_first_http_minor f
      else if negb (is_num ch) then fail HPE_INVALID_VERSION f
      else more_digits http_major with_http_major HPE_INVALID_VERSION ch f
  | s_res_first_http_minor =>
      if negb (is_num ch) then fail HPE_INVALID_VERSION f
      else goto s_res_http_minor (on_parser (with_http_minor (digit ch)) f)
  | _ (* s_res_http_minor *) =>
      if is_ch " "%char ch then goto s_res_first_status_code f
      else if negb (is_num ch) then fail HPE_INVALID_VERSION f
      else more_digits http_minor with_http_minor HPE_INVALID_VERSION ch f
  end.

Definition run_res_status (s : state) ch f : outcome (after C) :=
  match s with
  | s_res_first_status_code =>
      if negb (is_num ch) then
        if is_ch " "%char ch then break f else fail HPE_INVALID_STATUS f
      else goto s_res_status_code (on_parser (with_status_code (digit ch)) f)
  | s_res_status_code =>
      if negb (is_num ch) then
        if is_ch " "%char ch then goto s_res_status_start f
        else if is_ch CR ch then goto s_res_line_almost_done f
        else if is_ch LF ch then goto s_header_field_start f
        else fail HPE_INVALID_STATUS f
      else more_digits status_code with_status_code HPE_INVALID_STATUS ch f
  | s_res_status_start =>
      if is_ch CR ch then goto s_res_line_almost_done f
      else if is_ch LF ch then goto s_header_field_start f
      else break (on_parser (with_index 0) (update_state s_res_status (mark status f)))
  | s_res_status =>
      if is_ch CR ch then
        callback_data status (pos f) (S (pos f)) (update_state s_res_line_almost_done f) break
      else if is_ch LF ch then
        callback_data status (pos f) (S (pos f)) (update_state s_header_field_start f) break
      else break f
  | _ (* s_res_line_almost_done *) => strict_check (negb (is_ch LF ch)) f (goto s_header_field_start f)
  end.

Definition run_start_req ch f : outcome (after C) :=
  if is_ch CR ch || is_ch LF ch then break f
  else
    let f := clear_message f in
    if negb (is_alpha ch) then fail HPE_INVALID_METHOD f
    else
      let f := on_parser (fun p => with_index 1 (with_method 0 p)) f in
      match first_method ch with
      | None => fail HPE_INVALID_METHOD f
      | Some m =>
          callback_notify message_begin (S (pos f))
            (update_state s_req_method (on_parser (with_method m) f)) break
      end.

(** [matcher[index]] is undefined beyond the terminator of the string. *)
Definition run_req_method ch f : outcome (after C) :=
  let p := parser f in
  if byte_of ch =? 0 then fail HPE_INVALID_METHOD f
  else
    matcher ← of_option Undefined (method_strings !! Z.to_nat (pmethod p));
    m ← of_option Undefined (c_char matcher (index p));
    if is_ch " "%char ch && (m =? 0) then goto (url s_req_spaces_before_url) (on_parser bump f)
    else if byte_of ch =? m then break (on_parser bump f)
    else if is_alpha ch then
      match corrected_method (pmethod p) (index p) ch with
      | Some m => break (on_parser (fun p => bump (with_method m p)) f)
      | None => fail HPE_INVALID_METHOD f
      end
    else if is_ch "-"%char ch && (index p =? 1) && (pmethod p =? HTTP_MKCOL) then
      break (on_parser (fun p => bump (with_method HTTP_MSEARCH p)) f)
    else fail HPE_INVALID_METHOD f.

(** [UPDATE_STATE(parse_url_char(CURRENT_STATE(), ch))] *)
Definition url_step (s : UrlParser.state) ch f : outcome (after C) :=
  let s := parse_url_char s ch in
  let f := update_state (url s) f in
  if bool_decide (s = s_dead) then fail HPE_INVALID_URL f else break f.

Definition run_url (s : UrlParser.state) ch f : outcome (after C) :=
  match s with
  | s_dead => if is_ch CR ch || is_ch LF ch then break f else fail HPE_CLOSED_CONNECTION f
  | s_req_spaces_before_url =>
      if is_ch " "%char ch then break f
      else
        let f := mark url_data f in
        url_step (if pmethod (parser f) =? HTTP_CONNECT then s_req_server_start else s) ch f
  | s_req_schema | s_req_schema_slash | s_req_schema_slash_slash | s_req_server_start =>
      if is_ch " "%char ch || is_ch CR ch || is_ch LF ch then fail HPE_INVALID_URL f
      else url_step s ch f
  | _ =>
      if is_ch " "%char ch then
        callback_data url_data (pos f) (S (pos f)) (update_state s_req_http_start f) break
      else if is_ch CR ch || is_ch LF ch then
        callback_data url_data (pos f) (S (pos f))
          (update_state (if is_ch CR ch then s_req_line_almost_done else s_header_field_start)
            (on_parser (fun p => with_http_minor 9 (with_http_major 0 p)) f)) break
      else url_step s ch f
  end.

Definition run_req_version (s : state) ch f : outcome (after C) :=
  match s with
  | s_req_http_start =>
      if is_ch "H"%char ch then goto s_req_http_H f
      else if is_ch " "%char ch then break f
      else fail HPE_INVALID_CONSTANT f
  | s_req_http_H => expect "T"%char s_req_http_HT ch f
  | s_req_http_HT => expect "T"%char s_req_http_HTT ch f
  | s_req_http_HTT => expect "P"%char s_req_http_HTTP ch f
  | s_req_http_HTTP => expect "/"%char s_req_first_http_major ch f
  | s_req_first_http_major =>
      if negb (in_class 49 57 ch) then fail HPE_INVALID_VERSION f
      else goto s_req_http_major (on_parser (with_http_major (digit ch)) f)
  | s_req_http_major =>
      if is_ch "."%char ch then goto s_req_first_http_minor f
      else if negb (is_num ch) then fail HPE_INVALID_VERSION f
      else more_digits http_major with_http_major HPE_INVALID_VERSION ch f
  | s_req_first_http_minor =>
      if negb (is_num ch) then fail HPE_INVALID_VERSION f
      else goto s_req_http_minor (on_parser (with_http_minor (digit ch)) f)
  | s_req_http_minor =>
      if is_ch CR ch then goto s_req_line_almost_done f
      else if is_ch LF ch then goto s_header_field_start f
      else if negb (is_num ch) then fail HPE_INVALID_VERSION f
      else more_digits http_minor with_http_minor HPE_INVALID_VERSION ch f
  | _ (* s_req_line_almost_done *) =>
      if negb (is_ch LF ch) then fail HPE_LF_EXPECTED f else goto s_header_field_start f
  end.

(** ** The fields *)
Definition run_header_field_start ch f : outcome (after C) :=
  if is_ch CR ch then goto s_headers_almost_done f
  else if is_ch LF ch then reexecute (update_state s_headers_almost_done f)
  else
    let c := token (byte_of ch) in
    if c =? 0 then fail HPE_INVALID_HEADER_TOKEN f
    else
      break (update_state s_header_field
        (on_parser (fun p => with_header_state (first_header_state c) (with_index 0 p))
          (mark header_field f))).

Definition run_header_field f : outcome (after C) :=
  let start := pos f in
  '(stop, n, p) ← field_loop (drop start data) 0 (parser f);
  let f := move (start + n) (on_parser (fun _ => p) f) in
  match stop with
  | field_error e => fail e f
  | field_end => count_header_size n f (fun f => break (move (pred (pos f)) f))
  | no_token ch =>
      count_header_size n f (fun f =>
        if is_ch ":"%char ch then
          callback_data header_field (pos f) (S (pos f)) (update_state s_header_value_discard_ws f) break
        else fail HPE_INVALID_HEADER_TOKEN f)
  end.

Definition run_header_value_start ch f : outcome (after C) :=
  let f := update_state s_header_value (mark header_value f) in
  let '(e, p) := value_start ch (with_index 0 (parser f)) in
  let f := on_parser (fun _ => p) f in
  match e with Some e => fail e f | None => break f end.

Definition run_header_value_discard_ws ch f : outcome (after C) :=
  if is_ch " "%char ch || is_ch TAB ch then break f
  else if is_ch CR ch then goto s_header_value_discard_ws_almost_done f
  else if is_ch LF ch then goto s_header_value_discard_lws f
  else run_header_value_start ch f.

Definition run_header_value (lenient : bool) f : outcome (after C) :=
  let start := pos f in
  '(stop, n, h, p) ← value_loop lenient (drop start data) 0 0 (header_state (parser f)) (parser f);
  let f := move (start + n) (on_parser (fun _ => p) f) in
  let save := on_parser (with_header_state h) in
  match stop with
  | value_error e => fail e f
  | at_cr =>
      callback_data header_value (pos f) (S (pos f)) (update_state s_header_almost_done (save f)) (fun f =>
        count_header_size n (save f) break)
  | at_lf =>
      count_header_size n (update_state s_header_almost_done f) (fun f =>
        callback_data header_value (pos f) (pos f) (save f) reexecute)
  | value_end => count_header_size n (save f) (fun f => break (move (pred (pos f)) f))
  end.

Definition run_header_almost_done ch f : outcome (after C) :=
  if negb (is_ch LF ch) then fail HPE_LF_EXPECTED f else goto s_header_value_lws f.

Definition run_header_value_lws ch f : outcome (after C) :=
  if is_ch " "%char ch || is_ch TAB ch then reexecute (update_state s_header_value_start f)
  else reexecute (update_state s_header_field_start (on_parser finished_header f)).

Definition run_header_value_discard_ws_almost_done ch f : outcome (after C) :=
  strict_check (negb (is_ch LF ch)) f (goto s_header_value_discard_lws f).

Definition run_header_value_discard_lws ch f : outcome (after C) :=
  if is_ch " "%char ch || is_ch TAB ch then goto s_header_value_discard_ws f
  else
    let f := update_state s_header_field_start (mark header_value (on_parser finished_header f)) in
    callback_data header_value (pos f) (pos f) f reexecute.

(** ** The end of the fields *)

(** [upgrade = (flags & (F_UPGRADE | F_CONNECTION_UPGRADE)) == ... || method == HTTP_CONNECT] *)
Definition wants_upgrade p : bool :=
  (Z.land (flags p) (Z.lor F_UPGRADE F_CONNECTION_UPGRADE) =? Z.lor F_UPGRADE F_CONNECTION_UPGRADE)
  || (pmethod p =? HTTP_CONNECT).

(** The callback is told by 1 that there is no body; the state is not written
    before it, nor read after it. *)
Definition callback_headers_complete f (k : frame C -> outcome (after C)) : outcome (after C) :=
  let checked f := if bool_decide (errno (parser f) = HPE_OK) then k f else mret (Return (pos f) f) in
  match on_notify settings headers_complete with
  | None => checked f
  | Some cb =>
      '(r, p, c) ← cb (parser f) (client f);
      let g p := {| parser := p; client := c; cur := cur f; pos := pos f; marks := marks f |} in
      if r =? 0 then checked (g p)
      else if r =? 1 then checked (g (set_flag F_SKIPBODY p))
      else mret (Return (pos f) (g (with_errno HPE_CB_headers_complete p)))
  end.

Definition run_headers_almost_done ch f : outcome (after C) :=
  strict_check (negb (is_ch LF ch)) f
    (if has_flag (parser f) F_TRAILING then
       callback_notify chunk_complete (pos f) (update_state s_message_done f) reexecute
     else if has_flag (parser f) F_CHUNKED && has_flag (parser f) F_CONTENTLENGTH then
       fail HPE_UNEXPECTED_CONTENT_LENGTH f
     else
       callback_headers_complete
         (on_parser (fun p => with_upgrade (wants_upgrade p) p) (update_state s_headers_done f)) reexecute).

(** [UPDATE_STATE(NEW_MESSAGE()); CALLBACK_NOTIFY(message_complete)] *)
Definition complete f (k : frame C -> outcome (after C)) : outcome (after C) :=
  callback_notify message_complete (S (pos f)) (update_state (new_message (parser f)) f) k.

(** [RETURN((p - data) + 1)] *)
Definition leave f : outcome (after C) := mret (Return (S (pos f)) f).

Definition run_headers_done ch f : outcome (after C) :=
  strict_check (negb (is_ch LF ch)) f
    (let f := on_parser (with_nread 0) f in
     let p := parser f in
     let has_body := has_flag p F_CHUNKED || ((0 <? content_length p) && negb (content_length p =? ULLONG_MAX)) in
     if upgrade p && ((pmethod p =? HTTP_CONNECT) || has_flag p F_SKIPBODY || negb has_body) then
       complete f leave
     else if has_flag p F_SKIPBODY then complete f break
     else if has_flag p F_CHUNKED then goto s_chunk_size_start f
     else if content_length p =? 0 then complete f break
     else if negb (content_length p =? ULLONG_MAX) then goto s_body_identity f
     else if negb (http_message_needs_eof p) then complete f break
     else goto s_body_identity_eof f).

(** ** The body *)

(** [MARK(body); content_length -= to_read; p += to_read - 1] *)
Definition read_body f : frame C :=
  let p := parser f in
  let to_read := Z.min (content_length p) (Z.of_nat (length data - pos f)) in
  move (pos f + Z.to_nat to_read - 1)
    (on_parser (with_content_length (content_length p - to_read)) (mark body f)).

Definition run_body_identity f : outcome (after C) :=
  let p := parser f in
  _ ← cassert (negb (content_length p =? 0) && negb (content_length p =? ULLONG_MAX));
  let f := read_body f in
  if content_length (parser f) =? 0 then
    callback_data body (S (pos f)) (pos f) (update_state s_message_done f) reexecute
  else break f.

Definition run_body_identity_eof f : outcome (after C) := break (move (length data - 1) (mark body f)).

Definition run_message_done f : outcome (after C) :=
  complete f (fun f => if upgrade (parser f) then leave f else break f).

(** ** Chunks *)
Definition run_chunk_size_start ch f : outcome (after C) :=
  let p := parser f in
  _ ← cassert (nread p =? 1);
  _ ← cassert (has_flag p F_CHUNKED);
  if unhex ch =? -1 then fail HPE_INVALID_CHUNK_SIZE f
  else goto s_chunk_size (on_parser (with_content_length (unhex ch)) f).

Definition run_chunk_size ch f : outcome (after C) :=
  let p := parser f in
  _ ← cassert (has_flag p F_CHUNKED);
  if is_ch CR ch then goto s_chunk_size_almost_done f
  else if unhex ch =? -1 then
    if is_ch ";"%char ch || is_ch " "%char ch then goto s_chunk_parameters f
    else fail HPE_INVALID_CHUNK_SIZE f
  else
    match add_digit 16 (unhex ch) p with
    | None => fail HPE_INVALID_CONTENT_LENGTH f
    | Some p => break (on_parser (fun _ => p) f)
    end.

Definition run_chunk_parameters ch f : outcome (after C) :=
  _ ← cassert (has_flag (parser f) F_CHUNKED);
  if is_ch CR ch then goto s_chunk_size_almost_done f else break f.

Definition run_chunk_size_almost_done ch f : outcome (after C) :=
  _ ← cassert (has_flag (parser f) F_CHUNKED);
  strict_check (negb (is_ch LF ch)) f
    (let f := on_parser (with_nread 0) f in
     let f := if content_length (parser f) =? 0
              then update_state s_header_field_start (on_parser (set_flag F_TRAILING) f)
              else update_state s_chunk_data f in
     callback_notify chunk_header (S (pos f)) f break).

Definition run_chunk_data f : outcome (after C) :=
  let p := parser f in
  _ ← cassert (has_flag p F_CHUNKED);
  _ ← cassert (negb (content_length p =? 0) && negb (content_length p =? ULLONG_MAX));
  let f := read_body f in
  break (if content_length (parser f) =? 0 then update_state s_chunk_data_almost_done f else f).

Definition run_chunk_data_almost_done ch f : outcome (after C) :=
  _ ← cassert (has_flag (parser f) F_CHUNKED);
  _ ← cassert (content_length (parser f) =? 0);
  strict_check (negb (is_ch CR ch)) f
    (callback_data body (pos f) (S (pos f)) (update_state s_chunk_data_done f) break).

Definition run_chunk_data_done ch f : outcome (after C) :=
  _ ← cassert (has_flag (parser f) F_CHUNKED);
  strict_check (negb (is_ch LF ch)) f
    (callback_notify chunk_complete (S (pos f))
       (update_state s_chunk_size_start (on_parser (with_nread 0) f)) break).

(** ** The loop *)
Definition switch (lenient : bool) ch f : outcome (after C) :=
  match cur f with
  | url s => run_url s ch f
  | s_start_req_or_res => run_start_req_or_res ch f
  | s_res_or_resp_H => run_res_or_resp_H ch f
  | s_start_res => run_start_res ch f
  | s_res_H | s_res_HT | s_res_HTT | s_res_HTTP | s_res_first_http_major | s_res_http_major
  | s_res_first_http_minor | s_res_http_minor => run_res_version (cur f) ch f
  | s_res_first_status_code | s_res_status_code | s_res_status_start | s_res_status
  | s_res_line_almost_done => run_res_status (cur f) ch f
  | s_start_req => run_start_req ch f
  | s_req_method => run_req_method ch f
  | s_req_http_start | s_req_http_H | s_req_http_HT | s_req_http_HTT | s_req_http_HTTP
  | s_req_first_http_major | s_req_http_major | s_req_first_http_minor | s_req_http_minor
  | s_req_line_almost_done => run_req_version (cur f) ch f
  | s_header_field_start => run_header_field_start ch f
  | s_header_field => run_header_field f
  | s_header_value_discard_ws => run_header_value_discard_ws ch f
  | s_header_value_discard_ws_almost_done => run_header_value_discard_ws_almost_done ch f
  | s_header_value_discard_lws => run_header_value_discard_lws ch f
  | s_header_value_start => run_header_value_start ch f
  | s_header_value => run_header_value lenient f
  | s_header_value_lws => run_header_value_lws ch f
  | s_header_almost_done => run_header_almost_done ch f
  | s_chunk_size_start => run_chunk_size_start ch f
  | s_chunk_size => run_chunk_size ch f
  | s_chunk_parameters => run_chunk_parameters ch f
  | s_chunk_size_almost_done => run_chunk_size_almost_done ch f
  | s_headers_almost_done => run_headers_almost_done ch f
  | s_headers_done => run_headers_done ch f
  | s_chunk_data => run_chunk_data f
  | s_chunk_data_almost_done => run_chunk_data_almost_done ch f
  | s_chunk_data_done => run_chunk_data_done ch f
  | s_body_identity => run_body_identity f
  | s_body_identity_eof => run_body_identity_eof f
  | s_message_done => run_message_done f
  end.

(** What [return] and [RETURN] leave: the bytes parsed, the parser, and the
    state of the callbacks. *)
Definition returned (n : nat) f : nat * http_parser * C := (n, with_state (cur f) (parser f), client f).

Definition marked f : list data_kind :=
  filter (fun k => is_Some (marks f k)) [header_field; header_value; url_data; body; status].

(** After the loop: the callbacks for what is marked. *)
Definition leftover f : outcome (after C) :=
  _ ← cassert (length (marked f) <=? 1)%nat;
  let cb d k f := callback_data d (pos f) (pos f) f k in
  cb header_field (cb header_value (cb url_data (cb body (cb status (fun f =>
    mret (Return (length data) f)))))) f.

(** The head of the loop: a byte of the header is counted. *)
Definition next_byte (lenient : bool) ch f : outcome (after C) :=
  if parsing_header (cur f) then count_header_size 1 f (switch lenient ch) else switch lenient ch f.

(** [again]: the byte is seen again, after [goto reexecute].  Without fuel the
    function has no result. *)
Fixpoint loop (lenient : bool) (fuel : nat) (again : bool) f : option (outcome (nat * http_parser * C)) :=
  match fuel with
  | O => None
  | S fuel =>
      let result r next :=
        match r with
        | Crash e => Some (Crash e)
        | Ok (Break f) => next false (move (S (pos f)) f)
        | Ok (Reexecute f) => next true f
        | Ok (Return n f) => Some (Ok (returned n f))
        end in
      match data !! pos f with
      | None => result (leftover f) (fun _ _ => None)
      | Some ch => result (if again then switch lenient ch f else next_byte lenient ch f) (loop lenient fuel)
      end
  end.

(** The marks of the text a previous call left unfinished. *)
Definition initial_marks (s : state) (k : data_kind) : option nat :=
  match k, s with
  | header_field, s_header_field => Some O
  | header_value, s_header_value => Some O
  | url_data, url s =>
      match s with s_dead | s_req_spaces_before_url => None | _ => Some O end
  | status, s_res_status => Some O
  | _, _ => None
  end.

(** No data: the end of the stream. *)
Definition execute_eof f : outcome (after C) :=
  match cur f with
  | s_body_identity_eof =>
      callback_notify message_complete 0 f (fun f => mret (Return 0 f))
  | url s_dead | s_start_req_or_res | s_start_res | s_start_req => mret (Return 0 f)
  | _ => mret (Return 1 (on_parser (with_errno HPE_INVALID_EOF_STATE) f))
  end.

(** A byte is seen four times at most: the longest run of jumps is from the end
    of a field that is followed by the end of the fields. *)
Definition execute_fuel : nat := S (4 * length data).

Definition http_parser_execute (p : http_parser) (c : C) : option (outcome (nat * http_parser * C)) :=
  if bool_decide (errno p <> HPE_OK) then Some (Ok (O, p, c))
  else
    let f := {| parser := p; client := c; cur := pstate p; pos := O; marks := initial_marks (pstate p) |} in
    match data with
    | [] =>
        match execute_eof f with
        | Crash e => Some (Crash e)
        | Ok (Return n f) => Some (Ok (returned n f))
        | Ok _ => None
        end
    | _ => loop (lenient_http_headers p) execute_fuel false f
    end.

End Execute.
