(* ===== verification/HttpSafe.v ===== *)
(** * The HTTP/1 parser: its invariant, its termination, its safety

    One lemma, [switch_good], follows the invariant of the automaton through a
    pass of the [switch] (src/src/http_parser/http_parser.c); the loop and
    [http_parser_execute] inherit it. *)

From S2P Require Import Prelude CppStd HttpMessages UrlParser HttpParser HttpExecute.

(** ** What the parser asks of its callbacks

    They leave the parser as it is; the one for the end of a message may
    initialise it anew, which is what the codec does. *)
Class Callbacks {C : Type} (settings : http_parser_settings C) : Prop := {
  notify_keeps n cb p c r p' c' :
    n <> message_complete -> on_notify settings n = Some cb -> cb p c = Ok (r, p', c') -> p' = p;
  complete_keeps cb p c r p' c' :
    on_notify settings message_complete = Some cb -> cb p c = Ok (r, p', c') ->
    p' = p \/ exists t, p' = http_parser_init t;
  data_keeps k cb s l p c r p' c' :
    on_data settings k = Some cb -> cb s l p c = Ok (r, p', c') -> p' = p }.

(** A callback brings the process down. *)
Definition callback_crash {C : Type} (settings : http_parser_settings C) (e : failure) : Prop :=
  (exists n cb p c, on_notify settings n = Some cb /\ cb p c = Crash e) \/
  (exists k cb s l p c, on_data settings k = Some cb /\ cb s l p c = Crash e).

(** ** The invariant *)

(** The index stays in the name of the method that is guessed. *)
Definition method_read (p : http_parser) : Prop :=
  exists matcher, method_strings !! Z.to_nat (pmethod p) = Some matcher /\
    0 <= index p <= len matcher.

(** The header states a field name, and a value, can be in. *)
Definition name_state (h : header_states) : bool :=
  match h with
  | h_general | h_C | h_CO | h_CON | h_matching_connection | h_matching_proxy_connection
  | h_matching_content_length | h_matching_transfer_encoding | h_matching_upgrade
  | h_connection | h_content_length | h_transfer_encoding | h_upgrade => true
  | _ => false
  end.
Definition value_state (h : header_states) : bool :=
  match h with h_connection | h_transfer_encoding => false | _ => true end.

(** [n]: the bytes counted where a chunk starts, 0 before its first byte is. *)
Definition wf (n : Z) (s : state) (p : http_parser) : Prop :=
  in_range 64 (content_length p) /\
  match s with
  | s_req_method => method_read p
  | s_header_field => name_state (header_state p) = true
  | s_header_value => value_state (header_state p) = true
  | s_chunk_size_start => has_flag p F_CHUNKED = true /\ nread p = n
  | s_chunk_size | s_chunk_parameters | s_chunk_size_almost_done =>
      has_flag p F_CHUNKED = true /\ content_length p < ULLONG_MAX
  | s_chunk_data => has_flag p F_CHUNKED = true /\ 0 < content_length p < ULLONG_MAX
  | s_chunk_data_almost_done => has_flag p F_CHUNKED = true /\ content_length p = 0
  | s_chunk_data_done => has_flag p F_CHUNKED = true
  | s_body_identity => 0 < content_length p < ULLONG_MAX
  | _ => True
  end.

(** Between two calls. *)
Definition parser_ok (p : http_parser) : Prop := errno p <> HPE_OK \/ wf 0 (pstate p) p.

(** The states where a text is being read. *)
Definition mark_state (k : data_kind) (s : state) : bool :=
  match k, s with
  | header_field, s_header_field => true
  | header_value, s_header_value => true
  | url_data, url s => match s with s_dead | s_req_spaces_before_url => false | _ => true end
  | body, (s_body_identity | s_body_identity_eof | s_chunk_data | s_chunk_data_almost_done) => true
  | status, s_res_status => true
  | _, _ => false
  end.

Definition marks_ok {C} (f : frame C) : Prop :=
  forall k m, marks f k = Some m -> mark_state k (cur f) = true /\ (m <= pos f)%nat.

Definition frame_ok {C} (n : Z) (f : frame C) : Prop :=
  errno (parser f) = HPE_OK /\ wf n (cur f) (parser f) /\ marks_ok f.

(** How often a byte can still be seen. *)
Definition rank (s : state) : nat :=
  match s with
  | s_header_value_lws | s_header_value_discard_lws => 3
  | s_header_field_start => 2
  | s_headers_almost_done | s_header_value | s_body_identity | s_start_req_or_res => 1
  | _ => 0
  end.

Ltac bounds_tac := cbn [pos parser client cur marks on_parser update_state move set_mark clear_message] in *; lia.

Section Safe.
Context {C : Type} (settings : http_parser_settings C) `{!Callbacks settings}.
Context (data beyond : list ascii).
Implicit Types (f : frame C) (p : http_parser) (ch : ascii).

(** The outcome of a pass that starts at [n0] in a state of rank [r0]. *)
Definition good (n0 r0 : nat) (r : outcome (after C)) : Prop :=
  match r with
  | Crash e => callback_crash settings e
  | Ok (Break f) => frame_ok 0 f /\ (n0 <= pos f < length data)%nat
  | Ok (Reexecute f) => frame_ok 1 f /\ (n0 <= pos f < length data)%nat /\ (rank (cur f) < r0)%nat
  | Ok (Return n f) =>
      (n <= length data)%nat /\ parser_ok (with_state (cur f) (parser f)) /\
      (errno (parser f) = HPE_OK -> 1 <= n)%nat
  end.

(** Nothing is marked. *)
Definition unmarked f : Prop := forall k, marks f k = None.
Definition unmarked_but (d : data_kind) f : Prop := forall k, k <> d -> marks f k = None.

Lemma unmarked_ok f : unmarked f -> marks_ok f.
Proof. intros H k m. by rewrite H. Qed.

Lemma wf_with_state n s s' p : wf n s (with_state s' p) <-> wf n s p.
Proof. destruct s; done. Qed.

Lemma fail_good n0 r0 e f : e <> HPE_OK -> (pos f <= length data)%nat -> good n0 r0 (fail e f).
Proof.
  intros He Hp. unfold fail, good. cbn [mret outcome_ret]. split; [exact Hp|]. split.
  - left. exact He.
  - cbn [errno parser on_parser with_errno]. done.
Qed.

Lemma strict_check_good n0 r0 bad f k :
  (pos f <= length data)%nat -> (bad = false -> good n0 r0 k) -> good n0 r0 (strict_check bad f k).
Proof. intros Hp H. destruct bad; [by apply fail_good|by apply H]. Qed.

Lemma count_good n0 r0 n f k :
  (pos f <= length data)%nat ->
  (let f' := on_parser (fun p => with_nread (u32 (nread p + Z.of_nat n)) p) f in good n0 r0 (k f')) ->
  good n0 r0 (count_header_size n f k).
Proof.
  intros Hp H. unfold count_header_size. cbv zeta in *. destruct (_ <? _); [by apply fail_good|exact H].
Qed.

Lemma wf_init n t : wf n (pstate (http_parser_init t)) (http_parser_init t).
Proof. by destruct t. Qed.

(** A callback that keeps the parser, or starts it anew when [re]. *)
Lemma called_good (re : bool) cb e er n0 r0 f k :
  e <> HPE_OK -> (er <= length data)%nat ->
  (forall p c e, cb p c = Crash e -> callback_crash settings e) ->
  (forall p c r p' c', cb p c = Ok (r, p', c') ->
     p' = p \/ re = true /\ exists t, p' = http_parser_init t) ->
  errno (parser f) = HPE_OK ->
  (forall c s p, errno p = HPE_OK ->
     (s = cur f /\ p = with_state (cur f) (parser f) \/
      re = true /\ exists t, p = http_parser_init t /\ s = pstate p) ->
     good n0 r0 (k {| parser := p; client := c; cur := s; pos := pos f; marks := marks f |})) ->
  good n0 r0 (called cb e er f k).
Proof.
  intros He Her Hcr Hk Hok HK. unfold called.
  destruct (cb (with_state (cur f) (parser f)) (client f)) as [[[r p'] c']|x] eqn:E; cbn [mbind outcome_bind].
  2:{ cbn. by eapply Hcr. }
  set (q := if r =? 0 then p' else with_errno e p').
  destruct (decide (r = 0)) as [->|Hr].
  - cbn in q. subst q. case_bool_decide as Hq.
    + apply HK; [done|]. destruct (Hk _ _ _ _ _ E) as [-> | (Hre & t & ->)]; [by left|right; eauto].
    + cbn. split; [done|]. split; [by left|done].
  - assert (Hq : q = with_errno e p') by (unfold q; by rewrite (proj2 (Z.eqb_neq r 0) Hr)).
    rewrite Hq. case_bool_decide as Hq'; [by destruct (He Hq')|]. cbn. split; [done|]. split; [by left|done].
Qed.

Lemma cb_errno_ok n : cb_errno n <> HPE_OK.
Proof. by destruct n. Qed.
Lemma cb_data_errno_ok k : cb_data_errno k <> HPE_OK.
Proof. by destruct k. Qed.

Lemma notify_crash n cb p c e : on_notify settings n = Some cb -> cb p c = Crash e -> callback_crash settings e.
Proof. intros. left. eauto 10. Qed.

Lemma notify_good n er n0 r0 f k :
  n <> message_complete -> (er <= length data)%nat -> errno (parser f) = HPE_OK ->
  (forall c p, p = parser f \/ p = with_state (cur f) (parser f) ->
     good n0 r0 (k {| parser := p; client := c; cur := cur f; pos := pos f; marks := marks f |})) ->
  good n0 r0 (callback_notify settings n er f k).
Proof.
  intros Hn Her Hok HK. unfold callback_notify. rewrite bool_decide_eq_true_2 by done. cbn [cassert mbind outcome_bind].
  destruct (on_notify settings n) as [cb|] eqn:E.
  - apply (called_good false); try done; [apply cb_errno_ok|by intros; eapply notify_crash| |].
    + intros p c r p' c' Hc. left. by eapply notify_keeps.
    + intros c s p Hp [[-> ->] | [[=] _]]. apply HK. by right.
  - destruct f. apply HK. by left.
Qed.

(** The end of a message: the state is the one of the frame, or an initial one. *)
Lemma complete_good er n0 r0 f k :
  (er <= length data)%nat -> errno (parser f) = HPE_OK ->
  (forall c s p, errno p = HPE_OK ->
     (s = cur f /\ (p = parser f \/ p = with_state (cur f) (parser f)) \/
      exists t, p = http_parser_init t /\ s = pstate p) ->
     good n0 r0 (k {| parser := p; client := c; cur := s; pos := pos f; marks := marks f |})) ->
  good n0 r0 (callback_notify settings message_complete er f k).
Proof.
  intros Her Hok HK. unfold callback_notify. rewrite bool_decide_eq_true_2 by done. cbn [cassert mbind outcome_bind].
  destruct (on_notify settings message_complete) as [cb|] eqn:E.
  - apply (called_good true); try done; [by intros; eapply notify_crash| |].
    + intros p c r p' c' Hc. destruct (complete_keeps _ _ _ _ _ _ E Hc) as [|]; eauto.
    + intros c s p Hp [[-> ->] | (_ & t & -> & ->)]; apply HK; try done; eauto.
  - destruct f. apply HK; [done|]. left. auto.
Qed.

Lemma data_good d upto er n0 r0 f k :
  (er <= length data)%nat -> errno (parser f) = HPE_OK -> unmarked_but d f ->
  (forall f', (parser f' = parser f \/ parser f' = with_state (cur f) (parser f)) -> cur f' = cur f ->
     pos f' = pos f -> unmarked f' -> good n0 r0 (k f')) ->
  good n0 r0 (callback_data settings data beyond d upto er f k).
Proof.
  intros Her Hok Hm HK. unfold callback_data. rewrite bool_decide_eq_true_2 by done. cbn [cassert mbind outcome_bind].
  assert (Hcl : forall k', (if decide (k' = d) then None else marks f k') = None)
    by (intros k'; destruct (decide (k' = d)) as [|Hne]; [done|by apply Hm]).
  destruct (marks f d) as [m|] eqn:Em.
  2:{ apply HK; [by left|done|done|]. intros k'. destruct (decide (k' = d)) as [->|]; [done|by apply Hm]. }
  destruct (on_data settings d) as [cb|] eqn:E.
  - apply (called_good false); try done; [apply cb_data_errno_ok| | |].
    + intros p c e Hc. right. eauto 10.
    + intros p c r p' c' Hc. left. by eapply data_keeps.
    + intros c s p Hp [[-> ->] | [[=] _]]. apply HK; [by right|done|done|exact Hcl].
  - apply HK; [by left|done|done|exact Hcl].
Qed.

(** ** What a pass leaves *)
Definition starts (n0 : nat) f : Prop := frame_ok 1 f /\ n0 = pos f /\ (pos f < length data)%nat.

Lemma break_good n0 r0 f :
  errno (parser f) = HPE_OK -> wf 0 (cur f) (parser f) -> marks_ok f -> (n0 <= pos f < length data)%nat ->
  good n0 r0 (break f).
Proof. intros. done. Qed.

Lemma reexecute_good n0 r0 f :
  errno (parser f) = HPE_OK -> wf 1 (cur f) (parser f) -> marks_ok f -> (n0 <= pos f < length data)%nat ->
  (rank (cur f) < r0)%nat -> good n0 r0 (reexecute f).
Proof. intros. done. Qed.

Lemma leave_good n0 r0 f :
  errno (parser f) = HPE_OK -> wf 0 (cur f) (parser f) -> (pos f < length data)%nat -> good n0 r0 (leave f).
Proof.
  intros H1 H2 H3. cbn. split; [lia|]. split; [|lia]. right. by apply wf_with_state.
Qed.

(** A state without text has no mark. *)
Lemma textless_unmarked f : marks_ok f -> (forall k, mark_state k (cur f) = false) -> unmarked f.
Proof.
  intros HM Hs k. destruct (marks f k) as [m|] eqn:E; [|done]. apply HM in E as [E _]. by rewrite Hs in E.
Qed.

Lemma text_unmarked_but d f :
  marks_ok f -> (forall k, k <> d -> mark_state k (cur f) = false) -> unmarked_but d f.
Proof.
  intros HM Hs k Hk. destruct (marks f k) as [m|] eqn:E; [|done]. apply HM in E as [E _]. by rewrite Hs in E.
Qed.

Lemma unmarked_weaken d f : unmarked f -> unmarked_but d f.
Proof. by intros H k _. Qed.

(** The mark that is set, or was. *)
Lemma marked_ok d f f' :
  unmarked_but d f -> (forall m, marks f d = Some m -> (m <= pos f)%nat) ->
  marks f' = marks (mark d f) -> mark_state d (cur f') = true -> (pos f <= pos f')%nat -> marks_ok f'.
Proof.
  intros Hb Hd Hm Hs Hp k m. rewrite Hm. unfold mark.
  destruct (marks f d) as [m'|] eqn:E.
  - destruct (decide (k = d)) as [->|Hne]; [|by rewrite Hb]. intros H. rewrite E in H. injection H as <-.
    split; [done|]. specialize (Hd _ eq_refl). lia.
  - cbn [marks set_mark]. destruct (decide (k = d)) as [->|Hne]; [intros [= <-]; split; [done|lia]|by rewrite Hb].
Qed.

(** A text starts in a state without. *)
Lemma mark_unmarked d f : unmarked f -> mark d f = set_mark d (Some (pos f)) f.
Proof. intros U. unfold mark. by rewrite (U d). Qed.

Lemma set_mark_ok d f f' :
  unmarked f -> marks f' = marks (set_mark d (Some (pos f)) f) -> mark_state d (cur f') = true ->
  (pos f <= pos f')%nat -> marks_ok f'.
Proof.
  intros U Hm Hs Hp. apply (marked_ok d f); try done; [by apply unmarked_weaken|by rewrite (U d)|].
  by rewrite mark_unmarked.
Qed.

(** The same text goes on. *)
Lemma marks_ok_same f f' :
  marks_ok f -> marks f' = marks f -> (pos f <= pos f')%nat ->
  (forall k, mark_state k (cur f) = true -> mark_state k (cur f') = true) -> marks_ok f'.
Proof.
  intros HM Hm Hp Hs k m. rewrite Hm. intros H. apply HM in H as [H1 H2]. split; [by apply Hs|lia].
Qed.

(** A callback for a text that is over. *)
Lemma text_over_good n0 r0 d upto er f k :
  (er <= length data)%nat -> errno (parser f) = HPE_OK -> unmarked_but d f ->
  (forall f', errno (parser f') = HPE_OK -> (forall n s, wf n s (parser f) -> wf n s (parser f')) ->
     cur f' = cur f -> pos f' = pos f -> unmarked f' -> good n0 r0 (k f')) ->
  good n0 r0 (callback_data settings data beyond d upto er f k).
Proof.
  intros H1 H2 H3 HK. apply data_good; try done. intros f' Hf. apply HK.
  - by destruct Hf as [-> | ->].
  - intros n s Hw. destruct Hf as [-> | ->]; [done|]. by apply wf_with_state.
Qed.

Lemma text_break_good n0 r0 d upto er f :
  (er <= length data)%nat -> errno (parser f) = HPE_OK -> unmarked_but d f ->
  wf 0 (cur f) (parser f) -> (n0 <= pos f < length data)%nat ->
  good n0 r0 (callback_data settings data beyond d upto er f break).
Proof.
  intros H1 H2 H3 H4 H5. apply text_over_good; try done. intros f' Hok Hw Hc Hq U.
  apply break_good; [done|rewrite Hc; by apply Hw|by apply unmarked_ok|by rewrite Hq].
Qed.

Lemma text_reexecute_good n0 r0 d upto er f :
  (er <= length data)%nat -> errno (parser f) = HPE_OK -> unmarked_but d f ->
  wf 1 (cur f) (parser f) -> (n0 <= pos f < length data)%nat -> (rank (cur f) < r0)%nat ->
  good n0 r0 (callback_data settings data beyond d upto er f reexecute).
Proof.
  intros H1 H2 H3 H4 H5 H6. apply text_over_good; try done. intros f' Hok Hw Hc Hq U.
  apply reexecute_good; [done|rewrite Hc; by apply Hw|by apply unmarked_ok|by rewrite Hq|by rewrite Hc].
Qed.

Lemma more_digits_good n0 r0 get set e ch (f : frame C) :
  e <> HPE_OK -> (forall v p, content_length (set v p) = content_length p /\ errno (set v p) = errno p) ->
  (forall p, in_range 64 (content_length p) -> wf 0 (cur f) p) -> marks_ok f ->
  errno (parser f) = HPE_OK -> in_range 64 (content_length (parser f)) -> (n0 <= pos f < length data)%nat ->
  good n0 r0 (more_digits get set e ch f).
Proof.
  intros He Hs Hwf HM Hok Hcl Hp. unfold more_digits. cbv zeta.
  set (v := wrap 16 _). destruct (Hs v (parser f)) as [Hs1 Hs2]. destruct (_ <? _).
  - apply fail_good; [done|bounds_tac].
  - apply break_good; [by cbn; rewrite Hs2|apply Hwf; cbn; by rewrite Hs1|exact HM|bounds_tac].
Qed.

End Safe.


(** Lengths a fresh message starts with. *)
Lemma fresh_lengths : in_range 64 ULLONG_MAX /\ in_range 64 0.
Proof. by vm_compute. Qed.

Ltac wf_tac :=
  split; [first [eassumption | apply fresh_lengths | idtac] | first [exact I | idtac]].

Ltac marks_tac :=
  match goal with
  | HM : marks_ok ?f |- marks_ok _ =>
      first [exact HM | refine (marks_ok_same f _ HM _ _ _); [reflexivity|bounds_tac|intros []; done]]
  | U : unmarked _ |- _ =>
      first [apply unmarked_ok; exact U | eapply (set_mark_ok _ _ _ U); [reflexivity|reflexivity|bounds_tac]]
  | _ => idtac
  end.

Ltac unmarked_tac :=
  match goal with
  | U : unmarked _ |- _ => apply unmarked_weaken; exact U
  | U : unmarked_but _ _ |- _ => exact U
  | _ => idtac
  end.

(** One step through the text of a pass. *)
Ltac pass_step :=
  match goal with
  | |- good _ _ _ _ (if ?b then _ else _) => let E := fresh "E" in destruct b eqn:E
  | |- good _ _ _ _ (strict_check _ _ _) => apply strict_check_good; [bounds_tac|intros ?]
  | |- good _ _ _ _ (expect _ _ _ _) => apply strict_check_good; [bounds_tac|intros ?]
  | |- good _ _ _ _ (fail _ _) => apply fail_good; [discriminate|bounds_tac]
  | |- good _ _ _ _ (goto ?s ?f) => change (goto s f) with (break (update_state s f))
  | |- good _ _ _ _ (break _) => apply break_good; [assumption|wf_tac|marks_tac|bounds_tac]
  | |- good _ _ _ _ (reexecute _) =>
      apply reexecute_good; [assumption|wf_tac|marks_tac|bounds_tac|try solve [cbn; lia]]
  | |- good _ _ _ _ (callback_data _ _ _ _ _ _ _ (@break _)) =>
      apply text_break_good; [done|bounds_tac|assumption|unmarked_tac|wf_tac|bounds_tac]
  | |- good _ _ _ _ (callback_data _ _ _ _ _ _ _ (@reexecute _)) =>
      apply text_reexecute_good; [done|bounds_tac|assumption|unmarked_tac|wf_tac|bounds_tac|try solve [cbn; lia]]
  | |- good _ _ _ _ (more_digits _ _ _ _ _) =>
      apply more_digits_good; [discriminate|done|done|marks_tac|assumption|assumption|bounds_tac]
  end.

Ltac text_state HM := refine (text_unmarked_but _ _ HM _); intros [] ?; first [reflexivity|congruence].

(** A pass starts in the state [s]; a state without text has no mark. *)
Ltac open_pass :=
  let Hs := fresh "Hs" in
  intros ((Hok & [Hcl Hwf] & HM) & -> & Hp) Hs;
  match goal with |- context [pos ?f] => destruct f as [p c s n mk] end;
  cbn [cur] in Hs; rewrite Hs in *; clear Hs; cbn [cur parser] in Hwf, Hcl, Hok;
  try match goal with
      | HM : marks_ok ?f |- _ =>
          let U := fresh "U" in
          first [assert (U : unmarked f) by (refine (textless_unmarked _ HM _); intros []; reflexivity)
                |assert (U : unmarked_but header_field f) by text_state HM
                |assert (U : unmarked_but header_value f) by text_state HM
                |assert (U : unmarked_but url_data f) by text_state HM
                |assert (U : unmarked_but body f) by text_state HM
                |assert (U : unmarked_but status f) by text_state HM]
      end.

Section Passes.
Context {C : Type} (settings : http_parser_settings C) `{!Callbacks settings}.
Context (data beyond : list ascii).
Implicit Types (p : http_parser) (ch : ascii).

Abbreviation starts := (starts data).
Abbreviation good := (good settings data).

Definition in_res_version (s : state) : bool :=
  match s with
  | s_res_H | s_res_HT | s_res_HTT | s_res_HTTP | s_res_first_http_major | s_res_http_major
  | s_res_first_http_minor | s_res_http_minor => true
  | _ => false
  end.

Lemma res_version_good n0 s ch f :
  in_res_version s = true -> starts n0 f -> cur f = s -> good n0 (rank s) (run_res_version s ch f).
Proof.
  intros H. destruct s; try discriminate H; open_pass; unfold run_res_version; repeat pass_step.
Qed.

Definition in_req_version (s : state) : bool :=
  match s with
  | s_req_http_start | s_req_http_H | s_req_http_HT | s_req_http_HTT | s_req_http_HTTP
  | s_req_first_http_major | s_req_http_major | s_req_first_http_minor | s_req_http_minor
  | s_req_line_almost_done => true
  | _ => false
  end.

Lemma req_version_good n0 s ch f :
  in_req_version s = true -> starts n0 f -> cur f = s -> good n0 (rank s) (run_req_version s ch f).
Proof.
  intros H. destruct s; try discriminate H; open_pass; unfold run_req_version; repeat pass_step.
Qed.

Lemma res_or_resp_H_good n0 ch f :
  starts n0 f -> cur f = s_res_or_resp_H -> good n0 0 (run_res_or_resp_H ch f).
Proof.
  open_pass. unfold run_res_or_resp_H. repeat pass_step. exists "HEAD". split; [done|]. by vm_compute.
Qed.

Lemma header_almost_done_good n0 ch f :
  starts n0 f -> cur f = s_header_almost_done -> good n0 0 (run_header_almost_done ch f).
Proof. open_pass. unfold run_header_almost_done. repeat pass_step. Qed.

Lemma header_value_discard_ws_almost_done_good n0 ch f :
  starts n0 f -> cur f = s_header_value_discard_ws_almost_done ->
  good n0 0 (run_header_value_discard_ws_almost_done ch f).
Proof. open_pass. unfold run_header_value_discard_ws_almost_done. repeat pass_step. Qed.

Lemma chunk_parameters_good n0 ch f :
  starts n0 f -> cur f = s_chunk_parameters -> good n0 0 (run_chunk_parameters ch f).
Proof.
  open_pass. unfold run_chunk_parameters. cbn [parser]. destruct Hwf as [Hc Hl]. rewrite Hc.
  cbn [cassert mbind outcome_bind]. repeat pass_step; done.
Qed.

Lemma unhex_range ch : (unhex ch =? -1) = false -> 0 <= unhex ch <= 15.
Proof.
  intros H. assert (A : (unhex ch =? -1) || ((0 <=? unhex ch) && (unhex ch <=? 15)) = true)
    by (apply (forall_ascii (fun ch => (unhex ch =? -1) || ((0 <=? unhex ch) && (unhex ch <=? 15)))); by vm_compute).
  rewrite H in A. lia.
Qed.

Lemma add_digit_range b d p q :
  2 <= b <= 16 -> 0 <= d < b -> in_range 64 (content_length p) -> add_digit b d p = Some q ->
  q = with_content_length (content_length q) p /\ content_length q = content_length p * b + d /\
  0 <= content_length q < ULLONG_MAX.
Proof.
  unfold add_digit, in_range, ULLONG_MAX. intros Hb Hd Hc. destruct (Z.ltb_spec ((2 ^ 64 - 1 - b) / b) (content_length p)) as [|Hl]; [done|].
  assert (Hm : content_length p * b <= 2 ^ 64 - 1 - b).
  { transitivity ((2 ^ 64 - 1 - b) / b * b); [apply Z.mul_le_mono_nonneg_r; lia|]. rewrite Z.mul_comm. apply Z.mul_div_le. lia. }
  intros [= <-]. cbn [content_length with_content_length].
  rewrite (wrap_id 64 (content_length p * b)) by (unfold in_range; nia).
  rewrite wrap_id by (unfold in_range; nia). split; [done|]. split; [done|]. nia.
Qed.

Lemma chunk_size_start_good n0 ch f :
  starts n0 f -> cur f = s_chunk_size_start -> good n0 0 (run_chunk_size_start ch f).
Proof.
  open_pass. unfold run_chunk_size_start. cbn [parser]. destruct Hwf as [Hc Hn]. rewrite Hc, Hn.
  cbn [cassert mbind outcome_bind Z.eqb Pos.eqb]. repeat pass_step; apply unhex_range in E; cbn.
  - unfold in_range. cbn. lia.
  - split; [done|]. unfold ULLONG_MAX. lia.
Qed.

Lemma chunk_size_good n0 ch f : starts n0 f -> cur f = s_chunk_size -> good n0 0 (run_chunk_size ch f).
Proof.
  open_pass. unfold run_chunk_size. cbn [parser]. destruct Hwf as [Hc Hl]. rewrite Hc.
  cbn [cassert mbind outcome_bind]. repeat pass_step; try (split; assumption). apply unhex_range in E0.
  destruct (add_digit 16 (unhex ch) p) as [q|] eqn:Eq; [|repeat pass_step].
  destruct (add_digit_range 16 (unhex ch) p q) as (Q1 & _ & Q2); [lia|lia|done|done|].
  rewrite Q1. repeat pass_step; unfold in_range, ULLONG_MAX in *; cbn; [lia|]. split; [exact Hc|lia].
Qed.

Lemma chunk_size_almost_done_good n0 ch f :
  starts n0 f -> cur f = s_chunk_size_almost_done -> good n0 0 (run_chunk_size_almost_done settings ch f).
Proof.
  open_pass. unfold run_chunk_size_almost_done. cbn [parser]. destruct Hwf as [Hc Hl]. rewrite Hc.
  cbn [cassert mbind outcome_bind]. pass_step. cbn [on_parser parser with_nread content_length].
  destruct (Z.eqb_spec (content_length p) 0) as [E|E]; apply notify_good; try done; intros c' q [-> | ->]; repeat pass_step.
  all: try (split; [exact Hc|]; cbn; unfold in_range, ULLONG_MAX in *; lia).
Qed.

Lemma chunk_data_done_good n0 ch f :
  starts n0 f -> cur f = s_chunk_data_done -> good n0 0 (run_chunk_data_done settings ch f).
Proof.
  open_pass. unfold run_chunk_data_done. cbn [parser]. rewrite Hwf.
  cbn [cassert mbind outcome_bind]. pass_step. apply notify_good; try done; intros c' q [-> | ->]; repeat pass_step; done.
Qed.

Lemma start_req_or_res_good n0 ch f :
  starts n0 f -> cur f = s_start_req_or_res -> good n0 1 (run_start_req_or_res settings ch f).
Proof.
  open_pass. unfold run_start_req_or_res. repeat pass_step.
  apply notify_good; try done; intros c' q [-> | ->]; repeat pass_step.
Qed.

Lemma start_res_good n0 ch f :
  starts n0 f -> cur f = s_start_res -> good n0 0 (run_start_res settings ch f).
Proof.
  open_pass. unfold run_start_res. repeat pass_step;
    apply notify_good; try done; intros c' q [-> | ->]; repeat pass_step.
Qed.

Definition in_res_status (s : state) : bool :=
  match s with
  | s_res_first_status_code | s_res_status_code | s_res_status_start | s_res_line_almost_done => true
  | _ => false
  end.

Lemma res_status_good n0 s ch f :
  in_res_status s = true -> starts n0 f -> cur f = s ->
  good n0 (rank s) (run_res_status settings data beyond s ch f).
Proof.
  intros H. destruct s; try discriminate H; open_pass; unfold run_res_status; rewrite ?(mark_unmarked _ _ U);
    repeat pass_step.
Qed.

Lemma status_good n0 ch f :
  starts n0 f -> cur f = s_res_status -> good n0 0 (run_res_status settings data beyond s_res_status ch f).
Proof. open_pass. unfold run_res_status. repeat pass_step. Qed.

Lemma start_req_good n0 ch f : starts n0 f -> cur f = s_start_req -> good n0 0 (run_start_req settings ch f).
Proof.
  open_pass. unfold run_start_req. repeat pass_step. destruct (first_method ch) as [m|] eqn:E1; [|by repeat pass_step].
  apply notify_good; try done. intros c' q Hq. assert (method_read q /\ in_range 64 (content_length q) /\ errno q = HPE_OK) as (M & R & O).
  { assert (A : method_read (with_index 1 (with_method m p))).
    { destruct ch as [[] [] [] [] [] [] [] []]; cbn in E1; try discriminate E1; injection E1 as <-;
        (eexists; split; [reflexivity|]; vm_compute; split; discriminate). }
    destruct Hq as [-> | ->]; (split; [exact A|split; [apply fresh_lengths|exact Hok]]). }
  repeat pass_step. exact M.
Qed.

Lemma c_char_lookup w i :
  0 <= i <= len w -> exists m, c_char w i = Some m /\ (i = len w -> m = 0).
Proof.
  intros Hi. unfold c_char, len in *. destruct (decide (i = Z.of_nat (length (chars w)))) as [->|Hne].
  - exists 0. split; [|done]. rewrite lookup_app_r; rewrite length_fmap, Nat2Z.id; [by rewrite Nat.sub_diag|lia].
  - destruct (lookup_lt_is_Some_2 (byte_of <$> chars w) (Z.to_nat i)) as [m Hm]; [rewrite length_fmap; lia|].
    exists m. split; [|lia]. by apply lookup_app_l_Some.
Qed.

Lemma method_length m w : method_strings !! m = Some w -> len w <= 11.
Proof.
  intros H. assert (A : forallb (fun w => len w <=? 11) method_strings = true) by (by vm_compute).
  rewrite forallb_forall in A. apply list_elem_of_lookup_2, list_elem_of_In, A in H. lia.
Qed.

Lemma corrected_method_read m i ch m' :
  corrected_method m i ch = Some m' ->
  exists w, method_strings !! Z.to_nat m' = Some w /\ 0 <= i < len w.
Proof.
  unfold corrected_method. intros H. apply fmap_Some in H as ([[[m0 i0] ch0] m1] & H & ->).
  apply find_some in H as [Hin Hc]. apply andb_prop in Hc as [Hc _]. apply andb_prop in Hc as [_ Hi].
  apply Z.eqb_eq in Hi. subst i0. cbn [snd].
  assert (A : forallb (fun '(_, i, _, m) => match method_strings !! Z.to_nat m with
                                        | Some w => (0 <=? i) && (i <? len w) | None => false end)
                method_corrections = true) by (by vm_compute).
  rewrite forallb_forall in A. apply A in Hin. destruct (method_strings !! Z.to_nat m1) as [w|]; [|done].
  exists w. split; [done|]. lia.
Qed.

(** The index goes on. *)
Lemma method_read_next m w p :
  method_strings !! Z.to_nat m = Some w -> 0 <= index p < len w -> method_read (bump (with_method m p)).
Proof.
  intros Hm Hi. exists w. split; [exact Hm|]. pose proof (method_length _ _ Hm). cbn.
  rewrite wrap_id by (unfold in_range; cbn; lia). lia.
Qed.

Lemma with_method_id p : with_method (pmethod p) p = p.
Proof. by destruct p. Qed.

Lemma byte_of_eqb c d : (byte_of c =? byte_of d) = Ascii.eqb c d.
Proof.
  destruct (Ascii.eqb_spec c d) as [->|Hne]; [apply Z.eqb_refl|]. apply Z.eqb_neq. intros E. by apply byte_of_inj in E.
Qed.

Lemma req_method_good n0 ch f : starts n0 f -> cur f = s_req_method -> good n0 0 (run_req_method ch f).
Proof.
  open_pass. destruct Hwf as (w & Hw & Hi). unfold run_req_method. cbn [parser]. pass_step; [by repeat pass_step|].
  rewrite Hw. cbn [of_option mbind outcome_bind]. destruct (c_char_lookup w (index p) Hi) as (m & Hm & Hend).
  rewrite Hm. cbn [of_option mbind outcome_bind]. repeat pass_step.
  - rewrite <- (with_method_id p). apply (method_read_next _ w); [exact Hw|].
    apply Z.eqb_eq in E1. apply Z.eqb_neq in E. destruct (decide (index p = len w)) as [Hl|]; [|lia].
    rewrite (Hend Hl) in E1. done.
  - destruct (corrected_method (pmethod p) (index p) ch) as [m'|] eqn:Em; repeat pass_step.
    apply corrected_method_read in Em as (w' & Hw' & Hi'). by eapply method_read_next.
  - apply andb_prop in E3 as [E3 _]. apply andb_prop in E3 as [_ E3]. apply Z.eqb_eq in E3.
    apply (method_read_next HTTP_MSEARCH "M-SEARCH"); [done|]. cbn [parser]. rewrite E3.
    by vm_compute.
Qed.

Lemma parse_url_char_not_start s ch : parse_url_char s ch <> s_req_spaces_before_url.
Proof. unfold parse_url_char, server_char. destruct s; repeat case_match; discriminate. Qed.

Lemma url_step_good n0 r0 s ch (f : frame C) :
  errno (parser f) = HPE_OK -> in_range 64 (content_length (parser f)) -> (n0 <= pos f < length data)%nat ->
  (forall s', mark_state url_data (url s') = true -> marks_ok (update_state (url s') f)) ->
  good n0 r0 (url_step s ch f).
Proof.
  intros Hok Hcl Hp HM. unfold url_step. pose proof (parse_url_char_not_start s ch) as Hn.
  case_bool_decide as E; repeat pass_step. apply HM. by destruct (parse_url_char s ch).
Qed.

Lemma url_good n0 s ch f :
  starts n0 f -> cur f = url s -> good n0 0 (run_url settings data beyond s ch f).
Proof.
  destruct s; open_pass; unfold run_url; rewrite ?(mark_unmarked _ _ U); repeat pass_step;
    try (apply url_step_good; [assumption|assumption|bounds_tac|intros s' Hs'];
         first [refine (set_mark_ok _ _ _ U _ _ _); [reflexivity|exact Hs'|bounds_tac]
               |refine (marks_ok_same _ _ HM _ _ _); [reflexivity|bounds_tac|intros []; done]]).
  all: destruct (is_ch CR ch); exact I.
Qed.

Lemma first_header_state_name c : name_state (first_header_state c) = true.
Proof. unfold first_header_state. by repeat case_match. Qed.

Lemma header_field_start_good n0 ch f :
  starts n0 f -> cur f = s_header_field_start -> good n0 2 (run_header_field_start ch f).
Proof.
  open_pass. unfold run_header_field_start. rewrite ?(mark_unmarked _ _ U). repeat pass_step.
  apply first_header_state_name.
Qed.

(** What the end of a field leaves alone. *)
Lemma finished_header_same p :
  content_length (finished_header p) = content_length p /\ errno (finished_header p) = errno p.
Proof. unfold finished_header. by destruct (header_state p). Qed.

Lemma header_value_lws_good n0 ch f :
  starts n0 f -> cur f = s_header_value_lws -> good n0 3 (run_header_value_lws ch f).
Proof.
  open_pass. unfold run_header_value_lws. destruct (finished_header_same p) as [F1 F2]. pass_step; [by repeat pass_step|].
  apply reexecute_good; [cbn; by rewrite F2| |marks_tac|bounds_tac|cbn; lia]. wf_tac. cbn. by rewrite F1.
Qed.

Lemma header_value_discard_lws_good n0 ch f :
  starts n0 f -> cur f = s_header_value_discard_lws ->
  good n0 3 (run_header_value_discard_lws settings data beyond ch f).
Proof.
  open_pass. unfold run_header_value_discard_lws. destruct (finished_header_same p) as [F1 F2].
  pass_step; [by repeat pass_step|]. rewrite mark_unmarked by exact U.
  apply text_reexecute_good; [done|bounds_tac|cbn; by rewrite F2| |wf_tac; cbn; by rewrite F1|bounds_tac|cbn; lia].
  intros k Hk. cbn. rewrite decide_False by done. apply U.
Qed.

Lemma value_start_good ch p :
  in_range 64 (content_length p) -> errno p = HPE_OK ->
  let '(e, q) := value_start ch p in
  in_range 64 (content_length q) /\ e <> Some HPE_OK /\
  (e = None -> errno q = HPE_OK /\ value_state (header_state q) = true).
Proof.
  intros Hcl Hok. unfold value_start. destruct (header_state p) eqn:E; try (cbn; done).
  all: try (cbn; rewrite E; done).
  - cbn. by repeat case_match.
  - destruct (is_num ch) eqn:Ed; [|done]. cbn [content_length errno header_state with_content_length]. rewrite E.
    split; [|done]. unfold is_num, in_class in Ed. unfold in_range, digit. cbn. lia.
  - cbn. by repeat case_match.
Qed.

Lemma header_value_start_good n0 r0 ch f :
  starts n0 f -> cur f = s_header_value_start \/ cur f = s_header_value_discard_ws ->
  good n0 r0 (run_header_value_start ch f).
Proof.
  intros H0 [H | H]; revert H0 H; open_pass; unfold run_header_value_start; rewrite mark_unmarked by exact U;
    cbn [parser update_state set_mark cur];
    pose proof (value_start_good ch (with_index 0 p) Hcl Hok) as V;
    destruct (value_start ch (with_index 0 p)) as [[e|] q]; destruct V as (V1 & V2 & V3);
    [apply fail_good; [congruence|bounds_tac]|destruct (V3 eq_refl) as [V4 V5]; repeat pass_step; done
    |apply fail_good; [congruence|bounds_tac]|destruct (V3 eq_refl) as [V4 V5]; repeat pass_step; done].
Qed.

Lemma header_value_discard_ws_good n0 ch f :
  starts n0 f -> cur f = s_header_value_discard_ws -> good n0 0 (run_header_value_discard_ws ch f).
Proof.
  intros H Hs. pose proof (header_value_start_good n0 0 ch f H (or_intror Hs)) as V. revert H Hs V.
  open_pass. intros V. unfold run_header_value_discard_ws. repeat pass_step. exact V.
Qed.

Lemma match_header_same w done c p :
  name_state done = true -> name_state (header_state p) = true ->
  let q := match_header w done c p in
  content_length q = content_length p /\ errno q = errno p /\ name_state (header_state q) = true.
Proof. intros Hd Hn. unfold match_header. by destruct (match_word _ _ _) as [[]|]. Qed.

(** A character of a name keeps the invariant. *)
Lemma field_char_ok ch c p :
  name_state (header_state p) = true ->
  exists e q, field_char ch c p = Ok (e, q) /\ content_length q = content_length p /\ errno q = errno p /\
    name_state (header_state q) = true /\ e <> Some HPE_OK.
Proof.
  intros Hn. unfold field_char.
  assert (M : forall w done, name_state done = true ->
    exists e q, mret (None, match_header w done c p) = Ok (e, q) /\ content_length q = content_length p /\
      errno q = errno p /\ name_state (header_state q) = true /\ e <> Some HPE_OK).
  { intros w d Hd. destruct (match_header_same w d c p Hd Hn) as (M1 & M2 & M3). eexists _, _. split; [done|]. done. }
  destruct (header_state p) eqn:E; try discriminate Hn; try (by apply M).
  1: eexists _, _; split; [done|]; by rewrite E.
  1-3: eexists _, _; split; [done|]; cbn; by repeat case_match.
  1: { destruct (match_header_same CONTENT_LENGTH h_content_length c p eq_refl) as (M1 & M2 & M3); [by rewrite E|].
    cbv zeta. destruct (bool_decide _); [destruct (has_flag _ _)|]; eexists _, _; (split; [reflexivity|]); cbn; rewrite ?E; done. }
  all: eexists _, _; split; [done|]; destruct (is_ch _ _); cbn; rewrite ?E; done.
Qed.

Lemma field_loop_ok l n p :
  name_state (header_state p) = true ->
  exists stop m q, field_loop l n p = Ok (stop, m, q) /\ content_length q = content_length p /\
    errno q = errno p /\ name_state (header_state q) = true /\ (n <= m <= n + length l)%nat /\
    match stop with
    | no_token _ => (m < n + length l)%nat
    | field_end => (m = n + length l)%nat
    | field_error e => (m < n + length l)%nat /\ e <> HPE_OK
    end.
Proof.
  revert n p. induction l as [|ch l IH]; intros n p Hn; cbn [field_loop length].
  - eexists _, _, _. split; [done|]. split_and!; try done; lia.
  - cbv zeta. destruct (token _ =? 0).
    { eexists _, _, _. split; [done|]. split_and!; try done; lia. }
    destruct (field_char_ok ch (token (byte_of ch)) p Hn) as (e & q & -> & Q1 & Q2 & Q3 & Q4).
    cbn [mbind outcome_bind]. destruct e as [e|].
    { eexists _, _, _. split; [done|]. split_and!; try done; first [lia|congruence]. }
    destruct (IH (S n) q Q3) as (stop & m & q' & -> & R1 & R2 & R3 & R4 & R5).
    eexists _, _, _. split; [done|]. split_and!; try done; try lia; try congruence.
    destruct stop; [lia|lia|destruct R5; split; [lia|done]].
Qed.

Lemma header_field_good n0 f :
  starts n0 f -> cur f = s_header_field -> good n0 0 (run_header_field settings data beyond f).
Proof.
  open_pass. unfold run_header_field. cbn [pos parser]. cbn in Hp.
  destruct (field_loop_ok (drop n data) 0 p Hwf) as (stop & m & q & -> & Q1 & Q2 & Q3 & Q4 & Q5).
  cbn [mbind outcome_bind]. rewrite length_drop in Q4, Q5. rewrite <- Q1 in Hcl. rewrite <- Q2 in Hok.
  destruct stop as [ch| |e].
  - apply count_good; [bounds_tac|]. cbv zeta. repeat pass_step.
  - apply count_good; [bounds_tac|]. cbv zeta. repeat pass_step. exact Q3.
  - destruct Q5. apply fail_good; [done|bounds_tac].
Qed.

(** A parser that differs in the matching of a value only. *)
Definition value_same (p q : http_parser) : Prop := errno q = errno p /\ in_range 64 (content_length q).

Lemma connection_flag_same h p : value_same p p -> value_same p (connection_flag h p).
Proof. by destruct h. Qed.

(** A character of a value keeps the invariant. *)
Lemma value_char_ok ch h p :
  value_state h = true -> in_range 64 (content_length p) ->
  exists e h' q, value_char ch h p = Ok (e, h', q) /\ value_same p q /\ value_state h' = true /\ e <> Some HPE_OK.
Proof.
  intros Hv Hcl. assert (S : value_same p p) by done.
  assert (M : forall w done other, value_state done = true -> value_state other = true ->
    let '(h', q) := match_value w done other h (LOWER ch) p in
    exists e h'' q', mret (None, h', q) = Ok (e, h'', q') /\ value_same p q' /\ value_state h'' = true /\ e <> Some HPE_OK).
  { intros w d o Hd Ho. cbn. eexists _, _, _. split; [done|]. split; [done|]. split; [|done].
    by destruct (match_word _ _ _) as [[]|]. }
  unfold value_char. destruct h; try discriminate Hv; try (apply M; done);
    try (eexists _, _, _; split; [reflexivity|]; split; [exact S|]; split; [|done]; by repeat case_match).
  - destruct (is_ch " " ch); [by eexists _, _, _|]. destruct (is_num ch) eqn:Ed; [|by eexists _, _, _].
    destruct (add_digit 10 (digit ch) p) as [q|] eqn:Ea; [|by eexists _, _, _]. cbn [negb].
    unfold is_num, in_class in Ed. unfold digit in Ea.
    destruct (add_digit_range 10 (byte_of ch - 48) p q) as (A1 & _ & A3); [lia|lia|done|done|].
    eexists _, _, _. split; [reflexivity|]. split; [|done]. rewrite A1. split; [done|]. unfold in_range, ULLONG_MAX in *. cbn. lia.
  - destruct (is_ch "," ch); by eexists _, _, _.
  - destruct (is_ch "," ch); eexists _, _, _; (split; [reflexivity|]); (split; [done|]); split; try done. by destruct (is_ch _ _).
  - destruct (is_ch "," ch); eexists _, _, _; (split; [reflexivity|]); (split; [done|]); split; try done. by destruct (is_ch _ _).
  - destruct (is_ch "," ch); eexists _, _, _; (split; [reflexivity|]); (split; [done|]); split; try done. by destruct (is_ch _ _).
Qed.

Lemma value_loop_ok lenient l n skip h p :
  value_state h = true -> in_range 64 (content_length p) ->
  exists stop m h' q, value_loop lenient l n skip h p = Ok (stop, m, h', q) /\ value_same p q /\
    value_state h' = true /\ (n <= m <= n + length l)%nat /\
    match stop with
    | at_cr | at_lf => (m < n + length l)%nat
    | value_end => (m = n + length l)%nat
    | value_error e => (m < n + length l)%nat /\ e <> HPE_OK
    end.
Proof.
  assert (T : forall p q r, value_same p q -> value_same q r -> value_same p r)
    by (unfold value_same; intuition congruence).
  revert n skip h p. induction l as [|ch l IH]; intros n skip h p Hv Hcl.
  { eexists _, _, _, _. split; [done|]. split_and!; try done; cbn; lia. }
  cbn [value_loop length].
  assert (N : forall skip h' q, value_state h' = true -> value_same p q ->
    exists stop m h'' q', value_loop lenient l (S n) skip h' q = Ok (stop, m, h'', q') /\ value_same p q' /\
    value_state h'' = true /\ (n <= m <= n + S (length l))%nat /\
    match stop with
    | at_cr | at_lf => (m < n + S (length l))%nat
    | value_end => (m = n + S (length l))%nat
    | value_error e => (m < n + S (length l))%nat /\ e <> HPE_OK
    end).
  { intros sk h' q Hh Hs. destruct (IH (S n) sk h' q Hh (proj2 Hs)) as (st & m & h'' & q' & R1 & R2 & R3 & R4 & R5).
    exists st, m, h'', q'. split; [done|]. split; [by eapply T|]. split; [done|]. split; [lia|].
    destruct st; [lia|lia|lia|destruct R5; split; [lia|done]]. }
  destruct skip; [|by apply N].
  repeat case_match; try (eexists _, _, _, _; split; [done|]; split_and!; try done; lia); [by apply N|].
  destruct (value_char_ok ch h p Hv Hcl) as (e & h' & q & -> & V1 & V2 & V3). cbn [mbind outcome_bind].
  destruct e as [e|]; [|by apply N].
  eexists _, _, _, _. split; [done|]. split_and!; try done; first [lia|congruence].
Qed.

Lemma header_value_good lenient n0 f :
  starts n0 f -> cur f = s_header_value -> good n0 1 (run_header_value settings data beyond lenient f).
Proof.
  open_pass. unfold run_header_value. cbn [pos parser]. cbn in Hp.
  destruct (value_loop_ok lenient (drop n data) 0 0 (header_state p) p Hwf Hcl) as (stop & m & h & q & -> & [Q1 Q2] & Q3 & Q4 & Q5).
  cbn [mbind outcome_bind]. rewrite length_drop in Q4, Q5. rewrite <- Q1 in Hok.
  destruct stop as [| | |e].
  - apply text_over_good; [done|bounds_tac|exact Hok|unmarked_tac|].
    intros f' Hok' Hw Hc Hpos U'. apply count_good; [cbn in *; lia|]. cbv zeta.
    apply break_good; [exact Hok'| |by apply unmarked_ok|cbn in *; lia].
    destruct (Hw 0 s_header_almost_done) as [W _]; [by split|]. cbn [cur on_parser]. rewrite Hc. split; [exact W|exact I].
  - apply count_good; [bounds_tac|]. cbv zeta. repeat pass_step.
  - apply count_good; [bounds_tac|]. cbv zeta. repeat pass_step. exact Q3.
  - destruct Q5. apply fail_good; [done|bounds_tac].
Qed.

Lemma callback_headers_complete_good n0 r0 f k :
  errno (parser f) = HPE_OK -> (pos f <= length data)%nat ->
  (forall c p, errno p = HPE_OK -> (exists fl, p = with_flags fl (parser f)) ->
     good n0 r0 (k {| parser := p; client := c; cur := cur f; pos := pos f; marks := marks f |})) ->
  good n0 r0 (callback_headers_complete settings f k).
Proof.
  intros Hok Hp HK. unfold callback_headers_complete.
  assert (W : forall p, with_flags (flags p) p = p) by (by intros []).
  destruct (on_notify settings headers_complete) as [cb|] eqn:E.
  - destruct (cb (parser f) (client f)) as [[[r q] c]|x] eqn:Ec; cbn [mbind outcome_bind].
    2:{ cbn. by eapply notify_crash. }
    apply (notify_keeps headers_complete) in Ec; [|done|done]. subst q.
    destruct (r =? 0); [|destruct (r =? 1)].
    + cbn [parser]. rewrite bool_decide_eq_true_2 by done. apply HK; [done|]. exists (flags (parser f)). by rewrite W.
    + cbn [parser]. rewrite bool_decide_eq_true_2 by done. apply HK; [done|]. by eexists.
    + cbn. split; [done|]. split; [by left|done].
  - rewrite bool_decide_eq_true_2 by done. specialize (HK (client f) (parser f) Hok). destruct f. apply HK. cbn.
    eexists. by rewrite W.
Qed.

Lemma headers_almost_done_good n0 ch f :
  starts n0 f -> cur f = s_headers_almost_done -> good n0 1 (run_headers_almost_done settings ch f).
Proof.
  open_pass. unfold run_headers_almost_done. repeat pass_step.
  - apply notify_good; [done|done|bounds_tac|exact Hok|]. intros c' q [-> | ->]; repeat pass_step.
  - apply callback_headers_complete_good; [exact Hok|bounds_tac|]. intros c' q Hq (fl & Hfl). pass_step.
    cbn in Hfl. by rewrite Hfl.
Qed.

(** [complete]: the message is over, nothing is marked. *)
Lemma complete_break_good n0 r0 f :
  errno (parser f) = HPE_OK -> in_range 64 (content_length (parser f)) -> unmarked f ->
  (n0 <= pos f < length data)%nat -> good n0 r0 (complete settings f break).
Proof.
  intros Hok Hcl U Hp. unfold complete. apply complete_good; [done|bounds_tac|exact Hok|].
  intros c s p Hp' Hs. apply break_good; [exact Hp'| |by apply unmarked_ok|bounds_tac].
  destruct Hs as [[-> Hq] | (t & -> & ->)]; [|apply wf_init]. cbn [cur parser update_state].
  assert (in_range 64 (content_length p)) by (by destruct Hq as [-> | ->]).
  unfold new_message, start_state. destruct (http_should_keep_alive _); [destruct (bool_decide _)|]; by split.
Qed.

Lemma complete_leave_good n0 r0 f (b : frame C -> bool) :
  errno (parser f) = HPE_OK -> in_range 64 (content_length (parser f)) -> unmarked f ->
  (n0 <= pos f < length data)%nat ->
  good n0 r0 (complete settings f (fun f => if b f then leave f else break f)).
Proof.
  intros Hok Hcl U Hp. unfold complete. apply complete_good; [done|bounds_tac|exact Hok|].
  intros c s p Hp' Hs.
  assert (W : wf 0 s p).
  { destruct Hs as [[-> Hq] | (t & -> & ->)]; [|apply wf_init]. cbn [cur parser update_state].
    assert (in_range 64 (content_length p)) by (by destruct Hq as [-> | ->]).
    unfold new_message, start_state. destruct (http_should_keep_alive _); [destruct (bool_decide _)|]; by split. }
  destruct (b _); [apply leave_good; try assumption; bounds_tac|].
  apply break_good; [assumption|assumption|by apply unmarked_ok|exact Hp].
Qed.

Lemma headers_done_good n0 ch f :
  starts n0 f -> cur f = s_headers_done -> good n0 0 (run_headers_done settings ch f).
Proof.
  open_pass. unfold run_headers_done. pass_step. cbv zeta.
  assert (CL : forall b, good n (rank s_headers_done) (complete settings {| parser := with_nread 0 p; client := c; cur := s_headers_done; pos := n; marks := mk |}
    (fun f => if (b : frame C -> bool) f then leave f else break f))).
  { intros b. apply complete_leave_good; [exact Hok|exact Hcl|exact U|bounds_tac]. }
  pass_step; [exact (CL (fun _ => true))|]. pass_step; [exact (CL (fun _ => false))|].
  repeat pass_step; try exact (CL (fun _ => false)).
  - done.
  - cbn in *. unfold in_range, ULLONG_MAX in *. lia.
Qed.

Lemma message_done_good n0 f :
  starts n0 f -> cur f = s_message_done -> good n0 0 (run_message_done settings f).
Proof. open_pass. unfold run_message_done. apply complete_leave_good; [exact Hok|exact Hcl|exact U|bounds_tac]. Qed.

(** Reading a piece of the body. *)
Lemma read_body_spec (f : frame C) :
  0 < content_length (parser f) < ULLONG_MAX -> (pos f < length data)%nat ->
  let f' := read_body data f in
  parser f' = with_content_length (content_length (parser f')) (parser f) /\
  0 <= content_length (parser f') < ULLONG_MAX /\ cur f' = cur f /\
  (pos f <= pos f' < length data)%nat /\ marks f' = marks (mark body f).
Proof.
  intros Hc Hp. unfold read_body. cbv zeta.
  set (n := Z.min _ _). assert (Hn : 0 < n <= content_length (parser f)) by lia.
  unfold mark. destruct (marks f body); cbn; split_and!; try done; lia.
Qed.

Lemma body_identity_eof_good n0 f :
  starts n0 f -> cur f = s_body_identity_eof -> good n0 0 (run_body_identity_eof data f).
Proof.
  open_pass. unfold run_body_identity_eof. apply break_good.
  - cbn. unfold mark. cbn. destruct (mk body); done.
  - unfold mark. cbn. destruct (mk body); by split.
  - eapply (marked_ok body); [exact U|intros m Hm; by apply HM in Hm as [_ ?]|reflexivity| |].
    + unfold mark. cbn. by destruct (mk body).
    + cbn in *. lia.
  - cbn in *. lia.
Qed.

Lemma body_identity_good n0 f :
  starts n0 f -> cur f = s_body_identity -> good n0 1 (run_body_identity settings data beyond f).
Proof.
  open_pass. unfold run_body_identity. cbn [parser]. rewrite (proj2 (Z.eqb_neq (content_length p) 0)), (proj2 (Z.eqb_neq (content_length p) ULLONG_MAX)) by lia.
  cbn [negb andb cassert mbind outcome_bind].
  destruct (read_body_spec {| parser := p; client := c; cur := s_body_identity; pos := n; marks := mk |} Hwf Hp)
    as (R1 & R2 & R3 & R4 & R5). cbn [parser cur pos] in R1, R2, R3, R4.
  set (f' := read_body data _) in *. cbv zeta.
  assert (Hok' : errno (parser f') = HPE_OK) by (by rewrite R1).
  assert (Hcl' : in_range 64 (content_length (parser f'))) by (unfold in_range, ULLONG_MAX in *; lia).
  assert (HM' : marks_ok f').
  { eapply (marked_ok body); [exact U|intros m Hm; by apply HM in Hm as [_ ?]|exact R5|by rewrite R3|exact (proj1 R4)]. }
  destruct (Z.eqb_spec (content_length (parser f')) 0) as [E|E].
  - apply text_reexecute_good; [done|bounds_tac|exact Hok'| |by split|exact R4|cbn; lia].
    intros k Hk. change (marks f' k = None). rewrite R5. unfold mark. cbn. destruct (mk body); cbn; rewrite ?decide_False by done; by apply U.
  - apply break_good; [exact Hok'| |exact HM'|exact R4]. rewrite R3. split; [exact Hcl'|lia].
Qed.

Lemma chunk_data_good n0 f : starts n0 f -> cur f = s_chunk_data -> good n0 0 (run_chunk_data data f).
Proof.
  open_pass. unfold run_chunk_data. cbn [parser]. destruct Hwf as [Hf Hwf]. rewrite Hf.
  rewrite (proj2 (Z.eqb_neq (content_length p) 0)), (proj2 (Z.eqb_neq (content_length p) ULLONG_MAX)) by lia.
  cbn [negb andb cassert mbind outcome_bind].
  destruct (read_body_spec {| parser := p; client := c; cur := s_chunk_data; pos := n; marks := mk |} Hwf Hp)
    as (R1 & R2 & R3 & R4 & R5). cbn [parser cur pos] in R1, R2, R3, R4.
  set (f' := read_body data _) in *. cbv zeta.
  assert (Hok' : errno (parser f') = HPE_OK) by (by rewrite R1).
  assert (Hcl' : in_range 64 (content_length (parser f'))) by (unfold in_range, ULLONG_MAX in *; lia).
  assert (Hf' : has_flag (parser f') F_CHUNKED = true) by (by rewrite R1).
  assert (HM' : forall s, mark_state body s = true -> marks_ok (update_state s f')).
  { intros s' Hs'. eapply (marked_ok body); [exact U|intros m Hm; by apply HM in Hm as [_ ?]|exact R5|exact Hs'|exact (proj1 R4)]. }
  destruct (Z.eqb_spec (content_length (parser f')) 0) as [E|E].
  - apply break_good; [exact Hok'|by split|by apply HM'|exact R4].
  - apply break_good; [exact Hok'| | |exact R4]; [rewrite R3; split; [exact Hcl'|split; [exact Hf'|lia]]|].
    refine (HM' (cur f') _). by rewrite R3.
Qed.

Lemma chunk_data_almost_done_good n0 ch f :
  starts n0 f -> cur f = s_chunk_data_almost_done ->
  good n0 0 (run_chunk_data_almost_done settings data beyond ch f).
Proof.
  open_pass. unfold run_chunk_data_almost_done. cbn [parser]. destruct Hwf as [Hf Hwf]. rewrite Hf, Hwf.
  cbn [cassert mbind outcome_bind Z.eqb]. repeat pass_step. done.
Qed.

(** ** One pass *)
Theorem switch_good n0 lenient ch f :
  starts n0 f -> good n0 (rank (cur f)) (switch settings data beyond lenient ch f).
Proof.
  intros H. unfold switch. destruct (cur f) eqn:E; cbn [rank].
  all: first
    [ by apply url_good | by apply start_req_or_res_good | by apply res_or_resp_H_good | by apply start_res_good
    | by apply res_version_good | by apply req_version_good | by apply res_status_good | by apply status_good
    | by apply start_req_good | by apply req_method_good | by apply header_field_start_good | by apply header_field_good
    | by apply header_value_discard_ws_good | by apply header_value_discard_ws_almost_done_good
    | by apply header_value_discard_lws_good | by apply header_value_start_good; [|left] | by apply header_value_good
    | by apply header_value_lws_good | by apply header_almost_done_good | by apply chunk_size_start_good
    | by apply chunk_size_good | by apply chunk_parameters_good | by apply chunk_size_almost_done_good
    | by apply headers_almost_done_good | by apply headers_done_good | by apply chunk_data_good
    | by apply chunk_data_almost_done_good | by apply chunk_data_done_good | by apply body_identity_good
    | by apply body_identity_eof_good | by apply message_done_good ].
Qed.

(** ** After the loop *)

(** Only one kind of text is marked. *)
Lemma one_mark (f : frame C) : marks_ok f -> exists d, unmarked_but d f.
Proof.
  intros HM.
  assert (exists d, forall k, k <> d -> mark_state k (cur f) = false) as (d & Hd).
  { destruct (cur f) as [[]| | | | | | | | | | | | | | | | | | | | | | | | | | | | | | | | | | | | | | | | | | | | | | | | |].
    all: first [ exists header_field; intros []; first [reflexivity|congruence]
               | exists header_value; intros []; first [reflexivity|congruence]
               | exists url_data; intros []; first [reflexivity|congruence]
               | exists body; intros []; first [reflexivity|congruence]
               | exists status; intros []; first [reflexivity|congruence] ]. }
  exists d. by apply text_unmarked_but.
Qed.

Lemma marked_length (f : frame C) d : unmarked_but d f -> (length (marked f) <= 1)%nat.
Proof.
  intros U. assert (N : forall k, k <> d -> ~ is_Some (marks f k)) by (intros k Hk; rewrite (U k Hk); by intros [? [=]]).
  unfold marked. rewrite !filter_cons, filter_nil.
  destruct d; repeat case_decide; cbn; try lia; exfalso;
    match goal with H : is_Some (marks f ?k) |- _ => apply (N k); [discriminate|exact H] end.
Qed.

Lemma any_data_good n0 r0 d upto er f k :
  (er <= length data)%nat -> errno (parser f) = HPE_OK -> (exists d', unmarked_but d' f) ->
  (forall f', errno (parser f') = HPE_OK -> (forall n s, wf n s (parser f) -> wf n s (parser f')) ->
     cur f' = cur f -> pos f' = pos f -> (exists d', unmarked_but d' f') -> good n0 r0 (k f')) ->
  good n0 r0 (callback_data settings data beyond d upto er f k).
Proof.
  intros Her Hok (d' & U) HK. destruct (decide (d = d')) as [<-|Hne].
  - apply text_over_good; try done. intros f' H1 H2 H3 H4 H5. apply HK; try done. exists d. by apply unmarked_weaken.
  - unfold callback_data. rewrite bool_decide_eq_true_2 by done. cbn [cassert mbind outcome_bind]. rewrite (U d Hne).
    apply HK; eauto.
Qed.

(** The result: from a place beyond the data only [return] is left. *)
Lemma leftover_good f :
  frame_ok 0 f -> (pos f <= length data)%nat -> (1 <= length data)%nat ->
  good (S (length data)) 0 (leftover settings data beyond f).
Proof.
  intros (Hok & Hwf & HM) Hp Hl. destruct (one_mark f HM) as (d & U). unfold leftover.
  rewrite (proj2 (Nat.leb_le _ _) (marked_length f d U)). cbn [cassert mbind outcome_bind]. cbv zeta.
  assert (H : forall f', errno (parser f') = HPE_OK -> wf 0 (cur f') (parser f') ->
    good (S (length data)) 0 (mret (Return (length data) f'))).
  { intros f' H1 H2. cbn. split; [lia|]. split; [|lia]. right. by apply wf_with_state. }
  assert (N : forall d' f k, errno (parser f) = HPE_OK -> wf 0 (cur f) (parser f) -> (pos f <= length data)%nat ->
    (exists d, unmarked_but d f) ->
    (forall f', errno (parser f') = HPE_OK -> wf 0 (cur f') (parser f') -> (pos f' <= length data)%nat ->
      (exists d, unmarked_but d f') -> good (S (length data)) 0 (k f')) ->
    good (S (length data)) 0 (callback_data settings data beyond d' (pos f) (pos f) f k)).
  { intros d' g k G1 G2 G3 G4 G5. apply any_data_good; try done. intros g' K1 K2 K3 K4 K5.
    apply G5; try done; [rewrite K3; by apply K2|by rewrite K4]. }
  assert (U' : exists d, unmarked_but d f) by eauto. clear d U.
  do 5 (apply N; [assumption|assumption|assumption|assumption|]; clear dependent f; intros f Hok Hwf Hp U').
  by apply H.
Qed.

(** ** The loop *)

(** The outcome of a call. *)
Definition final (r : outcome (nat * http_parser * C)) : Prop :=
  match r with
  | Crash e => callback_crash settings e
  | Ok (n, p, _) => (n <= length data)%nat /\ parser_ok p /\ (errno p = HPE_OK -> 1 <= n)%nat
  end.

Definition steps_left (f : frame C) : nat :=
  if decide (pos f < length data)%nat then 4 * (length data - pos f) - 3 + rank (cur f) else 0.

Lemma rank_bound s : (rank s <= 3)%nat.
Proof. destruct s; cbn; lia. Qed.

Lemma next_byte_good lenient ch f :
  frame_ok 0 f -> (pos f < length data)%nat ->
  good (pos f) (rank (cur f)) (next_byte settings data beyond lenient ch f).
Proof.
  intros (Hok & Hwf & HM) Hp. unfold next_byte. destruct (parsing_header (cur f)) eqn:E.
  - apply count_good; [lia|]. cbv zeta. apply (switch_good (pos f) lenient ch (on_parser _ f)).
    split; [|split; [done|exact Hp]]. split; [exact Hok|]. split; [|exact HM].
    destruct Hwf as [H1 H2]. split; [exact H1|]. cbn [cur on_parser]. destruct (cur f); try exact H2.
    destruct H2 as [H2 H3]. split; [exact H2|]. cbn. by rewrite H3.
  - apply switch_good. split; [|done]. split; [exact Hok|]. split; [|exact HM]. by destruct (cur f).
Qed.

Theorem loop_final lenient fuel (again : bool) (f : frame C) :
  frame_ok (if again then 1 else 0) f -> (pos f <= length data)%nat -> (1 <= length data)%nat ->
  (again = true -> pos f < length data)%nat -> (steps_left f < fuel)%nat ->
  exists r, loop settings data beyond lenient fuel again f = Some r /\ final r.
Proof.
  revert again f. induction fuel as [|fuel IH]; intros again f Hf Hp Hl Ha Hs; [lia|]. cbn [loop].
  destruct (data !! pos f) as [ch|] eqn:E.
  - apply lookup_lt_Some in E.
    assert (G : good (pos f) (rank (cur f))
      (if again then switch settings data beyond lenient ch f else next_byte settings data beyond lenient ch f)).
    { destruct again; [apply switch_good; done|by apply next_byte_good]. }
    assert (S0 : steps_left f = (4 * (length data - pos f) - 3 + rank (cur f))%nat)
      by (unfold steps_left; by rewrite decide_True).
    match type of G with HttpSafe.good _ _ _ _ ?r => destruct r as [[f'|f'|n f']|e] end; cbn [HttpSafe.good] in G; [| |by eexists|by eexists].
    + destruct G as ((G1 & G2 & G3) & G4). apply IH; [|cbn; lia|done|done|].
      * split; [done|]. split; [done|]. intros k m Hm. apply G3 in Hm as [Hm1 Hm2]. split; [done|]. cbn. lia.
      * unfold steps_left. cbn [pos move cur]. pose proof (rank_bound (cur f')). destruct (decide _); lia.
    + destruct G as (G1 & G2 & G3). apply IH; [done|lia|done|lia|].
      unfold steps_left. rewrite decide_True by lia. lia.
  - apply lookup_ge_None in E. destruct again; [specialize (Ha eq_refl); lia|].
    pose proof (leftover_good f Hf Hp Hl) as G.
    destruct (leftover settings data beyond f) as [[f'|f'|n f']|e]; cbn [HttpSafe.good] in G;
      [destruct G; lia|destruct G as (_ & ? & _); lia|by eexists|by eexists].
Qed.

(** ** A call *)
Lemma initial_marks_state s k m : initial_marks s k = Some m -> mark_state k s = true /\ m = O.
Proof. destruct k, s; try discriminate; cbn; try destruct s; try discriminate; intros [= <-]; done. Qed.

(** The end of the stream, in a body that lasts until it. *)
Lemma eof_complete_good f :
  errno (parser f) = HPE_OK -> wf 0 (cur f) (parser f) ->
  match callback_notify settings message_complete 0 f (fun f => mret (Return 0 f)) with
  | Crash e => callback_crash settings e
  | Ok (Return n f') => (n <= 1)%nat /\ parser_ok (with_state (cur f') (parser f'))
  | Ok _ => False
  end.
Proof.
  intros Hok Hwf. unfold callback_notify. rewrite bool_decide_eq_true_2 by done. cbn [cassert mbind outcome_bind].
  destruct (on_notify settings message_complete) as [cb|] eqn:E.
  2:{ cbn. split; [lia|]. right. by apply wf_with_state. }
  unfold called. destruct (cb _ _) as [[[r q] c']|e] eqn:Ec; cbn [mbind outcome_bind]; [|by eapply notify_crash].
  assert (Q : wf 0 (pstate q) q).
  { destruct (complete_keeps _ _ _ _ _ _ E Ec) as [-> | (t & ->)]; [by apply wf_with_state|apply wf_init]. }
  destruct (r =? 0); case_bool_decide; cbn; (split; [lia|]); first [by right; apply wf_with_state|by left].
Qed.

Lemma execute_eof_good f :
  frame_ok 0 f ->
  match execute_eof settings f with
  | Crash e => callback_crash settings e
  | Ok (Return n f') => (n <= 1)%nat /\ parser_ok (with_state (cur f') (parser f'))
  | Ok _ => False
  end.
Proof.
  intros (Hok & Hwf & HM). unfold execute_eof.
  assert (R : parser_ok (with_state (cur f) (parser f))) by (right; by apply wf_with_state).
  pose proof (eof_complete_good f Hok Hwf) as G.
  destruct (cur f) as [[]| | | | | | | | | | | | | | | | | | | | | | | | | | | | | | | | | | | | | | | | | | | | | | | | |] eqn:E;
    first [exact G|cbn; split; [lia|by left]|cbn; split; [lia|by rewrite E]].
Qed.

(** The outcome of [http_parser_execute]. *)
Definition call_ok (p : http_parser) (r : outcome (nat * http_parser * C)) : Prop :=
  match r with
  | Crash e => callback_crash settings e
  | Ok (n, p', _) =>
      (n <= Nat.max 1 (length data))%nat /\ parser_ok p' /\
      (errno p' = HPE_OK -> (1 <= length data -> 1 <= n)%nat)
  end.

Lemma execute_call_ok p c :
  parser_ok p -> exists r, http_parser_execute settings data beyond p c = Some r /\ call_ok p r.
Proof.
  intros Hp. unfold http_parser_execute. case_bool_decide as He.
  { eexists. split; [done|]. cbn. split; [lia|]. split; [exact Hp|done]. }
  destruct Hp as [|Hp]; [done|].
  set (f := {| parser := p; client := c; cur := pstate p; pos := 0; marks := initial_marks (pstate p) |}).
  assert (Hf : frame_ok 0 f).
  { split; [exact He|]. split; [exact Hp|]. intros k m Hm. apply initial_marks_state in Hm as [H1 ->]. done. }
  destruct data as [|ch l] eqn:Ed.
  - pose proof (execute_eof_good f Hf) as G. destruct (execute_eof settings f) as [[f'|f'|n f']|e]; try done.
    + eexists. split; [done|]. destruct G as [G1 G2]. cbn [call_ok]. split; [lia|]. split; [exact G2|]. intros _ H. rewrite Ed in H. cbn in H. lia.
    + eexists. by split.
  - rewrite <- Ed in *. destruct (loop_final (lenient_http_headers p) (execute_fuel data) false f Hf) as (r & Hr & Hfin).
    + cbn. lia.
    + rewrite Ed. cbn. lia.
    + done.
    + unfold steps_left, execute_fuel. pose proof (rank_bound (cur f)). destruct (decide _); lia.
    + exists r. split; [exact Hr|]. destruct r as [[[n p'] c']|e]; [|exact Hfin]. destruct Hfin as (F1 & F2 & F3).
      split; [lia|]. split; [exact F2|]. auto.
Qed.

(** ** Properties *)

(** C2: [http_parser_execute] always returns: whatever the bytes, and whatever a
    previous call left, the loop with its jumps back ([goto reexecute]) sees a
    byte four times at most. *)
Theorem execute_terminates (p : http_parser) (c : C) :
  parser_ok p -> exists r, http_parser_execute settings data beyond p c = Some r.
Proof. intros Hp. destruct (execute_call_ok p c Hp) as (r & Hr & _). eauto. Qed.

(** C14: No input brings the parser itself down: its assertions hold, no byte is
    read out of a method's name, at most one text is marked.  If the process goes
    down in a call, a callback did it. *)
Theorem execute_safe (p : http_parser) (c : C) (e : failure) :
  parser_ok p -> http_parser_execute settings data beyond p c = Some (Crash e) -> callback_crash settings e.
Proof. intros Hp H. destruct (execute_call_ok p c Hp) as (r & Hr & G). rewrite H in Hr. by injection Hr as <-. Qed.

(** C1: The invariant of the parser, which a fresh parser has, survives a call,
    and so does progress: without an error, a call that is given bytes takes one
    at least, and never more than it was given. *)
Theorem execute_invariant (p p' : http_parser) (c c' : C) (n : nat) :
  parser_ok p -> http_parser_execute settings data beyond p c = Some (Ok (n, p', c')) ->
  parser_ok p' /\ (n <= Nat.max 1 (length data))%nat /\
  (errno p' = HPE_OK -> (1 <= length data -> 1 <= n)%nat).
Proof.
  intros Hp H. destruct (execute_call_ok p c Hp) as (r & Hr & G). rewrite H in Hr. injection Hr as <-.
  destruct G as (G1 & G2 & G3). done.
Qed.

End Passes.

Lemma init_ok t : parser_ok (http_parser_init t).
Proof. right. apply wf_init. Qed.

(** ** Witnesses *)

(** No callback but one, which brings the process down. *)
Definition frail_settings : http_parser_settings unit :=
  {| on_notify n := match n with headers_complete => Some (fun _ _ => Crash AssertFailed) | _ => None end;
     on_data _ := None |}.

#[export] Instance frail_callbacks : Callbacks frail_settings.
Proof. split; [intros [] ? ? ? ? ? ? ? [= <-]; done|done|done]. Qed.

Definition a_request : list ascii := chars "GET / HTTP/1.1" ++ [CR; LF].

Lemma execute_terminates_witness :
  exists r, http_parser_execute frail_settings a_request [] (http_parser_init HTTP_BOTH) tt = Some r.
Proof. apply (execute_terminates frail_settings a_request []), init_ok. Defined.

Lemma execute_safe_witness :
  http_parser_execute frail_settings (a_request ++ [CR; LF]) [] (http_parser_init HTTP_BOTH) tt
    = Some (Crash AssertFailed) /\ callback_crash frail_settings AssertFailed.
Proof.
  assert (H : http_parser_execute frail_settings (a_request ++ [CR; LF]) [] (http_parser_init HTTP_BOTH) tt
    = Some (Crash AssertFailed)) by (vm_compute; reflexivity).
  split; [exact H|]. exact (execute_safe frail_settings _ _ _ _ _ (init_ok HTTP_BOTH) H).
Defined.

Lemma execute_invariant_witness :
  exists p n, http_parser_execute frail_settings a_request [] (http_parser_init HTTP_BOTH) tt = Some (Ok (n, p, tt)) /\
    parser_ok p /\ pstate p = s_header_field_start.
Proof.
  eexists _, _. split; [vm_compute; reflexivity|]. split; [|reflexivity].
  eapply (execute_invariant frail_settings a_request [] (http_parser_init HTTP_BOTH) _ tt tt); [apply init_ok|].
  vm_compute. reflexivity.
Defined.
