(* ===== verification/Decoder.v ===== *)
(** * The decoding half of the HTTP/1 codec (http_codec_impl.h, http_codec.cpp of src/src/http)

    The codec is a client of the parser of src/src/http_parser, which calls it
    back for what it finds in the bytes.  The callbacks are the operations of
    this file; what they read of the parser is the argument [p], and the URL
    parser they call is that of [UrlParser].  The callbacks of the user of the
    codec are recorded. *)

From S2P Require Import Prelude CppStd MultiMap Utils HttpCommons StructuredData HttpMessages UrlParser HttpParser.

(** [http_codec::impl::ignore_content_len]. *)
Definition ignore_content_len (p : http_parser) : http_parser :=
  if has_flag p F_CHUNKED then
    with_content_length 0 (with_flags (Z.land (flags p) (Z.lnot F_CONTENTLENGTH)) p)
  else p.

(** ** The codec *)

(** The message behind the pointer [_data]. *)
Inductive message := Req (r : http_request) | Res (r : http_response).

Definition msg_base (m : message) : http_structured_data :=
  match m with Req r => base r | Res r => response_base r end.

Definition msg_with (f : http_structured_data -> outcome http_structured_data) (m : message)
    : outcome message :=
  d ← f (msg_base m);
  mret (match m with
        | Req r => Req (set_base d r)
        | Res r => Res {| response_base := d; _status_code := _status_code r;
                          _status_message := _status_message r |}
        end).

(** Calls of [_scb] excepted, what the user of the codec is told. *)
Inductive decoded :=
| got_header (m : message)
| got_body (d : string)
| got_trailer (k v : string)
| got_end
| got_error (e : Z).

Record codec := {
  _data : option message;
  _version : proto_version;
  _ignore : bool;
  _connected : bool;
  _got_header : bool;
  _headers_completed : bool;
  _urline : string;
  _status : string;
  _key : string;
  _value : string;
  _url : http_parser_url;
  output : list decoded }.

Definition max_uri_len : Z := 8192.

(** [reset()]; the version is kept. *)
Definition reset (c : codec) : codec :=
  {| _data := None; _version := _version c; _ignore := false; _connected := false;
     _got_header := false; _headers_completed := false; _urline := ""; _status := "";
     _key := ""; _value := ""; _url := http_parser_url_init; output := output c |}.

Definition new_codec : codec :=
  reset {| _data := None; _version := UNSET; _ignore := false; _connected := false;
           _got_header := false; _headers_completed := false; _urline := ""; _status := "";
           _key := ""; _value := ""; _url := http_parser_url_init; output := [] |}.

Definition set_data_ (m : option message) (c : codec) : codec :=
  {| _data := m; _version := _version c; _ignore := _ignore c; _connected := _connected c;
     _got_header := _got_header c; _headers_completed := _headers_completed c;
     _urline := _urline c; _status := _status c; _key := _key c; _value := _value c;
     _url := _url c; output := output c |}.

Definition set_text (got : bool) (k v : string) (c : codec) : codec :=
  {| _data := _data c; _version := _version c; _ignore := _ignore c; _connected := _connected c;
     _got_header := got; _headers_completed := _headers_completed c;
     _urline := _urline c; _status := _status c; _key := k; _value := v;
     _url := _url c; output := output c |}.

Definition set_lines (con : bool) (u : http_parser_url) (url st : string) (c : codec) : codec :=
  {| _data := _data c; _version := _version c; _ignore := _ignore c; _connected := con;
     _got_header := _got_header c; _headers_completed := _headers_completed c;
     _urline := url; _status := st; _key := _key c; _value := _value c;
     _url := u; output := output c |}.

Definition set_progress (v : proto_version) (ign done : bool) (c : codec) : codec :=
  {| _data := _data c; _version := v; _ignore := ign; _connected := _connected c;
     _got_header := _got_header c; _headers_completed := done;
     _urline := _urline c; _status := _status c; _key := _key c; _value := _value c;
     _url := _url c; output := output c |}.

Definition emit (ds : list decoded) (c : codec) : codec :=
  {| _data := _data c; _version := _version c; _ignore := _ignore c; _connected := _connected c;
     _got_header := _got_header c; _headers_completed := _headers_completed c;
     _urline := _urline c; _status := _status c; _key := _key c; _value := _value c;
     _url := _url c; output := output c ++ ds |}.

(** The message; a null pointer is undefined. *)
Definition the_data (c : codec) : outcome message := of_option Undefined (_data c).

Definition process_current_header (c : codec) : outcome codec :=
  if negb (_got_header c) then mret c
  else
    m ← the_data c;
    m ← msg_with (header (_key c) (_value c)) m;
    mret (set_text false "" "" (set_data_ (Some m) c)).

(** ** The callbacks *)

(** [m]: the object the user of the codec points [_data] to. *)
Definition on_message_begin (m : option message) (c : codec) : outcome codec :=
  _ ← cassert (bool_decide (is_Some m));
  mret (set_data_ m c).

(** [_urline.substr(off, len)] throws when it starts beyond the end. *)
Definition url_field (line : string) (u : http_parser_url) (f : nat) : outcome string :=
  if len line <? off u f then Crash Terminated else mret (field_str line u f).

Definition take_url (line : string) (u : http_parser_url) (r : http_request) : outcome http_request :=
  x ← url_field line u UF_SCHEMA; let r := schema x r in
  x ← url_field line u UF_HOST; let r := urihost x r in
  x ← url_field line u UF_PORT; let r := HttpMessages.port x r in
  x ← url_field line u UF_PATH; let r := path x r in
  x ← url_field line u UF_QUERY; let r := query x r in
  x ← url_field line u UF_FRAGMENT; let r := fragment x r in
  x ← url_field line u UF_USERINFO; mret (userinfo x r).

(** The static cast of a message that is no request is undefined. *)
Definition as_request (m : message) : outcome http_request :=
  match m with Req r => mret r | Res _ => Crash Undefined end.

(** [on_url(at, len)]: the answer, and the codec. *)
Definition on_url (at_ : string) (beyond : list ascii) (c : codec) : outcome (Z * codec) :=
  let line := _urline c +:+ at_ in
  let c := set_lines (_connected c) (_url c) line (_status c) c in
  if max_uri_len <? len line then mret (1, c)
  else
    m ← the_data c;
    r ← as_request m;
    '(ok, u) ← http_parser_parse_url at_ beyond (_connected c) (_url c);
    r ← (if (ok : bool) then take_url line u r else mret r);
    mret (0, set_lines true u line (_status c) (set_data_ (Some (Req r)) c)).

Definition on_status (p : http_parser) (at_ : string) (c : codec) : outcome codec :=
  m ← the_data c;
  match m with
  | Req _ => Crash AssertFailed
  | Res r =>
      let st := _status c +:+ at_ in
      mret (set_lines (_connected c) (_url c) (_urline c) st
              (set_data_ (Some (Res (status_with (status_code p) st r))) c))
  end.

Definition on_header_field (at_ : string) (c : codec) : outcome codec :=
  _ ← cassert (negb (_headers_completed c));
  c ← process_current_header c;
  mret (set_text (_got_header c) (_key c +:+ at_) (_value c) c).

Definition on_header_value (at_ : string) (c : codec) : outcome codec :=
  _ ← cassert (negb (_headers_completed c));
  mret (set_text true (_key c) (_value c +:+ at_) c).

(** The host and the port of a request, from its [host] field. *)
Definition host_of (r : http_request) : http_request :=
  if empty (_urihost r) then
    let host := header_get hf_host (base r) in
    match break_at ":"%char (chars host) with
    | (_, None) => urihost host r
    | (h, Some rest) => HttpMessages.port (of_chars rest) (urihost (of_chars h) r)
    end
  else r.

Definition on_headers_complete (p : http_parser) (c : codec) : outcome codec :=
  _ ← cassert (http_major p =? 1);
  let v := if bool_decide (_version c = UNSET)
           then (if http_minor p =? 1 then HTTP11 else HTTP10) else _version c in
  let c := set_progress v (_ignore c) (_headers_completed c) c in
  m ← the_data c;
  m ← msg_with (protocol v) m;
  c ← process_current_header (set_data_ (Some m) c);
  m ← the_data c;
  let m := match m with
           | Req r => Req (host_of (HttpMessages.method (pmethod p) r))
           | Res r => Res r
           end in
  m ← msg_with (keepalive (http_should_keep_alive p)) m;
  mret (set_progress v (_ignore c) true (emit [got_header m] (set_data_ (Some m) c))).

(** The trailer that is complete is reported. *)
Definition report_trailer (c : codec) : codec :=
  if _got_header c then set_text false "" "" (emit [got_trailer (_key c) (_value c)] c) else c.

Definition on_trailer_field (at_ : string) (c : codec) : codec :=
  let c := report_trailer c in
  set_text (_got_header c) (_key c +:+ at_) (_value c) c.

Definition on_trailer_value (at_ : string) (c : codec) : codec :=
  set_text true (_key c) (_value c +:+ at_) c.

Definition on_body (at_ : string) (c : codec) : codec :=
  if negb (_ignore c) then emit [got_body at_] c else c.

Definition on_chunk (p : http_parser) (c : codec) : codec :=
  if http_body_is_final p then set_progress (_version c) true (_headers_completed c) c else c.

Definition on_message_complete (c : codec) : codec := reset (emit [got_end] (report_trailer c)).

(** [on_parser_error()]: [err] is the error of the parser and [fatal] what the
    error callback makes of it. *)
Definition on_parser_error (err : Z) (fatal : bool) (c : codec) : Z * codec :=
  if err =? 0 then (0, c)
  else
    let c := emit [got_error err] c in
    if fatal then (err, reset c) else (0, c).

(** The static functions given to the parser: the fields that follow the header
    block are trailers. *)
Inductive parser_event :=
| pe_message_begin (m : option message)
| pe_url (at_ : string) (beyond : list ascii)
| pe_status (at_ : string)
| pe_header_field (at_ : string)
| pe_header_value (at_ : string)
| pe_headers_complete
| pe_body (at_ : string)
| pe_chunk_header
| pe_chunk_complete
| pe_message_complete.

Definition on_event (p : http_parser) (ev : parser_event) (c : codec) : outcome (Z * codec) :=
  match ev with
  | pe_message_begin m => c ← on_message_begin m c; mret (0, c)
  | pe_url s beyond => on_url s beyond c
  | pe_status s => c ← on_status p s c; mret (0, c)
  | pe_header_field s =>
      c ← (if negb (_headers_completed c) then on_header_field s c else mret (on_trailer_field s c));
      mret (0, c)
  | pe_header_value s =>
      c ← (if negb (_headers_completed c) then on_header_value s c else mret (on_trailer_value s c));
      mret (0, c)
  | pe_headers_complete => c ← on_headers_complete p c; mret (0, c)
  | pe_body s => mret (0, on_body s c)
  | pe_chunk_header | pe_chunk_complete => mret (0, on_chunk p c)
  | pe_message_complete => mret (0, on_message_complete c)
  end.

(** The parser stops at a callback that answers something else than 0. *)
Fixpoint on_events (evs : list (http_parser * parser_event)) (c : codec) : outcome (Z * codec) :=
  match evs with
  | [] => mret (0, c)
  | (p, ev) :: evs =>
      '(r, c) ← on_event p ev c;
      if negb (r =? 0) then mret (r, c) else on_events evs c
  end.

(** ** Pieces *)

(** The callbacks for one field: a name and a value, in any number of pieces. *)
Definition field_pieces (p : http_parser) (kv : list string * list string)
    : list (http_parser * parser_event) :=
  ((fun k => (p, pe_header_field k)) <$> kv.1) ++ ((fun v => (p, pe_header_value v)) <$> kv.2).

Definition pieces (p : http_parser) (l : list (list string * list string))
    : list (http_parser * parser_event) := mjoin (field_pieces p <$> l).

(** The same field in one piece. *)
Definition whole (kv : list string * list string) : list string * list string :=
  ([concat_str kv.1], [concat_str kv.2]).

Lemma on_events_app l1 l2 c :
  on_events (l1 ++ l2) c =
    '(r, c) ← on_events l1 c; if negb (r =? 0) then mret (r, c) else on_events l2 c.
Proof.
  revert c. induction l1 as [|[p ev] l1 IH]; intros c; cbn [app on_events]; [done|].
  destruct (on_event p ev c) as [[r c']|e]; cbn [mbind outcome_bind]; [|done].
  destruct (r =? 0) eqn:E; cbn [negb]; [apply IH|]. cbn [mbind outcome_bind mret outcome_ret]. by rewrite E.
Qed.

(** Appending to the name and to the value. *)
Definition append_key (s : string) (c : codec) : codec := set_text (_got_header c) (_key c +:+ s) (_value c) c.
Definition append_value (s : string) (c : codec) : codec := set_text true (_key c) (_value c +:+ s) c.

Lemma later_field p s c :
  _got_header c = false -> on_event p (pe_header_field s) c = Ok (0, append_key s c).
Proof.
  intros Hg. unfold append_key. cbn [on_event]. unfold on_header_field, on_trailer_field, report_trailer,
    process_current_header. rewrite Hg. cbn [negb].
  destruct (_headers_completed c); cbn; by rewrite ?Hg.
Qed.

Lemma any_value p s c : on_event p (pe_header_value s) c = Ok (0, append_value s c).
Proof.
  cbn [on_event]. unfold on_header_value, on_trailer_value. by destruct (_headers_completed c).
Qed.

Lemma append_key_key s t c : append_key t (append_key s c) = append_key (s +:+ t) c.
Proof. unfold append_key, set_text. cbn. by rewrite string_app_assoc. Qed.

Lemma append_value_value s t c : append_value t (append_value s c) = append_value (s +:+ t) c.
Proof. unfold append_value, set_text. cbn. by rewrite string_app_assoc. Qed.

Lemma later_fields p ks c :
  _got_header c = false ->
  on_events ((fun k => (p, pe_header_field k)) <$> ks) c = Ok (0, append_key (concat_str ks) c).
Proof.
  revert c. induction ks as [|k ks IH]; intros c Hg; cbn [fmap list_fmap on_events concat_str].
  - unfold append_key, set_text. rewrite string_app_nil_r. by destruct c.
  - rewrite later_field by done. cbn [mbind outcome_bind negb Z.eqb]. rewrite IH by done.
    by rewrite append_key_key.
Qed.

Lemma any_values p v vs c :
  on_events ((fun v => (p, pe_header_value v)) <$> (v :: vs)) c = Ok (0, append_value (concat_str (v :: vs)) c).
Proof.
  revert v c. induction vs as [|w vs IH]; intros v c.
  - cbn [fmap list_fmap on_events concat_str]. rewrite any_value. cbn. by rewrite string_app_nil_r.
  - change ((fun v => (p, pe_header_value v)) <$> (v :: w :: vs))
      with ((p, pe_header_value v) :: ((fun v => (p, pe_header_value v)) <$> (w :: vs))).
    cbn [on_events]. rewrite any_value. cbn [mbind outcome_bind negb Z.eqb]. rewrite IH.
    rewrite append_value_value. done.
Qed.

(** After a name has begun no complete field is left. *)
Lemma first_field p c :
  (exists e, forall t, on_event p (pe_header_field t) c = Crash e) \/
  (exists c', _got_header c' = false /\ forall t, on_event p (pe_header_field t) c = Ok (0, append_key t c')).
Proof.
  cbn [on_event]. unfold on_header_field, on_trailer_field. destruct (_headers_completed c); cbn [negb].
  - right. exists (report_trailer c). split; [|done].
    unfold report_trailer. by destruct (_got_header c) eqn:E.
  - cbn [cassert mbind outcome_bind].
    destruct (process_current_header c) as [c'|e] eqn:E; cbn [mbind outcome_bind].
    + right. exists c'. split; [|done]. unfold process_current_header in E.
      destruct (_got_header c) eqn:Eg; cbn [negb] in E; [|by injection E as <-].
      apply bind_Ok_inv in E as (m & _ & E). apply bind_Ok_inv in E as (m' & _ & [= <-]). done.
    + left. by exists e.
Qed.

Lemma all_fields p c :
  (exists e, forall k ks, on_events ((fun k => (p, pe_header_field k)) <$> (k :: ks)) c = Crash e) \/
  (exists c', forall k ks, on_events ((fun k => (p, pe_header_field k)) <$> (k :: ks)) c =
    Ok (0, append_key (concat_str (k :: ks)) c')).
Proof.
  destruct (first_field p c) as [(e & H)|(c' & Hg & H)].
  - left. exists e. intros k ks. cbn [fmap list_fmap on_events]. by rewrite H.
  - right. exists c'. intros k ks. rewrite fmap_cons. cbn [on_events]. rewrite H.
    cbn [mbind outcome_bind negb Z.eqb]. rewrite later_fields by done. by rewrite append_key_key.
Qed.

Lemma concat_str_one s : concat_str [s] = s.
Proof. cbn [concat_str]. apply string_app_nil_r. Qed.

Lemma field_whole p kv c :
  kv.1 <> [] -> kv.2 <> [] -> on_events (field_pieces p kv) c = on_events (field_pieces p (whole kv)) c.
Proof.
  destruct kv as [[|k ks] [|v vs]]; try done. intros _ _. unfold field_pieces, whole. cbn [fst snd].
  rewrite !on_events_app. destruct (all_fields p c) as [(e & H)|(c' & H)]; rewrite !H; [done|].
  cbn [mbind outcome_bind negb Z.eqb]. by rewrite !any_values, !concat_str_one.
Qed.

(** ** The target of a request *)
Definition request_with_target (p q f : string) (r : http_request) : http_request :=
  userinfo "" (fragment f (query q (path p (HttpMessages.port "" (urihost "" (schema "" r)))))).

(** A codec before its first URL bytes, with the request [r]. *)
Definition before_url (r : http_request) (c : codec) : Prop :=
  _data c = Some (Req r) /\ _urline c = "" /\ _connected c = false /\ _url c = http_parser_url_init.

Lemma len_le_origin (p q f : string) : len (origin_form p q f) <= 8192 -> len (origin_form p q f) < 2 ^ 16.
Proof. lia. Qed.

Lemma url_field_origin p q f g x :
  0 <= off (origin_url p q f) g <= len (origin_form p q f) ->
  field_str (origin_form p q f) (origin_url p q f) g = x ->
  url_field (origin_form p q f) (origin_url p q f) g = Ok x.
Proof.
  intros H <-. unfold url_field. destruct (Z.ltb_spec (len (origin_form p q f)) (off (origin_url p q f) g)); [lia|done].
Qed.

Lemma off_origin p q f g :
  g ∈ [UF_SCHEMA; UF_HOST; UF_PORT; UF_PATH; UF_QUERY; UF_FRAGMENT; UF_USERINFO] ->
  0 <= off (origin_url p q f) g <= len (origin_form p q f).
Proof.
  pose proof (len_nonneg p). pose proof (len_nonneg q). pose proof (len_nonneg f).
  unfold origin_form, origin_url, fragment_at, query_at. rewrite !len_app. intros Hg. cbv zeta.
  repeat (apply elem_of_cons in Hg as [->|Hg]); [..|by apply not_elem_of_nil in Hg];
    destruct (empty q), (empty f); rewrite ?len_app; change (len "?") with 1; change (len "#") with 1;
    change (len "") with 0; cbn [off field field_data span mark_field set_data http_parser_url_init replicate
      UF_MAX UF_SCHEMA UF_HOST UF_PORT UF_PATH UF_QUERY UF_FRAGMENT UF_USERINFO insert list_insert lookup
      list_lookup default fst]; cbn; lia.
Qed.

Lemma take_url_origin p q f r :
  take_url (origin_form p q f) (origin_url p q f) r = Ok (request_with_target p q f r).
Proof.
  destruct (origin_fields p q f) as (Hp & Hq & Hf & HF).
  rewrite !Forall_cons in HF. destruct HF as (H1 & H2 & H3 & H4 & _).
  unfold take_url. cbv zeta.
  rewrite (url_field_origin p q f UF_SCHEMA ""), (url_field_origin p q f UF_HOST ""),
    (url_field_origin p q f UF_PORT ""), (url_field_origin p q f UF_PATH p),
    (url_field_origin p q f UF_QUERY q), (url_field_origin p q f UF_FRAGMENT f),
    (url_field_origin p q f UF_USERINFO ""); try done; apply off_origin; set_solver.
Qed.

Lemma on_url_origin p q f beyond r c :
  path_part p = true -> url_chars q = true -> url_chars f = true ->
  len (origin_form p q f) <= max_uri_len -> before_url r c ->
  on_url (origin_form p q f) beyond c =
    Ok (0, set_lines true (origin_url p q f) (origin_form p q f) (_status c)
             (set_data_ (Some (Req (request_with_target p q f r))) c)).
Proof.
  intros Hp Hq Hf Hl (B1 & B2 & B3 & B4). unfold on_url. rewrite B2, string_app_nil_l. cbv zeta.
  destruct (Z.ltb_spec max_uri_len (len (origin_form p q f))) as [E|_]; [lia|].
  unfold the_data. cbn [_data _connected _url set_lines]. rewrite B1, B3, B4. cbn [of_option mbind outcome_bind as_request mret outcome_ret].
  rewrite parse_origin_form by (done || (unfold max_uri_len in Hl; lia)). cbn [mbind outcome_bind].
  by rewrite take_url_origin.
Qed.

(** ** Properties *)

(** C28: The parser may cut the name and the value of a field wherever the bytes
    of a read end.  Whatever the pieces, and whatever comes after them, the
    codec does what it would do if every field came in one piece, in the header
    block and in the trailers, failures included. *)
Theorem pieces_do_not_matter (p : http_parser) (l : list (list string * list string))
    (evs : list (http_parser * parser_event)) (c : codec) :
  Forall (fun kv => kv.1 <> [] /\ kv.2 <> []) l ->
  on_events (pieces p l ++ evs) c = on_events (pieces p (whole <$> l) ++ evs) c.
Proof.
  intros HF. rewrite !on_events_app. f_equal. revert c.
  induction HF as [|kv l [Hk Hv] HF IH]; intros c; [done|].
  unfold pieces in *. rewrite !fmap_cons. cbn [mjoin list_join]. rewrite !on_events_app, field_whole by done.
  destruct (on_events (field_pieces p (whole kv)) c) as [[r c']|e]; cbn [mbind outcome_bind]; [|done].
  destruct (negb (r =? 0)); [done|apply IH].
Qed.

Lemma the_data_eq c m : _data c = Some m -> the_data c = Ok m.
Proof. unfold the_data. by intros ->. Qed.

Lemma msg_with_ok f m :
  is_ok (f (msg_base m)) = true -> exists m', msg_with f m = Ok m'.
Proof. unfold msg_with. destruct (f (msg_base m)); [cbn; eauto|done]. Qed.

Lemma msg_with_is_ok f m : is_ok (msg_with f m) = is_ok (f (msg_base m)).
Proof. unfold msg_with. by destruct (f (msg_base m)). Qed.

Lemma is_ok_pair {A B} (o : outcome A) (b : B) : is_ok (x ← o; mret (b, x)) = is_ok o.
Proof. by destruct o. Qed.

(** What comes after the pending field. *)
Lemma complete_rest p v c m :
  _data c = Some m ->
  is_ok (m ← the_data c;
         let m := match m with
                  | Req r => Req (host_of (HttpMessages.method (pmethod p) r))
                  | Res r => Res r
                  end in
         m ← msg_with (keepalive (http_should_keep_alive p)) m;
         mret (set_progress v (_ignore c) true (emit [got_header m] (set_data_ (Some m) c)))) = true.
Proof.
  intros Hm. rewrite (the_data_eq _ m Hm). cbn [mbind outcome_bind]. cbv zeta.
  set (m' := match m with Req _ => _ | Res _ => _ end).
  destruct (msg_with_ok (keepalive (http_should_keep_alive p)) m') as (m2 & ->); [|done].
  apply (run_is_ok (op_keepalive _)). exact I.
Qed.

Definition example_request : http_request :=
  {| base := blank_data http_request_type; _ssl := false; _method := 0; _schema := ""; _urihost := "";
     _port := ""; _path := ""; _query := ""; _fragment := ""; _userinfo := ""; _params := ∅ |}.

Definition a_parser (major minor : Z) : http_parser :=
  with_content_length ULLONG_MAX (with_method HTTP_GET (with_http_major major (with_http_minor minor
    (with_type HTTP_REQUEST (http_parser_init HTTP_BOTH))))).

(** A codec that was told of a new message. *)
Definition begun : codec := set_data_ (Some (Req example_request)) new_codec.

Lemma pieces_do_not_matter_witness :
  let p := a_parser 1 1 in
  let l := [(["Ho"; "st"], ["x"; ".org"]); (["Accept"], ["*/"; "*"])] in
  on_events (pieces p l ++ [(p, pe_headers_complete)]) begun =
    on_events ([(p, pe_header_field "Host"); (p, pe_header_value "x.org");
                (p, pe_header_field "Accept"); (p, pe_header_value "*/*")] ++
               [(p, pe_headers_complete)]) begun.
Proof.
  cbv zeta. rewrite (pieces_do_not_matter (a_parser 1 1) [(["Ho"; "st"], ["x"; ".org"]); (["Accept"], ["*/"; "*"])]);
    [reflexivity|]. repeat constructor; done.
Defined.

(** A target in origin form that arrives in one piece gives the request
    its path, query and fragment.  When a read ends inside it, the rest is given
    to the URL parser as the target of a CONNECT (the flag [_connected] is set
    after the first piece): unless it has a colon it is refused, and the request
    keeps the path, query and fragment of the first piece, although the callback
    reports no error. *)
Theorem target_in_pieces (p q f p1 rest : string) (beyond beyond' : list ascii) (r : http_request)
    (c : codec) :
  path_part p = true -> url_chars q = true -> url_chars f = true ->
  len (origin_form p q f) <= max_uri_len -> before_url r c ->
  (exists c', on_events [(a_parser 1 1, pe_url (origin_form p q f) beyond)] c = Ok (0, c') /\
    _data c' = Some (Req (request_with_target p q f r))) /\
  (origin_form p q f = p1 +:+ rest -> path_part p1 = true -> free_of [":"%char] rest = true ->
   exists c', on_events [(a_parser 1 1, pe_url p1 beyond'); (a_parser 1 1, pe_url rest beyond)] c = Ok (0, c') /\
    _data c' = Some (Req (request_with_target p1 "" "" r)) /\ _urline c' = origin_form p q f).
Proof.
  intros Hp Hq Hf Hl Hb. cbn [on_events on_event]. split.
  { rewrite (on_url_origin p q f beyond r c) by done. cbn. eauto. }
  intros E Hp1 Hc. assert (E1 : p1 = origin_form p1 "" "")
    by (unfold origin_form; cbn; by rewrite string_app_nil_r).
  assert (Hl1 : len p1 + len rest <= max_uri_len) by (rewrite <- len_app, <- E; done).
  pose proof (len_nonneg rest). pose proof (len_nonneg p1).
  pose proof (on_url_origin p1 "" "" beyond' r c Hp1 eq_refl eq_refl) as U. rewrite <- E1 in U.
  rewrite U by (done || lia). cbn [mbind outcome_bind negb Z.eqb]. unfold on_url.
  cbn [_urline _connected _url _status _data set_lines set_data_]. cbv zeta.
  destruct (Z.ltb_spec max_uri_len (len (p1 +:+ rest))) as [H1|_]; [rewrite len_app in H1; lia|].
  unfold the_data. cbn [_data set_lines set_data_ of_option mbind outcome_bind as_request mret outcome_ret].
  destruct (connect_needs_colon rest beyond (origin_url p1 "" "")) as (u' & Eu).
  { eapply free_of_elem; [done|by left]. }
  { destruct (url_fields_ok rest beyond true (origin_url p1 "" "")) as (ok & u' & -> & _);
      [done|unfold max_uri_len in *; lia|done]. }
  rewrite Eu. cbn. eexists. split; [done|]. split; [done|]. cbn. by rewrite E.
Qed.

Lemma target_in_pieces_witness :
  exists c', on_events [(a_parser 1 1, pe_url "/private" []); (a_parser 1 1, pe_url "/../index" [])] begun = Ok (0, c') /\
    (match _data c' with Some (Req r) => _path r | _ => "" end) = "/private".
Proof.
  destruct (target_in_pieces "/private/../index" "" "" "/private" "/../index" [] [] example_request begun)
    as [_ H]; [by vm_compute..|done| |].
  { done. }
  destruct H as (c' & H1 & H2 & _); [by vm_compute..|].
  exists c'. split; [exact H1|]. rewrite H2. reflexivity.
Defined.

(** What a peer can do to the process.  The end of a header block goes
    through exactly when the version is 1.x and no field that is still pending
    is a content length without a number ([std::stoull] throws in a [noexcept]
    function); a request line with any other version the parser takes, such as
    HTTP/2.0 or the HTTP/0.9 form, fails the assertion. *)
Theorem headers_complete_outcome (p : http_parser) (m : message) (c : codec) :
  _data c = Some m ->
  (http_major p <> 1 -> on_event p pe_headers_complete c = Crash AssertFailed) /\
  (http_major p = 1 -> is_ok (on_event p pe_headers_complete c) =
    negb (_got_header c && bool_decide (lowercase (_key c) = hf_content_len) &&
          bool_decide (stoull (_value c) = None))).
Proof.
  intros Hm. cbn [on_event]. unfold on_headers_complete. split.
  { intros Hv. apply Z.eqb_neq in Hv. by rewrite Hv. }
  intros Hv. rewrite is_ok_pair, Hv. change (cassert (1 =? 1)) with (Ok tt).
  cbn [mbind outcome_bind]. cbv zeta. set (v := if bool_decide _ then _ else _).
  rewrite (the_data_eq (set_progress v _ _ c) m Hm). cbn [mbind outcome_bind].
  destruct (msg_with_ok (protocol v) m) as (m1 & ->); [by apply (run_is_ok (op_protocol v))|].
  cbn [mbind outcome_bind]. unfold process_current_header.
  cbn [_got_header _key _value set_data_ set_progress]. destruct (_got_header c); cbn [negb andb].
  - rewrite (the_data_eq (set_data_ (Some m1) _) m1 eq_refl). cbn [mbind outcome_bind].
    pose proof (msg_with_is_ok (header (_key c) (_value c)) m1) as Hh.
    rewrite header_is_ok in Hh. rewrite <- Hh.
    destruct (msg_with _ m1) as [m2|e]; [|done]. cbn [mbind outcome_bind mret outcome_ret].
    exact (complete_rest p v (set_text false "" "" (set_data_ (Some m2) (set_data_ (Some m1)
      (set_progress v (_ignore c) (_headers_completed c) c)))) m2 eq_refl).
  - exact (complete_rest p v (set_data_ (Some m1)
      (set_progress v (_ignore c) (_headers_completed c) c)) m1 eq_refl).
Qed.

Lemma headers_complete_outcome_witness :
  on_event (a_parser 2 0) pe_headers_complete begun = Crash AssertFailed /\
  is_ok (on_event (a_parser 1 1) pe_headers_complete (set_text true "Content-Length" "" begun)) = false.
Proof.
  split.
  - apply (headers_complete_outcome (a_parser 2 0) (Req example_request) begun); done.
  - rewrite (proj2 (headers_complete_outcome (a_parser 1 1) (Req example_request)
      (set_text true "Content-Length" "" begun) eq_refl)); [by vm_compute|done].
Defined.

(** The version of the first message stays for the whole connection:
    [reset()] clears everything but [_version], so the header block of a later
    message is given the protocol of the first one, whatever its own. *)
Theorem version_sticks (p : http_parser) (m : message) (c c' : codec) :
  _version c <> UNSET -> on_event p (pe_message_begin (Some m)) (on_message_complete c) = Ok (0, c') ->
  _version c' = _version c /\
  forall d, _got_header c' = false ->
    on_event p pe_headers_complete c' = Ok (0, d) ->
    exists m1 m2, msg_with (protocol (_version c)) m = Ok m1 /\
      (msg_with (keepalive (http_should_keep_alive p))
        (match m1 with Req r => Req (host_of (HttpMessages.method (pmethod p) r)) | Res r => Res r end)) = Ok m2 /\
      _data d = Some m2 /\ _version d = _version c.
Proof.
  intros Hv [= <-]. cbn [_version set_data_ reset emit on_message_complete].
  assert (E : _version (report_trailer c) = _version c) by (unfold report_trailer; by destruct (_got_header c)).
  split; [done|]. intros d _ H. cbn [on_event] in H. apply bind_Ok_inv in H as (d' & H & [= ->]).
  unfold on_headers_complete in H. apply bind_Ok_inv in H as (u & _ & H). cbv zeta in H.
  cbn [_version set_data_ reset emit on_message_complete] in H. rewrite E in H.
  rewrite bool_decide_eq_false_2 in H by done.
  rewrite (the_data_eq _ m) in H by done. cbn [mbind outcome_bind] in H.
  apply bind_Ok_inv in H as (m1 & E1 & H). cbn in H.
  apply bind_Ok_inv in H as (m2 & E2 & [= <-]). exists m1, m2. done.
Qed.

Lemma version_sticks_witness :
  match on_event (a_parser 1 1) pe_headers_complete begun with
  | Ok (_, c) =>
      match on_event (a_parser 1 0) (pe_message_begin (Some (Req example_request))) (on_message_complete c) with
      | Ok (_, c') => _version c' = HTTP11
      | Crash _ => False
      end
  | Crash _ => False
  end.
Proof.
  destruct (on_event (a_parser 1 1) pe_headers_complete begun) as [[n c]|] eqn:E; [|by vm_compute in E].
  assert (Hv : _version c = HTTP11) by (vm_compute in E; injection E as <- <-; done).
  destruct (on_event (a_parser 1 0) (pe_message_begin (Some (Req example_request))) (on_message_complete c))
    as [[n' c']|] eqn:E'; [|by vm_compute in E'].
  injection E' as <- <-.
  rewrite <- Hv. apply (version_sticks (a_parser 1 0) (Req example_request) c); [by rewrite Hv|reflexivity].
Defined.
