(* ===== verification/HttpCodec.v ===== *)
(** * The HTTP/1 codec as a whole (src/src/http/http_codec.cpp, http_codec_impl.h)

    The callbacks of [Decoder] as the settings of the parser of [HttpExecute],
    and [http_codec::decode], the loop that feeds it. *)

From S2P Require Import Prelude CppStd MultiMap Utils HttpCommons StructuredData.
From S2P Require Import HttpMessages UrlParser HttpParser HttpExecute HttpSafe Decoder.

(** ** The settings *)
Section Codec.
(** The message the user of the codec gives at the beginning of each message,
    and whether its error callback leaves an error fatal. *)
Context (begin : option message) (fatal : Z -> bool).

Definition plain_cb (ev : parser_event) (p : http_parser) (c : codec) : outcome (Z * http_parser * codec) :=
  '(r, c) ← on_event p ev c; mret (r, p, c).

(** [on_message_complete] resets the codec, and with it the parser. *)
Definition complete_cb (p : http_parser) (c : codec) : outcome (Z * http_parser * codec) :=
  '(r, c) ← on_event p pe_message_complete c; mret (r, http_parser_init HTTP_BOTH, c).

Definition parser_settings : http_parser_settings codec :=
  {| on_notify n := Some
       match n with
       | message_begin => plain_cb (pe_message_begin begin)
       | headers_complete => plain_cb pe_headers_complete
       | message_complete => complete_cb
       | chunk_header => plain_cb pe_chunk_header
       | chunk_complete => plain_cb pe_chunk_complete
       end;
     on_data k := Some
       match k with
       | header_field => fun s _ => plain_cb (pe_header_field s)
       | header_value => fun s _ => plain_cb (pe_header_value s)
       | url_data => fun s beyond => plain_cb (pe_url s beyond)
       | body => fun s _ => plain_cb (pe_body s)
       | status => fun s _ => plain_cb (pe_status s)
       end |}.

(** ** [http_codec] *)
Record http_codec := {
  _parser : http_parser;
  impl : codec;
  _ignore_content_len : bool }.

Definition new_http_codec : http_codec :=
  {| _parser := http_parser_init HTTP_BOTH; impl := new_codec; _ignore_content_len := false |}.

Definition ingnore_content_len (s : http_codec) : http_codec :=
  {| _parser := _parser s; impl := impl s; _ignore_content_len := true |}.

(** The conversion of a [size_t] to the [int] that [impl::decode] returns. *)
Definition to_int (n : Z) : Z := let m := wrap 32 n in if m <? 2 ^ 31 then m else m - 2 ^ 32.

(** [impl::on_parser_error]: a fatal error resets the codec and the parser, the
    other ones are forgotten. *)
Definition parser_error (s : http_codec) : bool * http_codec :=
  let e := errno_code (errno (_parser s)) in
  let '(err, c) := on_parser_error e (fatal e) (impl s) in
  let p := if negb (err =? 0) then http_parser_init HTTP_BOTH
           else if e =? 0 then _parser s else with_errno HPE_OK (_parser s) in
  (negb (err =? 0), {| _parser := p; impl := c; _ignore_content_len := _ignore_content_len s |}).

(** What [decode] does after the errors; [_skip_next_header] is never set. *)
Definition after_decode (s : http_codec) : http_codec :=
  if _ignore_content_len s
  then {| _parser := ignore_content_len (_parser s); impl := impl s; _ignore_content_len := false |}
  else s.

(** The loop of [decode]; without fuel there is no result. *)
Fixpoint decode_loop (fuel : nat) (data beyond : list ascii) (b : nat) (s : http_codec)
    : option (outcome (bool * http_codec)) :=
  if (length data <=? b)%nat then Some (mret (true, s))
  else
    match fuel with
    | O => None
    | S fuel =>
        match http_parser_execute parser_settings (drop b data) beyond (_parser s) (impl s) with
        | None => None
        | Some (Crash e) => Some (Crash e)
        | Some (Ok (n, p, c)) =>
            let b := Z.to_nat (u64 (Z.of_nat b + to_int (Z.of_nat n))) in
            let '(failed, s) :=
              parser_error {| _parser := p; impl := c; _ignore_content_len := _ignore_content_len s |} in
            if failed then Some (mret (false, s))
            else decode_loop fuel data beyond b (after_decode s)
        end
    end.

Definition decode (data : string) (beyond : list ascii) (s : http_codec) : option (outcome (bool * http_codec)) :=
  let l := chars data in decode_loop (length l) l beyond 0 s.

#[export] Instance codec_callbacks : Callbacks parser_settings.
Proof.
  assert (P : forall ev p c r p' c', plain_cb ev p c = Ok (r, p', c') -> p' = p).
  { intros ev p c r p' c'. unfold plain_cb. destruct (on_event p ev c) as [[]|]; cbn; [by intros [= _ <- _]|done]. }
  split.
  - intros n cb p c r p' c' Hn [= <-]. destruct n; by first [apply P|destruct Hn].
  - intros cb p c r p' c' [= <-]. unfold complete_cb. destruct (on_event _ _ _) as [[]|]; cbn; [|done].
    intros [= <- <- <-]. right. eauto.
  - intros k cb s l p c r p' c' [= <-]. destruct k; apply P.
Qed.

End Codec.


(** Lines of text. *)
Definition lines (l : list string) : string := concat_str ((fun s => s +:+ crlf) <$> l).

(** The reads of a connection, one after the other; the first that fails ends it. *)
Fixpoint reads (begin : option message) (l : list string) (s : http_codec) : option (outcome (bool * http_codec)) :=
  match l with
  | [] => Some (mret (true, s))
  | d :: l =>
      match decode begin (fun _ => true) d [] s with
      | Some (Ok (true, s)) => reads begin l s
      | r => r
      end
  end.

(** ** Termination *)
Definition codec_ok (s : http_codec) : Prop := parser_ok (_parser s) /\ errno (_parser s) = HPE_OK.

Lemma errno_code_ok e : errno_code e = 0 <-> e = HPE_OK.
Proof. by destruct e. Qed.

Lemma parser_error_ok fatal s :
  parser_ok (_parser s) -> (forall e, e <> 0 -> fatal e = true) ->
  let '(failed, s') := parser_error fatal s in
  codec_ok s' /\ (failed = false -> errno (_parser s) = HPE_OK /\ s' = s).
Proof.
  intros Hp Hf. unfold parser_error. cbv zeta. unfold on_parser_error.
  destruct (Z.eqb_spec (errno_code (errno (_parser s))) 0) as [E|E].
  - cbn. apply errno_code_ok in E. split; [done|]. intros _. split; [done|]. by destruct s.
  - rewrite Hf by done. rewrite (proj2 (Z.eqb_neq _ _) E). cbn. split; [|done]. split; [apply init_ok|done].
Qed.

Lemma to_int_small n : 0 <= n < 2 ^ 31 -> to_int n = n.
Proof.
  intros H. change (2 ^ 31) with 2147483648 in H. unfold to_int. rewrite wrap_id by (unfold in_range; cbn; lia). cbv zeta. change (2 ^ 31) with 2147483648.
  by rewrite (proj2 (Z.ltb_lt _ _)) by lia.
Qed.

Lemma decode_loop_ends begin fatal fuel data beyond b s :
  (forall e, e <> 0 -> fatal e = true) -> codec_ok s -> _ignore_content_len s = false ->
  Z.of_nat (length data) < 2 ^ 31 -> (length data - b <= fuel)%nat ->
  exists r, decode_loop begin fatal fuel data beyond b s = Some r /\
    match r with
    | Crash e => callback_crash (parser_settings begin) e
    | Ok (_, s') => codec_ok s' /\ _ignore_content_len s' = false
    end.
Proof.
  intros Hf Hok Hi Hl. revert b s Hok Hi. induction fuel as [|fuel IH]; intros b s [Hp He] Hi Hb; cbn [decode_loop].
  { rewrite (proj2 (Nat.leb_le _ _)) by lia. eexists. by split. }
  destruct (Nat.leb_spec (length data) b) as [|Hlt]; [eexists; by split|].
  destruct (execute_call_ok (parser_settings begin) (drop b data) beyond (_parser s) (impl s) Hp) as (r & -> & Hr).
  destruct r as [[[n p] c]|e]; [|eexists; by split]. destruct Hr as (Hn & Hp' & Hprog). rewrite length_drop in Hn, Hprog.
  pose proof (parser_error_ok fatal {| _parser := p; impl := c; _ignore_content_len := _ignore_content_len s |} Hp' Hf) as P.
  assert (Ii : forall x, _ignore_content_len (parser_error fatal {| _parser := p; impl := c; _ignore_content_len := x |}).2 = x).
  { intros x. unfold parser_error. by destruct (on_parser_error _ _ _). }
  specialize (Ii (_ignore_content_len s)). destruct (parser_error fatal _) as [failed s']. cbn [snd] in Ii.
  destruct P as [P1 P2]. rewrite Hi in Ii. destruct failed; [eexists; by split|].
  destruct (P2 eq_refl) as [P3 ->]. cbn [_parser] in P3. specialize (Hprog P3 ltac:(lia)).
  change (2 ^ 31) with 2147483648 in Hl.
  rewrite to_int_small by (cbn; lia). rewrite wrap_id by (unfold in_range; cbn; lia).
  unfold after_decode. rewrite Ii. apply IH; [done|done|lia].
Qed.

(** A call in which the parser takes everything. *)
Lemma decode_whole begin fatal d beyond s p c :
  d <> "" -> len d < 2 ^ 31 -> _ignore_content_len s = false -> errno p = HPE_OK ->
  http_parser_execute (parser_settings begin) (chars d) beyond (_parser s) (impl s) = Some (Ok (length (chars d), p, c)) ->
  decode begin fatal d beyond s = Some (Ok (true, {| _parser := p; impl := c; _ignore_content_len := false |})).
Proof.
  intros Hd Hl Hi He Hx. unfold decode. cbv zeta. destruct (length (chars d)) as [|n] eqn:En.
  { destruct d; [done|]. cbn in En. lia. }
  rewrite <- En in Hx. cbn [decode_loop]. rewrite En. cbn [Nat.leb]. rewrite drop_0, Hx, Hi, En.
  unfold len in Hl. change (2 ^ 31) with 2147483648 in Hl.
  rewrite to_int_small by (change (2 ^ 31) with 2147483648; lia). rewrite wrap_id by (unfold in_range; cbn [Z.of_nat]; change (2 ^ 64) with 18446744073709551616; lia).
  unfold parser_error, on_parser_error. cbv zeta. cbn [_parser impl _ignore_content_len]. rewrite He. cbn [errno_code Z.eqb negb].
  change (errno_code HPE_OK) with 0. cbn [Z.eqb negb]. unfold after_decode. cbn [_ignore_content_len].
  replace (Z.to_nat _) with (S n) by lia. destruct n; cbn [decode_loop]; rewrite En; rewrite Nat.leb_refl; done.
Qed.

(** [decode] always returns: every turn of its loop takes a byte, or ends it
    (errors are fatal unless the error callback says otherwise, and no callback
    in the program does), for buffers of less than 2 GiB.  The codec is ready for
    the next call afterwards, and when the process goes down, a callback did it. *)
Theorem decode_terminates (begin : option message) (fatal : Z -> bool) (data : string) (beyond : list ascii)
    (s : http_codec) :
  (forall e, e <> 0 -> fatal e = true) -> codec_ok s -> _ignore_content_len s = false -> len data < 2 ^ 31 ->
  exists r, decode begin fatal data beyond s = Some r /\
    match r with
    | Crash e => callback_crash (parser_settings begin) e
    | Ok (_, s') => codec_ok s' /\ _ignore_content_len s' = false
    end.
Proof. intros Hf Hok Hi Hl. unfold decode. cbv zeta. by apply decode_loop_ends; [..|lia]. Qed.

Lemma decode_terminates_witness :
  exists s, decode None (fun _ => true) "!" [] new_http_codec = Some (Ok (false, s)) /\ codec_ok s.
Proof.
  destruct (decode_terminates None (fun _ => true) "!" [] new_http_codec) as (r & H & G);
    [done|by split; [apply init_ok|]|done|by vm_compute|].
  vm_compute in H. injection H as <-. destruct G as [G _]. eexists. split; [vm_compute; reflexivity|exact G].
Defined.
