(* ===== verification/HttpRun.v ===== *)
(** * Running the parser over known bytes

    [run] composes passes of the parser's loop (src/src/http_parser/http_parser.c);
    [execute_run] turns it into the result of [http_parser_execute].  Then the
    bodies: what the codec's callbacks are told of a body with a length, in any
    pieces, and of a body in chunks. *)

From S2P Require Import Prelude CppStd MultiMap Utils HttpCommons StructuredData HttpMessages.
From S2P Require Import Encoder UrlParser HttpParser HttpExecute HttpSafe Decoder HttpCodec.

(** ** Passes in a row *)
Section Run.
Context {C : Type} (settings : http_parser_settings C) (data beyond : list ascii) (lenient : bool).
Implicit Types (f : frame C).

Definition pass (again : bool) (ch : ascii) f : outcome (after C) :=
  if again then switch settings data beyond lenient ch f else next_byte settings data beyond lenient ch f.

(** A counted byte. *)
Definition counted f : frame C :=
  on_parser (fun p => with_nread (nread p + 1) p) f.

Lemma pass_counted ch f :
  parsing_header (cur f) = true -> 0 <= nread (parser f) < HTTP_MAX_HEADER_SIZE ->
  pass false ch f = switch settings data beyond lenient ch (counted f).
Proof.
  intros H Hn. unfold pass, next_byte. rewrite H. unfold count_header_size. cbv zeta.
  change (Z.of_nat 1) with 1. cbn [parser on_parser].
  unfold HTTP_MAX_HEADER_SIZE in *. rewrite wrap_id by (unfold in_range; cbn; lia).
  cbn [nread with_nread]. destruct (Z.ltb_spec (80 * 1024) (nread (parser f) + 1)); [lia|].
  unfold counted, on_parser. rewrite wrap_id by (unfold in_range; cbn; lia). done.
Qed.

Inductive run : nat -> bool -> frame C -> bool -> frame C -> Prop :=
| run_refl a f : run 0 a f a f
| run_break n a f ch f1 a' f' :
    data !! pos f = Some ch -> pass a ch f = Ok (Break f1) ->
    run n false (move (S (pos f1)) f1) a' f' -> run (S n) a f a' f'
| run_again n a f ch f1 a' f' :
    data !! pos f = Some ch -> pass a ch f = Ok (Reexecute f1) ->
    run n true f1 a' f' -> run (S n) a f a' f'.

Lemma run_trans n m a f a1 f1 a2 f2 :
  run n a f a1 f1 -> run m a1 f1 a2 f2 -> run (n + m) a f a2 f2.
Proof.
  induction 1 as [|? ? ? ? ? ? ? H1 H2 H3 IH|? ? ? ? ? ? ? H1 H2 H3 IH]; intros H; [done| |]; cbn [Nat.add].
  - eapply run_break; eauto.
  - eapply run_again; eauto.
Qed.

Lemma loop_run n k a f a' f' :
  run n a f a' f' ->
  loop settings data beyond lenient (n + k) a f = loop settings data beyond lenient k a' f'.
Proof.
  induction 1 as [|? ? ? ? ? ? ? H1 H2 H3 IH|? ? ? ? ? ? ? H1 H2 H3 IH]; [done| |]; cbn [Nat.add loop];
    rewrite H1; unfold pass in H2; rewrite H2; exact IH.
Qed.

Lemma loop_more k k' a f r :
  loop settings data beyond lenient k a f = Some r -> (k <= k')%nat ->
  loop settings data beyond lenient k' a f = Some r.
Proof.
  revert k' a f. induction k as [|k IH]; intros k' a f H Hk; [done|]. destruct k' as [|k']; [lia|].
  cbn [loop] in *. destruct (data !! pos f); [|done].
  match goal with |- context [match ?x with Ok _ => _ | Crash _ => _ end] => destruct x as [[f'|f'|n f']|e] end;
    try done; (apply IH; [done|lia]).
Qed.

(** The frame a call starts with. *)
Definition start_frame (p : http_parser) (c : C) : frame C :=
  {| parser := p; client := c; cur := pstate p; pos := 0; marks := initial_marks (pstate p) |}.
End Run.

Lemma execute_run {C} (settings : http_parser_settings C) `{!Callbacks settings} data beyond p c n k a f r :
  parser_ok p -> errno p = HPE_OK -> data <> [] ->
  run settings data beyond (lenient_http_headers p) n false (start_frame p c) a f ->
  loop settings data beyond (lenient_http_headers p) k a f = Some r ->
  http_parser_execute settings data beyond p c = Some r.
Proof.
  intros Hp He Hd Hr Hk. destruct (execute_terminates settings data beyond p c Hp) as (r' & Hr').
  pose proof (loop_run settings data beyond _ n k _ _ _ _ Hr) as Hl. rewrite Hk in Hl.
  unfold http_parser_execute in *. rewrite bool_decide_eq_false_2 in * by tauto.
  destruct data as [|ch l]; [done|]. set (d := ch :: l) in *.
  set (m := Nat.max (n + k) (execute_fuel d)).
  pose proof (loop_more settings d beyond _ (n + k) m _ _ _ Hl ltac:(lia)) as H1.
  pose proof (loop_more settings d beyond _ (execute_fuel d) m _ _ _ Hr' ltac:(lia)) as H2.
  unfold start_frame in H1. rewrite Hr'. congruence.
Qed.

(** After the last byte, with nothing marked. *)
Lemma loop_end {C} (settings : http_parser_settings C) data beyond lenient k f :
  errno (parser f) = HPE_OK -> unmarked f -> pos f = length data ->
  loop settings data beyond lenient (S k) false f = Some (Ok (length data, with_state (cur f) (parser f), client f)).
Proof.
  intros He U Hp. cbn [loop]. rewrite Hp, (proj2 (lookup_ge_None _ _)) by lia.
  assert (N : forall d upto er (g : frame C) k, errno (parser g) = HPE_OK -> unmarked g ->
    callback_data settings data beyond d upto er g k = k g).
  { intros d upto er g k' Hg Ug. unfold callback_data. rewrite bool_decide_eq_true_2 by done. cbn. by rewrite (Ug d). }
  unfold leftover, marked. rewrite !filter_cons, filter_nil.
  rewrite !decide_False by (rewrite U; by intros [? [=]]). cbn [length Nat.leb cassert mbind outcome_bind].
  by rewrite !N.
Qed.

(** ** Who receives a body

    What the callbacks make of their state in the middle of a message: of a piece
    of its body, at the boundary of a chunk, at the end. *)
Class Receiver {C : Type} (settings : http_parser_settings C) := {
  receiving : C -> Prop;
  ending : C -> Prop;
  take_body : string -> C -> C;
  take_boundary : http_parser -> C -> C;
  take_end : C -> C;
  body_taken s l p c : receiving c ->
    match on_data settings body with Some cb => cb s l p c = Ok (0, p, take_body s c) | None => False end;
  body_receiving s c : receiving c -> receiving (take_body s c);
  boundary_taken n p c : n = chunk_header \/ n = chunk_complete -> receiving c ->
    match on_notify settings n with Some cb => cb p c = Ok (0, p, take_boundary p c) | None => False end;
  receiving_ending c : receiving c -> ending c;
  boundary_ending p c : receiving c -> ending (take_boundary p c);
  boundary_between p c : http_body_is_final p = false -> take_boundary p c = c;
  boundary_end p c : take_end (take_boundary p c) = take_end c;
  end_taken p c : ending c ->
    match on_notify settings message_complete with
    | Some cb => cb p c = Ok (0, http_parser_init HTTP_BOTH, take_end c)
    | None => False
    end }.

(** The pieces, one after the other. *)
Definition take_pieces {C} {settings : http_parser_settings C} `{!Receiver settings} (ds : list string) (c : C) : C :=
  foldl (fun c d => take_body d c) c ds.

Lemma pieces_receiving {C} {settings : http_parser_settings C} `{!Receiver settings} ds c :
  receiving c -> receiving (take_pieces ds c).
Proof. revert c. induction ds as [|d ds IH]; intros c H; [done|]. by apply IH, body_receiving. Qed.

(** ** A body in chunks *)
Section Chunks.
Context {C : Type} (settings : http_parser_settings C) `{!Receiver settings}.
Context (data beyond : list ascii) (lenient : bool).
Abbreviation pass := (pass settings data beyond lenient).
Abbreviation run := (run settings data beyond lenient).

(** A frame in the framing of a chunked message: state, place, the client, the
    length in progress, the bytes counted. *)
Record framing (s : state) (n : nat) (c : C) (cl nr : Z) (trailing : bool) (f : frame C) : Prop := {
  fr_cur : cur f = s;
  fr_pos : pos f = n;
  fr_client : client f = c;
  fr_length : content_length (parser f) = cl;
  fr_nread : nread (parser f) = nr;
  fr_ok : errno (parser f) = HPE_OK;
  fr_chunked : has_flag (parser f) F_CHUNKED = true;
  fr_trailing : has_flag (parser f) F_TRAILING = trailing;
  fr_unmarked : unmarked f }.

(** One pass over a byte, to the next one. *)
Definition moves (f : frame C) (P : frame C -> Prop) : Prop :=
  exists f', run 1 false f false f' /\ P f'.

Lemma move_on ch f f1 (P : frame C -> Prop) :
  data !! pos f = Some ch -> pass false ch f = Ok (Break f1) -> P (move (S (pos f1)) f1) -> moves f P.
Proof. intros H1 H2 H3. eexists. split; [|exact H3]. eapply run_break; [done|done|apply run_refl]. Qed.

(** A byte that is counted, and one that is not. *)
Lemma header_move ch s n c cl nr t f P :
  framing s n c cl nr t f -> parsing_header s = true -> 0 <= nr < HTTP_MAX_HEADER_SIZE ->
  data !! n = Some ch ->
  (forall g, framing s n c cl (nr + 1) t g ->
     exists g', switch settings data beyond lenient ch g = Ok (Break g') /\ P (move (S (pos g')) g')) ->
  moves f P.
Proof.
  intros F Hs Hn Hch K. destruct (K (counted f)) as (g' & G1 & G2).
  { destruct F. split; try done. cbn. lia. }
  destruct F. eapply (move_on ch); [by subst|rewrite pass_counted; [exact G1|by subst|lia]|exact G2].
Qed.

Lemma body_move ch s n c cl nr t f P :
  framing s n c cl nr t f -> parsing_header s = false -> data !! n = Some ch ->
  (exists g', switch settings data beyond lenient ch f = Ok (Break g') /\ P (move (S (pos g')) g')) ->
  moves f P.
Proof.
  intros F Hs Hch (g' & G1 & G2). destruct F. eapply (move_on ch); [by subst| |exact G2].
  unfold HttpRun.pass, next_byte. subst. by rewrite Hs.
Qed.

Lemma moves_weaken f (P Q : frame C -> Prop) : moves f P -> (forall g, P g -> Q g) -> moves f Q.
Proof. intros (g & H1 & H2) H. exists g. auto. Qed.

Ltac framing_tac :=
  match goal with F : framing _ _ _ _ _ _ _ |- _ => destruct F; split; try done end.

Lemma hex_digit d :
  0 <= d < 16 -> unhex (digit_char d) = d /\ is_ch CR (digit_char d) = false.
Proof.
  intros H.
  assert (Hc : d = 0 \/ d = 1 \/ d = 2 \/ d = 3 \/ d = 4 \/ d = 5 \/ d = 6 \/ d = 7 \/
    d = 8 \/ d = 9 \/ d = 10 \/ d = 11 \/ d = 12 \/ d = 13 \/ d = 14 \/ d = 15) by lia.
  repeat destruct Hc as [->|Hc]; try (by vm_compute). subst. by vm_compute.
Qed.

Lemma first_digit n c cl d f :
  framing s_chunk_size_start n c cl 0 false f -> 0 <= d < 16 -> data !! n = Some (digit_char d) ->
  moves f (framing s_chunk_size (S n) c d 1 false).
Proof.
  intros F Hd Hch. destruct (hex_digit d Hd) as [H1 H2].
  eapply header_move; [exact F|done|by vm_compute|exact Hch|]. clear F f. intros g F.
  unfold switch, run_chunk_size_start. rewrite (fr_cur _ _ _ _ _ _ _ F), (fr_nread _ _ _ _ _ _ _ F), (fr_chunked _ _ _ _ _ _ _ F).
  cbn [Z.add Z.eqb Pos.eqb cassert mbind outcome_bind]. rewrite H1, (proj2 (Z.eqb_neq d (-1))) by lia.
  eexists. split; [reflexivity|]. framing_tac. cbn. congruence.
Qed.

Lemma add_size_digit p cl d :
  content_length p = cl -> 0 <= cl < 2 ^ 59 -> 0 <= d < 16 ->
  add_digit 16 d p = Some (with_content_length (cl * 16 + d) p).
Proof.
  intros Hc Hcl Hd. change (2 ^ 59) with 576460752303423488 in Hcl. unfold add_digit. rewrite Hc.
  rewrite (wrap_id 64 (cl * 16)), wrap_id by (unfold in_range; cbn; lia).
  change ((ULLONG_MAX - 16) / 16) with 1152921504606846974. destruct (Z.ltb_spec 1152921504606846974 cl); [lia|done].
Qed.

Lemma next_digit n c cl nr d f :
  framing s_chunk_size n c cl nr false f -> 0 <= nr < HTTP_MAX_HEADER_SIZE -> 0 <= d < 16 -> 0 <= cl < 2 ^ 59 ->
  data !! n = Some (digit_char d) ->
  moves f (framing s_chunk_size (S n) c (cl * 16 + d) (nr + 1) false).
Proof.
  intros F Hn Hd Hcl Hch. destruct (hex_digit d Hd) as [H1 H2].
  eapply header_move; [exact F|done|exact Hn|exact Hch|]. clear F f. intros g F.
  unfold switch, run_chunk_size. rewrite (fr_cur _ _ _ _ _ _ _ F), (fr_chunked _ _ _ _ _ _ _ F), H1, H2.
  cbn [cassert mbind outcome_bind]. rewrite (proj2 (Z.eqb_neq d (-1))) by lia.
  rewrite (add_size_digit (parser g) cl d) by (done || apply F). eexists. split; [reflexivity|]. framing_tac. cbn. congruence.
Qed.


(** Any number of passes. *)
Definition reaches (f : frame C) (P : frame C -> Prop) : Prop :=
  exists n f', run n false f false f' /\ P f'.

Lemma reaches_refl f (P : frame C -> Prop) : P f -> reaches f P.
Proof. intros H. exists O, f. split; [apply run_refl|exact H]. Qed.

Lemma reaches_move f (P Q : frame C -> Prop) : moves f P -> (forall g, P g -> reaches g Q) -> reaches f Q.
Proof.
  intros (g & H1 & H2) K. destruct (K g H2) as (n & h & H3 & H4). exists (1 + n)%nat, h. split; [|exact H4].
  by eapply run_trans.
Qed.

Lemma reaches_trans f (P Q : frame C -> Prop) : reaches f P -> (forall g, P g -> reaches g Q) -> reaches f Q.
Proof.
  intros (n & g & H1 & H2) K. destruct (K g H2) as (m & h & H3 & H4). exists (n + m)%nat, h. split; [|exact H4].
  by eapply run_trans.
Qed.

(** Where the data goes on. *)
Lemma data_here n ch l : drop n data = ch :: l -> data !! n = Some ch /\ drop (S n) data = l.
Proof.
  intros H. split.
  - rewrite <- (Nat.add_0_r n), <- lookup_drop, H. done.
  - rewrite <- (Nat.add_1_r n), <- drop_drop, H. done.
Qed.

Lemma data_on n l k : drop n data = l ++ k -> drop (n + length l) data = k.
Proof. intros H. rewrite <- drop_drop, H. by apply drop_app_length. Qed.

(** The digits of a size. *)
Lemma digits_grow ds b v : 1 <= b -> 0 <= v -> Forall (fun d => 0 <= d < b) ds -> v <= eval_digits b v ds.
Proof.
  intros Hb Hv HF. revert v Hv. induction HF as [|d ds Hd HF IH]; intros v Hv; [cbn; lia|].
  cbn. transitivity (v * b + d); [nia|]. apply IH. nia.
Qed.

Lemma more_digits_read ds n c cl nr f l :
  framing s_chunk_size n c cl nr false f -> Forall (fun d => 0 <= d < 16) ds -> 0 <= cl ->
  eval_digits 16 cl ds < 2 ^ 60 -> 0 <= nr -> nr + Z.of_nat (length ds) <= HTTP_MAX_HEADER_SIZE ->
  drop n data = (digit_char <$> ds) ++ l ->
  reaches f (framing s_chunk_size (n + length ds) c (eval_digits 16 cl ds) (nr + Z.of_nat (length ds)) false).
Proof.
  intros F HF. revert n cl nr f F. induction HF as [|d ds Hd HF IH]; intros n cl nr f F Hcl Hv Hnr Hmax Hl.
  { apply reaches_refl. cbn. by rewrite Nat.add_0_r, Z.add_0_r. }
  cbn [length fmap list_fmap app] in Hl, Hmax. apply data_here in Hl as [Hch Hl].
  change (eval_digits 16 (cl * 16 + d) ds < 2 ^ 60) in Hv. pose proof (digits_grow ds 16 (cl * 16 + d) ltac:(lia) ltac:(lia) HF) as Hg.
  change (2 ^ 60) with 1152921504606846976 in Hv.
  eapply reaches_move; [eapply next_digit; [exact F|lia|exact Hd| |exact Hch]|].
  { change (2 ^ 59) with 576460752303423488. lia. }
  intros g G. cbn [length]. change (eval_digits 16 cl (d :: ds)) with (eval_digits 16 (cl * 16 + d) ds).
  rewrite <- Nat.add_succ_comm, Nat2Z.inj_succ, <- Z.add_succ_comm. apply (IH _ _ _ _ G); [lia|exact Hv|lia|lia|exact Hl].
Qed.

(** A callback that answers 0. *)
Lemma notify_run n er f k c' :
  errno (parser f) = HPE_OK ->
  match on_notify settings n with
  | Some cb => cb (with_state (cur f) (parser f)) (client f) = Ok (0, with_state (cur f) (parser f), c')
  | None => False
  end ->
  callback_notify settings n er f k =
    k {| parser := with_state (cur f) (parser f); client := c'; cur := cur f; pos := pos f; marks := marks f |}.
Proof.
  intros Hok H. unfold callback_notify. rewrite bool_decide_eq_true_2 by done. cbn [cassert mbind outcome_bind].
  destruct (on_notify settings n) as [cb|]; [|done]. unfold called. rewrite H. cbn [mbind outcome_bind Z.eqb errno with_state].
  by rewrite bool_decide_eq_true_2.
Qed.

(** A callback at the boundary of a chunk, where the body does not end. *)
Lemma boundary_run n er f k :
  n = chunk_header \/ n = chunk_complete -> errno (parser f) = HPE_OK -> receiving (client f) ->
  http_body_is_final (with_state (cur f) (parser f)) = false ->
  callback_notify settings n er f k =
    k {| parser := with_state (cur f) (parser f); client := client f; cur := cur f; pos := pos f; marks := marks f |}.
Proof.
  intros Hn Hok Hr Hf. apply notify_run; [done|].
  pose proof (boundary_taken n (with_state (cur f) (parser f)) (client f) Hn Hr) as B.
  rewrite boundary_between in B by done. exact B.
Qed.

Lemma size_end n c cl nr f :
  framing s_chunk_size n c cl nr false f -> 0 <= nr -> nr + 1 < HTTP_MAX_HEADER_SIZE -> receiving c ->
  drop n data = CR :: LF :: drop (S (S n)) data ->
  reaches f (framing (if cl =? 0 then s_header_field_start else s_chunk_data) (S (S n)) c cl 0 (cl =? 0)).
Proof.
  intros F Hn Hm Hc Hl. apply data_here in Hl as [Hcr Hl]. apply data_here in Hl as [Hlf _].
  eapply reaches_move.
  { eapply (header_move CR _ _ _ _ _ _ _ (framing s_chunk_size_almost_done (S n) c cl (nr + 1) false));
      [exact F|done|lia|exact Hcr|]. clear F f. intros f F.
    unfold switch, run_chunk_size. rewrite (fr_cur _ _ _ _ _ _ _ F), (fr_chunked _ _ _ _ _ _ _ F).
    cbn [cassert mbind outcome_bind]. eexists. split; [reflexivity|]. framing_tac. cbn. congruence. }
  intros g G. eapply reaches_move; [|intros h H; by apply reaches_refl].
  eapply header_move; [exact G|done|lia|exact Hlf|]. clear dependent g. clear F f. intros f F.
  unfold switch, run_chunk_size_almost_done. rewrite (fr_cur _ _ _ _ _ _ _ F), (fr_chunked _ _ _ _ _ _ _ F).
  cbn [cassert mbind outcome_bind]. unfold strict_check. change (negb (is_ch LF LF)) with false. cbn iota. cbv zeta.
  cbn [on_parser parser with_nread content_length]. rewrite (fr_length _ _ _ _ _ _ _ F).
  destruct (cl =? 0) eqn:E; (erewrite (boundary_run chunk_header); [|by left|exact (fr_ok _ _ _ _ _ _ _ F)|cbn; by rewrite (fr_client _ _ _ _ _ _ _ F)|reflexivity]);
    (eexists; split; [reflexivity|]); destruct F; split; cbn; try done; try congruence.
  - unfold has_flag in *. cbn. rewrite Z.land_lor_distr_l. apply negb_true_iff, Z.eqb_neq.
    apply negb_true_iff, Z.eqb_neq in fr_chunked0. intros Hz. apply Z.lor_eq_0_iff in Hz as [Hz _]. done.
  - unfold has_flag. cbn. rewrite Z.land_lor_distr_l. apply negb_true_iff, Z.eqb_neq.
    intros Hz. apply Z.lor_eq_0_iff in Hz as [_ Hz]. done.
Qed.

(** A chunk's bytes, and the end of line after them. *)
Lemma data_run d up er f k m c' :
  errno (parser f) = HPE_OK -> marks f d = Some m ->
  match on_data settings d with
  | Some cb =>
      cb (of_chars (take (up - m) (drop m data))) (drop up data ++ beyond) (with_state (cur f) (parser f)) (client f)
      = Ok (0, with_state (cur f) (parser f), c')
  | None => False
  end ->
  callback_data settings data beyond d up er f k =
    k (set_mark d None {| parser := with_state (cur f) (parser f); client := c'; cur := cur f; pos := pos f; marks := marks f |}).
Proof.
  intros Hok Hm H. unfold callback_data. rewrite bool_decide_eq_true_2 by done. cbn [cassert mbind outcome_bind].
  rewrite Hm. destruct (on_data settings d) as [cb|]; [|done]. unfold called. rewrite H.
  cbn [mbind outcome_bind Z.eqb errno with_state]. by rewrite bool_decide_eq_true_2.
Qed.

Lemma chunk_data_read n c nr d f :
  framing s_chunk_data n c (len d) nr false f -> d <> "" -> len d < ULLONG_MAX -> receiving c ->
  drop n data = chars d ++ CR :: LF :: drop (n + length (chars d) + 2) data ->
  reaches f (framing s_chunk_size_start (n + length (chars d) + 2) (take_body d c) 0 0 false).
Proof.
  intros F Hd Hl Hi Hdr. set (L := length (chars d)) in *.
  assert (HL : (0 < L)%nat) by (unfold L; destruct d; [done|cbn; lia]).
  assert (Hlen : length (drop n data) = (L + 2 + length (drop (n + L + 2) data))%nat).
  { rewrite Hdr. rewrite length_app. fold L. cbn. lia. }
  rewrite length_drop in Hlen.
  assert (H0 : exists ch, data !! n = Some ch).
  { apply lookup_lt_is_Some_2. lia. }
  destruct H0 as (ch & Hch).
  assert (Htl : drop (n + L) data = CR :: LF :: drop (n + L + 2) data).
  { rewrite <- drop_drop, Hdr. apply drop_app_length'. done. }
  assert (Hbytes : take L (drop n data) = chars d) by (rewrite Hdr; by apply take_app_length').
  apply data_here in Htl as [Hcr Htl]. apply data_here in Htl as [Hlf _].
  eapply (reaches_move _ (fun g => framing s_chunk_data_almost_done (n + L) c 0 nr false
      {| parser := parser g; client := client g; cur := cur g; pos := pos g; marks := fun _ => None |} /\
      marks g body = Some n /\ unmarked_but body g)).
  { eapply body_move; [exact F|done|exact Hch|]. unfold switch, run_chunk_data.
    rewrite (fr_cur _ _ _ _ _ _ _ F), (fr_chunked _ _ _ _ _ _ _ F), (fr_length _ _ _ _ _ _ _ F).
    rewrite (proj2 (Z.eqb_neq (len d) 0)), (proj2 (Z.eqb_neq (len d) ULLONG_MAX)) by (unfold len in *; lia).
    cbn [cassert mbind outcome_bind negb andb]. cbv zeta. unfold read_body. rewrite mark_unmarked by apply F.
    cbv zeta. rewrite (fr_length _ _ _ _ _ _ _ F), (fr_pos _ _ _ _ _ _ _ F).
    rewrite Z.min_l by (unfold len; lia). cbn [parser move on_parser content_length with_content_length].
    rewrite Z.sub_diag. cbn [Z.eqb]. eexists. split; [reflexivity|].
    assert (HZ : Z.to_nat (len d) = L) by (unfold len; lia).
    split; [|split].
    - destruct F; split; cbn; try done. rewrite HZ. lia.
    - done.
    - intros k Hk. cbn. rewrite decide_False by done. apply F. }
  intros g (G & Gm & Gu).
  eapply (reaches_move _ (framing s_chunk_data_done (S (n + L)) (take_body d c) 0 nr false)).
  { assert (Hc : cur g = s_chunk_data_almost_done) by apply G.
    eapply (move_on CR); [rewrite <- Hcr; f_equal; apply G|unfold HttpRun.pass, next_byte; rewrite Hc; cbn [parsing_header]|].
    { unfold switch. rewrite Hc. unfold run_chunk_data_almost_done.
      rewrite (fr_chunked _ _ _ _ _ _ _ G : has_flag (parser g) F_CHUNKED = true).
      rewrite (fr_length _ _ _ _ _ _ _ G : content_length (parser g) = 0).
      cbn [cassert mbind outcome_bind Z.eqb]. unfold strict_check. change (negb (is_ch CR CR)) with false. cbn iota.
      erewrite data_run; [reflexivity|exact (fr_ok _ _ _ _ _ _ _ G)|exact Gm|].
      rewrite (fr_pos _ _ _ _ _ _ _ G : pos g = (n + L)%nat). replace (n + L - n)%nat with L by lia.
      rewrite Hbytes, of_chars_chars. cbn [client update_state]. rewrite (fr_client _ _ _ _ _ _ _ G : client g = c).
      by apply body_taken. }
    destruct G; split; try done; cbn in *; try congruence.
    intros k. cbn. destruct (decide (k = body)) as [|Hk]; [done|by apply Gu]. }
  clear dependent g. clear F f. intros f F. eapply reaches_move; [|intros h H; by apply reaches_refl].
  eapply body_move; [exact F|done|exact Hlf|]. unfold switch, run_chunk_data_done.
  rewrite (fr_cur _ _ _ _ _ _ _ F), (fr_chunked _ _ _ _ _ _ _ F). cbn [cassert mbind outcome_bind].
  unfold strict_check. change (negb (is_ch LF LF)) with false. cbn iota.
  erewrite (boundary_run chunk_complete);
    [|by right|exact (fr_ok _ _ _ _ _ _ _ F)|cbn; rewrite (fr_client _ _ _ _ _ _ _ F); by apply body_receiving|reflexivity].
  eexists. split; [reflexivity|]. destruct F; split; cbn; try done; try congruence; try lia.
Qed.

(** A frame at the start of the next message. *)
Definition fresh (n : nat) (c : C) (g : frame C) : Prop :=
  g = {| parser := http_parser_init HTTP_BOTH; client := c; cur := s_start_req_or_res; pos := n; marks := marks g |}
  /\ unmarked g.

Lemma message_complete_run f k :
  errno (parser f) = HPE_OK -> ending (client f) ->
  complete settings f k =
    k {| parser := http_parser_init HTTP_BOTH; client := take_end (client f); cur := s_start_req_or_res; pos := pos f; marks := marks f |}.
Proof.
  intros Hok Hr. unfold complete, callback_notify. cbn [parser update_state]. rewrite bool_decide_eq_true_2 by done.
  cbn [cassert mbind outcome_bind]. set (g := update_state (new_message (parser f)) f).
  pose proof (end_taken (with_state (cur g) (parser g)) (client g) Hr) as E.
  destruct (on_notify settings message_complete) as [cb|]; [|done]. unfold called. by rewrite E.
Qed.

(** The empty line after the last chunk. *)
Lemma message_end n c f :
  framing s_header_field_start n c 0 0 true f -> receiving c ->
  drop n data = CR :: LF :: drop (n + 2) data ->
  reaches f (fresh (n + 2) (take_end c)).
Proof.
  intros F Hg Hl. apply data_here in Hl as [Hcr Hl]. apply data_here in Hl as [Hlf _].
  eapply (reaches_move _ (framing s_headers_almost_done (S n) c 0 1 true)).
  { eapply header_move; [exact F|done|by vm_compute|exact Hcr|]. clear F f. intros f F.
    unfold switch. rewrite (fr_cur _ _ _ _ _ _ _ F). eexists. split; [reflexivity|]. framing_tac. cbn. congruence. }
  clear F f. intros f F.
  set (f1 := counted f). assert (F1 : framing s_headers_almost_done (S n) c 0 2 true f1).
  { destruct F. split; try done. cbn. lia. }
  set (c1 := take_boundary (with_state s_message_done (parser f1)) c).
  set (f2 := {| parser := with_state s_message_done (parser f1); client := c1; cur := s_message_done; pos := pos f1; marks := marks f1 |}).
  exists 2%nat. eexists. split.
  - eapply run_again; [rewrite (fr_pos _ _ _ _ _ _ _ F); exact Hlf| |].
    + rewrite pass_counted; [|by rewrite (fr_cur _ _ _ _ _ _ _ F)|rewrite (fr_nread _ _ _ _ _ _ _ F); by vm_compute].
      fold f1. unfold switch. rewrite (fr_cur _ _ _ _ _ _ _ F1). unfold run_headers_almost_done, strict_check.
      change (negb (is_ch LF LF)) with false. cbn iota. rewrite (fr_trailing _ _ _ _ _ _ _ F1).
      erewrite (notify_run _ _ _ _ c1); [reflexivity|exact (fr_ok _ _ _ _ _ _ _ F1)|].
      cbn [cur client update_state parser]. change (client f1) with (client f). rewrite (fr_client _ _ _ _ _ _ _ F).
      apply boundary_taken; [by right|done].
    + eapply run_break; [cbn; rewrite (fr_pos _ _ _ _ _ _ _ F); exact Hlf| |apply run_refl].
      unfold HttpRun.pass, switch. cbn [cur]. unfold run_message_done.
      rewrite (message_complete_run f2 _ (fr_ok _ _ _ _ _ _ _ F)) by by apply boundary_ending. reflexivity.
  - split; [|apply F]. cbn [move pos]. unfold f2. cbn [client pos].
    assert (P : pos f1 = S n) by apply F1. rewrite P. replace (n + 2)%nat with (S (S n)) by lia.
    unfold c1. by rewrite boundary_end.
Qed.

(** One chunk, as the encoder writes it. *)
Lemma chunk_chars d :
  d <> "" -> len d < 2 ^ 60 ->
  exists h hs, chars (chunk d) = digit_char h :: (digit_char <$> hs) ++ CR :: LF :: chars d ++ [CR; LF] /\
    0 <= h < 16 /\ Forall (fun d => 0 <= d < 16) hs /\ eval_digits 16 h hs = len d /\
    (length hs <= 64)%nat.
Proof.
  intros Hd Hl. pose proof (len_nonneg d) as H0. change (2 ^ 60) with 1152921504606846976 in Hl.
  unfold chunk, empty. rewrite bool_decide_eq_false_2 by done. unfold from.
  rewrite wrap_id by (unfold in_range; cbn; lia).
  assert (HL : (length (chars (print_radix 16 (len d))) <= 65)%nat).
  { unfold print_radix. rewrite chars_of_chars, length_fmap.
    assert (D : forall fuel n acc, (length (digits fuel 16 n acc) <= fuel + length acc)%nat).
    { induction fuel as [|fuel IH]; intros n acc; cbn [digits]; [lia|]. destruct (n <? 16); cbn; [lia|].
      specialize (IH (n / 16) (n mod 16 :: acc)). cbn in IH. lia. }
    specialize (D (digit_fuel (len d)) (len d) []). unfold digit_fuel in D at 2. cbn [length] in D.
    assert (Z.log2 (len d) < 60).
    { destruct (Z.eq_dec (len d) 0) as [->|]; [done|]. apply Z.log2_lt_pow2; cbn; lia. }
    lia. }
  destruct (print_radix_digits 16 (len d)) as (ds & Hne & E & HF & Hv); [lia|lia|].
  destruct ds as [|h hs]; [done|]. inversion HF as [|? ? Hh Hhs]; subst. exists h, hs.
  rewrite !chars_app, E. split; [|split; [exact Hh|split; [exact Hhs|split; [exact Hv|]]]].
  - cbn [fmap list_fmap app]. reflexivity.
  - rewrite E in HL. cbn [fmap list_fmap length] in HL. rewrite length_fmap in HL. lia.
Qed.

Lemma chunk_read n c cl d f l :
  framing s_chunk_size_start n c cl 0 false f -> d <> "" -> len d < 2 ^ 60 -> receiving c ->
  drop n data = chars (chunk d) ++ l ->
  reaches f (framing s_chunk_size_start (n + length (chars (chunk d))) (take_body d c) 0 0 false).
Proof.
  intros F Hd Hl Hi Hdr. destruct (chunk_chars d Hd Hl) as (h & hs & E & Hh & Hhs & Hv & Hlen).
  rewrite E in Hdr |- *. assert (Hpos : 0 < len d) by (pose proof (len_nonneg d); assert (len d <> 0) by (by rewrite len_zero); lia).
  assert (S1 : drop n data = digit_char h :: (digit_char <$> hs) ++ CR :: LF :: chars d ++ CR :: LF :: l).
  { rewrite Hdr. cbn [app]. rewrite <- app_assoc. cbn [app]. by rewrite <- app_assoc. }
  apply data_here in S1 as [Hch S1]. pose proof (data_on _ _ _ S1) as S2. rewrite length_fmap in S2.
  pose proof S2 as S3. apply data_here in S3 as [_ S3]. apply data_here in S3 as [_ S3].
  pose proof (data_on _ _ _ S3) as S4. apply data_here in S4 as [_ S4]. apply data_here in S4 as [_ S4].
  eapply reaches_move; [eapply first_digit; [exact F|exact Hh|exact Hch]|]. clear F f. intros f F.
  eapply reaches_trans; [eapply more_digits_read; [exact F|exact Hhs|lia| |lia| |exact S1]|].
  { rewrite Hv. exact Hl. }
  { unfold HTTP_MAX_HEADER_SIZE. lia. }
  clear F f. intros f F. rewrite Hv in F.
  eapply reaches_trans; [eapply size_end; [exact F|lia|unfold HTTP_MAX_HEADER_SIZE; lia|exact Hi|by rewrite S3]|].
  clear F f. intros f F. rewrite (proj2 (Z.eqb_neq (len d) 0)) in F by lia.
  eapply reaches_trans; [eapply chunk_data_read; [exact F|exact Hd|unfold ULLONG_MAX; lia|exact Hi|]|].
  { rewrite S3. do 3 f_equal. rewrite <- S4. f_equal. lia. }
  clear F f. intros f F. apply reaches_refl. cbn [length]. rewrite !length_app. cbn [length]. rewrite length_app, length_fmap. cbn [length].
  replace (n + _)%nat with (S (S (S n + length hs)) + length (chars d) + 2)%nat by lia. exact F.
Qed.

(** All the chunks. *)
Lemma chunks_read ds n c cl f l :
  framing s_chunk_size_start n c cl 0 false f -> Forall (fun d => len d < 2 ^ 60) ds -> receiving c ->
  drop n data = chars (concat_str (chunk <$> ds)) ++ l ->
  reaches f (fun g => exists cl', framing s_chunk_size_start (n + length (chars (concat_str (chunk <$> ds))))
    (take_pieces (filter (fun d => d <> "") ds) c) cl' 0 false g).
Proof.
  intros F HF. revert n c cl f F. induction HF as [|d ds Hd HF IH]; intros n c cl f F Hi Hdr.
  { apply reaches_refl. exists cl. cbn. by rewrite Nat.add_0_r. }
  cbn [fmap list_fmap concat_str] in Hdr |- *. rewrite chars_app in Hdr |- *. rewrite <- app_assoc in Hdr.
  rewrite length_app, Nat.add_assoc, filter_cons. case_decide as He.
  - eapply reaches_trans; [eapply chunk_read; [exact F|exact He|exact Hd|exact Hi|exact Hdr]|].
    intros g G. eapply IH; [exact G|by apply body_receiving|by apply data_on].
  - subst d. cbn [chunk chars app] in Hdr |- *. rewrite Nat.add_0_r. by eapply IH.
Qed.

(** The last chunk and the empty line. *)
Lemma last_chunk_read n c cl f l :
  framing s_chunk_size_start n c cl 0 false f -> receiving c ->
  drop n data = chars (transfer_chunked_termination +:+ crlf) ++ l ->
  reaches f (fresh (n + 5) (take_end c)).
Proof.
  intros F Hg Hdr. assert (H0 : drop n data = digit_char 0 :: CR :: LF :: CR :: LF :: l) by exact Hdr.
  apply data_here in H0 as [Hch H0].
  eapply reaches_move; [eapply (first_digit _ _ _ 0); [exact F|lia|exact Hch]|]. clear F f. intros f F.
  pose proof H0 as H1. apply data_here in H1 as [_ H1]. apply data_here in H1 as [_ H1].
  eapply reaches_trans; [eapply size_end; [exact F|lia|by vm_compute|exact Hg|by rewrite H1]|]. clear F f. intros f F.
  pose proof H1 as H2. apply data_here in H2 as [_ H2]. apply data_here in H2 as [_ H2].
  eapply reaches_trans; [eapply message_end; [exact F|exact Hg|]|].
  { rewrite H1. do 2 f_equal. rewrite <- H2. f_equal. lia. }
  intros g G. apply reaches_refl. by replace (n + 5)%nat with (S (S (S n)) + 2)%nat by lia.
Qed.

End Chunks.

(** ** Properties *)

(** A parser that waits for a chunk of a message. *)
Definition expects_chunk (p : http_parser) : Prop :=
  pstate p = s_chunk_size_start /\ nread p = 0 /\ errno p = HPE_OK /\ in_range 64 (content_length p) /\
  has_flag p F_CHUNKED = true /\ has_flag p F_TRAILING = false.

(** The encoded body of a chunked message, in one piece. *)
Lemma chunked_taken {C : Type} (settings : http_parser_settings C) `{!Callbacks settings, !Receiver settings}
    (beyond : list ascii) (ds : list string) (e : encoder) (p : http_parser) (c : C) :
  enc_chunked e = true -> enc_state e = HEADER \/ enc_state e = BODY ->
  expects_chunk p -> receiving c -> Forall (fun d => len d < 2 ^ 60) ds ->
  exists text e1 tail e2,
    encode_bodies ds e = Ok (text, e1) /\ encode_eom e1 = Ok (tail, e2) /\ text +:+ tail <> "" /\
    let data := chars (text +:+ tail) in
    http_parser_execute settings data beyond p c =
      Some (Ok (length data, http_parser_init HTTP_BOTH, take_end (take_pieces (filter (fun d => d <> "") ds) c))).
Proof.
  intros Hch He (P1 & P2 & P3 & P4 & P5 & P6) Hi HF.
  destruct (encode_bodies_spec ds e He) as (e1 & E1 & C1 & S1). rewrite Hch in E1, C1.
  exists (concat_str (chunk <$> ds)), e1, (transfer_chunked_termination +:+ crlf). eexists. split; [exact E1|].
  assert (S2 : enc_state e1 = HEADER \/ enc_state e1 = BODY) by (rewrite S1; destruct ds; auto).
  split.
  { unfold encode_eom, state_is. rewrite C1. rewrite bool_decide_eq_false_2 by (rewrite list_elem_of_singleton; destruct S2; congruence).
    cbn [negb cassert mbind outcome_bind]. by destruct S2 as [-> | ->]. }
  assert (Hne : chars (concat_str (chunk <$> ds) +:+ transfer_chunked_termination +:+ crlf) <> []).
  { intros H. apply (f_equal length) in H. rewrite chars_app, length_app in H.
    change (length (chars (transfer_chunked_termination +:+ crlf))) with 5%nat in H. cbn [length] in H. lia. }
  split; [by intros H; apply Hne; rewrite H|]. cbv zeta. set (data := chars (concat_str (chunk <$> ds) +:+ transfer_chunked_termination +:+ crlf)).
  set (f0 := start_frame p c).
  assert (F : framing s_chunk_size_start 0 c (content_length p) 0 false f0).
  { split; try done. intros k. cbn. rewrite P1. by destruct k. }
  assert (Hd : drop 0 data = chars (concat_str (chunk <$> ds)) ++ chars (transfer_chunked_termination +:+ crlf)) by (apply chars_app).
  assert (R : reaches settings data beyond (lenient_http_headers p) f0
    (fresh (length data) (take_end (take_pieces (filter (fun d => d <> "") ds) c)))).
  { eapply reaches_trans; [eapply chunks_read; [exact F|exact HF|exact Hi|exact Hd]|]. intros g (cl' & G).
    eapply reaches_trans; [eapply last_chunk_read; [exact G|by apply pieces_receiving|]|].
    { rewrite (data_on _ _ _ _ Hd). symmetry. apply app_nil_r. }
    intros h H. apply reaches_refl. unfold data. rewrite chars_app, length_app. exact H. }
  destruct R as (n & g & R & G1 & G2). eapply (execute_run _ _ _ _ _ n 1).
  - right. rewrite P1. split; [exact P4|by split].
  - exact P3.
  - exact Hne.
  - exact R.
  - rewrite loop_end; [|by rewrite G1|exact G2|by rewrite G1]. by rewrite G1.
Qed.

(** After the last byte, in a body: the piece is told. *)
Lemma loop_end_body {C : Type} (settings : http_parser_settings C) `{!Receiver settings} data beyond lenient k m (f : frame C) :
  errno (parser f) = HPE_OK -> marks f body = Some m -> unmarked_but body f -> pos f = length data -> receiving (client f) ->
  loop settings data beyond lenient (S k) false f =
    Some (Ok (length data, with_state (cur f) (with_state (cur f) (parser f)), take_body (of_chars (drop m data)) (client f))).
Proof.
  intros He Hm U Hpos Hr. cbn [loop]. rewrite Hpos, (proj2 (lookup_ge_None _ _)) by lia. unfold leftover.
  rewrite (proj2 (Nat.leb_le _ _) (marked_length f body U)). cbn [cassert mbind outcome_bind]. cbv zeta.
  assert (N : forall k up er (f : frame C) K, errno (parser f) = HPE_OK -> marks f k = None ->
    callback_data settings data beyond k up er f K = K f).
  { intros k' up er g K Hg Hk. unfold callback_data. rewrite bool_decide_eq_true_2 by done. cbn. by rewrite Hk. }
  rewrite !(N _ _ _ f) by (done || by apply U).
  erewrite data_run; [|exact He|exact Hm|].
  2:{ rewrite Hpos, take_ge by (rewrite length_drop; lia). by apply body_taken. }
  rewrite N; [reflexivity|exact He|by apply U].
Qed.

(** ** A body with a length *)
Definition expects_body (n : Z) (p : http_parser) : Prop :=
  pstate p = s_body_identity /\ content_length p = n /\ errno p = HPE_OK.

Section Sized.
Context {C : Type} (settings : http_parser_settings C) `{!Callbacks settings, !Receiver settings}.
Context (beyond : list ascii) (d : string) (n : Z) (p : http_parser) (c : C).
Context (Hp : expects_body n p) (Hn : 0 < n < ULLONG_MAX) (Hd : d <> "") (Hi : receiving c).

Lemma expects_ok : parser_ok p.
Proof.
  destruct Hp as (P1 & P2 & P3). right. rewrite P1. unfold wf, in_range. unfold ULLONG_MAX in *.
  change (2 ^ 64) with 18446744073709551616 in *. lia.
Qed.

Lemma first_char : exists ch, chars d !! O = Some ch.
Proof. destruct d; [done|]. by eexists. Qed.

Abbreviation run := (run settings (chars d) beyond (lenient_http_headers p)).

(** The piece is marked and passed over. *)
Definition piece_frame : frame C :=
  {| parser := with_content_length (n - len d) p; client := c; cur := s_body_identity;
     pos := length (chars d) - 1; marks := marks (mark body (start_frame p c)) |}.

Lemma piece_passed : len d <= n -> read_body (chars d) (start_frame p c) = piece_frame /\ marks piece_frame body = Some O /\
  unmarked_but body piece_frame.
Proof.
  intros Hl. destruct Hp as (P1 & P2 & P3). destruct first_char as (ch & Hch). apply lookup_lt_Some in Hch.
  assert (U : unmarked (start_frame p c)) by (intros k; cbn; rewrite P1; by destruct k).
  split.
  - unfold read_body, piece_frame. cbv zeta. rewrite mark_unmarked by done. cbn [parser start_frame pos]. rewrite P2, Nat.sub_0_r, Z.min_r by (unfold len in Hl; lia).
    unfold move, on_parser, set_mark, len. cbn [parser client cur pos marks start_frame]. rewrite P1. f_equal. lia.
  - unfold piece_frame. cbn [marks]. rewrite mark_unmarked by done. split; [done|].
    intros k Hk. cbn [marks set_mark]. rewrite decide_False by done. apply U.
Qed.

Lemma piece_pass ch :
  pass settings (chars d) beyond (lenient_http_headers p) false ch (start_frame p c) =
    run_body_identity settings (chars d) beyond (start_frame p c).
Proof.
  destruct Hp as (P1 & P2 & P3). unfold pass, next_byte, switch. cbn [cur start_frame]. by rewrite P1.
Qed.

(** A piece that is not the last one. *)
Lemma piece_read :
  len d < n ->
  exists p', http_parser_execute settings (chars d) beyond p c =
    Some (Ok (length (chars d), p', take_body d c)) /\ expects_body (n - len d) p'.
Proof.
  intros Hl. destruct Hp as (P1 & P2 & P3). destruct first_char as (ch & Hch). pose proof (lookup_lt_Some _ _ _ Hch) as HL.
  destruct (piece_passed ltac:(lia)) as (F1 & F2 & F3).
  set (g := move (S (pos piece_frame)) piece_frame).
  assert (R : run 1 false (start_frame p c) false g).
  { eapply run_break; [exact Hch| |apply run_refl]. rewrite piece_pass. unfold run_body_identity. rewrite F1. cbn [parser start_frame].
    rewrite P2, (proj2 (Z.eqb_neq n 0)), (proj2 (Z.eqb_neq n ULLONG_MAX)) by lia. cbn [negb andb cassert mbind outcome_bind]. cbv zeta.
    cbn [parser piece_frame content_length with_content_length]. by rewrite (proj2 (Z.eqb_neq (n - len d) 0)) by lia. }
  exists (with_state s_body_identity (with_state s_body_identity (with_content_length (n - len d) p))).
  split; [|by split].
  eapply (execute_run _ _ _ _ _ 1 1); [apply expects_ok|exact P3|by destruct d|exact R|].
  assert (Hpos : pos g = length (chars d)) by (cbn; lia).
  rewrite (loop_end_body _ _ _ _ _ O g P3 F2 F3 Hpos Hi), drop_0, of_chars_chars. reflexivity.
Qed.

(** The last piece. *)
Lemma last_piece_read :
  len d = n ->
  http_parser_execute settings (chars d) beyond p c =
    Some (Ok (length (chars d), http_parser_init HTTP_BOTH, take_end (take_body d c))).
Proof.
  intros Hl. destruct Hp as (P1 & P2 & P3). destruct first_char as (ch & Hch). pose proof (lookup_lt_Some _ _ _ Hch) as HL.
  destruct (piece_passed ltac:(lia)) as (F1 & F2 & F3).
  set (c1 := take_body d c).
  set (q := with_state s_message_done (with_content_length (n - len d) p)).
  set (g := set_mark body None {| parser := q; client := c1; cur := s_message_done; pos := pos piece_frame; marks := marks piece_frame |}).
  assert (U : unmarked g).
  { intros k. change (marks g k) with (if decide (k = body) then None else marks piece_frame k).
    destruct (decide (k = body)); [done|by apply F3]. }
  set (h := {| parser := http_parser_init HTTP_BOTH; client := take_end c1; cur := s_start_req_or_res; pos := length (chars d); marks := marks g |}).
  assert (Hlast : exists ch', chars d !! pos piece_frame = Some ch') by (apply lookup_lt_is_Some_2; cbn; lia).
  destruct Hlast as (ch' & Hch').
  assert (R : run 2 false (start_frame p c) false h).
  { eapply run_again; [exact Hch| |].
    - rewrite piece_pass. unfold run_body_identity. rewrite F1. cbn [parser start_frame].
      rewrite P2, (proj2 (Z.eqb_neq n 0)), (proj2 (Z.eqb_neq n ULLONG_MAX)) by lia. cbn [negb andb cassert mbind outcome_bind]. cbv zeta.
      cbn [parser piece_frame content_length with_content_length]. rewrite Hl, Z.sub_diag. cbn [Z.eqb].
      erewrite data_run; [reflexivity|exact P3|exact F2|].
      rewrite Nat.sub_0_r, drop_0, take_ge by (cbn; lia).
      rewrite of_chars_chars. cbn [client update_state piece_frame]. by apply body_taken.
    - fold piece_frame. eapply (run_break _ _ _ _ _ _ _ ch' {| parser := http_parser_init HTTP_BOTH; client := take_end c1;
        cur := s_start_req_or_res; pos := pos piece_frame; marks := marks g |}).
      + exact Hch'.
      + unfold pass, switch. cbn [cur set_mark]. unfold run_message_done.
        rewrite (message_complete_run settings); [reflexivity|exact P3|by apply receiving_ending, body_receiving].
      + replace (move _ _) with h; [apply run_refl|]. unfold h, move. cbn. f_equal. lia. }
  eapply (execute_run _ _ _ _ _ 2 1); [apply expects_ok|exact P3|by destruct d|exact R|].
  rewrite loop_end; [|done|exact U|done]. unfold h. cbn [cur parser client]. done.
Qed.

End Sized.

Lemma len_concat_nonneg ds : 0 <= len (concat_str ds).
Proof. apply len_nonneg. Qed.

(** Calls that take everything they are given, one after the other. *)
Fixpoint fed {C : Type} (settings : http_parser_settings C) (ds : list string) (p : http_parser) (c : C)
    (p' : http_parser) (c' : C) : Prop :=
  match ds with
  | [] => p = p' /\ c = c'
  | d :: ds =>
      exists p1 c1, d <> "" /\ errno p1 = HPE_OK /\
        http_parser_execute settings (chars d) [] p c = Some (Ok (length (chars d), p1, c1)) /\
        fed settings ds p1 c1 p' c'
  end.

Lemma sized_taken {C : Type} (settings : http_parser_settings C) `{!Callbacks settings, !Receiver settings}
    (ds : list string) (p : http_parser) (c : C) :
  expects_body (len (concat_str ds)) p -> 0 < len (concat_str ds) < ULLONG_MAX ->
  Forall (fun d => d <> "") ds -> receiving c ->
  fed settings ds p c (http_parser_init HTTP_BOTH) (take_end (take_pieces ds c)).
Proof.
  intros Hp Hn HF. revert p c Hp Hn. induction HF as [|d ds Hd HF IH]; intros p c Hp Hn Hc.
  { cbn in Hn. unfold len in Hn. cbn in Hn. lia. }
  cbn [concat_str fed] in *. rewrite len_app in Hp, Hn. pose proof (len_concat_nonneg ds) as Hr.
  destruct (decide (ds = [])) as [->|Hne].
  - replace (len d + len (concat_str [])) with (len d) in * by (cbn; unfold len; cbn; lia).
    exists (http_parser_init HTTP_BOTH), (take_end (take_body d c)). split; [done|]. split; [done|]. split; [|done].
    by eapply (last_piece_read settings).
  - assert (Hpos : 0 < len (concat_str ds)).
    { destruct HF as [|d' ds' Hd' _]; [done|]. cbn [concat_str]. rewrite len_app. pose proof (len_concat_nonneg ds').
      pose proof (len_nonneg d'). assert (len d' <> 0) by (by rewrite len_zero). lia. }
    destruct (piece_read settings [] d _ p c Hp ltac:(lia) Hd Hc ltac:(lia)) as (p' & Hx & E1 & E2 & E3).
    exists p', (take_body d c). split; [done|]. split; [done|]. split; [exact Hx|]. pose proof (len_nonneg d).
    apply IH; [|lia|by apply body_receiving]. split; [exact E1|]. split; [|exact E3]. rewrite E2. lia.
Qed.

(** ** The codec *)
Lemma emit_emit l k c : emit k (emit l c) = emit (l ++ k) c.
Proof. unfold emit. cbn. by rewrite app_assoc. Qed.

Lemma complete_plain c : _got_header c = false -> on_message_complete c = reset (emit [got_end] c).
Proof. intros H. unfold on_message_complete, report_trailer. by rewrite H. Qed.

#[export] Instance codec_receiver (begin : option message) : Receiver (parser_settings begin).
Proof.
  refine {| receiving c := _ignore c = false /\ _got_header c = false;
            ending c := _got_header c = false;
            take_body d c := emit [got_body d] c;
            take_boundary := on_chunk;
            take_end c := reset (emit [got_end] c) |}.
  - intros s l p c [H _]. cbn. unfold plain_cb. cbn. unfold on_body. by rewrite H.
  - intros s c H. exact H.
  - by intros n p c [-> | ->] H.
  - by intros c [_ H].
  - intros p c [_ H]. unfold on_chunk. destruct (http_body_is_final p); exact H.
  - intros p c H. unfold on_chunk. by rewrite H.
  - intros p c. unfold on_chunk. by destruct (http_body_is_final p).
  - intros p c H. cbn. unfold complete_cb. cbn. by rewrite complete_plain.
Defined.

Lemma codec_pieces begin ds c :
  take_pieces (settings := parser_settings begin) ds c = emit (got_body <$> ds) c.
Proof.
  revert c. induction ds as [|d ds IH]; intros c; [unfold emit; cbn; rewrite app_nil_r; by destruct c|].
  change (take_pieces (d :: ds) c) with (take_pieces (settings := parser_settings begin) ds (emit [got_body d] c)).
  by rewrite IH, emit_emit.
Qed.

(** The codec, fed. *)
Lemma fed_reads begin ds s p c :
  fed (parser_settings begin) ds (_parser s) (impl s) p c -> _ignore_content_len s = false ->
  Forall (fun d => len d < 2 ^ 31) ds ->
  reads begin ds s = Some (Ok (true, {| _parser := p; impl := c; _ignore_content_len := false |})).
Proof.
  intros F Hi HF. revert s F Hi. induction HF as [|d ds Hd HF IH]; intros s F Hi.
  { destruct F as [<- <-]. rewrite <- Hi. by destruct s. }
  destruct F as (p1 & c1 & Hne & He & Hx & F). cbn [reads].
  rewrite (decode_whole begin _ d [] s p1 c1) by done. by apply IH.
Qed.

(** What the encoder writes for the body of a chunked message, the decoder
    reads: the parser, given the encoded bytes in one piece, tells the user of the
    codec every piece of the body, in order and unchanged, the empty ones left out,
    and then the end of the message; it takes all the bytes and is ready for the
    next message. *)
Theorem chunked_body_received (begin : option message) (beyond : list ascii) (ds : list string)
    (e : encoder) (p : http_parser) (c : codec) :
  enc_chunked e = true -> enc_state e = HEADER \/ enc_state e = BODY ->
  expects_chunk p -> _ignore c = false -> _got_header c = false ->
  Forall (fun d => len d < 2 ^ 60) ds ->
  exists text e1 tail e2,
    encode_bodies ds e = Ok (text, e1) /\ encode_eom e1 = Ok (tail, e2) /\
    let data := chars (text +:+ tail) in
    http_parser_execute (parser_settings begin) data beyond p c =
      Some (Ok (length data, http_parser_init HTTP_BOTH,
                reset (emit ((got_body <$> filter (fun d => d <> "") ds) ++ [got_end]) c))).
Proof.
  intros Hch He Hp Hi Hg HF.
  assert (R : receiving (settings := parser_settings begin) c) by by split.
  destruct (chunked_taken (parser_settings begin) beyond ds e p c Hch He Hp R HF)
    as (text & e1 & tail & e2 & E1 & E2 & _ & E3).
  exists text, e1, tail, e2. split; [exact E1|]. split; [exact E2|]. cbv zeta in E3 |- *. rewrite E3.
  cbn [take_end codec_receiver]. by rewrite codec_pieces, emit_emit.
Qed.

(** A body with a content length, whatever the reads it arrives in: the user of
    the codec is given the pieces, in order and unchanged, and the end of the
    message with the last byte; the parser is ready for the next message, whatever
    the message said about closing the connection. *)
Theorem sized_body_received (begin : option message) (ds : list string) (s : http_codec) :
  expects_body (len (concat_str ds)) (_parser s) -> 0 < len (concat_str ds) < ULLONG_MAX ->
  Forall (fun d => d <> "" /\ len d < 2 ^ 31) ds ->
  _ignore (impl s) = false -> _got_header (impl s) = false -> _ignore_content_len s = false ->
  reads begin ds s =
    Some (Ok (true, {| _parser := http_parser_init HTTP_BOTH;
                       impl := reset (emit ((got_body <$> ds) ++ [got_end]) (impl s));
                       _ignore_content_len := false |})).
Proof.
  intros Hp Hn HF Hi Hg Hic.
  assert (R : receiving (settings := parser_settings begin) (impl s)) by by split.
  assert (HN : Forall (fun d => d <> "") ds) by (eapply Forall_impl; [exact HF|]; by intros d []).
  pose proof (sized_taken (parser_settings begin) ds (_parser s) (impl s) Hp Hn HN R) as F.
  cbn [take_end codec_receiver] in F. rewrite codec_pieces, emit_emit in F. apply (fed_reads begin) in F; [|done|].
  - exact F.
  - eapply Forall_impl; [exact HF|]. by intros d [].
Qed.

(** ** Witnesses *)
Definition in_state (st : state) (fl cl : Z) : http_parser :=
  with_state st (with_flags fl (with_content_length cl (http_parser_init HTTP_BOTH))).

Lemma chunked_body_received_witness :
  let data := chars (lines ["4"; "wiki"; "b"; "pedia chunk"; "0"; ""]) in
  http_parser_execute (parser_settings None) data [] (in_state s_chunk_size_start F_CHUNKED 0) new_codec =
    Some (Ok (length data, http_parser_init HTTP_BOTH,
      reset (emit [got_body "wiki"; got_body "pedia chunk"; got_end] new_codec))).
Proof.
  cbv zeta.
  destruct (chunked_body_received None [] ["wiki"; ""; "pedia chunk"] {| enc_chunked := true; enc_state := HEADER |}
    (in_state s_chunk_size_start F_CHUNKED 0) new_codec) as (text & e1 & tail & e2 & H1 & H2 & H3);
    [done|by left|by repeat split|done|done|by repeat constructor|].
  vm_compute in H1. injection H1 as <- <-. vm_compute in H2. injection H2 as <- <-.
  exact H3.
Defined.

Lemma sized_body_received_witness :
  exists s, reads None ["wiki"; "pedia"]
      {| _parser := in_state s_body_identity F_CONTENTLENGTH 9; impl := new_codec; _ignore_content_len := false |}
    = Some (Ok (true, s)) /\ output (impl s) = [got_body "wiki"; got_body "pedia"; got_end].
Proof.
  eexists. split.
  - apply sized_body_received; [by repeat split|by vm_compute|by repeat constructor|done|done|done].
  - reflexivity.
Defined.
