(* ===== verification/HttpPeer.v ===== *)
(** * What a peer can send to the HTTP/1 codec

    Inputs on which the parser of src/src/http_parser/http_parser.c and the
    callbacks of src/src/http/http_codec_impl.h do something else than the
    comments of the one and the assumptions of the other say. *)

From S2P Require Import Prelude CppStd MultiMap Utils HttpCommons StructuredData HttpMessages.
From S2P Require Import Encoder UrlParser HttpParser HttpExecute HttpSafe Decoder HttpCodec HttpRun.

Definition accepted (o : option (outcome (bool * http_codec))) : option bool :=
  match o with Some (Ok (b, _)) => Some b | _ => None end.

(** The value of a field of the first request the user of the codec was given. *)
Fixpoint delivered_field (name : string) (l : list decoded) : option string :=
  match l with
  | [] => None
  | got_header (Req r) :: _ => Some (header_get name (base r))
  | _ :: l => delivered_field name l
  end.

Definition received (o : option (outcome (bool * http_codec))) : list decoded :=
  match o with Some (Ok (_, s)) => output (impl s) | _ => [] end.

Definition bodies (l : list decoded) : list string :=
  omap (fun d => match d with got_body s => Some s | _ => None end) l.

(** ** Numbers in a content length *)
Definition digits_of (ds : list Z) : list ascii := digit_char <$> ds.

Lemma decimal_digit d :
  0 <= d < 10 ->
  is_num (digit_char d) = true /\ digit (digit_char d) = d /\ is_header_char (digit_char d) = true /\
  is_ch CR (digit_char d) = false /\ is_ch LF (digit_char d) = false /\ is_ch " "%char (digit_char d) = false.
Proof.
  intros H.
  assert (Hc : d = 0 \/ d = 1 \/ d = 2 \/ d = 3 \/ d = 4 \/ d = 5 \/ d = 6 \/ d = 7 \/ d = 8 \/ d = 9) by lia.
  repeat destruct Hc as [->|Hc]; try (by vm_compute). by subst.
Qed.

Lemma length_step v d p :
  content_length p = v -> 0 <= v < 2 ^ 59 -> 0 <= d < 10 ->
  add_digit 10 d p = Some (with_content_length (v * 10 + d) p).
Proof.
  intros Hc Hv Hd. change (2 ^ 59) with 576460752303423488 in Hv. unfold add_digit. rewrite Hc.
  rewrite (wrap_id 64 (v * 10)), wrap_id by (unfold in_range; cbn; lia).
  change ((ULLONG_MAX - 10) / 10) with 1844674407370955160. by destruct (Z.ltb_spec 1844674407370955160 v); [lia|].
Qed.

(** The parser's loop over digits. *)
Lemma length_digits ds l n v p :
  Forall (fun d => 0 <= d < 10) ds -> content_length p = v -> 0 <= v -> eval_digits 10 v ds < 2 ^ 59 ->
  value_loop false (digits_of ds ++ l) n 0 h_content_length p =
    value_loop false l (n + length ds) 0 h_content_length (with_content_length (eval_digits 10 v ds) p).
Proof.
  intros HF. revert n v p. induction HF as [|d ds Hd HF IH]; intros n v p Hc Hv Hm.
  { cbn. rewrite Nat.add_0_r, <- Hc. by destruct p. }
  cbn [digits_of fmap list_fmap app value_loop length].
  destruct (decimal_digit d Hd) as (D1 & D2 & D3 & D4 & D5 & D6). rewrite D3, D4, D5.
  cbn [negb andb]. rewrite bool_decide_eq_false_2 by done. unfold value_char. rewrite D6, D1, D2. cbn [negb].
  change (eval_digits 10 (v * 10 + d) ds < 2 ^ 59) in Hm.
  pose proof (digits_grow ds 10 (v * 10 + d) ltac:(lia) ltac:(lia) HF) as Hg.
  rewrite (length_step v d p Hc) by (done || lia). cbn [mret outcome_ret mbind outcome_bind].
  change (digit_char <$> ds) with (digits_of ds). rewrite (IH (S n) (v * 10 + d)) by (done || lia).
  by rewrite <- Nat.add_succ_comm.
Qed.

Lemma scan_digits_stop b ds c l :
  2 <= b <= 16 -> Forall (fun d => 0 <= d < b) ds -> digit_val c = None ->
  scan_digits b (digits_of ds ++ c :: l) = (ds, c :: l).
Proof.
  intros Hb HF Hc. induction HF as [|d ds Hd HF IH]; cbn [digits_of fmap list_fmap app scan_digits]; [by rewrite Hc|].
  rewrite digit_val_char by lia. rewrite (proj2 (Z.ltb_lt _ _)) by lia.
  change (digit_char <$> ds) with (digits_of ds). by rewrite IH.
Qed.

Lemma stoull_prefix d ds c l :
  Forall (fun d => 0 <= d < 10) (d :: ds) -> digit_val c = None -> eval_digits 10 0 (d :: ds) < 2 ^ 64 ->
  stoull (of_chars (digits_of (d :: ds) ++ c :: l)) = Some (eval_digits 10 0 (d :: ds)).
Proof.
  intros HF Hc Hv. unfold stoull. rewrite chars_of_chars.
  pose proof (Forall_inv HF) as Hd. cbn in Hd. destruct (digit_char_not_special d Hd) as (S1 & S2 & S3).
  assert (Hsign : read_sign (skip_space (digits_of (d :: ds) ++ c :: l)) = (false, digits_of (d :: ds) ++ c :: l)).
  { cbn. rewrite S1. cbn. by rewrite S2, S3. }
  rewrite Hsign, scan_digits_stop by (done || lia). destruct (Z.leb_spec (2 ^ 64) (eval_digits 10 0 (d :: ds))); [lia|done].
Qed.

(** ** Properties *)

(** A space inside a content length: the parser skips it and goes on with the
    number, so that [1 2] announces a body of twelve bytes, while the codec, which
    reads the same value with [std::stoull], tells its user one.  The body that is
    delivered is not the one the message says it has. *)
Theorem content_length_spaces (d : Z) (ds1 ds2 : list Z) (p : http_parser) (rest : list ascii) :
  Forall (fun d => 0 <= d < 10) (d :: ds1) -> Forall (fun d => 0 <= d < 10) ds2 ->
  header_state p = h_content_length -> eval_digits 10 0 (d :: ds1 ++ ds2) < 2 ^ 59 ->
  (exists q q' n, value_start (digit_char d) p = (None, q) /\
    value_loop false (digits_of ds1 ++ " "%char :: digits_of ds2 ++ CR :: rest) 0 0 h_content_length q =
      Ok (at_cr, n, h_content_length, q') /\
    content_length q' = eval_digits 10 0 (d :: ds1 ++ ds2)) /\
  stoull (of_chars (digits_of (d :: ds1) ++ " "%char :: digits_of ds2)) = Some (eval_digits 10 0 (d :: ds1)).
Proof.
  intros H1 H2 Hh Hv. pose proof (Forall_inv H1) as Hd. pose proof (Forall_inv_tail H1) as H1'. cbn in Hd.
  change (eval_digits 10 (0 * 10 + d) (ds1 ++ ds2) < 2 ^ 59) in Hv. unfold eval_digits in Hv. rewrite foldl_app in Hv.
  fold (eval_digits 10 (0 * 10 + d) ds1) in Hv. fold (eval_digits 10 (eval_digits 10 (0 * 10 + d) ds1) ds2) in Hv.
  rewrite Z.add_0_l in Hv. pose proof (digits_grow ds1 10 d ltac:(lia) ltac:(lia) H1') as G1.
  pose proof (digits_grow ds2 10 (eval_digits 10 d ds1) ltac:(lia) ltac:(lia) H2) as G2.
  change (2 ^ 59) with 576460752303423488 in *. split.
  - destruct (decimal_digit d Hd) as (D1 & D2 & _). eexists _, _, _. split.
    { unfold value_start. rewrite Hh, D1, D2. reflexivity. }
    split.
    { rewrite (length_digits _ _ _ d) by (done || (change (2 ^ 59) with 576460752303423488; lia)).
      cbn [value_loop]. change (is_ch CR " ") with false. change (is_ch LF " ") with false.
      change (is_header_char " ") with true. cbn [negb andb]. rewrite bool_decide_eq_false_2 by done.
      unfold value_char. change (is_ch " " " ") with true. cbn iota. cbn [mret outcome_ret mbind outcome_bind].
      rewrite (length_digits _ _ _ (eval_digits 10 d ds1)) by (done || (change (2 ^ 59) with 576460752303423488; lia)).
      cbn [value_loop]. change (is_ch CR CR) with true. cbn iota. reflexivity. }
    cbn [content_length with_content_length]. change (eval_digits 10 0 (d :: ds1 ++ ds2)) with (eval_digits 10 (0 * 10 + d) (ds1 ++ ds2)).
    unfold eval_digits. by rewrite foldl_app.
  - apply stoull_prefix; [done|done|]. change (eval_digits 10 0 (d :: ds1)) with (eval_digits 10 (0 * 10 + d) ds1).
    rewrite Z.add_0_l. cbn. lia.
Qed.

Lemma content_length_spaces_witness :
  eval_digits 10 0 [1; 2] = 12 /\ stoull "1 2" = Some 1 /\
  (let o := reads (Some (Req example_request))
     [lines ["POST / HTTP/1.1"; "Content-Length: 1 2"; ""] +:+ "twelve bytes"] new_http_codec in
   accepted o = Some true /\ bodies (received o) = ["twelve bytes"] /\
   delivered_field "content-length" (received o) = Some "1 2").
Proof.
  destruct (content_length_spaces 1 [] [2] (with_header_state h_content_length (http_parser_init HTTP_BOTH)) [])
    as [_ H]; [repeat constructor; lia|repeat constructor; lia|done|by vm_compute|].
  split; [reflexivity|]. split; [exact H|]. by vm_compute.
Defined.

(** A request with the character [x] in a value, in one read and in two. *)
Definition value_before : string := lines ["GET / HTTP/1.1"] +:+ "A: bc".
Definition value_after (x : ascii) : string := of_chars [x; "d"%char] +:+ lines [""; ""].
Definition in_one_read (x : ascii) : option (outcome (bool * http_codec)) :=
  reads (Some (Req example_request)) [value_before +:+ value_after x] new_http_codec.
Definition in_two_reads (x : ascii) : option (outcome (bool * http_codec)) :=
  reads (Some (Req example_request)) [value_before; value_after x] new_http_codec.

Definition value_check (x : ascii) : bool :=
  is_header_char x ||
  (bool_decide (accepted (in_one_read x) = Some true) &&
   bool_decide (delivered_field "a" (received (in_one_read x)) = Some ("bc" +:+ of_chars [x; "d"%char])) &&
   bool_decide (accepted (in_two_reads x) = Some false)).

Lemma value_checked x : value_check x = true.
Proof. apply forall_ascii. vm_compute. reflexivity. Qed.

(** The characters of a field value are checked, as the comment on
    [IS_HEADER_CHAR] has it, or not, depending on where the reads end: a plain
    value is searched for its end from the second character on, so that a control
    character in it passes and reaches the user of the codec; when a read ends
    right before that character, the same request is refused. *)
Theorem value_check_depends_on_reads (x : ascii) :
  is_header_char x = false ->
  accepted (in_one_read x) = Some true /\
  delivered_field "a" (received (in_one_read x)) = Some ("bc" +:+ of_chars [x; "d"%char]) /\
  accepted (in_two_reads x) = Some false.
Proof.
  intros Hx. pose proof (value_checked x) as A. unfold value_check in A. rewrite Hx, orb_false_l in A.
  apply andb_prop in A as [A A3]. apply andb_prop in A as [A1 A2].
  exact (conj (bool_decide_eq_true_1 _ A1) (conj (bool_decide_eq_true_1 _ A2) (bool_decide_eq_true_1 _ A3))).
Qed.

Lemma value_check_depends_on_reads_witness :
  delivered_field "a" (received (in_one_read "001"%char)) = Some ("bc" +:+ of_chars ["001"%char; "d"%char]).
Proof. apply (value_check_depends_on_reads "001"%char). reflexivity. Defined.

(** ** Chunk sizes *)
Lemma high_byte ch : 128 <= byte_of ch -> unhex ch = 0 /\ is_ch CR ch = false.
Proof.
  intros H. assert (A : (byte_of ch <? 128) || ((unhex ch =? 0) && negb (is_ch CR ch)) = true)
    by (apply (forall_ascii (fun ch => (byte_of ch <? 128) || ((unhex ch =? 0) && negb (is_ch CR ch)))); by vm_compute).
  apply orb_prop in A as [A|A]; [lia|]. apply andb_prop in A as [A1 A2]. apply negb_true_iff in A2. split; [lia|done].
Qed.

(** The table of the hexadecimal digits has 128 of its 256 entries; the others
    are 0, not -1.  Where a chunk size is read, any byte from 128 on does what the
    digit 0 does, with every effect of it, in every state of the parser: the size
    is multiplied by sixteen instead of being refused. *)
Theorem chunk_size_high_bytes {C : Type} (settings : http_parser_settings C) (data beyond : list ascii)
    (lenient : bool) (ch : ascii) (f : frame C) :
  128 <= byte_of ch -> cur f = s_chunk_size_start \/ cur f = s_chunk_size ->
  switch settings data beyond lenient ch f = switch settings data beyond lenient "0"%char f.
Proof.
  intros H Hs. destruct (high_byte ch H) as [H1 H2]. unfold switch.
  destruct Hs as [-> | ->]; unfold run_chunk_size_start, run_chunk_size; by rewrite ?H1, ?H2.
Qed.

Lemma chunk_size_high_bytes_witness :
  let f := {| parser := with_nread 1 (with_flags 1 (with_content_length 5 (http_parser_init HTTP_BOTH)));
              client := new_codec; cur := s_chunk_size; pos := 0; marks := fun _ => None |} in
  let st := parser_settings None in
  switch st [ascii_of 200] [] false (ascii_of 200) f = switch st [ascii_of 200] [] false "0"%char f /\
  exists g, switch st [ascii_of 200] [] false (ascii_of 200) f = Ok (Break g) /\ content_length (parser g) = 80.
Proof.
  cbv zeta. split; [apply chunk_size_high_bytes; [by vm_compute|by right]|].
  eexists. split; [vm_compute; reflexivity|reflexivity].
Defined.
