(* ===== verification/HttpMethod.v ===== *)
(** * The methods the HTTP/1 parser recognises

    The states [s_start_req] and [s_req_method] of
    src/src/http_parser/http_parser.c guess a method from its first letter and
    correct the guess on the way; the reference is the table of the names. *)

From S2P Require Import Prelude CppStd HttpMessages UrlParser HttpParser HttpExecute HttpSafe Decoder HttpCodec HttpRun.

(** What a character makes of a guess. *)
Definition guess (m i : Z) (ch : ascii) : option Z :=
  if bool_decide (c_char (http_method_str m) i = Some (byte_of ch)) then Some m
  else if is_alpha ch then corrected_method m i ch
  else if is_ch "-"%char ch && (i =? 1) && (m =? HTTP_MKCOL) then Some HTTP_MSEARCH
  else None.

Fixpoint guesses (m i : Z) (l : list ascii) : option Z :=
  match l with
  | [] => Some m
  | ch :: l => m ← guess m i ch; guesses m (i + 1) l
  end.

(** The reference: the method of a name. *)
Definition method_named (l : list ascii) : option Z :=
  Z.of_nat ∘ fst <$> list_find (fun w => chars w = l) method_strings.

(** The name so far: the first characters of the guess. *)
Definition prefix_read (m : Z) (x : list ascii) : Prop :=
  exists w, method_strings !! Z.to_nat m = Some w /\ 0 <= m /\ x = take (length x) (chars w) /\ (length x <= length (chars w))%nat.

Definition prefix_readb (m : Z) (x : list ascii) : bool :=
  match method_strings !! Z.to_nat m with
  | Some w => (0 <=? m) && bool_decide (x = take (length x) (chars w)) && (length x <=? length (chars w))%nat
  | None => false
  end.

Lemma prefix_readb_ok m x : prefix_readb m x = true <-> prefix_read m x.
Proof.
  unfold prefix_readb, prefix_read. destruct (method_strings !! Z.to_nat m) as [w|].
  - rewrite !andb_true_iff, Z.leb_le, bool_decide_eq_true, Nat.leb_le. split.
    + intros [[H1 H2] H3]. exists w. done.
    + intros (w' & [= <-] & H1 & H2 & H3). done.
  - split; [done|]. by intros (w' & [=] & _).
Qed.

(** A correction keeps what was read, and takes its letter. *)
Lemma correction_prefix m i ch m' :
  corrected_method m i ch = Some m' -> forall x, prefix_read m x -> Z.of_nat (length x) = i -> prefix_read m' (x ++ [ch]).
Proof.
  unfold corrected_method. intros H x Hx Hi. apply fmap_Some in H as ([[[m0 i0] ch0] m1] & H & ->).
  apply find_some in H as [Hin Hc]. apply andb_prop in Hc as [Hc Hch]. apply andb_prop in Hc as [Hm Hi'].
  apply Z.eqb_eq in Hm, Hi'. subst. apply Ascii.eqb_eq in Hch. subst ch0. cbn [snd].
  assert (A : forallb (fun '(m, i, ch, m') =>
    match method_strings !! Z.to_nat m with
    | Some w => prefix_readb m' (take (Z.to_nat i) (chars w) ++ [ch])
    | None => false
    end) method_corrections = true) by (by vm_compute).
  rewrite forallb_forall in A. apply A in Hin. destruct Hx as (w & Hw & H0 & Hx & Hl). rewrite Hw in Hin.
  apply prefix_readb_ok. rewrite Hx. by rewrite <- (Nat2Z.id (length x)).
Qed.

Lemma guess_prefix m ch m' x :
  byte_of ch <> 0 -> guess m (Z.of_nat (length x)) ch = Some m' -> prefix_read m x -> prefix_read m' (x ++ [ch]).
Proof.
  intros Hz H Hx. unfold guess in H. case_bool_decide as Hb.
  - injection H as <-. destruct Hx as (w & Hw & H0 & Hx & Hl). exists w. split; [done|]. split; [done|].
    unfold http_method_str in Hb. rewrite (proj2 (Z.leb_le 0 m)), Hw in Hb by done. cbn [default from_option] in Hb. change (id w) with w in Hb.
    unfold c_char in Hb. rewrite Nat2Z.id in Hb.
    destruct (decide (length x < length (chars w))%nat) as [Hlt|Hge].
    2:{ rewrite lookup_app_r in Hb by (rewrite length_fmap; lia). rewrite length_fmap in Hb.
        replace (length x - length (chars w))%nat with O in Hb by lia. injection Hb as Hb. congruence. }
    rewrite lookup_app_l in Hb by (rewrite length_fmap; lia). rewrite list_lookup_fmap in Hb.
    apply fmap_Some in Hb as (ch' & Hch & E). apply byte_of_inj in E. subst ch'.
    rewrite length_app. cbn [length]. split; [|lia]. rewrite Nat.add_1_r, (take_S_r _ _ ch) by done. by rewrite <- Hx.
  - destruct (is_alpha ch).
    + eapply correction_prefix; [exact H|exact Hx|done].
    + destruct (_ && _) eqn:E; [|done]. injection H as <-. apply andb_prop in E as [E Em]. apply andb_prop in E as [Ec Ei].
      apply Ascii.eqb_eq in Ec. subst ch. apply Z.eqb_eq in Ei, Em. subst m.
      destruct Hx as (w & Hw & _ & Hx & _). replace (length x) with 1%nat in Hx by lia.
      vm_compute in Hw. injection Hw as <-. rewrite Hx. by apply prefix_readb_ok.
Qed.

Lemma guesses_prefix l m m' x :
  Forall (fun ch => byte_of ch <> 0) l -> guesses m (Z.of_nat (length x)) l = Some m' -> prefix_read m x ->
  prefix_read m' (x ++ l).
Proof.
  intros HF. revert m x. induction HF as [|ch l Hch HF IH]; intros m x H Hx; cbn [guesses] in H.
  - injection H as <-. by rewrite app_nil_r.
  - apply bind_Some in H as (m1 & H1 & H2). apply (guess_prefix _ _ _ x Hch) in H1; [|done].
    replace (x ++ ch :: l) with ((x ++ [ch]) ++ l) by (by rewrite <- app_assoc). apply (IH m1); [|done].
    rewrite length_app, Nat2Z.inj_add. exact H2.
Qed.

(** ** The automaton guesses *)
Section Methods.
Context {C : Type} (settings : http_parser_settings C) (data beyond : list ascii) (lenient : bool).
Implicit Types (f : frame C).
Abbreviation pass := (pass settings data beyond lenient).
Abbreviation run := (run settings data beyond lenient).

(** What a method leaves alone: the members that it changes are put aside. *)
Definition beside f : http_parser * C :=
  (with_state s_start_req (with_method 0 (with_index 0 (with_nread 0 (parser f)))), client f).

(** In the middle of a method, of which [x] was read. *)
Definition in_method (x : list ascii) (n : nat) (k : Z) (b : http_parser * C) f : Prop :=
  cur f = s_req_method /\ pos f = n /\ nread (parser f) = k /\ errno (parser f) = HPE_OK /\
  index (parser f) = Z.of_nat (length x) /\ prefix_read (pmethod (parser f)) x /\ unmarked f /\ beside f = b.

Definition no_space (ch : ascii) : Prop := byte_of ch <> 0 /\ is_ch " "%char ch = false.

Lemma prefix_length m x : prefix_read m x -> (length x <= 11)%nat.
Proof.
  intros (w & Hw & _ & _ & Hl). pose proof (method_length _ _ Hw) as H. unfold len in H. lia.
Qed.

Lemma method_char x n b f m :
  in_method x n m b f -> exists w c, method_strings !! Z.to_nat (pmethod (parser f)) = Some w /\
    http_method_str (pmethod (parser f)) = w /\ c_char w (index (parser f)) = Some c /\
    (c = 0 <-> length x = length (chars w)).
Proof.
  intros (_ & _ & _ & _ & Hi & (w & Hw & H0 & _ & Hl) & _ & _). exists w.
  destruct (c_char_lookup w (index (parser f))) as (c & Hc & He); [rewrite Hi; unfold len; lia|].
  exists c. split; [done|]. split; [unfold http_method_str; by rewrite (proj2 (Z.leb_le 0 _)), Hw|]. split; [done|]. split.
  - intros ->. destruct (decide (length x = length (chars w))) as [|Hne]; [done|]. exfalso.
    unfold c_char in Hc. rewrite Hi, Nat2Z.id, lookup_app_l in Hc by (rewrite length_fmap; lia).
    rewrite list_lookup_fmap in Hc. apply fmap_Some in Hc as (ch & Hch & E).
    assert (A : forallb (fun w => forallb (fun ch => negb (byte_of ch =? 0)) (chars w)) method_strings = true) by (by vm_compute).
    rewrite forallb_forall in A. specialize (A w). rewrite forallb_forall in A.
    assert (ch ∈ chars w) as Hin by (by eapply list_elem_of_lookup_2). apply list_elem_of_In in Hin.
    apply A in Hin; [|by apply list_elem_of_In, (list_elem_of_lookup_2 _ _ _ Hw)]. rewrite <- E in Hin. done.
  - intros E. apply He. rewrite Hi. unfold len. lia.
Qed.

(** A character of the name. *)
Lemma method_pass x n k b ch f :
  in_method x n k b f -> no_space ch -> data !! n = Some ch -> 0 <= k < HTTP_MAX_HEADER_SIZE ->
  match guess (pmethod (parser f)) (Z.of_nat (length x)) ch with
  | Some m => exists g, run 1 false f false g /\ in_method (x ++ [ch]) (S n) (k + 1) b g /\ pmethod (parser g) = m
  | None => exists g, pass false ch f = Ok (Return n g) /\ errno (parser g) = HPE_INVALID_METHOD
  end.
Proof.
  intros Hf [Hz Hs] Hch Hk. pose proof (method_char _ _ _ _ _ Hf) as (w & c & Hw & Hm & Hc & He).
  destruct Hf as (F1 & F2 & F3 & F4 & F5 & F6 & F7 & F8).
  assert (P : pass false ch f = run_req_method ch (on_parser (fun p => with_nread (k + 1) p) f)).
  { rewrite pass_counted by (rewrite ?F1, ?F3; done). unfold switch, counted. cbn [cur on_parser]. rewrite F1.
    unfold on_parser. by rewrite F3. }
  assert (R : run_req_method ch (on_parser (fun p => with_nread (k + 1) p) f) =
    match guess (pmethod (parser f)) (Z.of_nat (length x)) ch with
    | Some m => break (on_parser (fun p => bump (with_method m p)) (on_parser (fun p => with_nread (k + 1) p) f))
    | None => fail HPE_INVALID_METHOD (on_parser (fun p => with_nread (k + 1) p) f)
    end).
  { unfold run_req_method, guess. cbn [parser on_parser pmethod with_nread index]. rewrite (proj2 (Z.eqb_neq _ _) Hz), Hw.
    cbn [of_option mbind outcome_bind]. rewrite Hc. cbn [of_option mbind outcome_bind]. rewrite Hs, <- F5, Hm, Hc. cbn [andb].
    destruct (Z.eqb_spec (byte_of ch) c) as [->|Hne].
    - rewrite bool_decide_eq_true_2 by done. unfold on_parser. cbn [parser]. by f_equal.
    - rewrite bool_decide_eq_false_2 by congruence. destruct (is_alpha ch); [by destruct (corrected_method _ _ _)|].
      by destruct (_ && _). }
  rewrite R in P. destruct (guess _ _ ch) as [m|] eqn:G.
  - eexists. split; [eapply run_break; [rewrite F2; exact Hch|exact P|apply run_refl]|]. split; [|done].
    pose proof (guess_prefix _ _ _ x Hz G F6) as Hp. pose proof (prefix_length _ _ Hp) as Hlen. rewrite length_app in Hlen. cbn [length] in Hlen.
    split; [done|]. split; [cbn; by rewrite F2|]. split; [done|]. split; [done|]. split; [|split; [exact Hp|split; [exact F7|exact F8]]].
    cbn. rewrite F5, length_app. cbn [length]. rewrite wrap_id by (unfold in_range; cbn; lia). lia.
  - rewrite P. eexists. split; [unfold fail; cbn [pos on_parser]; by rewrite F2|done].
Qed.

(** All its characters. *)
Lemma method_passes l x n k b f rest :
  in_method x n k b f -> Forall no_space l -> drop n data = l ++ rest -> 0 <= k ->
  k + Z.of_nat (length l) <= HTTP_MAX_HEADER_SIZE ->
  match guesses (pmethod (parser f)) (Z.of_nat (length x)) l with
  | Some m => exists g, run (length l) false f false g /\ pmethod (parser g) = m /\
      in_method (x ++ l) (n + length l) (k + Z.of_nat (length l)) b g
  | None => exists j ch g h, run j false f false g /\ data !! pos g = Some ch /\ pass false ch g = Ok (Return (pos g) h) /\
      errno (parser h) = HPE_INVALID_METHOD
  end.
Proof.
  intros Hf HF. revert x n k f Hf. induction HF as [|ch l Hch HF IH]; intros x n k f Hf Hd Hk Hm; cbn [guesses length].
  { exists f. split; [apply run_refl|]. split; [done|]. by rewrite app_nil_r, Nat.add_0_r, Z.add_0_r. }
  cbn [app] in Hd. cbn [length] in Hm. apply data_here in Hd as [Hc Hd].
  pose proof (method_pass x n k b ch f Hf Hch Hc ltac:(lia)) as P.
  destruct (guess _ _ ch) as [m|]; cbn [mbind option_bind].
  - destruct P as (g & R & G & Gm). pose proof (IH _ _ _ g G Hd ltac:(lia) ltac:(lia)) as Q.
    rewrite length_app, Nat2Z.inj_add in Q. cbn [length] in Q. change (Z.of_nat 1) with 1 in Q. rewrite Gm in Q.
    destruct (guesses m _ l) as [m'|].
    + destruct Q as (h & R' & H1 & H2). exists h. split; [exact (run_trans _ _ _ _ 1 (length l) _ _ _ _ _ _ R R')|]. split; [done|].
      rewrite <- app_assoc in H2. replace (n + S (length l))%nat with (S n + length l)%nat by lia.
      by replace (k + Z.of_nat (S (length l))) with (k + 1 + Z.of_nat (length l)) by lia.
    + destruct Q as (j & c & h & i & R' & Q). exists (1 + j)%nat, c, h, i. split; [by eapply run_trans|done].
  - destruct P as (h & P & E). exists O, ch, f, h. destruct Hf as (F1 & F2 & _). split; [apply run_refl|]. rewrite F2. done.
Qed.

End Methods.

(** ** The table *)
Lemma method_named_some l m :
  method_named l = Some m <-> exists w, 0 <= m /\ method_strings !! Z.to_nat m = Some w /\ chars w = l.
Proof.
  unfold method_named. split.
  - intros H. apply fmap_Some in H as ([i w] & H & ->). apply list_find_Some in H as (H1 & H2 & _). cbn.
    exists w. rewrite Nat2Z.id. split; [lia|done].
  - intros (w & H0 & Hw & <-).
    assert (A : forallb (fun i => match method_strings !! i with
      | Some w => bool_decide ((Z.of_nat ∘ fst <$> list_find (fun w' => chars w' = chars w) method_strings) = Some (Z.of_nat i))
      | None => true end) (seq 0 33) = true) by (by vm_compute).
    rewrite forallb_forall in A. specialize (A (Z.to_nat m)). rewrite Hw in A.
    pose proof (lookup_lt_Some _ _ _ Hw) as Hlt. cbn [length method_strings] in Hlt.
    rewrite Z2Nat.id in A by done. specialize (A (proj2 (in_seq 33 0 (Z.to_nat m)) ltac:(lia))).
    by apply bool_decide_eq_true_1 in A.
Qed.

(** Every name of the table is reached. *)
Lemma names_guessed ch l m :
  method_named (ch :: l) = Some m -> exists m0, first_method ch = Some m0 /\ guesses m0 1 l = Some m /\ is_alpha ch = true.
Proof.
  intros H. apply method_named_some in H as (w & H0 & Hw & E).
  assert (A : forallb (fun i => match method_strings !! i with
      | Some w => match chars w with
                  | ch :: l => match first_method ch with
                               | Some m0 => bool_decide (guesses m0 1 l = Some (Z.of_nat i)) && is_alpha ch
                               | None => false
                               end
                  | [] => false
                  end
      | None => true end) (seq 0 33) = true) by (by vm_compute).
  rewrite forallb_forall in A. specialize (A (Z.to_nat m)). rewrite Hw, E in A.
  pose proof (lookup_lt_Some _ _ _ Hw) as Hlt. cbn [length method_strings] in Hlt. specialize (A (proj2 (in_seq 33 0 (Z.to_nat m)) ltac:(lia))).
  destruct (first_method ch) as [m0|]; [|done]. apply andb_prop in A as [A1 A2]. exists m0. split; [done|].
  apply bool_decide_eq_true_1 in A1. rewrite Z2Nat.id in A1 by done. done.
Qed.

Lemma first_method_prefix ch m : first_method ch = Some m -> prefix_read m [ch].
Proof.
  intros H. apply prefix_readb_ok.
  assert (A : match first_method ch with Some m => prefix_readb m [ch] | None => true end = true)
    by (apply (forall_ascii (fun ch => match first_method ch with Some m => prefix_readb m [ch] | None => true end)); by vm_compute).
  by rewrite H in A.
Qed.

Lemma loop_return {C} (settings : http_parser_settings C) data beyond lenient a ch f n g :
  data !! pos f = Some ch -> pass settings data beyond lenient a ch f = Ok (Return n g) ->
  loop settings data beyond lenient 1 a f = Some (Ok (returned n g)).
Proof. intros H1 H2. cbn [loop]. unfold pass in H2. rewrite H1. by destruct a; rewrite H2. Qed.

(** The space after the name. *)
Lemma method_space {C} (settings : http_parser_settings C) data beyond lenient x n k b (f : frame C) :
  in_method x n k b f -> data !! n = Some " "%char -> 0 <= k < HTTP_MAX_HEADER_SIZE ->
  if bool_decide (method_named x = Some (pmethod (parser f)))
  then exists g, run settings data beyond lenient 1 false f false g /\ cur g = url s_req_spaces_before_url /\
    pmethod (parser g) = pmethod (parser f) /\ errno (parser g) = HPE_OK /\ pos g = S n /\ unmarked g /\
    nread (parser g) = k + 1 /\ beside g = b
  else exists g, pass settings data beyond lenient false " "%char f = Ok (Return n g) /\ errno (parser g) = HPE_INVALID_METHOD.
Proof.
  intros Hf Hch Hk. pose proof (method_char _ _ _ _ _ Hf) as (w & c & Hw & Hm & Hc & He).
  destruct Hf as (F1 & F2 & F3 & F4 & F5 & (w' & Hw' & H0 & Hx & Hl) & F7 & F8). rewrite Hw in Hw'. injection Hw' as <-.
  assert (N : method_named x = Some (pmethod (parser f)) <-> c = 0).
  { rewrite He, method_named_some. split.
    - intros (w' & _ & Hw' & <-). rewrite Hw in Hw'. by injection Hw' as <-.
    - intros E. exists w. split; [done|]. split; [done|]. rewrite Hx, E. symmetry. by apply take_ge. }
  assert (P : pass settings data beyond lenient false " "%char f = run_req_method " "%char (on_parser (fun p => with_nread (k + 1) p) f)).
  { rewrite pass_counted by (rewrite ?F1, ?F3; done). unfold switch, counted. cbn [cur on_parser]. rewrite F1.
    unfold on_parser. by rewrite F3. }
  assert (Hsp : c <> 32).
  { intros ->. unfold c_char in Hc. rewrite F5, Nat2Z.id in Hc.
    destruct (decide (length x < length (chars w))%nat) as [Hlt|].
    2:{ rewrite lookup_app_r in Hc by (rewrite length_fmap; lia). rewrite length_fmap in Hc.
        replace (length x - length (chars w))%nat with O in Hc by lia. done. }
    rewrite lookup_app_l, list_lookup_fmap in Hc by (rewrite length_fmap; lia). apply fmap_Some in Hc as (ch & Hin & E).
    assert (A : forallb (fun w => forallb (fun ch => negb (byte_of ch =? 32)) (chars w)) method_strings = true) by (by vm_compute).
    rewrite forallb_forall in A. specialize (A w). rewrite forallb_forall in A.
    apply list_elem_of_lookup_2, list_elem_of_In in Hin.
    apply A in Hin; [|by apply list_elem_of_In, (list_elem_of_lookup_2 _ _ _ Hw)]. rewrite <- E in Hin. done. }
  assert (R : run_req_method " "%char (on_parser (fun p => with_nread (k + 1) p) f) =
    if c =? 0 then goto (url s_req_spaces_before_url) (on_parser bump (on_parser (fun p => with_nread (k + 1) p) f))
    else fail HPE_INVALID_METHOD (on_parser (fun p => with_nread (k + 1) p) f)).
  { unfold run_req_method. cbn [parser on_parser pmethod with_nread index]. change (byte_of " ") with 32. change (32 =? 0) with false. cbn iota.
    rewrite Hw. cbn [of_option mbind outcome_bind]. rewrite Hc. cbn [of_option mbind outcome_bind].
    change (is_ch " " " ") with true. cbn [andb]. destruct (c =? 0); [done|]. rewrite (proj2 (Z.eqb_neq 32 c)) by done.
    change (is_alpha " ") with false. done. }
  rewrite R in P. case_bool_decide as Hn.
  - apply N in Hn. subst c. eexists. split; [eapply run_break; [rewrite F2; exact Hch|exact P|apply run_refl]|].
    split; [done|]. split; [done|]. split; [done|]. split; [cbn; by rewrite F2|].
    split; [exact F7|]. split; [done|exact F8].
  - rewrite (proj2 (Z.eqb_neq c 0)) in P by (intros E; by apply Hn, N). rewrite P. eexists.
    split; [unfold fail; cbn [pos on_parser]; by rewrite F2|done].
Qed.

(** ** The request line of a fresh parser *)

(** A frame between two messages, at [n]. *)
Definition between {C : Type} (n : nat) (mk : data_kind -> option nat) (c : C) : frame C :=
  {| parser := http_parser_init HTTP_BOTH; client := c; cur := s_start_req_or_res; pos := n; marks := mk |}.

Lemma fresh_between {C : Type} n (c : C) f : fresh n c f -> exists mk, f = between n mk c /\ forall k, mk k = None.
Proof. intros [E U]. exists (marks f). by split. Qed.

(** The callback that a message begins makes [c1] of [c]. *)
Definition begins {C : Type} (settings : http_parser_settings C) (c c1 : C) : Prop :=
  match on_notify settings message_begin with Some cb => forall p, cb p c = Ok (0, p, c1) | None => False end.

Lemma begins_run {C : Type} (settings : http_parser_settings C) c c1 er f k :
  begins settings c c1 -> errno (parser f) = HPE_OK -> client f = c ->
  callback_notify settings message_begin er f k =
    k {| parser := with_state (cur f) (parser f); client := c1; cur := cur f; pos := pos f; marks := marks f |}.
Proof.
  intros B He <-. apply notify_run; [exact He|]. unfold begins in B. destruct (on_notify settings message_begin); [apply B|done].
Qed.

Section Fresh.
Context {C : Type} (st : http_parser_settings C) (data beyond : list ascii) (c c1 : C) (Hb : begins st c c1).
Context (n : nat) (mk : data_kind -> option nat).
Context (name rest : list ascii) (Hmk : forall k, mk k = None) (Hdata : drop n data = name ++ " "%char :: rest).
Let p0 := http_parser_init HTTP_BOTH.
Let f0 := between n mk c.

(** The parser and the state of the callbacks that a request begins with. *)
Definition request_begun : http_parser * C :=
  (with_state s_start_req (with_content_length ULLONG_MAX (with_type HTTP_REQUEST p0)), c1).

Definition refused_as (e : http_errno) : Prop :=
  exists j a g k h, run st data beyond false j false f0 a g /\
    loop st data beyond false k a g = Some (Ok (returned (pos g) h)) /\ errno (parser h) = e.
Abbreviation refused := (refused_as HPE_INVALID_METHOD).

(** The first byte: it is refused, or a method is guessed. *)
Lemma method_begins ch l :
  name = ch :: l -> is_ch CR ch = false -> is_ch LF ch = false -> is_ch "H"%char ch = false ->
  (refused /\ (is_alpha ch = false \/ first_method ch = None)) \/
  exists m1 g, first_method ch = Some m1 /\ run st data beyond false 2 false f0 false g /\
    in_method [ch] (n + 1) 1 request_begun g /\ pmethod (parser g) = m1.
Proof.
  intros Hname Hcr Hlf HH. assert (Hch : data !! n = Some ch) by (rewrite Hname in Hdata; by apply data_here in Hdata as [? _]).
  set (f1 := update_state s_start_req (on_parser (with_type HTTP_REQUEST) (clear_message (counted f0)))).
  assert (R1 : run st data beyond false 1 false f0 true f1).
  { eapply run_again; [exact Hch| |apply run_refl]. rewrite pass_counted by (by vm_compute).
    unfold switch. cbn [cur counted on_parser f0 between]. unfold run_start_req_or_res. rewrite Hcr, Hlf, HH. reflexivity. }
  assert (P1 : pass st data beyond false true ch f1 = run_start_req st ch f1) by done.
  unfold run_start_req in P1. rewrite Hcr, Hlf in P1. cbn [orb] in P1. cbv zeta in P1.
  destruct (is_alpha ch) eqn:Ha; cbn [negb] in P1.
  2:{ left. split; [|by left]. eexists _, _, _, 1%nat, _. split; [exact R1|]. split; [eapply loop_return; [exact Hch|exact P1]|done]. }
  destruct (first_method ch) as [m1|] eqn:Hf.
  2:{ left. split; [|by right]. eexists _, _, _, 1%nat, _. split; [exact R1|]. split; [eapply loop_return; [exact Hch|exact P1]|done]. }
  right. rewrite (begins_run st c c1) in P1 by done.
  match type of P1 with _ = break ?x => exists m1, (move (S n) x) end. split; [done|]. split; [|split; [|done]].
  - eapply (run_trans _ _ _ _ 1 1); [exact R1|]. eapply run_break; [exact Hch|exact P1|apply run_refl].
  - split; [done|]. split; [cbn; lia|]. split; [done|]. split; [done|]. split; [done|].
    split; [by apply first_method_prefix|]. split; [|done]. intros k. cbn. apply Hmk.
Qed.

(** [H] begins a response as well: the second letter tells. *)
Lemma h_begins l :
  name = "H"%char :: l ->
  exists g, run st data beyond false 1 false f0 false g /\ cur g = s_res_or_resp_H /\ pos g = S n /\ nread (parser g) = 1 /\
    forall ch, pass st data beyond false false ch g = run_res_or_resp_H ch (counted g).
Proof.
  intros Hname. pose proof Hdata as Hd. rewrite Hname in Hd. apply data_here in Hd as [H0 _].
  set (f1 := update_state s_res_or_resp_H (clear_message (counted f0))).
  assert (P1 : pass st data beyond false false "H"%char f0 = callback_notify st message_begin (S n) f1 (@break C)).
  { rewrite pass_counted by (by vm_compute). reflexivity. }
  rewrite (begins_run st c c1) in P1 by done.
  eexists. split; [eapply run_break; [exact H0|exact P1|apply run_refl]|]. do 3 (split; [done|]).
  intros ch. rewrite pass_counted by (by vm_compute). reflexivity.
Qed.

(** What is neither a response nor [HEAD]. *)
Lemma h_refused l :
  name = "H"%char :: l -> hd " "%char l <> "T"%char -> hd " "%char l <> "E"%char -> refused_as HPE_INVALID_CONSTANT.
Proof.
  intros Hname HT HE. destruct (h_begins l Hname) as (g & R & G1 & G2 & _ & P).
  assert (Hch : data !! pos g = Some (hd " "%char l)).
  { pose proof Hdata as Hd. rewrite Hname in Hd. apply data_here in Hd as [_ Hd]. rewrite G2. destruct l as [|y l]; by apply data_here in Hd as [? _]. }
  specialize (P (hd " "%char l)). unfold run_res_or_resp_H in P.
  assert (E1 : is_ch "T"%char (hd " "%char l) = false) by (apply Ascii.eqb_neq; congruence).
  assert (E2 : is_ch "E"%char (hd " "%char l) = false) by (apply Ascii.eqb_neq; congruence).
  rewrite E1, E2 in P. cbn [negb] in P.
  eexists _, _, g, 1%nat, _. split; [exact R|]. split; [eapply loop_return; [exact Hch|exact P]|done].
Qed.

Lemma head_begins l :
  name = "H"%char :: "E"%char :: l ->
  exists g, run st data beyond false 2 false f0 false g /\ in_method ["H"%char; "E"%char] (n + 2) 2 request_begun g /\
    pmethod (parser g) = HTTP_HEAD.
Proof.
  intros Hname. pose proof Hdata as Hd. rewrite Hname in Hd. apply data_here in Hd as [H0 Hd]. apply data_here in Hd as [H1 _].
  set (f1 := update_state s_res_or_resp_H (clear_message (counted f0))).
  assert (P1 : pass st data beyond false false "H"%char f0 = callback_notify st message_begin (S n) f1 (@break C)).
  { rewrite pass_counted by (by vm_compute). reflexivity. }
  rewrite (begins_run st c c1) in P1 by done.
  eexists. split; [|split].
  - eapply (run_trans _ _ _ _ 1 1); [eapply run_break; [exact H0|exact P1|apply run_refl]|].
    eapply run_break; [exact H1| |apply run_refl]. rewrite pass_counted by (by vm_compute). reflexivity.
  - split; [done|]. split; [cbn; lia|]. split; [done|]. split; [done|]. split; [done|].
    split; [by apply prefix_readb_ok; vm_compute|]. split; [|done]. intros k. cbn. apply Hmk.
  - done.
Qed.

(** A name taken, and its space. *)
Definition name_taken (m : Z) : Prop :=
  exists j g, run st data beyond false j false f0 false g /\ cur g = url s_req_spaces_before_url /\
    pmethod (parser g) = m /\ errno (parser g) = HPE_OK /\ pos g = (n + length name + 1)%nat /\ unmarked g /\
    nread (parser g) = Z.of_nat (length name) + 1 /\ beside g = request_begun.

(** From a guess on: the name is that of the guess the letters lead to, or it
    is refused. *)
Lemma method_goes_on x l m1 g0 j0 :
  name = x ++ l -> (length name <= 2000)%nat ->
  Forall no_space l -> run st data beyond false j0 false f0 false g0 ->
  in_method x (n + length x) (Z.of_nat (length x)) request_begun g0 -> pmethod (parser g0) = m1 ->
  match guesses m1 (Z.of_nat (length x)) l with
  | Some m => if bool_decide (method_named name = Some m) then name_taken m else refused
  | None => refused
  end.
Proof.
  intros Hname Hl HF R2 G0 <-. assert (El : length name = (length x + length l)%nat) by (rewrite Hname; apply length_app).
  assert (Hd : drop (n + length x) data = l ++ " "%char :: rest) by (apply data_on; by rewrite Hdata, Hname, <- app_assoc).
  pose proof (method_passes st data beyond false l x (n + length x) (Z.of_nat (length x)) _ g0 _ G0 HF Hd ltac:(lia)
    ltac:(unfold HTTP_MAX_HEADER_SIZE; lia)) as Q.
  destruct (guesses _ _ l) as [m|].
  2:{ destruct Q as (j & ch' & g & h & R3 & Hch & H1 & H2). pose proof (run_trans _ _ _ _ _ _ _ _ _ _ _ _ R2 R3) as R4.
    exists (j0 + j)%nat, false, g, 1%nat, h. split; [exact R4|]. split; [by eapply loop_return|exact H2]. }
  destruct Q as (g & R3 & Gm & G). assert (Hsp : data !! (n + length x + length l)%nat = Some " "%char).
  { pose proof (data_on data _ l (" "%char :: rest) Hd) as Hs. by apply data_here in Hs as [Hs _]. }
  pose proof (method_space st data beyond false (x ++ l) _ _ _ g G Hsp
    ltac:(unfold HTTP_MAX_HEADER_SIZE; lia)) as S1. rewrite Gm, <- Hname in S1.
  pose proof (run_trans _ _ _ _ _ _ _ _ _ _ _ _ R2 R3) as R4. case_bool_decide as Hn.
  - destruct S1 as (h & R5 & H1 & H2 & H3 & H4 & H5 & H6 & H7). eexists _, h. split; [exact (run_trans _ _ _ _ _ _ _ _ _ _ _ _ R4 R5)|].
    rewrite H4. split; [done|]. split; [done|]. split; [done|]. split; [lia|]. split; [done|]. split; [lia|done].
  - destruct S1 as (h & H1 & H2). eexists _, false, g, 1%nat, h. split; [exact R4|]. split; [|exact H2].
    eapply loop_return; [|]; destruct G as (_ & -> & _); [exact Hsp|exact H1].
Qed.

(** Every name of the table is taken. *)
Lemma named_taken m : method_named name = Some m -> name_taken m.
Proof.
  intros E. pose proof E as E0. apply method_named_some in E0 as (w & H0 & Hw & Ew).
  assert (A : forallb (fun w => match chars w with
      | ch :: _ => negb (is_ch CR ch) && negb (is_ch LF ch) && (length (chars w) <=? 20)%nat &&
          forallb (fun ch => negb (byte_of ch =? 0) && negb (is_ch " "%char ch)) (chars w) &&
          (negb (is_ch "H"%char ch) || bool_decide (w = "HEAD"))
      | [] => false end) method_strings = true) by (by vm_compute).
  rewrite forallb_forall in A. specialize (A w ltac:(by apply list_elem_of_In, (list_elem_of_lookup_2 _ _ _ Hw))). rewrite Ew in A.
  assert (exists ch l, name = ch :: l) as (ch & l & En).
  { assert (X : forall x : list ascii, x <> [] -> exists ch l, x = ch :: l) by (intros []; eauto; done).
    apply X. intros N. by rewrite N in A. }
  rewrite En in A. rewrite !andb_true_iff, !negb_true_iff in A.
  destruct A as [[[[A1 A2] A3] A4] A5]. apply Nat.leb_le in A3. rewrite <- En in A3, A4.
  assert (HF : Forall no_space name).
  { rewrite Forall_forall. intros x Hx. rewrite forallb_forall in A4. apply list_elem_of_In, A4, andb_prop in Hx as [Hx1 Hx2].
    apply negb_true_iff in Hx1, Hx2. split; [by apply Z.eqb_neq|done]. }
  destruct (is_ch "H"%char ch) eqn:HH.
  - apply bool_decide_eq_true in A5. subst w. assert (N : name = ["H"%char; "E"%char] ++ chars "AD") by by rewrite <- Ew.
    destruct (head_begins (chars "AD")) as (g & R & G & Gm); [exact N|].
    pose proof (method_goes_on ["H"%char; "E"%char] (chars "AD") _ g 2 N ltac:(rewrite N; cbn; lia)
      ltac:(repeat constructor; by vm_compute) R G Gm) as Q.
    rewrite N in E. vm_compute in E. injection E as <-.
    assert (D : bool_decide (method_named name = Some 2) = true) by (rewrite N; by vm_compute).
    change (guesses HTTP_HEAD (Z.of_nat (length ["H"%char; "E"%char])) (chars "AD")) with (Some 2) in Q. cbv iota beta in Q. rewrite D in Q. exact Q.
  - destruct (names_guessed ch l m) as (m1 & E1 & E2 & E3); [by rewrite <- En|].
    destruct (method_begins ch l En A1 A2 HH) as [[_ []]|(m2 & g & Hf & R & G & Gm)]; [congruence..|].
    pose proof (method_goes_on [ch] l m2 g 2 En ltac:(lia) ltac:(rewrite En in HF; by inversion HF) R G Gm) as Q.
    rewrite E1 in Hf. injection Hf as <-. change (Z.of_nat (length [ch])) with 1 in Q. rewrite E2, bool_decide_eq_true_2 in Q by done. exact Q.
Qed.
End Fresh.

(** ** Properties *)

(** C13: The methods that the codec's parser takes are those of the table, however
    the guesses go: given a name and a space it comes to the target with the number
    of the method of that name, for every name of the table; and it refuses every
    name that is not in the table, as an invalid method, or, of the names in [H],
    which may begin a response, as an invalid constant unless an [E] follows.  Names
    in [HT] are left aside: with them a response begins. *)
Theorem methods_recognised (m0 : message) (ch : ascii) (l beyond : list ascii) (c : codec) :
  Forall no_space (ch :: l) -> (length l <= 1000)%nat ->
  is_ch CR ch = false -> is_ch LF ch = false -> take 2 (ch :: l) <> chars "HT" ->
  exists n p c', http_parser_execute (parser_settings (Some m0)) ((ch :: l) ++ [" "%char]) beyond
      (http_parser_init HTTP_BOTH) c = Some (Ok (n, p, c')) /\
    match method_named (ch :: l) with
    | Some m => errno p = HPE_OK /\ pstate p = url s_req_spaces_before_url /\ pmethod p = m /\ n = (length l + 2)%nat
    | None => errno p = if is_ch "H"%char ch && negb (is_ch "E"%char (hd " "%char l)) then HPE_INVALID_CONSTANT else HPE_INVALID_METHOD
    end.
Proof.
  intros HF Hl Hcr Hlf HT. set (data := (ch :: l) ++ [" "%char]). set (mk := initial_marks s_start_req_or_res).
  set (st := parser_settings (Some m0)). set (c1 := set_data_ (Some m0) c). assert (Hb : begins st c c1) by done.
  assert (Hmk : forall k, mk k = None) by (by intros []).
  destruct (method_named (ch :: l)) as [m|] eqn:E.
  - destruct (named_taken st data beyond c c1 Hb 0 mk (ch :: l) [] Hmk eq_refl m E) as (j & h & R' & H1 & H2 & H3 & H4 & H5 & _).
    assert (Hlen : length data = (length l + 2)%nat) by (unfold data; rewrite length_app; cbn; lia).
    exists (length data), (with_state (cur h) (parser h)), (client h). split; [|by rewrite <- H1].
    eapply (execute_run _ _ beyond _ c _ 1); [apply init_ok|done|done|exact R'|]. apply loop_end; [exact H3|exact H5|rewrite H4; cbn in *; lia].
  - assert (F : refused_as st data beyond c 0 mk
      (if is_ch "H"%char ch && negb (is_ch "E"%char (hd " "%char l)) then HPE_INVALID_CONSTANT else HPE_INVALID_METHOD)).
    { destruct (is_ch "H"%char ch) eqn:HH; cbn [andb].
      - apply Ascii.eqb_eq in HH. subst ch. destruct (is_ch "E"%char (hd " "%char l)) eqn:HE; cbn [negb].
        + apply Ascii.eqb_eq in HE. destruct l as [|y l]; [done|]. cbn [hd] in HE. subst y.
          destruct (head_begins st data beyond c c1 Hb 0 mk ("H"%char :: "E"%char :: l) [] Hmk eq_refl l eq_refl) as (g & R & G & Gm).
          pose proof (method_goes_on st data beyond c c1 0 mk ("H"%char :: "E"%char :: l) [] eq_refl ["H"%char; "E"%char] l _ g 2 eq_refl
            ltac:(cbn [length] in *; lia) (Forall_inv_tail (Forall_inv_tail HF)) R G Gm) as Q.
          destruct (guesses _ _ l); [|exact Q]. rewrite bool_decide_eq_false_2 in Q by congruence. exact Q.
        + apply Ascii.eqb_neq in HE. apply (h_refused st data beyond c c1 Hb 0 mk ("H"%char :: l) [] eq_refl l eq_refl); [|congruence].
          intros HT'. apply HT. destruct l as [|y l]; [done|]. cbn [hd] in HT'. by subst y.
      - destruct (method_begins st data beyond c c1 Hb 0 mk (ch :: l) [] Hmk eq_refl ch l eq_refl Hcr Hlf HH) as [[H _]|(m1 & g0 & Hf & R & G & Gm)]; [exact H|].
        pose proof (method_goes_on st data beyond c c1 0 mk (ch :: l) [] eq_refl [ch] l m1 g0 2 eq_refl ltac:(cbn [length]; lia) (Forall_inv_tail HF) R G Gm) as Q.
        destruct (guesses m1 _ l); [|exact Q]. rewrite bool_decide_eq_false_2 in Q by congruence. exact Q. }
    destruct F as (j & a & g & k & h & R & L & Eh). exists (pos g), (with_state (cur h) (parser h)), (client h). split; [|exact Eh].
    by eapply (execute_run _ data beyond _ c j k); [apply init_ok|done|done|exact R|exact L].
Qed.

(** What becomes of a name. *)
Definition method_read (name : string) (m : Z) (e : http_errno) : Prop :=
  exists n p c, http_parser_execute (parser_settings (Some (Req example_request))) (chars name ++ [" "%char]) []
    (http_parser_init HTTP_BOTH) new_codec = Some (Ok (n, p, c)) /\ errno p = e /\ (e = HPE_OK -> pmethod p = m).

Lemma methods_recognised_witness :
  method_read "MKCALENDAR" HTTP_MKCALENDAR HPE_OK /\ method_read "MKCALE" 0 HPE_INVALID_METHOD /\
  method_read "HEAD" HTTP_HEAD HPE_OK /\ method_read "HELD" 0 HPE_INVALID_METHOD /\ method_read "HOST" 0 HPE_INVALID_CONSTANT.
Proof.
  split; [|split; [|split; [|split]]].
  - destruct (methods_recognised (Req example_request) "M"%char (chars "KCALENDAR") [] new_codec) as (n & p & c & H1 & H2);
      [repeat constructor; by vm_compute|cbn; lia|done..|]. exists n, p, c. split; [exact H1|]. split; [apply H2|intros _; apply H2].
  - destruct (methods_recognised (Req example_request) "M"%char (chars "KCALE") [] new_codec) as (n & p & c & H1 & H2);
      [repeat constructor; by vm_compute|cbn; lia|done..|]. exists n, p, c. split; [exact H1|]. split; [exact H2|discriminate].
  - destruct (methods_recognised (Req example_request) "H"%char (chars "EAD") [] new_codec) as (n & p & c & H1 & H2);
      [repeat constructor; by vm_compute|cbn; lia|done..|]. exists n, p, c. split; [exact H1|]. split; [apply H2|intros _; apply H2].
  - destruct (methods_recognised (Req example_request) "H"%char (chars "ELD") [] new_codec) as (n & p & c & H1 & H2);
      [repeat constructor; by vm_compute|cbn; lia|done..|]. exists n, p, c. split; [exact H1|]. split; [exact H2|discriminate].
  - destruct (methods_recognised (Req example_request) "H"%char (chars "OST") [] new_codec) as (n & p & c & H1 & H2);
      [repeat constructor; by vm_compute|cbn; lia|done..|]. exists n, p, c. split; [exact H1|]. split; [exact H2|discriminate].
Defined.
