(* ===== verification/HttpHead.v ===== *)
(** * Reading a header block (src/src/http_parser/http_parser.c)

    The run of the parser over the lines of a header block: what it tells its
    callbacks of a name and of a value, and what it keeps of them.  The names
    that the parser knows are apart: here are those it does not. *)

From S2P Require Import Prelude CppStd MultiMap Utils HttpCommons StructuredData HttpMessages.
From S2P Require Import UrlParser HttpParser HttpExecute HttpSafe HttpRun.

(** ** Names *)
Definition token_of (ch : ascii) : Z := token (byte_of ch).
Definition codes (w : string) : list Z := byte_of <$> chars w.

(** The names the parser looks for. *)
Definition known_names : list string := [CONNECTION; PROXY_CONNECTION; CONTENT_LENGTH; TRANSFER_ENCODING; UPGRADE].

(** No beginning of the name is a known one: a name is compared without its case,
    and what follows a known one is looked at too late. *)
Definition unknown (s : list Z) : Prop := Forall (fun w => ~ codes w `prefix_of` s) known_names.

Lemma unknown_prefix s t : unknown (s ++ t) -> unknown s.
Proof. intros H. eapply Forall_impl; [exact H|]. cbn. intros w Hn P. by apply Hn, prefix_app_r. Qed.

(** What the parser has guessed of a name after [s]. *)
Definition guess_ok (s : list Z) (p : http_parser) : Prop :=
  let word w := s `prefix_of` codes w /\ index p = Z.of_nat (length s) - 1 in
  match header_state p with
  | h_general => True
  | h_C => s = take 1 (codes CONNECTION) /\ index p = 0
  | h_CO => s = take 2 (codes CONNECTION) /\ index p = 1
  | h_CON => s = take 3 (codes CONNECTION) /\ index p = 2
  | h_matching_connection => word CONNECTION
  | h_matching_proxy_connection => word PROXY_CONNECTION
  | h_matching_content_length => word CONTENT_LENGTH
  | h_matching_transfer_encoding => word TRANSFER_ENCODING
  | h_matching_upgrade => word UPGRADE
  | _ => False
  end.

(** The members that reading a field changes, put to a fixed value. *)
Definition apart_field (p : http_parser) : http_parser := with_index 0 (with_header_state h_general p).

Lemma apart_bump p : apart_field (bump p) = apart_field p.
Proof. done. Qed.
Lemma apart_header_state h p : apart_field (with_header_state h p) = apart_field p.
Proof. done. Qed.

(** A letter against a known name that it does not complete. *)
Lemma match_header_guess w complete s c p :
  w ∈ known_names -> s `prefix_of` codes w -> index p = Z.of_nat (length s) - 1 -> (0 < length s)%nat ->
  unknown (s ++ [c]) -> c <> 0 ->
  let q := match_header w complete c p in
  apart_field q = apart_field p /\
  (header_state q = h_general \/
   (header_state q = header_state p /\ (s ++ [c]) `prefix_of` codes w /\ index q = Z.of_nat (length (s ++ [c])) - 1)).
Proof.
  intros Hw [t Ht] Hi Hs Hu Hc. cbv zeta.
  assert (HL : len w <= 17).
  { assert (A : forallb (fun w => len w <=? 17) known_names = true) by (by vm_compute).
    rewrite forallb_forall in A. apply list_elem_of_In, A in Hw. lia. }
  assert (Lw : length (codes w) = length (chars w)) by (unfold codes; apply length_fmap).
  assert (Lt : (length s + length t = length (chars w))%nat) by (rewrite <- Lw, Ht, length_app; done).
  unfold len in HL.
  assert (Hib : index (bump p) = Z.of_nat (length s)).
  { unfold bump. cbn. rewrite Hi, wrap_id by (unfold in_range; cbn; lia). lia. }
  unfold match_header. cbv zeta. rewrite Hib. unfold match_word.
  assert (Hcc : c_char w (Z.of_nat (length s)) = Some (default 0 (head t))).
  { unfold c_char. rewrite Nat2Z.id. fold (codes w). rewrite Ht, <- app_assoc, lookup_app_r, Nat.sub_diag by lia. by destruct t. }
  rewrite Hcc. assert (E0 : (len w <? Z.of_nat (length s)) = false) by (apply Z.ltb_ge; unfold len; lia). rewrite E0. cbn [orb].
  destruct (decide (default 0 (head t) = c)) as [Hd|Hd].
  2:{ rewrite bool_decide_eq_true_2 by congruence. by split; [|left]. }
  rewrite bool_decide_eq_false_2 by (intros N; apply N; by rewrite Hd).
  destruct t as [|c' t]; [by subst c|]. cbn in Hd. subst c'.
  assert (Hp : (s ++ [c]) `prefix_of` codes w) by (exists t; by rewrite Ht, <- app_assoc).
  destruct (Z.eqb_spec (Z.of_nat (length s)) (len w - 1)) as [He|He].
  - exfalso. unfold unknown in Hu. rewrite Forall_forall in Hu. apply (Hu w Hw). exists [].
    rewrite app_nil_r. destruct t as [|d t]; [by rewrite Ht|]. exfalso. cbn in Lt. unfold len in He. lia.
  - split; [done|]. right. split; [done|]. split; [exact Hp|]. rewrite Hib, length_app. cbn. lia.
Qed.

(** What is known of a word in progress. *)
Definition in_word (w : string) (h : header_states) (s : list Z) (q : http_parser) : Prop :=
  header_state q = h /\ s `prefix_of` codes w /\ index q = Z.of_nat (length s) - 1.

Lemma word_goes_on w complete h s c p :
  w ∈ known_names -> in_word w h s p -> (forall q, in_word w h (s ++ [c]) q -> guess_ok (s ++ [c]) q) ->
  (0 < length s)%nat -> unknown (s ++ [c]) -> c <> 0 ->
  guess_ok (s ++ [c]) (match_header w complete c p) /\ apart_field (match_header w complete c p) = apart_field p.
Proof.
  intros Hw (Hh & Hp & Hi) K Hs Hu Hc.
  destruct (match_header_guess w complete s c p Hw Hp Hi Hs Hu Hc) as [H1 [H2|(H2 & H3 & H4)]]; (split; [|exact H1]).
  - unfold guess_ok. by rewrite H2.
  - apply K. split; [by rewrite H2|by split].
Qed.

Lemma word_guess w h s q :
  in_word w h s q ->
  (h, w) ∈ [(h_matching_connection, CONNECTION); (h_matching_proxy_connection, PROXY_CONNECTION);
            (h_matching_content_length, CONTENT_LENGTH); (h_matching_transfer_encoding, TRANSFER_ENCODING);
            (h_matching_upgrade, UPGRADE)] ->
  guess_ok s q.
Proof.
  intros (Hh & Hp & Hi) H. unfold guess_ok. rewrite Hh.
  repeat (apply elem_of_cons in H as [H|H]; [by injection H as -> ->|]). by apply elem_of_nil in H.
Qed.

Ltac in_list := repeat first [apply list_elem_of_here | apply list_elem_of_further].

(** One more letter of an unknown name. *)
Lemma field_char_guess ch s p :
  guess_ok s p -> (0 < length s)%nat -> unknown (s ++ [token_of ch]) -> token_of ch <> 0 ->
  exists q, field_char ch (token_of ch) p = Ok (None, q) /\ guess_ok (s ++ [token_of ch]) q /\ apart_field q = apart_field p.
Proof.
  intros G Hs Hu Hc. set (c := token_of ch) in *. unfold guess_ok in G. unfold field_char.
  destruct (header_state p) eqn:Eh; try done;
    try (lazymatch type of G with _ /\ _ => destruct G as [G1 G2] end; eexists; split; [reflexivity|]; eapply word_goes_on;
         [..|exact Hs|exact Hu|exact Hc]; [in_list|split; [exact Eh|by split]|];
         intros q Hq; eapply word_guess; [exact Hq|in_list]).
  - eexists. split; [reflexivity|]. split; [|done]. unfold guess_ok. by rewrite Eh.
  - destruct G as [-> Gi]. eexists. split; [reflexivity|]. split; [|done].
    destruct (Z.eqb_spec c 111) as [->|]; unfold guess_ok; cbn; [|done]. rewrite Gi. split; [done|]. by vm_compute.
  - destruct G as [-> Gi]. eexists. split; [reflexivity|]. split; [|done].
    destruct (Z.eqb_spec c 110) as [->|]; unfold guess_ok; cbn; [|done]. rewrite Gi. split; [done|]. by vm_compute.
  - destruct G as [-> Gi]. eexists. split; [reflexivity|]. split; [|done].
    destruct (Z.eqb_spec c 110) as [->|]; [|destruct (Z.eqb_spec c 116) as [->|]]; unfold guess_ok; cbn; [| |done]; rewrite Gi;
      (split; [eexists; by vm_compute|by vm_compute]).
  - destruct G as [G1 G2].
    assert (W : guess_ok (s ++ [c]) (match_header CONTENT_LENGTH h_content_length c p) /\
                apart_field (match_header CONTENT_LENGTH h_content_length c p) = apart_field p).
    { eapply word_goes_on; [..|exact Hs|exact Hu|exact Hc]; [in_list|split; [exact Eh|by split]|].
      intros q Hq. eapply word_guess; [exact Hq|in_list]. }
    destruct W as [W1 W2]. rewrite bool_decide_eq_false_2; [eexists; split; [reflexivity|by split]|].
    intros E. unfold guess_ok in W1. by rewrite E in W1.
Qed.

(** A whole name, from its second letter to the colon. *)
Lemma field_loop_guess l s rest n p :
  guess_ok s p -> (0 < length s)%nat -> unknown (s ++ (token_of <$> l)) -> Forall (fun ch => token_of ch <> 0) l ->
  exists q, field_loop (l ++ ":"%char :: rest) n p = Ok (no_token ":"%char, (n + length l)%nat, q) /\
    guess_ok (s ++ (token_of <$> l)) q /\ apart_field q = apart_field p.
Proof.
  intros G Hs Hu HF. revert s n p G Hs Hu. induction HF as [|ch l Hc HF IH]; intros s n p G Hs Hu.
  { exists p. cbn. rewrite Nat.add_0_r, app_nil_r. by split. }
  change (token_of <$> ch :: l) with ([token_of ch] ++ (token_of <$> l)) in Hu |- *. rewrite app_assoc in Hu |- *.
  destruct (field_char_guess ch s p G Hs (unknown_prefix _ _ Hu) Hc) as (q & H1 & H2 & H3).
  cbn [app field_loop]. cbv zeta. fold (token_of ch). rewrite (proj2 (Z.eqb_neq _ _) Hc), H1. cbn [mbind outcome_bind].
  destruct (IH (s ++ [token_of ch]) (S n) q H2 ltac:(rewrite length_app; cbn; lia) Hu) as (r & H4 & H5 & H6).
  exists r. rewrite H4. split; [|split; [exact H5|congruence]]. cbn [length]. by rewrite Nat.add_succ_comm.
Qed.

(** The first letter. *)
Lemma first_guess ch p :
  guess_ok [token_of ch] (with_header_state (first_header_state (token_of ch)) (with_index 0 p)).
Proof.
  unfold guess_ok, first_header_state. set (c := token_of ch).
  repeat (match goal with |- context [Z.eqb c ?k] => destruct (Z.eqb_spec c k) as [->|] end; cbn; [by first [split; [eexists; by vm_compute|done]|done]|]).
  done.
Qed.

(** ** Values *)

(** A character that a value may have, and that does not end it. *)
Definition plain_char (ch : ascii) : Prop := ch <> CR /\ ch <> LF /\ is_header_char ch = true.

Lemma plain_not ch : plain_char ch -> is_ch CR ch = false /\ is_ch LF ch = false.
Proof. intros (H1 & H2 & _). unfold is_ch. by split; apply Ascii.eqb_neq. Qed.

Lemma memchr_absent c v k l : Forall (fun ch => ch <> c) v -> (k <= length v)%nat -> memchr c k (v ++ l) = None.
Proof.
  intros HF Hk. unfold memchr. rewrite take_app_le by done.
  destruct (list_find _ (take k v)) as [[i ch]|] eqn:E; [|done]. exfalso.
  apply list_find_Some in E as (E & -> & _). rewrite Forall_forall in HF.
  apply lookup_take_Some in E as [E _]. apply list_elem_of_lookup_2 in E. by apply HF in E.
Qed.

Lemma memchr_there c v k l : Forall (fun ch => ch <> c) v -> (length v < k)%nat -> memchr c k (v ++ c :: l) = Some (length v).
Proof.
  intros HF Hk. unfold memchr. apply fmap_Some. exists (length v, c). split; [|done].
  apply list_find_Some. split; [|split; [done|]].
  - rewrite lookup_take_lt by done. by rewrite lookup_app_r, Nat.sub_diag.
  - intros j y Hj Hlt. apply lookup_take_Some in Hj as [Hj _]. rewrite lookup_app_l in Hj by done.
    rewrite Forall_forall in HF. by apply HF, (list_elem_of_lookup_2 _ j).
Qed.

Lemma memchr_after c d v k l n :
  Forall (fun ch => ch <> c) v -> c <> d -> memchr c k (v ++ d :: l) = Some n -> (length v < n)%nat.
Proof.
  intros HF Hd H. unfold memchr in H. apply fmap_Some in H as ([i ch] & H & ->). cbn.
  apply list_find_Some in H as (H & -> & _). apply lookup_take_Some in H as [H _].
  destruct (Nat.lt_total i (length v)) as [Hlt|[->|Hgt]]; [| |done]; exfalso.
  - rewrite lookup_app_l in H by done. rewrite Forall_forall in HF. by eapply HF; [eapply list_elem_of_lookup_2|].
  - rewrite lookup_app_r, Nat.sub_diag in H by done. cbn in H. congruence.
Qed.

(** The jump goes to the CR after the value. *)
Lemma jump_to_cr v l :
  Forall plain_char v -> Z.of_nat (length v) < HTTP_MAX_HEADER_SIZE -> value_jump (v ++ CR :: l) = length v.
Proof.
  intros HF Hl. unfold value_jump. set (limit := Z.to_nat _).
  assert (H1 : (length v < limit)%nat) by (unfold limit; rewrite length_app; cbn; lia).
  assert (F1 : Forall (fun ch => ch <> CR) v) by (eapply Forall_impl; [exact HF|by intros ? []]).
  assert (F2 : Forall (fun ch => ch <> LF) v) by (eapply Forall_impl; [exact HF|by intros ? (_ & ? & _)]).
  cbv zeta. rewrite (memchr_there CR v limit l F1 H1).
  destruct (memchr LF limit (v ++ CR :: l)) as [lf|] eqn:E; [|done].
  apply memchr_after in E; [|done|by vm_compute]. rewrite (proj2 (Nat.leb_gt _ _)) by lia. done.
Qed.

Lemma value_skip lenient v l n h p :
  value_loop lenient (v ++ l) n (length v) h p = value_loop lenient l (n + length v) 0 h p.
Proof.
  revert n. induction v as [|ch v IH]; intros n; [by rewrite Nat.add_0_r|]. cbn. by rewrite IH, Nat.add_succ_comm.
Qed.

(** A value that the parser does not look into. *)
Lemma value_loop_plain lenient v l p :
  Forall plain_char v -> Z.of_nat (length v) < HTTP_MAX_HEADER_SIZE ->
  value_loop lenient (v ++ CR :: l) 0 0 h_general p = Ok (at_cr, length v, h_general, p).
Proof.
  intros HF Hl. destruct v as [|ch v]; [done|]. pose proof (jump_to_cr _ l HF Hl) as J.
  inversion HF as [|? ? Hch Hv]; subst. destruct (plain_not ch Hch) as [E1 E2]. destruct Hch as (_ & _ & E3).
  cbn [app value_loop] in *. rewrite E1, E2, E3, andb_false_r. rewrite bool_decide_eq_true_2 by done.
  rewrite J. cbn [length pred]. rewrite value_skip. reflexivity.
Qed.

(** ** Lines *)

(** What a line changes in the parser, put aside. *)
Definition apart (p : http_parser) : http_parser := with_state s_start_req (with_nread 0 (apart_field p)).

Lemma finished_nread p : nread (finished_header p) = nread p.
Proof. unfold finished_header, connection_flag. by destruct (header_state p). Qed.

Lemma apart_finished p q : apart q = apart p -> header_state q = header_state p -> apart (finished_header q) = apart (finished_header p).
Proof.
  intros H1 H2. unfold finished_header, connection_flag. rewrite H2.
  assert (F : forall x, apart (set_flag x q) = apart (set_flag x p)).
  { intros x. change (set_flag x (apart q) = set_flag x (apart p)). by rewrite H1. }
  destruct (header_state p); done || apply F.
Qed.

(** ** What the parser makes of a field

    From a parser that is [b], what a line changes apart, to one that is [b']: a
    name, the first character of a value, the rest of it.  [N] and [V] are what is
    known of the guess in between. *)
Definition steady (N : http_parser -> Prop) : Prop :=
  forall p q, header_state q = header_state p -> index q = index p -> N p -> N q.

Definition name_runs (ch : ascii) (l : list ascii) (b b1 : http_parser) (N : http_parser -> Prop) : Prop :=
  forall p rest, apart p = b -> header_state p = first_header_state (token_of ch) -> index p = 0 ->
  exists q, field_loop (l ++ ":"%char :: rest) 0 p = Ok (no_token ":"%char, length l, q) /\
    nread q = nread p /\ apart q = b1 /\ N q.

Definition value_starts (ch : ascii) (b1 b2 : http_parser) (N V : http_parser -> Prop) : Prop :=
  forall p, apart p = b1 -> N p -> exists q, value_start ch (with_index 0 p) = (None, q) /\ nread q = nread p /\ apart q = b2 /\ V q.

Definition value_goes (lenient : bool) (l : list ascii) (b2 b' : http_parser) (V : http_parser -> Prop) : Prop :=
  forall p rest, apart p = b2 -> V p -> Z.of_nat (length l) < HTTP_MAX_HEADER_SIZE ->
  exists h q, value_loop lenient (l ++ CR :: rest) 0 0 (header_state p) p = Ok (at_cr, length l, h, q) /\
    nread q = nread p /\ errno q = HPE_OK /\ apart (finished_header (with_header_state h q)) = b'.

(** A field that takes the parser from [b] to [b']. *)
Inductive line_runs (lenient : bool) (b b' : http_parser) : list ascii -> list ascii -> Prop :=
| line_runs_intro ch l cv lv b1 b2 N V :
    token_of ch <> 0 -> cv <> " "%char -> cv <> TAB -> cv <> CR -> cv <> LF -> steady N -> steady V ->
    errno b1 = HPE_OK -> name_runs ch l b b1 N -> value_starts cv b1 b2 N V -> value_goes lenient lv b2 b' V ->
    line_runs lenient b b' (ch :: l) (cv :: lv).

(** A field as it is written, and a block of fields. *)
Definition field_line (kv : string * string) : string := kv.1 +:+ ": " +:+ kv.2 +:+ crlf.
Definition block (kvs : list (string * string)) : string := concat_str (field_line <$> kvs).

Lemma chars_field_line k v : chars (field_line (k, v)) = chars k ++ ":"%char :: " "%char :: chars v ++ [CR; LF].
Proof. unfold field_line. cbn [fst snd]. by rewrite !chars_app. Qed.

Inductive block_runs (lenient : bool) : list (string * string) -> http_parser -> http_parser -> Prop :=
| block_runs_nil b : block_runs lenient [] b b
| block_runs_cons k v kvs b b1 b2 :
    line_runs lenient b b1 (chars k) (chars v) -> block_runs lenient kvs b1 b2 -> block_runs lenient ((k, v) :: kvs) b b2.

Lemma token_not c ch : token_of ch <> 0 -> token_of c = 0 -> is_ch c ch = false.
Proof. intros H1 H2. unfold is_ch. apply Ascii.eqb_neq. congruence. Qed.

Section Lines.
Context {C : Type} (settings : http_parser_settings C) (data beyond : list ascii) (lenient : bool).
Implicit Types (f : frame C).
Abbreviation reaches := (reaches settings data beyond lenient).
Abbreviation switch := (switch settings data beyond lenient).

(** The callback answers 0 and makes [c'] of [c]. *)
Definition tells (k : data_kind) (s : string) (c c' : C) : Prop :=
  match on_data settings k with Some cb => forall l p, cb s l p c = Ok (0, p, c') | None => False end.

(** A frame among the lines: its state, its place, the client, the parser apart
    from what a line changes, and a bound of the bytes counted. *)
Record among (s : state) (n : nat) (c : C) (base : http_parser) (nr : Z) f : Prop := {
  am_cur : cur f = s;
  am_pos : pos f = n;
  am_client : client f = c;
  am_base : apart (parser f) = base;
  am_nread : 0 <= nread (parser f) <= nr }.

Lemma among_errno s n c base nr f : among s n c base nr f -> errno (parser f) = errno base.
Proof. intros A. by rewrite <- (am_base _ _ _ _ _ _ A). Qed.

Lemma among_more s n c base nr nr' f : nr <= nr' -> among s n c base nr f -> among s n c base nr' f.
Proof. intros Hn []. split; try done. lia. Qed.

(** One byte, counted. *)
Lemma among_pass ch s n c base nr f (P : frame C -> Prop) :
  among s n c base nr f -> parsing_header s = true -> nr < HTTP_MAX_HEADER_SIZE -> data !! n = Some ch ->
  (forall g, among s n c base (nr + 1) g -> marks g = marks f -> header_state (parser g) = header_state (parser f) ->
     index (parser g) = index (parser f) ->
     exists g', switch ch g = Ok (Break g') /\ P (move (S (pos g')) g')) ->
  reaches f P.
Proof.
  intros A Hs Hn Hch K. destruct (K (counted f)) as (g' & G1 & G2); [|done..|].
  { destruct A. split; try done. cbn. lia. }
  destruct A as [A1 A2 A3 A4 A5]. eapply reaches_move; [|intros g Hg; by apply reaches_refl].
  eapply (move_on _ _ _ _ ch); [by rewrite A2| |exact G2]. rewrite pass_counted; [exact G1|by rewrite A1|lia].
Qed.

(** The start of a line: at the first one, and after another, whose field is then
    over. *)
Definition line_start (n : nat) (c : C) (base : http_parser) (nr : Z) f : Prop :=
  exists s b, among s n c b nr f /\ unmarked f /\
    ((s = s_header_field_start /\ b = base) \/
     (s = s_header_value_lws /\ apart (finished_header (parser f)) = base)).

Lemma among_line_start n c base nr f : among s_header_field_start n c base nr f -> unmarked f -> line_start n c base nr f.
Proof. intros A U. exists s_header_field_start, base. split; [exact A|split; [exact U|by left]]. Qed.

Lemma line_begins ch n c base nr f (P : frame C -> Prop) :
  line_start n c base nr f -> nr < HTTP_MAX_HEADER_SIZE -> data !! n = Some ch ->
  is_ch " "%char ch = false -> is_ch TAB ch = false ->
  (forall g, among s_header_field_start n c base (nr + 1) g -> unmarked g ->
     exists g', run_header_field_start ch g = Ok (Break g') /\ P (move (S (pos g')) g')) ->
  reaches f P.
Proof.
  intros (s & b & A & U & Hs) Hn Hch H1 H2 K. destruct Hs as [[-> ->]|[-> Hg]].
  { eapply among_pass; [exact A|done|done|exact Hch|]. intros g G Gm _ _.
    destruct (K g G) as (g' & K1 & K2); [by intros k; rewrite Gm|]. exists g'. split; [|exact K2].
    unfold HttpExecute.switch. by rewrite (am_cur _ _ _ _ _ _ G). }
  set (g := update_state s_header_field_start (on_parser finished_header (counted f))).
  destruct A as [A1 A2 A3 A4 A5]. destruct (K g) as (g' & K1 & K2).
  { split; unfold g; cbn [cur pos client parser update_state on_parser]; try done.
    - rewrite <- Hg. by apply apart_finished.
    - rewrite finished_nread. cbn. lia. }
  { exact U. }
  exists 2%nat. eexists. split; [|exact K2].
  eapply run_again; [by rewrite A2| |].
  - rewrite pass_counted; [|by rewrite A1|lia]. unfold HttpExecute.switch. cbn [cur counted on_parser]. rewrite A1.
    unfold run_header_value_lws. rewrite H1, H2. reflexivity.
  - fold g. eapply run_break; [cbn; by rewrite A2| |apply run_refl]. unfold pass, HttpExecute.switch. cbn [cur g update_state]. exact K1.
Qed.

(** A name and its colon. *)
Lemma name_read n c c1 base b1 (N : http_parser -> Prop) nr f ch l rest :
  line_start n c base nr f -> errno b1 = HPE_OK -> steady N -> name_runs ch l base b1 N -> token_of ch <> 0 ->
  drop n data = (ch :: l) ++ ":"%char :: rest -> tells header_field (of_chars (ch :: l)) c c1 ->
  nr + Z.of_nat (length l) + 2 <= HTTP_MAX_HEADER_SIZE ->
  reaches f (fun g => among s_header_value_discard_ws (n + length (ch :: l) + 1) c1 b1 (nr + Z.of_nat (length l) + 2) g /\
    unmarked g /\ N (parser g)).
Proof.
  intros L He HN R Hc Hd Ht Hn.
  pose proof Hd as Hd0. cbn [app] in Hd0. apply data_here in Hd0 as [Hch Hd1].
  eapply reaches_trans with (P := fun g => among s_header_field (S n) c base (nr + 1) g /\ marks g header_field = Some n /\
    unmarked_but header_field g /\ header_state (parser g) = first_header_state (token_of ch) /\ index (parser g) = 0).
  { eapply (line_begins ch); [exact L|lia|exact Hch|by apply token_not|by apply token_not|].
    intros g A U. unfold run_header_field_start. rewrite !token_not by done. cbv zeta. fold (token_of ch).
    rewrite (proj2 (Z.eqb_neq _ _) Hc). eexists. split; [reflexivity|]. rewrite mark_unmarked by done.
    destruct A as [A1 A2 A3 A4 A5]. split; [|split; [|split]].
    - split; try done. cbn. by rewrite A2.
    - cbn. by rewrite A2.
    - intros k Hk. cbn. rewrite decide_False by done. apply U.
    - done. }
  clear L f. intros f (A & Hm & Hb & Hh & Hi).
  assert (Hx : exists ch', data !! (S n) = Some ch').
  { destruct l as [|x l]; cbn [app] in Hd1; apply data_here in Hd1 as [Hx _]; eauto. }
  destruct Hx as (ch' & Hx).
  eapply (among_pass ch'); [exact A|done|lia|exact Hx|]. intros g G Gm Gh Gi.
  unfold HttpExecute.switch. rewrite (am_cur _ _ _ _ _ _ G). unfold run_header_field. cbv zeta.
  rewrite (am_pos _ _ _ _ _ _ G), Hd1.
  destruct (R (parser g) rest) as (q & Q1 & Hq & Hq0 & Q2); [apply G|by rewrite Gh|by rewrite Gi|].
  rewrite Q1. cbn [mbind outcome_bind]. unfold count_header_size. cbv zeta.
  pose proof (am_nread _ _ _ _ _ _ G) as Hnr.
  cbn [parser on_parser move with_nread nread]. rewrite Hq, wrap_id by (unfold in_range; unfold HTTP_MAX_HEADER_SIZE in Hn; cbn; lia).
  rewrite (proj2 (Z.ltb_ge _ _)) by lia. change (is_ch ":" ":") with true. cbn iota.
  assert (Heq : errno q = HPE_OK) by (rewrite <- He, <- Hq0; done).
  eexists. split.
  { erewrite data_run; [reflexivity|exact Heq|cbn; rewrite Gm; exact Hm|].
    unfold tells in Ht. cbn [pos update_state on_parser move]. destruct (on_data settings header_field) as [cb|]; [|done].
    replace (of_chars (take _ _)) with (of_chars (ch :: l)); [|].
    - cbn [client update_state on_parser move]. rewrite (am_client _ _ _ _ _ _ G). apply Ht.
    - rewrite Hd. replace (S n + length l - n)%nat with (length (ch :: l)) by (cbn; lia). by rewrite take_app_length. }
  cbn [length]. split; [|split].
  - split; cbn [cur pos client parser set_mark move on_parser update_state nread with_state with_nread]; try done; [cbn; lia|].
    rewrite Hq, wrap_id by (unfold in_range; unfold HTTP_MAX_HEADER_SIZE in Hn; cbn; lia). cbn; lia.
  - intros k. cbn. destruct (decide (k = header_field)) as [|Hk]; [done|]. rewrite Gm. by apply Hb.
  - eapply HN; [..|exact Q2]; done.
Qed.

Lemma plain_eq c ch : is_ch c ch = false <-> ch <> c.
Proof. unfold is_ch. apply Ascii.eqb_neq. Qed.

(** A value, with the space before it and the end of its line. *)
Lemma value_read n c c1 b1 b2 base (N V : http_parser -> Prop) nr f ch v rest :
  among s_header_value_discard_ws n c b1 nr f -> unmarked f -> N (parser f) -> steady N -> steady V ->
  value_starts ch b1 b2 N V -> value_goes lenient v b2 base V ->
  drop n data = " "%char :: (ch :: v) ++ CR :: LF :: rest ->
  ch <> " "%char -> ch <> TAB -> ch <> CR -> ch <> LF -> tells header_value (of_chars (ch :: v)) c c1 ->
  nr + Z.of_nat (length v) + 4 <= HTTP_MAX_HEADER_SIZE ->
  reaches f (line_start (n + length (ch :: v) + 3) c1 base (nr + Z.of_nat (length v) + 4)).
Proof.
  intros A U G HN HV R1 R2 Hd Hs1 Hs2 E1 E2 Ht Hn. apply plain_eq in Hs1, Hs2, E1, E2.
  apply data_here in Hd as [Hsp Hd]. pose proof Hd as Hd1. cbn [app] in Hd1. apply data_here in Hd1 as [Hch Hd1].
  pose proof (data_on _ _ _ _ Hd1) as Hd2. apply data_here in Hd2 as [Hcr Hd2]. apply data_here in Hd2 as [Hlf _].
  eapply reaches_trans with (P := fun g => among s_header_value_discard_ws (S n) c b1 (nr + 1) g /\ unmarked g /\ N (parser g)).
  { eapply (among_pass " "%char); [exact A|done|lia|exact Hsp|]. intros g B Bm Bh Bi.
    unfold HttpExecute.switch. rewrite (am_cur _ _ _ _ _ _ B). unfold run_header_value_discard_ws. cbn [is_ch Ascii.eqb Bool.eqb orb].
    eexists. split; [reflexivity|]. split; [|split].
    - destruct B; split; try done. cbn. lia.
    - intros k. cbn. rewrite Bm. apply U.
    - by eapply HN; [..|exact G]. }
  clear A U G f. intros f (A & U & G).
  eapply reaches_trans with (P := fun g => among s_header_value (S (S n)) c b2 (nr + 2) g /\ marks g header_value = Some (S n) /\
    unmarked_but header_value g /\ V (parser g)).
  { eapply (among_pass ch); [exact A|done|lia|exact Hch|]. intros g B Bm Bh Bi.
    unfold HttpExecute.switch. rewrite (am_cur _ _ _ _ _ _ B). unfold run_header_value_discard_ws.
    rewrite Hs1, Hs2, E1, E2. cbn [orb]. unfold run_header_value_start.
    assert (Ug : unmarked g) by (intros k; rewrite Bm; apply U). rewrite mark_unmarked by done.
    destruct (R1 (parser g)) as (q & Q1 & Q2 & Q3 & Q4); [apply B|by eapply HN; [..|exact G]|].
    cbn [parser update_state set_mark]. rewrite Q1. eexists. split; [reflexivity|].
    destruct B as [B1 B2 B3 B4 B5]. split; [|split; [|split]].
    - split; cbn; try done; [by rewrite B2|rewrite Q2; lia].
    - cbn. by rewrite B2.
    - intros k Hk. cbn. rewrite decide_False by done. apply Ug.
    - exact Q4. }
  clear A U G f. intros f (A & Hm & Hb & Hg).
  assert (Hx : exists ch', data !! (S (S n)) = Some ch').
  { destruct v as [|x v]; cbn [app] in Hd1; apply data_here in Hd1 as [Hx _]; eauto. }
  destruct Hx as (ch' & Hx).
  eapply reaches_trans with (P := fun g => exists b, among s_header_almost_done (S (S n) + length v + 1) c1 b (nr + Z.of_nat (length v) + 3) g /\
    unmarked g /\ apart (finished_header (parser g)) = base).
  { eapply (among_pass ch'); [exact A|done|lia|exact Hx|]. intros g B Bm Bh Bi.
    unfold HttpExecute.switch. rewrite (am_cur _ _ _ _ _ _ B). unfold run_header_value. cbv zeta.
    pose proof (am_nread _ _ _ _ _ _ B) as Hnr.
    destruct (R2 (parser g) (LF :: rest)) as (h & q & Q1 & Q2 & Q3 & Q4); [apply B|by eapply HV; [..|exact Hg]|lia|].
    rewrite (am_pos _ _ _ _ _ _ B), Hd1, Q1. cbn [mbind outcome_bind].
    erewrite data_run; [|exact Q3|cbn; rewrite Bm; exact Hm|].
    2:{ unfold tells in Ht. cbn [pos update_state on_parser move]. destruct (on_data settings header_value) as [cb|]; [|done].
        replace (of_chars (take _ _)) with (of_chars (ch :: v)); [|].
        - cbn [client update_state on_parser move]. rewrite (am_client _ _ _ _ _ _ B). apply Ht.
        - rewrite Hd. replace (S (S n) + length v - S n)%nat with (length (ch :: v)) by (cbn; lia). by rewrite take_app_length. }
    unfold count_header_size. cbv zeta. cbn [parser on_parser with_nread nread with_header_state set_mark with_state cur move update_state].
    rewrite Q2, wrap_id by (unfold in_range; unfold HTTP_MAX_HEADER_SIZE in Hn; cbn; lia).
    rewrite (proj2 (Z.ltb_ge _ _)) by (cbn; lia). eexists. split; [reflexivity|].
    destruct B as [B1 B2 B3 B4 B5]. eexists. split; [|split].
    - split; cbn [cur pos client parser set_mark move on_parser update_state]; try done; [cbn; lia|].
      cbn [nread with_header_state with_state with_nread]. rewrite Q2, wrap_id by (unfold in_range; unfold HTTP_MAX_HEADER_SIZE in Hn; cbn; lia). cbn; lia.
    - intros k. cbn. destruct (decide (k = header_value)) as [|Hk]; [done|]. rewrite Bm. by apply Hb.
    - rewrite <- Q4. by apply apart_finished. }
  clear A Hm Hb Hg Hx f. intros f (b & A & U & Hg).
  eapply (among_pass LF); [exact A|done|lia| |].
  { replace (S (S n) + length v + 1)%nat with (S (S (S n) + length v)) by lia. exact Hlf. }
  intros g B Bm Bh Bi. unfold HttpExecute.switch. rewrite (am_cur _ _ _ _ _ _ B). unfold run_header_almost_done.
  change (is_ch LF LF) with true. cbn [negb]. eexists. split; [reflexivity|]. exists s_header_value_lws, b.
  destruct B as [B1 B2 B3 B4 B5]. split; [|split; [|right; split; [done|]]].
  - split; try done; cbn; lia.
  - intros k. cbn. rewrite Bm. apply U.
  - rewrite <- Hg. apply apart_finished; [|exact Bh]. cbn. by rewrite (am_base _ _ _ _ _ _ A).
Qed.

(** ** The block *)

(** The callbacks for a list of fields, one after the other. *)
Inductive told : list (string * string) -> C -> C -> Prop :=
| told_nil c : told [] c c
| told_cons k v l c c1 c2 c3 :
    tells header_field k c c1 -> tells header_value v c1 c2 -> told l c2 c3 -> told ((k, v) :: l) c c3.

Lemma field_read n c c1 c2 base base' nr f k v rest :
  line_start n c base nr f -> line_runs lenient base base' (chars k) (chars v) ->
  drop n data = chars (field_line (k, v)) ++ rest -> tells header_field k c c1 -> tells header_value v c1 c2 ->
  nr + len (field_line (k, v)) <= HTTP_MAX_HEADER_SIZE ->
  reaches f (line_start (n + length (chars (field_line (k, v)))) c2 base' (nr + len (field_line (k, v)))).
Proof.
  intros L G Hd T1 T2 Hn. unfold len in *.
  rewrite chars_field_line in *. rewrite <- (of_chars_chars k) in T1. rewrite <- (of_chars_chars v) in T2.
  inversion G as [ck lk cv lv b1 b2 N V Hck S1 S2 S3 S4 HN HV He R1 R2 R3 Ek Ev]. rewrite <- Ek, <- Ev in *.
  rewrite !length_app in Hn. cbn [length] in Hn. rewrite !length_app in Hn. cbn [length] in Hn.
  rewrite <- !app_assoc in Hd. cbn [app] in Hd. rewrite <- !app_assoc in Hd. cbn [app] in Hd.
  eapply reaches_trans; [eapply (name_read n c c1 base b1 N nr f ck lk); [exact L|exact He|exact HN|exact R1|exact Hck|exact Hd|exact T1|lia]|].
  clear L f. intros f (A & U & GN).
  assert (Hd2 : drop (n + length (ck :: lk) + 1) data = " "%char :: (cv :: lv) ++ CR :: LF :: rest).
  { change (ck :: lk ++ ?x) with ((ck :: lk) ++ x) in Hd. apply data_on in Hd. rewrite Nat.add_1_r. by apply data_here in Hd as [_ Hd]. }
  pose proof (value_read _ c1 c2 b1 b2 base' N V _ f cv lv rest A U GN HN HV R2 R3 Hd2 S1 S2 S3 S4 T2 ltac:(lia)) as R.
  rewrite !length_app. cbn [length app]. rewrite !length_app. cbn [length].
  match goal with |- reaches f (line_start ?x _ _ ?y) =>
    replace x with (n + length (ck :: lk) + 1 + length (cv :: lv) + 3)%nat by (cbn [length]; lia);
    replace y with (nr + Z.of_nat (length lk) + 2 + Z.of_nat (length lv) + 4) by lia end. exact R.
Qed.

Lemma block_read kvs n c c' base base' nr f rest :
  line_start n c base nr f -> block_runs lenient kvs base base' ->
  drop n data = chars (block kvs) ++ rest -> told kvs c c' -> nr + len (block kvs) <= HTTP_MAX_HEADER_SIZE ->
  reaches f (line_start (n + length (chars (block kvs))) c' base' (nr + len (block kvs))).
Proof.
  intros L HB Hd T. revert n nr base f L HB Hd. induction T as [c|k v l c c1 c2 c3 T1 T2 T IH]; intros n nr base f L HB Hd Hn.
  { inversion HB; subst. apply reaches_refl. cbn. by rewrite Nat.add_0_r, Z.add_0_r. }
  inversion HB as [|? ? ? ? b ? HB1 HB2]; subst.
  change (block ((k, v) :: l)) with (field_line (k, v) +:+ block l) in *. unfold len in *. rewrite chars_app in *.
  rewrite length_app in *. rewrite <- app_assoc in Hd.
  eapply reaches_trans; [eapply (field_read n c c1 c2 base b nr f k v); [exact L|exact HB1|exact Hd|exact T1|exact T2|unfold len; lia]|].
  intros g G. pose proof (data_on _ _ _ _ Hd) as Hd2.
  pose proof (IH _ _ b g G HB2 Hd2 ltac:(unfold len; lia)) as R. unfold len in R.
  rewrite Nat2Z.inj_add, Z.add_assoc, Nat.add_assoc. exact R.
Qed.

(** ** The end of the block *)

(** A parser whose fields announce no other protocol, and at most one way to find
    the end of the body. *)
Record head_ok (p : http_parser) : Prop := {
  ho_trailing : has_flag p F_TRAILING = false;
  ho_protocol : has_flag p F_UPGRADE = false;
  ho_skip : has_flag p F_SKIPBODY = false;
  ho_one : has_flag p F_CHUNKED && has_flag p F_CONTENTLENGTH = false;
  ho_upgrade : upgrade p = false;
  ho_method : pmethod p <> HTTP_CONNECT;
  ho_errno : errno p = HPE_OK }.

(** How the body ends. *)
Inductive body_kind := no_body | in_chunks | of_length (n : Z) | until_eof.

Definition body_of (p : http_parser) : body_kind :=
  if has_flag p F_CHUNKED then in_chunks
  else if content_length p =? 0 then no_body
  else if negb (content_length p =? ULLONG_MAX) then of_length (content_length p)
  else if negb (http_message_needs_eof p) then no_body
  else until_eof.

(** The callback that the head is complete makes [c1] of [c]. *)
Definition head_told (base : http_parser) (c c1 : C) : Prop :=
  match on_notify settings headers_complete with
  | Some cb => forall p, apart p = base -> cb p c = Ok (0, p, c1)
  | None => False
  end.

(** In a body of a known kind. *)
Definition in_body (s : state) (n : nat) (c : C) (p : http_parser) f : Prop :=
  cur f = s /\ pos f = n /\ client f = c /\ with_state s_start_req (with_nread 0 (parser f)) = p /\ nread (parser f) = 0 /\ unmarked f.

Definition after_head `{!Receiver settings} (n : nat) (c : C) (base : http_parser) f : Prop :=
  match body_of base with
  | no_body => fresh n (take_end c) f
  | in_chunks => framing s_chunk_size_start n c (content_length base) 0 false f
  | of_length l => exists p, apart p = base /\ in_body s_body_identity n c p f
  | until_eof => exists p, apart p = base /\ in_body s_body_identity_eof n c p f
  end.

Lemma apart_head p base : apart p = base -> head_ok base -> head_ok p.
Proof. intros <- []. by split. Qed.

Lemma same_upgrade p : upgrade p = false -> with_upgrade false p = p.
Proof. intros H. destruct p. cbn in *. by subst. Qed.

Lemma no_upgrade p : head_ok p -> wants_upgrade p = false.
Proof.
  intros [_ H _ _ _ Hm _]. unfold wants_upgrade. rewrite (proj2 (Z.eqb_neq _ _) Hm), orb_false_r. apply Z.eqb_neq. intros E.
  unfold has_flag in H. apply negb_false_iff, Z.eqb_eq in H.
  apply (f_equal (fun x => Z.land x F_UPGRADE)) in E. rewrite <- Z.land_assoc in E. change (Z.land (Z.lor F_UPGRADE F_CONNECTION_UPGRADE) F_UPGRADE) with F_UPGRADE in E. by rewrite H in E.
Qed.

(** The line feed: the callback, and the same byte again. *)
Lemma head_complete_run n c c1 base nr f :
  among s_headers_almost_done n c base nr f -> head_ok base -> head_told base c c1 ->
  exists g, run_headers_almost_done settings LF f = Ok (Reexecute g) /\
    among s_headers_done n c1 base nr g /\ marks g = marks f.
Proof.
  intros A P T. pose proof (apart_head _ _ (am_base _ _ _ _ _ _ A) P) as Pf.
  unfold run_headers_almost_done, strict_check. change (negb (is_ch LF LF)) with false. cbn iota.
  rewrite (ho_trailing _ Pf), (ho_one _ Pf). unfold callback_headers_complete.
  assert (E : with_upgrade (wants_upgrade (parser f)) (parser f) = parser f).
  { rewrite no_upgrade by done. apply same_upgrade, Pf. }
  cbn [parser client on_parser update_state]. rewrite E. unfold head_told in T.
  destruct (on_notify settings headers_complete) as [cb|]; [|done].
  rewrite (am_client _ _ _ _ _ _ A), T by apply A. cbn [mbind outcome_bind Z.eqb parser]. rewrite bool_decide_eq_true_2 by apply Pf.
  eexists. split; [reflexivity|]. destruct A. by split.
Qed.

(** What comes after the head. *)
Lemma head_done_run `{!Receiver settings} n c base nr f :
  among s_headers_done n c base nr f -> unmarked f -> head_ok base -> ending c ->
  exists g, run_headers_done settings LF f = Ok (Break g) /\ after_head (S n) c base (move (S (pos g)) g).
Proof.
  intros A U P R. pose proof (apart_head _ _ (am_base _ _ _ _ _ _ A) P) as Pf.
  unfold run_headers_done, strict_check. change (negb (is_ch LF LF)) with false. cbn iota. cbv zeta.
  cbn [parser on_parser]. assert (EB : body_of (parser f) = body_of base) by (by rewrite <- (am_base _ _ _ _ _ _ A)).
  assert (Ec : content_length (parser f) = content_length base) by (by rewrite <- (am_base _ _ _ _ _ _ A)).
  change (upgrade (with_nread 0 (parser f))) with (upgrade (parser f)).
  change (has_flag (with_nread 0 (parser f))) with (has_flag (parser f)).
  change (content_length (with_nread 0 (parser f))) with (content_length (parser f)).
  change (http_message_needs_eof (with_nread 0 (parser f))) with (http_message_needs_eof (parser f)).
  rewrite (ho_upgrade _ Pf), (ho_skip _ Pf). cbn [andb]. unfold after_head. rewrite <- EB, <- Ec. unfold body_of.
  destruct A as [A1 A2 A3 A4 A5].
  assert (F : exists g, complete settings (on_parser (with_nread 0) f) (@break C) = Ok (Break g) /\
    fresh (S n) (take_end c) (move (S (pos g)) g)).
  { eexists. split.
    - erewrite message_complete_run; [reflexivity|apply Pf|]. cbn [client on_parser]. by rewrite A3.
    - split; [|exact U]. unfold move. cbn. by rewrite A2, A3. }
  destruct F as (h & H1 & H2).
  destruct (has_flag (parser f) F_CHUNKED) eqn:Hc.
  { eexists. split; [reflexivity|]. split; try done; [cbn; by rewrite A2|apply Pf|apply Pf]. }
  destruct (content_length (parser f) =? 0); [by exists h|].
  destruct (negb (content_length (parser f) =? ULLONG_MAX)).
  { eexists. split; [reflexivity|]. exists (with_state s_start_req (with_nread 0 (parser f))). split; [exact A4|].
    split; [done|]. split; [cbn; by rewrite A2|]. by split. }
  destruct (negb (http_message_needs_eof (parser f))); [by exists h|].
  eexists. split; [reflexivity|]. exists (with_state s_start_req (with_nread 0 (parser f))). split; [exact A4|].
  split; [done|]. split; [cbn; by rewrite A2|]. by split.
Qed.

Lemma head_end `{!Receiver settings} n c c1 base nr f rest :
  line_start n c base nr f -> head_ok base -> head_told base c c1 -> ending c1 ->
  drop n data = CR :: LF :: rest -> nr + 2 <= HTTP_MAX_HEADER_SIZE ->
  reaches f (after_head (n + 2) c1 base).
Proof.
  intros L P T R Hd Hn. apply data_here in Hd as [Hcr Hd]. apply data_here in Hd as [Hlf _].
  eapply reaches_trans with (P := fun g => among s_headers_almost_done (S n) c base (nr + 1) g /\ unmarked g).
  { eapply (line_begins CR); [exact L|lia|exact Hcr|done|done|]. intros g A U.
    eexists. split; [reflexivity|]. destruct A as [A1 A2 A3 A4 A5]. split; [|exact U]. split; try done. cbn. by rewrite A2. }
  clear L f. intros f (A & U). set (f1 := counted f).
  assert (A1 : among s_headers_almost_done (S n) c base (nr + 2) f1) by (destruct A; split; try done; cbn; lia).
  destruct (head_complete_run _ _ _ _ _ _ A1 P T) as (g & G1 & G2 & G3).
  assert (Ug : unmarked g) by (intros k; rewrite G3; apply U).
  destruct (head_done_run _ _ _ _ _ G2 Ug P R) as (h & H1 & H2).
  exists 2%nat, (move (S (pos h)) h). split.
  - eapply run_again; [rewrite (am_pos _ _ _ _ _ _ A); exact Hlf| |].
    + rewrite pass_counted; [|by rewrite (am_cur _ _ _ _ _ _ A)|destruct A; lia].
      fold f1. unfold HttpExecute.switch. rewrite (am_cur _ _ _ _ _ _ A1). exact G1.
    + eapply run_break; [rewrite (am_pos _ _ _ _ _ _ G2); exact Hlf| |apply run_refl].
      unfold HttpRun.pass, HttpExecute.switch. rewrite (am_cur _ _ _ _ _ _ G2). exact H1.
  - by replace (n + 2)%nat with (S (S n)) by lia.
Qed.

(** A whole block, and the end of the head. *)
Lemma block_end `{!Receiver settings} kvs n c c1 c2 base base' nr f rest :
  line_start n c base nr f -> block_runs lenient kvs base base' ->
  drop n data = chars (block kvs) ++ CR :: LF :: rest -> told kvs c c1 ->
  head_ok base' -> head_told base' c1 c2 -> ending c2 -> nr + len (block kvs) + 2 <= HTTP_MAX_HEADER_SIZE ->
  reaches f (after_head (n + length (chars (block kvs)) + 2) c2 base').
Proof.
  intros L B Hd T P H E Hn. eapply reaches_trans; [eapply (block_read kvs); [exact L|exact B|exact Hd|exact T|lia]|].
  clear L f. intros f L. eapply head_end; [exact L|exact P|exact H|exact E|by apply (data_on _ _ _ _ Hd)|lia].
Qed.

End Lines.
