(* ===== verification/HttpFields.v ===== *)
(** * The fields the HTTP/1 parser knows (src/src/http_parser/http_parser.c)

    What a whole field does to the parser: nothing, when its name is unknown; the
    flags of the connection; the length, and the chunked coding, of the body.  Each
    is an instance of [HttpHead.line_runs]; [effect] sums them up. *)

From S2P Require Import Prelude CppStd MultiMap Utils HttpCommons StructuredData HttpMessages.
From S2P Require Import UrlParser HttpParser HttpExecute HttpSafe HttpRun HttpHead.

(** ** Names without their case *)

(** The characters of a name count as tokens only. *)
Lemma field_char_token ch ch' c p : token_of ch = c -> token_of ch' = c -> c <> 0 -> field_char ch c p = field_char ch' c p.
Proof.
  intros H H' Hc. unfold field_char. destruct (header_state p); try done;
    by rewrite !token_not by (congruence || reflexivity).
Qed.

Lemma field_loop_tokens l l' rest n p :
  token_of <$> l = token_of <$> l' -> Forall (fun c => c <> 0) (token_of <$> l) ->
  field_loop (l ++ ":"%char :: rest) n p = field_loop (l' ++ ":"%char :: rest) n p.
Proof.
  revert l' n p. induction l as [|ch l IH]; intros [|ch' l'] n p H HF; try done.
  cbn [fmap list_fmap] in H, HF. injection H as H1 H2. inversion HF as [|? ? Hc HF']; subst.
  cbn [app field_loop]. cbv zeta. fold (token_of ch) (token_of ch'). rewrite <- H1.
  rewrite (proj2 (Z.eqb_neq _ _) Hc), (field_char_token ch ch' _ p eq_refl ltac:(done) Hc).
  destruct (field_char _ _ p) as [[[e|] q]|e]; cbn [mbind outcome_bind]; [done| |done]. by apply IH.
Qed.

Lemma name_runs_tokens ch l ch' l' b b1 N :
  token_of <$> ch :: l = token_of <$> ch' :: l' -> Forall (fun c => c <> 0) (token_of <$> l) ->
  name_runs ch' l' b b1 N -> name_runs ch l b b1 N.
Proof.
  intros H HF R p rest Hp Hh Hi. cbn [fmap list_fmap] in H. injection H as H1 H2.
  destruct (R p rest Hp) as (q & Q1 & Q2); [by rewrite <- H1|done|].
  exists q. split; [|exact Q2]. rewrite (field_loop_tokens l l') by done. rewrite Q1.
  do 3 f_equal. apply (f_equal length) in H2. rewrite !length_fmap in H2. by rewrite H2.
Qed.

(** A name that the parser knows, in any case. *)
Definition word_char (ch : ascii) : bool := in_class 97 122 ch || is_ch "-"%char ch.

Lemma token_word ch : word_char (tolower ch) = true -> token_of ch = byte_of (tolower ch).
Proof.
  intros H. assert (A : negb (word_char (tolower ch)) || (token_of ch =? byte_of (tolower ch)) = true).
  { apply (forall_ascii (fun ch => negb (word_char (tolower ch)) || (token_of ch =? byte_of (tolower ch)))). by vm_compute. }
  rewrite H in A. by apply Z.eqb_eq.
Qed.

Lemma tokens_word k w :
  lowercase k = w -> forallb word_char (chars w) = true -> token_of <$> chars k = codes w.
Proof.
  intros <-. unfold lowercase, codes. rewrite chars_of_chars. intros H. rewrite <- list_fmap_compose. apply list_fmap_ext.
  intros i ch Hi. apply token_word. rewrite forallb_forall in H. apply H, list_elem_of_In, list_elem_of_fmap.
  exists ch. split; [done|]. by eapply list_elem_of_lookup_2.
Qed.

Lemma codes_nonzero w : forallb word_char (chars w) = true -> Forall (fun c => c <> 0) (codes w).
Proof.
  intros H. apply Forall_fmap, Forall_forall. intros ch Hch. rewrite forallb_forall in H. apply list_elem_of_In, H in Hch.
  intros N. cbn in N. assert (A : negb (word_char ch) || negb (byte_of ch =? 0) = true).
  { apply (forall_ascii (fun ch => negb (word_char ch) || negb (byte_of ch =? 0))). by vm_compute. }
  by rewrite Hch, N in A.
Qed.

(** ** An unknown name, a plain value *)
Lemma guess_value s ch p : guess_ok s p -> value_start ch (with_index 0 p) = (None, with_header_state h_general (with_index 0 p)).
Proof. unfold guess_ok, value_start. cbv zeta. cbn [header_state with_index]. by destruct (header_state p). Qed.

Lemma guess_steady s : steady (guess_ok s).
Proof. intros p q H1 H2. unfold guess_ok. by rewrite H1, H2. Qed.

Lemma state_steady h : steady (fun p => header_state p = h).
Proof. intros p q H1 _ <-. done. Qed.

Lemma at_start_steady h : steady (fun p => header_state p = h /\ index p = 0).
Proof. intros p q H1 H2 [<- <-]. done. Qed.

(** A name of token characters that the parser does not know, and a value that
    begins at its first byte. *)
Definition good_field (kv : string * string) : Prop :=
  kv.1 <> "" /\ Forall (fun ch => token_of ch <> 0) (chars kv.1) /\ unknown (token_of <$> chars kv.1) /\
  Forall plain_char (chars kv.2) /\
  match chars kv.2 with ch :: _ => ch <> " "%char /\ ch <> TAB | [] => False end.

Lemma unknown_name ch l b :
  Forall (fun ch => token_of ch <> 0) (ch :: l) -> unknown (token_of <$> ch :: l) ->
  name_runs ch l b b (guess_ok (token_of <$> ch :: l)).
Proof.
  intros HF Hu p rest Hp Hh Hi. inversion HF as [|? ? Hc Hl]; subst.
  assert (G : guess_ok [token_of ch] p).
  { eapply (guess_steady _ (with_header_state (first_header_state (token_of ch)) (with_index 0 p))); [done|done|apply first_guess]. }
  destruct (field_loop_guess l [token_of ch] rest 0 p G ltac:(cbn; lia) Hu Hl) as (q & Q1 & Q2 & Q3).
  exists q. split; [exact Q1|]. split; [apply (f_equal nread Q3)|]. split; [unfold apart; by rewrite Q3|exact Q2].
Qed.

Lemma plain_value lenient v b : errno b = HPE_OK -> Forall plain_char v -> value_goes lenient v b b (fun p => header_state p = h_general).
Proof.
  intros He HF p rest Hp Hh Hl. exists h_general, p. rewrite Hh, value_loop_plain by done. split; [done|]. split; [done|].
  split; [by rewrite <- He, <- Hp|done].
Qed.

Lemma good_field_runs lenient b k v : errno b = HPE_OK -> good_field (k, v) -> line_runs lenient b b (chars k) (chars v).
Proof.
  intros He (G1 & G2 & G3 & G4 & G5). cbn [fst snd] in *.
  destruct (chars k) as [|ck lk] eqn:Ek; [by destruct G1; apply chars_inj|]. destruct (chars v) as [|cv lv]; [done|].
  destruct G5 as [S1 S2]. inversion G4 as [|? ? (P1 & P2 & _) PF]; subst. inversion G2; subst.
  eapply (line_runs_intro _ _ _ _ _ _ _ b b); [done..|apply guess_steady|apply (state_steady h_general)|exact He|by apply unknown_name| |by apply plain_value].
  intros p Hp Hg. eexists. split; [by eapply guess_value|]. by split.
Qed.

(** ** The known ones *)
(** A parser in a given state of a field, and its other members. *)
Definition in_field (h : header_states) (i : Z) (p : http_parser) : http_parser := with_index i (with_header_state h p).

Lemma in_field_eta h i p : header_state p = h -> index p = i -> p = in_field h i p.
Proof. destruct p. cbn. by intros <- <-. Qed.

Lemma connection_name b : name_runs "c"%char (chars "onnection") b b (fun p => header_state p = h_connection).
Proof.
  intros p rest Hp Hh Hi. rewrite (in_field_eta _ _ _ Hh Hi). exists (in_field h_connection 9 p).
  split; [destruct p; vm_compute; reflexivity|]. by split.
Qed.

Lemma transfer_encoding_name b : name_runs "t"%char (chars "ransfer-encoding") b b (fun p => header_state p = h_transfer_encoding).
Proof.
  intros p rest Hp Hh Hi. rewrite (in_field_eta _ _ _ Hh Hi). exists (in_field h_transfer_encoding 16 p).
  split; [destruct p; vm_compute; reflexivity|]. by split.
Qed.

Lemma content_length_name b :
  has_flag b F_CONTENTLENGTH = false ->
  name_runs "c"%char (chars "ontent-length") b (set_flag F_CONTENTLENGTH b) (fun p => header_state p = h_content_length).
Proof.
  intros Hf p rest Hp Hh Hi. rewrite (in_field_eta _ _ _ Hh Hi).
  exists (set_flag F_CONTENTLENGTH (in_field h_content_length 13 p)).
  assert (L : field_loop (chars "ontent-lengt" ++ ("h" :: ":"%char :: rest)%char) 0 (in_field (first_header_state (token_of "c")) 0 p) =
    field_loop ("h" :: ":" :: rest)%char 12 (in_field h_matching_content_length 12 p)) by (destruct p; vm_compute; reflexivity).
  split; [|split; [reflexivity|split; [subst b; destruct p; reflexivity|reflexivity]]].
  change (chars "ontent-length" ++ ":"%char :: rest) with (chars "ontent-lengt" ++ ("h" :: ":"%char :: rest)%char). rewrite L.
  assert (F : has_flag (in_field h_matching_content_length 12 p) F_CONTENTLENGTH = false) by (subst b; exact Hf).
  assert (M : match_header CONTENT_LENGTH h_content_length 104 (in_field h_matching_content_length 12 p) = in_field h_content_length 13 p)
    by (destruct p; vm_compute; reflexivity).
  assert (E : field_char "h" 104 (in_field h_matching_content_length 12 p) = Ok (None, set_flag F_CONTENTLENGTH (in_field h_content_length 13 p))).
  { unfold field_char. change (header_state (in_field h_matching_content_length 12 p)) with h_matching_content_length. cbv iota zeta.
    rewrite M, F. by rewrite bool_decide_eq_true_2. }
  cbn [field_loop]. change (token (byte_of "h")) with 104. cbn [Z.eqb]. rewrite E. reflexivity.
Qed.

(** ** Their values *)
Lemma value_ends lenient l b h p rest :
  apart p = b -> errno b = HPE_OK ->
  (exists q, value_loop lenient (l ++ CR :: rest) 0 0 (header_state p) p = Ok (at_cr, length l, h, q) /\
    nread q = nread p /\ apart q = b) ->
  exists q, value_loop lenient (l ++ CR :: rest) 0 0 (header_state p) p = Ok (at_cr, length l, h, q) /\
    nread q = nread p /\ errno q = HPE_OK /\ apart (finished_header (with_header_state h q)) =
      (match h with h_transfer_encoding_chunked => set_flag F_CHUNKED b | h => connection_flag h b end).
Proof.
  intros Hp He (q & Q1 & Q2 & Q3). exists q. split; [exact Q1|]. split; [exact Q2|].
  split; [by rewrite <- He, <- Q3|]. subst b. rewrite <- Q3.
  unfold finished_header, connection_flag. cbn [header_state with_header_state]. by destruct h.
Qed.

Definition at_start (h : header_states) (p : http_parser) : Prop := header_state p = h /\ index p = 0.

Lemma connection_starts ch h b :
  LOWER ch = 107 /\ h = h_matching_connection_keep_alive \/ LOWER ch = 99 /\ h = h_matching_connection_close ->
  value_starts ch b b (fun p => header_state p = h_connection) (at_start h).
Proof.
  intros H p Hp Hh. unfold value_start. cbv zeta. cbn [header_state with_index]. rewrite Hh. eexists. split; [reflexivity|].
  by destruct H as [[-> ->]|[-> ->]].
Qed.

Lemma close_goes lenient b : errno b = HPE_OK -> value_goes lenient (chars "lose") b (set_flag F_CONNECTION_CLOSE b) (at_start h_matching_connection_close).
Proof.
  intros He p rest Hp [Hh Hi] _. exists h_connection_close. eapply (value_ends _ _ b); [exact Hp|exact He|].
  exists (in_field h_matching_connection_close 4 p). rewrite (in_field_eta _ _ _ Hh Hi).
  split; [destruct p, lenient; vm_compute; reflexivity|]. by split.
Qed.

Lemma keep_alive_goes lenient b :
  errno b = HPE_OK -> value_goes lenient (chars "eep-alive") b (set_flag F_CONNECTION_KEEP_ALIVE b) (at_start h_matching_connection_keep_alive).
Proof.
  intros He p rest Hp [Hh Hi] _. exists h_connection_keep_alive. eapply (value_ends _ _ b); [exact Hp|exact He|].
  exists (in_field h_matching_connection_keep_alive 9 p). rewrite (in_field_eta _ _ _ Hh Hi).
  split; [destruct p, lenient; vm_compute; reflexivity|]. by split.
Qed.

Lemma chunked_starts b :
  value_starts "c"%char b b (fun p => header_state p = h_transfer_encoding) (at_start h_matching_transfer_encoding_chunked).
Proof.
  intros p Hp Hh. unfold value_start. cbv zeta. cbn [header_state with_index]. rewrite Hh. eexists. split; [reflexivity|]. done.
Qed.

Lemma chunked_goes lenient b :
  errno b = HPE_OK -> value_goes lenient (chars "hunked") b (set_flag F_CHUNKED b) (at_start h_matching_transfer_encoding_chunked).
Proof.
  intros He p rest Hp [Hh Hi] _. exists h_transfer_encoding_chunked. eapply (value_ends _ _ b); [exact Hp|exact He|].
  exists (in_field h_matching_transfer_encoding_chunked 6 p). rewrite (in_field_eta _ _ _ Hh Hi).
  split; [destruct p, lenient; vm_compute; reflexivity|]. by split.
Qed.

(** A length in digits. *)
Lemma digit_char_num d : 0 <= d < 10 ->
  is_num (digit_char d) = true /\ digit (digit_char d) = d /\ plain_char (digit_char d) /\
  is_ch " "%char (digit_char d) = false /\ is_ch TAB (digit_char d) = false.
Proof.
  intros H.
  assert (Hc : d = 0 \/ d = 1 \/ d = 2 \/ d = 3 \/ d = 4 \/ d = 5 \/ d = 6 \/ d = 7 \/ d = 8 \/ d = 9) by lia.
  repeat destruct Hc as [->|Hc]; try subst; by vm_compute.
Qed.

Lemma add_length_digit p d :
  0 <= content_length p < 2 ^ 60 -> 0 <= d < 10 ->
  add_digit 10 d p = Some (with_content_length (content_length p * 10 + d) p).
Proof.
  intros Hcl Hd. change (2 ^ 60) with 1152921504606846976 in Hcl. unfold add_digit.
  rewrite (wrap_id 64 (content_length p * 10)), wrap_id by (unfold in_range; cbn; lia).
  change ((ULLONG_MAX - 10) / 10) with 1844674407370955160. destruct (Z.ltb_spec 1844674407370955160 (content_length p)); [lia|done].
Qed.

Lemma length_starts d b :
  0 <= d < 10 -> value_starts (digit_char d) b (with_content_length d b) (fun p => header_state p = h_content_length)
    (fun p => header_state p = h_content_length).
Proof.
  intros Hd p Hp Hh. destruct (digit_char_num d Hd) as (N1 & N2 & _).
  unfold value_start. cbv zeta. cbn [header_state with_index]. rewrite Hh, N1, N2. eexists. split; [reflexivity|]. by subst b.
Qed.

Lemma length_loop lenient ds n p rest :
  Forall (fun d => 0 <= d < 10) ds -> 0 <= content_length p -> eval_digits 10 (content_length p) ds < 2 ^ 60 ->
  value_loop lenient ((digit_char <$> ds) ++ CR :: rest) n 0 h_content_length p =
    Ok (at_cr, (n + length ds)%nat, h_content_length, with_content_length (eval_digits 10 (content_length p) ds) p).
Proof.
  intros HF. revert n p. induction HF as [|d ds Hd HF IH]; intros n p H0 Hn.
  { cbn. rewrite Nat.add_0_r. by destruct p. }
  destruct (digit_char_num d Hd) as (N1 & N2 & (N3 & N4 & N5) & N6 & _). apply plain_eq in N3, N4.
  change (eval_digits 10 (content_length p) (d :: ds)) with (eval_digits 10 (content_length p * 10 + d) ds) in *.
  pose proof (digits_grow ds 10 (content_length p * 10 + d) ltac:(lia) ltac:(lia) HF) as Hg.
  cbn [fmap list_fmap app value_loop]. rewrite N3, N4, N5, andb_false_r. rewrite bool_decide_eq_false_2 by done.
  unfold value_char. rewrite N6, N1. cbn [negb]. rewrite N2, add_length_digit by lia. cbn [mbind outcome_bind mret outcome_ret].
  fold (fmap digit_char ds). rewrite IH; [|cbn; lia|exact Hn]. cbn [length]. by rewrite Nat.add_succ_comm.
Qed.

Lemma length_goes lenient ds b :
  errno b = HPE_OK -> Forall (fun d => 0 <= d < 10) ds -> 0 <= content_length b -> eval_digits 10 (content_length b) ds < 2 ^ 60 ->
  value_goes lenient (digit_char <$> ds) b (with_content_length (eval_digits 10 (content_length b) ds) b)
    (fun p => header_state p = h_content_length).
Proof.
  intros He HF H0 Hn p rest Hp Hh _. assert (Ec : content_length b = content_length p) by (by rewrite <- Hp).
  rewrite Ec in *. eexists h_content_length, _. rewrite Hh, length_loop by done. rewrite length_fmap. split; [reflexivity|].
  split; [done|]. split; [by rewrite <- He, <- Hp|]. by subst b.
Qed.

(** ** Whole fields *)
Section Lines.
Context (lenient : bool).

Lemma known_line k w v ch l cv lv b b1 b2 b' N V :
  lowercase k = w -> forallb word_char (chars w) = true -> chars w = ch :: l -> chars v = cv :: lv ->
  cv <> " "%char -> cv <> TAB -> cv <> CR -> cv <> LF -> steady N -> steady V -> errno b1 = HPE_OK ->
  name_runs ch l b b1 N -> value_starts cv b1 b2 N V -> value_goes lenient lv b2 b' V ->
  line_runs lenient b b' (chars k) (chars v).
Proof.
  intros Hk Hw Ew -> S1 S2 S3 S4 HN HV He R1 R2 R3.
  pose proof (tokens_word k w Hk Hw) as T. pose proof (codes_nonzero w Hw) as Z. rewrite <- T in Z.
  pose proof (tokens_word w w) as T'. assert (Lw : lowercase w = w) by (rewrite <- Hk; apply lowercase_idem).
  rewrite <- (T' Lw Hw), Ew in T. destruct (chars k) as [|ck lk]; [done|]. inversion Z; subst.
  eapply (line_runs_intro _ _ _ _ _ _ _ b1 b2 N V); try done. by eapply name_runs_tokens.
Qed.

Lemma close_line k b :
  lowercase k = CONNECTION -> errno b = HPE_OK -> line_runs lenient b (set_flag F_CONNECTION_CLOSE b) (chars k) (chars "close").
Proof.
  intros Hk He. eapply (known_line k CONNECTION "close"); [exact Hk|done|done|done|done|done|done|done|apply state_steady|apply at_start_steady|exact He| | |].
  - apply connection_name.
  - apply connection_starts. right. by split.
  - by apply close_goes.
Qed.

Lemma keep_alive_line k b :
  lowercase k = CONNECTION -> errno b = HPE_OK -> line_runs lenient b (set_flag F_CONNECTION_KEEP_ALIVE b) (chars k) (chars "keep-alive").
Proof.
  intros Hk He. eapply (known_line k CONNECTION "keep-alive"); [exact Hk|done|done|done|done|done|done|done|apply state_steady|apply at_start_steady|exact He| | |].
  - apply connection_name.
  - apply connection_starts. left. by split.
  - by apply keep_alive_goes.
Qed.

Lemma chunked_line k b :
  lowercase k = TRANSFER_ENCODING -> errno b = HPE_OK -> line_runs lenient b (set_flag F_CHUNKED b) (chars k) (chars "chunked").
Proof.
  intros Hk He. eapply (known_line k TRANSFER_ENCODING "chunked"); [exact Hk|done|done|done|done|done|done|done|apply state_steady|apply at_start_steady|exact He| | |].
  - apply transfer_encoding_name.
  - apply chunked_starts.
  - by apply chunked_goes.
Qed.

Lemma length_line k n b :
  lowercase k = CONTENT_LENGTH -> errno b = HPE_OK -> has_flag b F_CONTENTLENGTH = false -> 0 <= n < 2 ^ 60 ->
  line_runs lenient b (with_content_length n (set_flag F_CONTENTLENGTH b)) (chars k) (chars (to_string n)).
Proof.
  intros Hk He Hf Hn. destruct (print_radix_digits 10 n ltac:(lia) ltac:(lia)) as ([|d ds] & Hne & E & HF & Hv); [done|].
  inversion HF as [|? ? Hd HF']; subst. destruct (digit_char_num d Hd) as (_ & _ & (N3 & N4 & _) & N6 & N7). apply plain_eq in N6, N7.
  change (eval_digits 10 0 (d :: ds)) with (eval_digits 10 d ds) in *.
  eapply (known_line k CONTENT_LENGTH (to_string (eval_digits 10 d ds)) _ _ _ _ b (set_flag F_CONTENTLENGTH b)
    (with_content_length d (set_flag F_CONTENTLENGTH b)));
    [exact Hk|done|done|exact E|done|done|done|done|apply state_steady|apply state_steady|exact He| | |].
  - by apply content_length_name.
  - by apply length_starts.
  - apply (length_goes lenient ds (with_content_length d (set_flag F_CONTENTLENGTH b))); [exact He|exact HF'|cbn; lia|cbn; lia].
Qed.
End Lines.

(** ** Blocks of fields *)

(** What a field does to the parser. *)
Definition effect (p : http_parser) (kv : string * string) : http_parser :=
  let k := lowercase kv.1 in
  if decide (k = CONNECTION) then
    set_flag (if decide (kv.2 = "close") then F_CONNECTION_CLOSE else F_CONNECTION_KEEP_ALIVE) p
  else if decide (k = CONTENT_LENGTH) then
    with_content_length (default 0 (stoull kv.2)) (set_flag F_CONTENTLENGTH p)
  else if decide (k = TRANSFER_ENCODING) then set_flag F_CHUNKED p
  else p.

(** The fields that are followed: of an unknown name, or of a known one with a
    value that a message has. *)
Definition readable (kv : string * string) : Prop :=
  good_field kv \/
  (lowercase kv.1 = CONNECTION /\ (kv.2 = "close" \/ kv.2 = "keep-alive")) \/
  (lowercase kv.1 = CONTENT_LENGTH /\ exists n, 0 <= n < 2 ^ 60 /\ kv.2 = to_string n) \/
  (lowercase kv.1 = TRANSFER_ENCODING /\ kv.2 = "chunked").

Lemma token_lower ch : token_of ch <> 0 -> token_of ch = byte_of (tolower ch).
Proof.
  intros H. assert (A : (token_of ch =? 0) || (token_of ch =? byte_of (tolower ch)) = true).
  { apply (forall_ascii (fun ch => (token_of ch =? 0) || (token_of ch =? byte_of (tolower ch)))). by vm_compute. }
  apply orb_prop in A as [A|A]; apply Z.eqb_eq in A; done.
Qed.

Lemma good_unknown kv w : good_field kv -> w ∈ known_names -> lowercase kv.1 <> w.
Proof.
  intros (_ & HF & Hu & _) Hw N.
  assert (E : token_of <$> chars kv.1 = codes (lowercase kv.1)).
  { unfold codes, lowercase. rewrite chars_of_chars, <- list_fmap_compose. apply list_fmap_ext.
    intros i ch Hi. rewrite Forall_forall in HF. apply token_lower, HF. by eapply list_elem_of_lookup_2. }
  unfold unknown in Hu. rewrite E, Forall_forall in Hu. apply (Hu w Hw). by rewrite N.
Qed.

Lemma effect_good p kv : good_field kv -> effect p kv = p.
Proof.
  intros G. unfold effect. cbv zeta.
  by rewrite !decide_False by (apply good_unknown; [exact G|in_list]).
Qed.

(** A length is counted once. *)
Definition is_length (kv : string * string) : bool := bool_decide (lowercase kv.1 = CONTENT_LENGTH).

Lemma effect_runs lenient b k v :
  errno b = HPE_OK -> readable (k, v) -> (is_length (k, v) = true -> has_flag b F_CONTENTLENGTH = false) ->
  line_runs lenient b (effect b (k, v)) (chars k) (chars v).
Proof.
  intros He R Hl. destruct R as [G|[[Hk Hv]|[[Hk (n & Hn & Hv)]|[Hk Hv]]]].
  - rewrite effect_good by done. by apply good_field_runs.
  - cbn [fst snd] in Hk, Hv. unfold effect. cbn [fst snd]. cbv zeta. rewrite decide_True by done. destruct Hv as [-> | ->].
    + rewrite decide_True by done. by apply close_line.
    + rewrite decide_False by done. by apply keep_alive_line.
  - cbn [fst snd] in Hk, Hv. subst v. unfold effect. cbn [fst snd]. cbv zeta. rewrite Hk, decide_False, decide_True by done.
    rewrite stoull_to_string by (unfold in_range; change (2 ^ 60) with 1152921504606846976 in Hn; cbn; lia). cbn [default from_option].
    apply length_line; [done|done| |done]. apply Hl. unfold is_length. cbn [fst]. by rewrite Hk.
  - cbn [fst snd] in Hk, Hv. subst v. unfold effect. cbn [fst snd]. cbv zeta. rewrite Hk, !decide_False, decide_True by done.
    by apply chunked_line.
Qed.

Lemma effect_errno p kv : errno (effect p kv) = errno p.
Proof. unfold effect. cbv zeta. by repeat case_decide. Qed.

Lemma has_flag_set g f p : has_flag p f = false -> Z.land g f = 0 -> has_flag (set_flag g p) f = false.
Proof.
  unfold has_flag, set_flag. cbn [flags with_flags]. rewrite !negb_false_iff, !Z.eqb_eq. intros H1 H2.
  by rewrite Z.land_lor_distr_l, H1, H2.
Qed.

Lemma effect_length p kv : is_length kv = false -> has_flag p F_CONTENTLENGTH = false -> has_flag (effect p kv) F_CONTENTLENGTH = false.
Proof.
  unfold is_length. intros Hk%bool_decide_eq_false Hf. unfold effect. cbv zeta. rewrite (decide_False (P := lowercase kv.1 = CONTENT_LENGTH)) by done.
  repeat case_decide; try done; by apply has_flag_set.
Qed.

Definition lengths (kvs : list (string * string)) : nat := length (filter (fun kv => is_length kv = true) kvs).

Lemma effects_run lenient kvs b :
  errno b = HPE_OK -> Forall readable kvs -> (lengths kvs <= 1)%nat -> has_flag b F_CONTENTLENGTH = false \/ lengths kvs = O ->
  block_runs lenient kvs b (foldl effect b kvs).
Proof.
  revert b. induction kvs as [|[k v] kvs IH]; intros b He HF Hl Hb; [constructor|].
  inversion HF; subst. unfold lengths in Hl, Hb. rewrite filter_cons in Hl, Hb.
  econstructor; [apply effect_runs; [done|done|]|].
  - intros E. rewrite decide_True in Hb by done. cbn in Hb. by destruct Hb.
  - cbn [foldl]. apply IH; [by rewrite effect_errno|done|..].
    + unfold lengths. case_decide; cbn in Hl; lia.
    + case_decide as E; cbn in Hl, Hb.
      * right. unfold lengths. lia.
      * destruct Hb as [Hb|Hb]; [left|by right]. apply effect_length; [by apply not_true_is_false|done].
Qed.

(** ** What a block says *)
Definition is_coding (kv : string * string) : bool := bool_decide (lowercase kv.1 = TRANSFER_ENCODING).
Definition is_close (kv : string * string) : bool := bool_decide (lowercase kv.1 = CONNECTION) && bool_decide (kv.2 = "close").

(** The flag of a field. *)
Definition flag_of (kv : string * string) : Z :=
  if bool_decide (lowercase kv.1 = CONNECTION) then (if bool_decide (kv.2 = "close") then F_CONNECTION_CLOSE else F_CONNECTION_KEEP_ALIVE)
  else if is_length kv then F_CONTENTLENGTH else if is_coding kv then F_CHUNKED else 0.

Lemma has_flag_or g f p : has_flag (set_flag g p) f = has_flag p f || negb (Z.land g f =? 0).
Proof.
  unfold has_flag, set_flag. cbn [flags with_flags]. rewrite Z.land_lor_distr_l, <- negb_andb. f_equal.
  apply eq_true_iff_eq. rewrite andb_true_iff, !Z.eqb_eq. apply Z.lor_eq_0_iff.
Qed.

Lemma effect_flag p kv f : has_flag (effect p kv) f = has_flag p f || negb (Z.land (flag_of kv) f =? 0).
Proof.
  unfold effect, flag_of, is_length, is_coding. cbv zeta.
  repeat (case_decide; [rewrite bool_decide_eq_true_2 by done|rewrite bool_decide_eq_false_2 by done]); try apply has_flag_or.
  - by rewrite orb_false_r.
Qed.

Lemma effects_flag p kvs f :
  has_flag (foldl effect p kvs) f = has_flag p f || existsb (fun kv => negb (Z.land (flag_of kv) f =? 0)) kvs.
Proof.
  revert p. induction kvs as [|kv kvs IH]; intros p; cbn [foldl existsb]; [by rewrite orb_false_r|].
  by rewrite IH, effect_flag, orb_assoc.
Qed.

Lemma existsb_same {A} (f g : A -> bool) l : (forall x, f x = g x) -> existsb f l = existsb g l.
Proof. intros H. induction l as [|x l IH]; [done|]. cbn. by rewrite H, IH. Qed.

Lemma effects_flags p kvs :
  let q := foldl effect p kvs in
  has_flag q F_CHUNKED = has_flag p F_CHUNKED || existsb is_coding kvs /\
  has_flag q F_CONTENTLENGTH = has_flag p F_CONTENTLENGTH || existsb is_length kvs /\
  has_flag q F_CONNECTION_CLOSE = has_flag p F_CONNECTION_CLOSE || existsb is_close kvs /\
  has_flag q F_TRAILING = has_flag p F_TRAILING /\ has_flag q F_UPGRADE = has_flag p F_UPGRADE /\
  has_flag q F_SKIPBODY = has_flag p F_SKIPBODY.
Proof.
  cbv zeta. rewrite !effects_flag.
  assert (S : forall (g : string * string -> bool) f, (forall kv, negb (Z.land (flag_of kv) f =? 0) = g kv) ->
    existsb (fun kv => negb (Z.land (flag_of kv) f =? 0)) kvs = existsb g kvs) by (intros; by apply existsb_same).
  assert (N : existsb (fun _ : string * string => false) kvs = false) by (clear; induction kvs as [|? l IH]; [done|exact IH]).
  assert (G : forall kv, let c := bool_decide (lowercase kv.1 = CONNECTION) in
    (c = true -> is_coding kv = false /\ is_length kv = false) /\ (is_length kv = true -> is_coding kv = false)).
  { intros kv. unfold is_coding, is_length. cbv zeta. rewrite !bool_decide_eq_true, !bool_decide_eq_false.
    split; intros ->; by repeat split. }
  rewrite (S is_coding), (S is_length), (S is_close), !(S (fun _ => false)), N, !orb_false_r; [done|..];
    intros kv; unfold flag_of, is_close; generalize (G kv); cbv zeta;
    generalize (bool_decide (lowercase kv.1 = CONNECTION)) (bool_decide (kv.2 = "close")) (is_length kv) (is_coding kv);
    intros [] [] [] [] [G1 G2]; first [done|by destruct (G1 eq_refl)|by specialize (G2 eq_refl)].
Qed.

(** The length that is declared. *)
Definition declared (kvs : list (string * string)) : option Z :=
  foldl (fun o kv => if is_length kv then stoull kv.2 else o) None kvs.

Lemma effect_content_length p kv :
  content_length (effect p kv) = if is_length kv then default 0 (stoull kv.2) else content_length p.
Proof.
  unfold effect, is_length. cbv zeta. case_decide as H1.
  { rewrite bool_decide_eq_false_2; [done|]. by rewrite H1. }
  case_decide as H2; [by rewrite bool_decide_eq_true_2|]. rewrite bool_decide_eq_false_2 by done. by case_decide.
Qed.

Lemma effects_content_length p kvs o :
  Forall (fun kv => is_length kv = true -> is_Some (stoull kv.2)) kvs ->
  content_length p = default ULLONG_MAX o ->
  content_length (foldl effect p kvs) = default ULLONG_MAX (foldl (fun o kv => if is_length kv then stoull kv.2 else o) o kvs).
Proof.
  intros HF. revert p o. induction HF as [|kv kvs H HF IH]; intros p o Hp; [done|]. cbn [foldl]. apply IH.
  rewrite effect_content_length. destruct (is_length kv); [|done]. by destruct (H eq_refl) as [n ->].
Qed.

Lemma effects_same p kvs :
  let q := foldl effect p kvs in
  ptype q = ptype p /\ upgrade q = upgrade p /\ pmethod q = pmethod p /\ errno q = errno p /\
  http_major q = http_major p /\ http_minor q = http_minor p /\ status_code q = status_code p.
Proof.
  cbv zeta. revert p. induction kvs as [|kv kvs IH]; intros p; [done|]. cbn [foldl].
  destruct (IH (effect p kv)) as (-> & -> & -> & -> & -> & -> & ->). unfold effect. cbv zeta. by repeat case_decide.
Qed.

(** How the fields say that the body ends; [eof]: what it is without a word of it. *)
Definition framing_of (eof : body_kind) (kvs : list (string * string)) : body_kind :=
  if existsb is_coding kvs then in_chunks
  else match declared kvs with
       | Some n => if n =? 0 then no_body else of_length n
       | None => eof
       end.

(** The blocks that are followed: no field twice that may come but once. *)
Record block_ok (kvs : list (string * string)) : Prop := {
  bo_readable : Forall readable kvs;
  bo_lengths : (lengths kvs <= 1)%nat;
  bo_one : existsb is_coding kvs && existsb is_length kvs = false }.

Lemma readable_length kv : readable kv -> is_length kv = true -> exists n, stoull kv.2 = Some n /\ 0 <= n < 2 ^ 60.
Proof.
  intros R Hk. unfold is_length in Hk. apply bool_decide_eq_true in Hk. destruct R as [G|[[H _]|[[_ (n & Hn & ->)]|[H _]]]].
  - by destruct (good_unknown kv CONTENT_LENGTH G ltac:(in_list)).
  - by rewrite Hk in H.
  - exists n. split; [|done]. apply stoull_to_string. unfold in_range. change (2 ^ 60) with 1152921504606846976 in Hn. cbn. lia.
  - by rewrite Hk in H.
Qed.

Lemma declared_bound kvs n : Forall readable kvs -> declared kvs = Some n -> 0 <= n < 2 ^ 60.
Proof.
  intros HF. unfold declared. assert (H : forall x, (None : option Z) = Some x -> 0 <= x < 2 ^ 60) by done.
  revert H. generalize (None : option Z). induction HF as [|kv kvs R HF IH]; intros o Ho; cbn [foldl]; [by apply Ho|].
  apply IH. intros x. destruct (is_length kv) eqn:E; [|apply Ho]. destruct (readable_length kv R E) as (m & -> & Hm). by intros [= <-].
Qed.

#[export] Instance unknown_dec s : Decision (unknown s).
Proof. apply _. Defined.
#[export] Instance plain_char_dec ch : Decision (plain_char ch).
Proof. apply _. Defined.
#[export] Instance good_field_dec kv : Decision (good_field kv).
Proof. unfold good_field. repeat apply and_dec; try apply _. destruct (chars kv.2); apply _. Defined.

Lemma readable_length_field k v :
  lowercase k = CONTENT_LENGTH ->
  bool_decide (v = to_string (default 0 (stoull v))) && (0 <=? default 0 (stoull v)) && (default 0 (stoull v) <? 2 ^ 60) = true ->
  readable (k, v).
Proof.
  intros Hk H. rewrite !andb_true_iff, bool_decide_eq_true, Z.leb_le, Z.ltb_lt in H. destruct H as [[H1 H2] H3].
  right; right; left. split; [exact Hk|]. by exists (default 0 (stoull v)).
Qed.

Ltac readable_field :=
  first [left; apply (bool_decide_unpack _); by vm_compute
        |right; left; split; [by vm_compute|first [by left|by right]]
        |right; right; right; split; by vm_compute
        |apply readable_length_field; by vm_compute].

Ltac readable_fields := repeat (apply Forall_cons; split; [readable_field|]); apply Forall_nil; exact I.
