(* ===== verification/DecodeHead.v ===== *)
(** * The codec over a header block (src/src/http/http_codec_impl.h, http_codec.cpp)

    What the callbacks of the parser put together of the fields they are told:
    [reading] relates the codec in the middle of a block to the fields told so
    far, for a request and for a response alike. *)

From S2P Require Import Prelude CppStd MultiMap Utils HttpCommons StructuredData HttpMessages.
From S2P Require Import UrlParser HttpParser HttpExecute HttpSafe Decoder HttpCodec HttpRun HttpHead HttpFields.

(** ** Fields in a message *)

(** The values of the field [k] after one more field: the last one of a field that
    has but one, and none of the length when the message becomes chunked. *)
Definition values_step (k : string) (vs : list string) (kv : string * string) : list string :=
  let key := lowercase kv.1 in
  if decide (key = k) then (if singular key || sets_chunked key kv.2 then [] else vs) ++ [kv.2]
  else if sets_chunked key kv.2 && bool_decide (k = hf_content_len) then [] else vs.

Definition field_values (k : string) (old : list string) (kvs : list (string * string)) : list string :=
  foldl (values_step k) old kvs.

(** [header] takes the field. *)
Definition taken (kv : string * string) : Prop := lowercase kv.1 = hf_content_len -> is_Some (stoull kv.2).

Definition chunks_set (kvs : list (string * string)) : bool := existsb (fun kv => sets_chunked (lowercase kv.1) kv.2) kvs.

Lemma header_step k v d :
  MultiMap.wf (_headers d) -> taken (k, v) ->
  exists d', header k v d = Ok d' /\ MultiMap.wf (_headers d') /\ _protocol d' = _protocol d /\ _keepalive d' = _keepalive d /\
    _chunked d' = (_chunked d || sets_chunked (lowercase k) v) /\
    forall k', values k' (_headers d') = values_step k' (values k' (_headers d)) (k, v).
Proof.
  intros Hwf Ht. unfold taken in Ht. cbn [fst snd] in Ht.
  assert (E : exists d', header k v d = Ok d' /\ _protocol d' = _protocol d /\ _keepalive d' = _keepalive d /\
    _chunked d' = (_chunked d || sets_chunked (lowercase k) v)).
  { assert (NC : sets_chunked (lowercase k) v = true -> singular (lowercase k) = false).
    { unfold sets_chunked. intros H. apply andb_prop in H as [H _]. apply bool_decide_eq_true in H. rewrite H. done. }
    destruct (header_cases k v d) as [(Hs & _ & H)|[(Hk & n & _ & H)|[(Hk & H & _)|[(_ & Hc & H)|(_ & Hc & H)]]]].
    - rewrite H. eexists. split; [reflexivity|]. destruct (sets_chunked _ _); [by rewrite NC in Hs|]. by rewrite orb_false_r.
    - rewrite H. eexists. split; [reflexivity|]. rewrite Hk. change (sets_chunked hf_content_len v) with false. by rewrite orb_false_r.
    - destruct (Ht Hk) as [x Hx]. congruence.
    - rewrite H, Hc. eexists. split; [reflexivity|]. by rewrite orb_true_r.
    - rewrite H, Hc. eexists. split; [reflexivity|]. by rewrite orb_false_r. }
  destruct E as (d' & E & E1 & E2 & E3). exists d'. split; [exact E|]. split; [by eapply header_wf|]. do 3 (split; [done|]).
  intros k'. rewrite (header_values k v d d' k' Hwf E). unfold values_after, values_step. cbn [fst snd].
  by destruct (decide (lowercase k = k')) as [<-|].
Qed.

(** ** The message in the codec *)
Definition with_base (d : http_structured_data) (m : message) : message :=
  match m with
  | Req r => Req (set_base d r)
  | Res r => Res {| response_base := d; _status_code := _status_code r; _status_message := _status_message r |}
  end.

Lemma msg_with_base f m d : f (msg_base m) = Ok d -> msg_with f m = Ok (with_base d m).
Proof. intros H. unfold msg_with. by rewrite H. Qed.

Lemma base_with_base d m : msg_base (with_base d m) = d.
Proof. by destruct m. Qed.

Lemma with_base_twice d e m : with_base d (with_base e m) = with_base d m.
Proof. by destruct m. Qed.

Lemma with_base_same m : with_base (msg_base m) m = m.
Proof. by destruct m as [[]|[]]. Qed.

(** The codec in a header block: the fields before the last are in the message,
    the last one is kept apart. *)
Record reading (m0 : message) (out : list decoded) (done : list (string * string)) (c : codec) : Prop := {
  rd_open : _headers_completed c = false;
  rd_out : output c = out;
  rd_fields : exists m before,
    _data c = Some m /\ with_base (msg_base m0) m = m0 /\ MultiMap.wf (_headers (msg_base m)) /\
    (valid (msg_base m0) -> valid (msg_base m)) /\ _protocol (msg_base m) = _protocol (msg_base m0) /\
    _chunked (msg_base m) = (_chunked (msg_base m0) || chunks_set before) /\
    (forall k, values k (_headers (msg_base m)) = field_values k (values k (_headers (msg_base m0))) before) /\
    done = before ++ (if _got_header c then [(_key c, _value c)] else []) /\
    (_got_header c = false -> _key c = "" /\ _value c = "") }.

Lemma field_values_app k old l1 l2 : field_values k old (l1 ++ l2) = field_values k (field_values k old l1) l2.
Proof. apply foldl_app. Qed.

Lemma chunks_set_app l1 l2 : chunks_set (l1 ++ l2) = chunks_set l1 || chunks_set l2.
Proof. apply existsb_app. Qed.

(** The last field goes to the message. *)
Lemma header_processed m0 out done c :
  reading m0 out done c -> Forall taken done ->
  exists c', process_current_header c = Ok c' /\ reading m0 out done c' /\ _got_header c' = false /\ _version c' = _version c /\ _ignore c' = _ignore c.
Proof.
  intros [R1 R2 (m & before & Hr & Hr0 & Hwf & Hva & Hpr & Hch & Hv & Hd & Hn)] HF. unfold process_current_header.
  destruct (_got_header c) eqn:Eg; cbn [negb].
  2:{ exists c. split; [reflexivity|]. split; [|done]. split; try done. exists m, before. rewrite Eg. done. }
  rewrite (the_data_eq c m Hr). cbn [mbind outcome_bind].
  subst done. apply Forall_app in HF as [_ HF]. inversion HF as [|? ? Hp _]; subst.
  destruct (header_step (_key c) (_value c) (msg_base m) Hwf Hp) as (d & E & W & P1 & P2 & P3 & V).
  rewrite (msg_with_base _ _ _ E). cbn [mbind outcome_bind].
  eexists. split; [reflexivity|]. split; [|done]. split; try done.
  exists (with_base d m), (before ++ [(_key c, _value c)]). rewrite base_with_base, with_base_twice.
  split; [done|]. split; [exact Hr0|]. split; [exact W|].
  split; [intros V0; by eapply valid_header; [apply Hva|]|]. split; [by rewrite P1|].
  split; [by rewrite P3, Hch, chunks_set_app; cbn; rewrite orb_false_r, orb_assoc|].
  split; [|by rewrite app_nil_r]. intros k. rewrite V, field_values_app, <- Hv. done.
Qed.

Lemma field_told begin m0 out done c k v :
  reading m0 out done c -> Forall taken done ->
  exists c1 c2, tells (parser_settings begin) header_field k c c1 /\ tells (parser_settings begin) header_value v c1 c2 /\
    reading m0 out (done ++ [(k, v)]) c2 /\ _version c2 = _version c /\ _ignore c2 = _ignore c.
Proof.
  intros R HF. destruct (header_processed m0 out done c R HF) as (c' & E & [Q1 Q2 Q3] & Hg & Hv & Hi).
  destruct Q3 as (m & before & Hr & Hr0 & Hwf & Hva & Hpr & Hch & Hvs & Hd & Hn). destruct (Hn Hg) as [Hk Hval].
  exists (append_key k c'), (append_value v (append_key k c')). split; [|split; [|split]].
  - intros l p. unfold plain_cb. cbn [on_event]. rewrite (rd_open _ _ _ _ R). unfold on_header_field.
    rewrite (rd_open _ _ _ _ R), E. reflexivity.
  - intros l p. unfold plain_cb. by rewrite any_value.
  - split; [done|done|]. exists m, before. cbn. rewrite Hk, Hval, !string_app_nil_l. rewrite Hg, app_nil_r in Hd. subst done. done.
  - done.
Qed.

Lemma fields_told begin m0 out kvs done c :
  reading m0 out done c -> Forall taken done -> Forall taken kvs ->
  exists c', told (parser_settings begin) kvs c c' /\ reading m0 out (done ++ kvs) c' /\ _version c' = _version c /\ _ignore c' = _ignore c.
Proof.
  revert done c. induction kvs as [|[k v] kvs IH]; intros done c R HF HK.
  { exists c. rewrite app_nil_r. split; [constructor|done]. }
  inversion HK as [|? ? Hk HK']; subst. destruct (field_told begin m0 out done c k v R HF) as (c1 & c2 & T1 & T2 & R2 & V2 & I2).
  destruct (IH (done ++ [(k, v)]) c2 R2) as (c3 & T3 & R3 & V3 & I3); [by apply Forall_app; split; [|constructor]|done|].
  exists c3. split; [by econstructor|]. rewrite <- app_assoc in R3. split; [done|split; congruence].
Qed.

Lemma readable_taken kv : readable kv -> taken kv.
Proof.
  intros R Hk. destruct R as [G|[[H _]|[[_ (n & Hn & ->)]|[H _]]]].
  - by destruct (good_unknown kv CONTENT_LENGTH G ltac:(in_list)).
  - by rewrite Hk in H.
  - rewrite stoull_to_string; [by eexists|]. unfold in_range. change (2 ^ 60) with 1152921504606846976 in Hn. cbn. lia.
  - by rewrite Hk in H.
Qed.

(** ** The end of the block *)
Lemma protocol_plain d :
  MultiMap.wf (_headers d) ->
  exists d', protocol HTTP11 d = Ok d' /\ MultiMap.wf (_headers d') /\ (valid d -> valid d') /\
    _protocol d' = HTTP11 /\ _chunked d' = _chunked d /\
    forall k, k <> hf_connection -> values k (_headers d') = values k (_headers d).
Proof.
  intros Hwf.
  assert (E : exists d', protocol HTTP11 d = Ok d' /\ MultiMap.wf (_headers d') /\ _protocol d' = HTTP11 /\ _chunked d' = _chunked d /\
    forall k, k <> hf_connection -> values k (_headers d') = values k (_headers d)).
  { unfold protocol. case_bool_decide as Hb.
    2:{ exists d. split; [done|]. split; [done|]. split; [|done]. destruct (decide (_protocol d = HTTP11)); [done|by destruct Hb]. }
    cbv zeta. cbn [_default_keepalive set_protocol]. destruct (_default_keepalive d); [|by eexists].
    eexists. split; [reflexivity|]. split; [by apply wf_erase|]. split; [done|]. split; [done|].
    intros k Hk. change (values k (erase hf_connection (_headers d)) = values k (_headers d)). rewrite values_erase.
    by rewrite decide_False. }
  destruct E as (d' & E & H1 & H2). exists d'. split; [exact E|]. split; [exact H1|].
  split; [intros V; by eapply valid_protocol|exact H2].
Qed.

Lemma keepalive_plain b d :
  MultiMap.wf (_headers d) ->
  exists d', keepalive b d = Ok d' /\ MultiMap.wf (_headers d') /\ (valid d -> valid d') /\
    _protocol d' = _protocol d /\ _keepalive d' = b /\ _chunked d' = _chunked d /\
    forall k, values k (_headers d') =
      if decide (k = hf_connection) then [if b then hv_keepalive else hv_connection_close] else values k (_headers d).
Proof.
  intros Hwf. unfold keepalive. set (v := if b then _ else _).
  destruct (header_step hf_connection v (set_keepalive b false d) Hwf) as (d' & E & W & P & K & Hc & V); [by intros H; vm_compute in H|].
  exists d'. split; [exact E|]. split; [exact W|]. split; [intros H; eapply valid_header; [|exact E]; by eapply valid_flags|].
  split; [exact P|]. split; [exact K|]. split; [by rewrite Hc, orb_false_r|].
  intros k. rewrite V. unfold values_step. cbn [fst snd]. cbv zeta. change (lowercase hf_connection) with hf_connection.
  change (singular hf_connection || sets_chunked hf_connection v) with true. cbn iota.
  destruct (decide (k = hf_connection)) as [->|Hk]; [by rewrite decide_True|]. rewrite decide_False by congruence. done.
Qed.

(** What becomes of the message when the block is over. *)
Definition finished (m : Z) (msg : message) : message :=
  match msg with Req r => Req (host_of (HttpMessages.method m r)) | Res r => Res r end.

Lemma finished_base m msg : msg_base (finished m msg) = msg_base msg.
Proof.
  destruct msg as [r|r]; [|done]. cbn. unfold host_of. cbv zeta. destruct (empty _); [|done]. by destruct (break_at _ _) as [h [|]].
Qed.

(** The headers of a message that was read into a blank one. *)
Record headers_read (d0 : http_structured_data) (ka : bool) (kvs : list (string * string)) (d : http_structured_data) : Prop := {
  hr_wf : MultiMap.wf (_headers d);
  hr_valid : valid d0 -> valid d;
  hr_protocol : _protocol d = HTTP11;
  hr_keepalive : _keepalive d = ka;
  hr_chunked : _chunked d = (_chunked d0 || chunks_set kvs);
  hr_connection : values hf_connection (_headers d) = [if ka then hv_keepalive else hv_connection_close];
  hr_fields : forall k, k <> hf_connection -> values k (_headers d) = field_values k (values k (_headers d0)) kvs }.

Lemma head_completed m0 out kvs c p :
  reading m0 out kvs c -> Forall taken kvs -> _version c = UNSET \/ _version c = HTTP11 ->
  http_major p = 1 -> http_minor p = 1 ->
  exists d msg c', on_headers_complete p c = Ok c' /\ with_base (msg_base m0) msg = m0 /\
    headers_read (msg_base m0) (http_should_keep_alive p) kvs d /\
    _got_header c' = false /\ _ignore c' = _ignore c /\
    output c' = out ++ [got_header (with_base d (finished (pmethod p) msg))] /\ _version c' = HTTP11.
Proof.
  intros [R1 R2 (m & before & Hr & Hr0 & Hwf & Hva & Hpr & Hch & Hv & Hd & Hn)] HF Hver P1 P2. unfold on_headers_complete. cbv zeta.
  rewrite P1, P2. change (cassert (1 =? 1)) with (Ok tt : outcome unit). change (1 =? 1) with true. cbn [mbind outcome_bind].
  assert (V : (if bool_decide (_version c = UNSET) then HTTP11 else _version c) = HTTP11) by (by destruct Hver as [-> | ->]).
  rewrite V. clear V. rewrite (the_data_eq _ m) by done. cbn [mbind outcome_bind].
  destruct (protocol_plain (msg_base m) Hwf) as (d1 & E1 & W1 & VV1 & Q1 & C1 & V1). rewrite (msg_with_base _ _ _ E1). cbn [mbind outcome_bind].
  set (m1 := with_base d1 m). set (c1 := set_data_ (Some m1) _).
  assert (B1 : msg_base m1 = d1) by apply base_with_base.
  assert (R : reading m1 out (if _got_header c then [(_key c, _value c)] else []) c1).
  { split; [done|done|]. exists m1, []. rewrite with_base_same, B1. cbn. rewrite orb_false_r.
    do 7 (split; [done|]). split; [done|]. apply Hn. }
  assert (HF1 : Forall taken (if _got_header c then [(_key c, _value c)] else [])).
  { rewrite Hd in HF. by apply Forall_app in HF as [_ HF]. }
  destruct (header_processed m1 out _ c1 R HF1) as (c2 & E & [S1 S2 (m2 & before2 & T1 & T2 & T3 & TV & T3' & T3'' & T4 & T5 & _)] & Hg & Hver2 & Hi2).
  rewrite E. cbn [mbind outcome_bind]. rewrite Hg, app_nil_r in T5. subst before2.
  rewrite (the_data_eq _ m2) by done. cbn [mbind outcome_bind]. fold (finished (pmethod p) m2).
  destruct (keepalive_plain (http_should_keep_alive p) (msg_base m2) T3) as (d3 & E3 & KW & KV & K1 & K2 & K2' & K3).
  rewrite <- (finished_base (pmethod p) m2) in E3. rewrite (msg_with_base _ _ _ E3). cbn [mbind outcome_bind mret outcome_ret].
  exists d3, m2. eexists. split; [reflexivity|]. split.
  { rewrite B1 in T2. rewrite <- (with_base_twice _ d1), T2. unfold m1. by rewrite with_base_twice. }
  split; [|split; [exact Hg|split; [exact Hi2|split; [cbn; by rewrite S2|done]]]].
  split.
  - exact KW.
  - intros V0. apply KV, TV. rewrite B1. by apply VV1, Hva.
  - by rewrite K1, T3', B1.
  - exact K2.
  - rewrite K2', T3'', B1, C1, Hch, <- orb_assoc, <- chunks_set_app. by rewrite Hd.
  - by rewrite K3, decide_True.
  - intros k Hk. rewrite K3, decide_False, T4, B1, V1, Hv, <- field_values_app by done. by rewrite Hd.
Qed.

(** The objects that messages are read into. *)
Lemma blank_request ssl m r0 : new_request ssl m = Ok r0 -> MultiMap.wf (_headers (base r0)).
Proof.
  unfold new_request. destruct (new_data http_request_type) as [d0|] eqn:Ed; [|done]. intros [= <-]. by eapply valid_new.
Qed.

Lemma blank_response g r0 : new_response g = Ok r0 -> MultiMap.wf (_headers (response_base r0)).
Proof.
  unfold new_response. destruct (new_data http_response_type) as [d0|] eqn:Ed; [|done]. intros [= <-]. by eapply valid_new.
Qed.
