(* ===== verification/HttpBody.v ===== *)
(** * A body in the read of its head

    The bodies of [HttpRun], from where [HttpHead.after_head] leaves the parser:
    what a body looks like for each way of ending it, and that it is taken. *)

From S2P Require Import Prelude CppStd MultiMap Utils HttpCommons StructuredData HttpMessages.
From S2P Require Import Encoder UrlParser HttpParser HttpExecute HttpSafe HttpRun HttpHead.

(** What is sent for a body of which the pieces are [ds]. *)
Inductive body_text : body_kind -> list string -> string -> Prop :=
| text_none : body_text no_body [] ""
| text_chunks ds :
    Forall (fun d => len d < 2 ^ 60) ds ->
    body_text in_chunks (filter (fun d => d <> "") ds) (concat_str (chunk <$> ds) +:+ transfer_chunked_termination +:+ crlf)
| text_length d : d <> "" -> len d < 2 ^ 60 -> body_text (of_length (len d)) [d] d.

Section Body.
Context {C : Type} (settings : http_parser_settings C) `{!Receiver settings}.
Context (data beyond : list ascii) (lenient : bool).
Abbreviation reaches := (reaches settings data beyond lenient).

(** A body with a length, all of it there. *)
Lemma identity_read n c p f d l :
  in_body s_body_identity n c p f -> content_length p = len d -> errno p = HPE_OK -> d <> "" -> len d < 2 ^ 60 ->
  receiving c -> drop n data = chars d ++ l ->
  reaches f (fresh (n + length (chars d)) (take_end (take_body d c))).
Proof.
  intros (F1 & F2 & F3 & F4 & F5 & F6) Hc He Hd Hl Hr Hdr.
  assert (Hpos : 0 < len d) by (pose proof (len_nonneg d); assert (len d <> 0) by (by rewrite len_zero); lia).
  assert (Hlen : (length data - n = length (chars d) + length l)%nat) by (by rewrite <- length_drop, Hdr, length_app).
  assert (Ec : content_length (parser f) = len d) by (by rewrite <- Hc, <- F4).
  assert (Ee : errno (parser f) = HPE_OK) by (by rewrite <- He, <- F4).
  assert (P : read_body data f = move (n + length (chars d) - 1)
    (on_parser (with_content_length 0) (set_mark body (Some n) f))).
  { unfold read_body. cbv zeta. rewrite mark_unmarked by done. rewrite Ec, F2, Hlen.
    rewrite Z.min_l by (unfold len; lia). rewrite Z.sub_diag. unfold len. by rewrite Nat2Z.id. }
  destruct (chars d) as [|ch0 d0] eqn:Ed; [by destruct Hd; apply chars_inj|]. rewrite <- Ed in *.
  assert (H0 : data !! n = Some ch0) by (rewrite Ed in Hdr; cbn in Hdr; by apply data_here in Hdr as [? _]).
  assert (H1 : exists ch1, data !! (n + length (chars d) - 1)%nat = Some ch1).
  { apply lookup_lt_is_Some_2. assert (length (chars d) <> 0)%nat by (rewrite Ed; done). lia. }
  destruct H1 as (ch1 & H1).
  set (c1 := take_body d c).
  set (f1 := move (n + length (chars d) - 1) (on_parser (with_content_length 0) (set_mark body (Some n) f))).
  set (f2 := update_state s_message_done f1).
  assert (B : forall k, callback_data settings data beyond body (S (pos f1)) (pos f1) f2 k =
    k (set_mark body None {| parser := with_state (cur f2) (parser f2); client := c1; cur := cur f2; pos := pos f2; marks := marks f2 |})).
  { intros k. apply data_run with (m := n); [exact Ee|cbn; by rewrite decide_True|].
    replace (of_chars (take (S (pos f1) - n) (drop n data))) with d.
    - change (client f2) with (client f). rewrite F3. by apply body_taken.
    - rewrite Hdr. cbn [pos f1 move]. assert (length (chars d) <> 0)%nat by (rewrite Ed; done).
      replace (S (n + length (chars d) - 1) - n)%nat with (length (chars d)) by lia. by rewrite take_app_length, of_chars_chars. }
  match type of B with forall k, _ = k ?g => set (f3 := g) in * end.
  exists 2%nat. eexists. split.
  - eapply run_again; [rewrite F2; exact H0| |].
    + unfold pass, next_byte, switch. rewrite F1. cbn [parsing_header]. unfold run_body_identity.
      rewrite Ec, (proj2 (Z.eqb_neq (len d) 0)), (proj2 (Z.eqb_neq (len d) ULLONG_MAX)) by (unfold ULLONG_MAX; lia).
      cbn [negb andb cassert mbind outcome_bind]. rewrite P. fold f1. cbv zeta. change (content_length (parser f1) =? 0) with true. cbn iota.
      fold f2. rewrite B. reflexivity.
    + eapply run_break; [exact H1| |apply run_refl]. unfold pass, switch. change (cur f3) with s_message_done. unfold run_message_done.
      erewrite message_complete_run; [reflexivity|exact Ee|]. by apply receiving_ending, body_receiving.
  - assert (length (chars d) <> 0)%nat by (rewrite Ed; done). split.
    + unfold move. cbn [parser client cur pos marks]. f_equal. change (pos f3) with (n + length (chars d) - 1)%nat. lia.
    + intros k. cbn. destruct (decide (k = body)); [done|apply F6].
Qed.

(** A body of any kind, and what comes after it. *)
Lemma body_read n c base f ds text rest :
  after_head settings n c base f -> body_text (body_of base) ds text -> errno base = HPE_OK -> receiving c ->
  drop n data = chars text ++ rest ->
  reaches f (fresh (n + length (chars text)) (take_end (take_pieces ds c))).
Proof.
  intros A T He Hr Hd. unfold after_head in A.
  destruct (body_of base) as [| |l|] eqn:Eb; inversion T as [|es HF|d Hne Hl]; subst.
  - apply reaches_refl. cbn. by rewrite Nat.add_0_r.
  - rewrite chars_app, <- app_assoc in Hd. eapply reaches_trans; [eapply chunks_read; [exact A|exact HF|exact Hr|exact Hd]|].
    intros g (cl & G). eapply reaches_trans; [eapply last_chunk_read; [exact G|by apply pieces_receiving|by rewrite (data_on _ _ _ _ Hd)]|].
    intros h H. apply reaches_refl. rewrite chars_app, length_app, Nat.add_assoc. exact H.
  - destruct A as (p & Hp & A). eapply identity_read; [exact A| |by rewrite <- He, <- Hp|exact Hne|exact Hl|exact Hr|exact Hd].
    assert (Ec : content_length p = content_length base) by (by rewrite <- Hp). rewrite Ec.
    revert Eb. unfold body_of. by repeat (case_match; try done); intros [= <-].
Qed.
End Body.

(** ** A body that only the end of the stream ends *)

(** In such a body, between two calls. *)
Definition expects_eof (p : http_parser) : Prop := pstate p = s_body_identity_eof /\ errno p = HPE_OK.

Section Unended.
Context {C : Type} (settings : http_parser_settings C) `{!Callbacks settings, !Receiver settings}.

(** The end of the head, in a call of its own. *)
Lemma unended_head data beyond p c c1 base :
  reaches settings data beyond (lenient_http_headers p) (start_frame p c) (after_head settings (length data) c1 base) ->
  body_of base = until_eof -> errno base = HPE_OK -> parser_ok p -> errno p = HPE_OK -> data <> [] ->
  exists p1, http_parser_execute settings data beyond p c = Some (Ok (length data, p1, c1)) /\ expects_eof p1 /\ parser_ok p1.
Proof.
  intros (n & g & R & G) Eb He Hp Ep Hd. unfold after_head in G. rewrite Eb in G.
  destruct G as (q & Hq & G1 & G2 & G3 & G4 & G5 & U).
  assert (Eg : errno (parser g) = HPE_OK) by (rewrite <- He, <- Hq, <- G4; done).
  assert (X : http_parser_execute settings data beyond p c = Some (Ok (length data, with_state (cur g) (parser g), client g))).
  { eapply (execute_run _ _ _ _ _ n 1); [exact Hp|exact Ep|exact Hd|exact R|]. by apply loop_end. }
  eexists. split; [rewrite <- G3; exact X|]. rewrite G1. split; [by split|].
  destruct (execute_call_ok settings data beyond p c Hp) as (r & Hr & K). rewrite X in Hr. injection Hr as <-.
  rewrite <- G1. apply K.
Qed.

(** A piece, in a call of its own. *)
Lemma unended_piece d beyond p c :
  expects_eof p -> parser_ok p -> d <> "" -> receiving c ->
  exists p1, http_parser_execute settings (chars d) beyond p c = Some (Ok (length (chars d), p1, take_body d c)) /\
    expects_eof p1 /\ parser_ok p1.
Proof.
  intros [P1 P2] Hp Hd Hr. destruct (chars d) as [|ch l] eqn:Ed; [by destruct Hd; apply chars_inj|]. rewrite <- Ed.
  assert (HL : (0 < length (chars d))%nat) by (rewrite Ed; cbn; lia).
  assert (U : unmarked (start_frame p c)) by (intros k; cbn; rewrite P1; by destruct k).
  set (g := move (S (length (chars d) - 1)) (mark body (start_frame p c))).
  assert (Em : mark body (start_frame p c) = set_mark body (Some O) (start_frame p c)) by by apply mark_unmarked.
  assert (X : http_parser_execute settings (chars d) beyond p c =
    Some (Ok (length (chars d), with_state s_body_identity_eof (with_state s_body_identity_eof p), take_body d c))).
  { eapply (execute_run _ _ _ _ _ 1 1); [exact Hp|exact P2|by rewrite Ed| |].
    - eapply (run_break _ _ _ _ _ _ _ ch (move (length (chars d) - 1) (mark body (start_frame p c))));
        [by rewrite Ed| |apply run_refl].
      unfold pass, next_byte, switch. cbn [cur start_frame]. rewrite P1. cbn [parsing_header]. reflexivity.
    - change (move (S _) _) with g. rewrite (loop_end_body _ _ _ _ _ O g).
      + rewrite drop_0, of_chars_chars. unfold g. rewrite Em. cbn [cur client parser set_mark move start_frame]. by rewrite P1.
      + unfold g. by rewrite Em.
      + unfold g. rewrite Em. cbn. by rewrite decide_True.
      + intros k Hk. unfold g. rewrite Em. cbn [marks set_mark move]. rewrite decide_False by done. apply U.
      + unfold g. cbn [pos move]. lia.
      + unfold g. by rewrite Em. }
  eexists. split; [exact X|]. split; [by split|].
  destruct (execute_call_ok settings (chars d) beyond p c Hp) as (r & Hr' & K). rewrite X in Hr'. injection Hr' as <-. apply K.
Qed.

(** However many come, none is the last. *)
Lemma unended_taken ds p c :
  expects_eof p -> parser_ok p -> Forall (fun d => d <> "") ds -> receiving c ->
  exists p1, fed settings ds p c p1 (take_pieces ds c) /\ expects_eof p1.
Proof.
  intros Hp Hok HF. revert p c Hp Hok. induction HF as [|d ds Hd HF IH]; intros p c Hp Hok Hr; [by exists p|].
  destruct (unended_piece d [] p c Hp Hok Hd Hr) as (p1 & X & E1 & O1).
  destruct (IH p1 (take_body d c) E1 O1 ltac:(by apply body_receiving)) as (p2 & F & E2).
  exists p2. split; [|exact E2]. exists p1, (take_body d c). by destruct E1.
Qed.
End Unended.
