(* ===== verification/HttpRequest.v ===== *)
(** * A request from its bytes to the user of the codec

    The run of src/src/http_parser/http_parser.c and of the callbacks of
    src/src/http/http_codec_impl.h over a whole request: the target and the
    version here, the method by [HttpMethod], the fields by [HttpHead] and
    [HttpFields], what the codec makes of them by [DecodeHead], the body by
    [HttpBody]. *)

From S2P Require Import Prelude CppStd MultiMap Utils HttpCommons StructuredData HttpMessages.
From S2P Require Import Encoder UrlParser HttpParser HttpExecute HttpSafe Decoder HttpCodec HttpRun.
From S2P Require Import HttpMethod HttpHead HttpFields DecodeHead HttpBody.

(** ** The target *)

(** The states of a target that has begun with a path. *)
Definition past (s : UrlParser.state) : bool :=
  match s with
  | s_req_path | s_req_query_string_start | s_req_query_string | s_req_fragment_start | s_req_fragment => true
  | _ => false
  end.

Lemma url_alive s ch :
  parse_url_char s ch <> s_dead -> is_ch " "%char ch = false /\ is_ch CR ch = false /\ is_ch LF ch = false.
Proof.
  intros H. unfold is_ch. rewrite !Ascii.eqb_neq. split_and!; intros ->; by apply H.
Qed.

Lemma past_step s ch : past s = true -> parse_url_char s ch <> s_dead -> past (parse_url_char s ch) = true.
Proof.
  intros Hs H. unfold parse_url_char in *.
  repeat match goal with H : (if ?b then _ else _) <> _ |- _ => destruct b end; try done.
  destruct s; try done; repeat match goal with H : (if ?b then _ else _) <> _ |- _ => destruct b end; done.
Qed.

(** What the URL parser takes, the states of the request line take. *)
Lemma url_loop_alive l i s old fa u fa' u' :
  url_loop l i s old fa u = Ok (true, fa', u') -> forall k, foldl parse_url_char s (take k l) <> s_dead \/ s = s_dead.
Proof.
  revert i s old fa u. induction l as [|ch l IH]; intros i s old fa u H k.
  { rewrite take_nil. cbn. destruct (decide (s = s_dead)); [by right|by left]. }
  destruct k as [|k]; [cbn; destruct (decide (s = s_dead)); [by right|by left]|].
  left. cbn [take foldl]. cbn [url_loop] in H. cbv zeta in H.
  assert (N : parse_url_char s ch <> s_dead) by (intros E; by rewrite E in H).
  destruct (parse_url_char s ch) eqn:E; try done; cbn [field_of] in H;
    repeat match type of H with (if ?b then _ else _) = _ => destruct b end;
    by destruct (IH _ _ _ _ _ H k).
Qed.

Section Line.
Context {C : Type} (settings : http_parser_settings C) (data beyond : list ascii) (lenient : bool).
Implicit Types (f : frame C).
Abbreviation reaches := (reaches settings data beyond lenient).
Abbreviation switch := (switch settings data beyond lenient).
Abbreviation tells := (tells settings).

(** In the target, marked at [m]. *)
Definition in_target (m : nat) (s : UrlParser.state) (n : nat) (c : C) (base : http_parser) (nr : Z) f : Prop :=
  among (url s) n c base nr f /\ marks f url_data = Some m /\ unmarked_but url_data f.

Lemma target_char m s n c base nr f ch :
  in_target m s n c base nr f -> past s = true -> parse_url_char s ch <> s_dead -> data !! n = Some ch ->
  nr < HTTP_MAX_HEADER_SIZE -> reaches f (in_target m (parse_url_char s ch) (S n) c base (nr + 1)).
Proof.
  intros (A & Hm & Hb) Hs Ha Hch Hn. destruct (url_alive _ _ Ha) as (E1 & E2 & E3).
  eapply (among_pass _ _ _ _ ch); [exact A|done|done|exact Hch|]. intros g B Bm _ _.
  assert (R : switch ch g = url_step s ch g).
  { unfold HttpExecute.switch. rewrite (am_cur _ _ _ _ _ _ B). unfold run_url. rewrite E1, E2, E3. by destruct s. }
  rewrite R. unfold url_step. cbv zeta. rewrite bool_decide_eq_false_2 by done. eexists. split; [reflexivity|].
  destruct B as [B1 B2 B3 B4 B5]. split; [|split].
  - split; try done. cbn. by rewrite B2.
  - cbn. by rewrite Bm.
  - intros k Hk. cbn. rewrite Bm. by apply Hb.
Qed.

Lemma target_goes_on m l s n c base nr f rest :
  in_target m s n c base nr f -> past s = true ->
  (forall k, foldl parse_url_char s (take k l) <> s_dead) -> drop n data = l ++ rest ->
  nr + Z.of_nat (length l) <= HTTP_MAX_HEADER_SIZE ->
  reaches f (fun g => exists s', in_target m s' (n + length l) c base (nr + Z.of_nat (length l)) g /\ past s' = true).
Proof.
  revert s n nr f. induction l as [|ch l IH]; intros s n nr f I Hs Ha Hd Hn.
  { apply reaches_refl. exists s. cbn. by rewrite Nat.add_0_r, Z.add_0_r. }
  cbn [length app] in Hn, Hd. apply data_here in Hd as [Hch Hd]. pose proof (Ha 1%nat) as H1. cbn in H1. rewrite take_0 in H1. cbn in H1.
  eapply reaches_trans; [eapply target_char; [exact I|exact Hs|exact H1|exact Hch|lia]|]. intros g G.
  pose proof (IH _ _ _ g G (past_step _ _ Hs H1) (fun k => Ha (S k)) Hd ltac:(lia)) as R.
  cbn [length]. by rewrite Nat2Z.inj_succ, <- Z.add_succ_comm, <- Nat.add_succ_comm.
Qed.

(** A target that begins with a slash. *)
Lemma target_marked n c base nr f l rest :
  among (url s_req_spaces_before_url) n c base nr f -> unmarked f -> pmethod base <> HTTP_CONNECT ->
  (forall k, foldl parse_url_char s_req_path (take k l) <> s_dead) ->
  drop n data = ("/"%char :: l) ++ rest -> nr + Z.of_nat (length l) + 1 <= HTTP_MAX_HEADER_SIZE ->
  reaches f (fun g => exists s, in_target n s (S n + length l) c base (nr + 1 + Z.of_nat (length l)) g /\ past s = true).
Proof.
  intros A U Hm Ha Hd Hn. cbn [app] in Hd. apply data_here in Hd as [Hch Hd].
  eapply reaches_trans with (P := in_target n s_req_path (S n) c base (nr + 1)).
  { eapply (among_pass _ _ _ _ "/"%char); [exact A|done|lia|exact Hch|]. intros g B Bm _ _.
    unfold HttpExecute.switch. rewrite (am_cur _ _ _ _ _ _ B). unfold run_url. change (is_ch " " "/") with false. cbn iota.
    assert (Ug : unmarked g) by (intros k; rewrite Bm; apply U). rewrite mark_unmarked by done.
    assert (Em : pmethod (parser g) = pmethod base) by (by rewrite <- (am_base _ _ _ _ _ _ B)).
    cbv zeta. cbn [parser set_mark]. rewrite Em, (proj2 (Z.eqb_neq _ _) Hm). unfold url_step. cbv zeta.
    change (parse_url_char s_req_spaces_before_url "/") with s_req_path. rewrite bool_decide_eq_false_2 by done.
    eexists. split; [reflexivity|]. destruct B as [B1 B2 B3 B4 B5]. split; [|split].
    - split; try done. cbn. by rewrite B2.
    - cbn. by rewrite B2.
    - intros k Hk. cbn. rewrite decide_False by done. apply Ug. }
  intros g G. eapply target_goes_on; [exact G|done|exact Ha|exact Hd|lia].
Qed.

(** The space after it: the target is told. *)
Lemma target_space s f :
  cur f = url s -> past s = true ->
  switch " "%char f = callback_data settings data beyond url_data (pos f) (S (pos f)) (update_state s_req_http_start f) (@break C).
Proof.
  intros H Hs. unfold HttpExecute.switch. rewrite H. unfold run_url. change (is_ch " " " ") with true. cbn iota. by destruct s.
Qed.

Lemma target_read n c c1 base nr f l rest :
  among (url s_req_spaces_before_url) n c base nr f -> unmarked f -> pmethod base <> HTTP_CONNECT -> errno base = HPE_OK ->
  (forall k, foldl parse_url_char s_req_path (take k l) <> s_dead) ->
  drop n data = ("/"%char :: l) ++ " "%char :: rest -> tells url_data (of_chars ("/"%char :: l)) c c1 ->
  nr + Z.of_nat (length l) + 2 <= HTTP_MAX_HEADER_SIZE ->
  reaches f (fun g => among s_req_http_start (n + length l + 2) c1 base (nr + Z.of_nat (length l) + 2) g /\ unmarked g).
Proof.
  intros A U Hm He Ha Hd Ht Hn. pose proof (data_on _ _ _ _ Hd) as Hd2. apply data_here in Hd2 as [Hsp _].
  replace (n + length ("/"%char :: l))%nat with (S n + length l)%nat in Hsp by (cbn [length]; lia).
  eapply reaches_trans; [eapply (target_marked n c base nr f l); [exact A|exact U|exact Hm|exact Ha|exact Hd|lia]|].
  clear A U f. intros f (s & (A & Hk & Hb) & Hs).
  eapply (among_pass _ _ _ _ " "%char); [exact A|done|lia|exact Hsp|]. intros g B Bm _ _.
  rewrite (target_space s) by (by rewrite ?(am_cur _ _ _ _ _ _ B)).
  erewrite data_run; [|by rewrite <- He, <- (among_errno _ _ _ _ _ _ B)|cbn; rewrite Bm; exact Hk|].
  2:{ unfold HttpHead.tells in Ht. destruct (on_data settings url_data) as [cb|]; [|done].
      rewrite (am_pos _ _ _ _ _ _ B). replace (S n + length l - n)%nat with (length ("/"%char :: l)) by (cbn; lia).
      rewrite Hd, take_app_length. cbn [client update_state]. rewrite (am_client _ _ _ _ _ _ B). apply Ht. }
  eexists. split; [reflexivity|]. destruct B as [B1 B2 B3 B4 B5]. split.
  - split; cbn; try done; lia.
  - intros k. cbn. destruct (decide (k = url_data)) as [|Hne]; [done|]. rewrite Bm. by apply Hb.
Qed.

(** ** The version *)

(** A byte that only brings the parser to another state. *)
Lemma line_byte ch s s' h n c base nr f l :
  among s n c base nr f -> unmarked f -> parsing_header s = true -> nr < HTTP_MAX_HEADER_SIZE ->
  drop n data = ch :: l ->
  (forall g, cur g = s -> switch ch g = goto s' (on_parser h g)) ->
  (forall p, nread (h p) = nread p /\ apart (h p) = h (apart p)) ->
  reaches f (fun g => among s' (S n) c (h base) (nr + 1) g /\ unmarked g /\ drop (S n) data = l).
Proof.
  intros A U Hs Hn Hd K Hh. apply data_here in Hd as [Hch Hd].
  eapply (among_pass _ _ _ _ ch); [exact A|exact Hs|exact Hn|exact Hch|]. intros g B Bm _ _.
  rewrite (K g) by apply B. eexists. split; [reflexivity|]. destruct (Hh (parser g)) as [H1 H2].
  destruct B as [B1 B2 B3 B4 B5]. split; [|split; [|exact Hd]].
  - split; cbn; try done; [by rewrite B2|by rewrite H2, B4|by rewrite H1].
  - intros k. cbn. rewrite Bm. apply U.
Qed.

Ltac next_line_byte_by tac h A U Hd :=
  let g := fresh in let Hg := fresh in
  eapply reaches_trans;
    [eapply (line_byte _ _ _ h _ _ _ _ _ _ A U); [done|lia|exact Hd| |by intros p]; intros g Hg;
     unfold HttpExecute.switch; rewrite Hg; unfold run_req_version, expect, strict_check; tac; reflexivity
    |clear A U Hd; intros ? (A & U & Hd)].
Ltac next_line_byte h A U Hd := next_line_byte_by idtac h A U Hd.

Definition version_is (a b : Z) (p : http_parser) : http_parser := with_http_minor b (with_http_major a p).

(** A version of two digits, and the end of the line. *)
Definition version_chars (a b : Z) : list ascii := chars "HTTP/" ++ [digit_char a; "."%char; digit_char b; CR; LF].

Lemma version_read a b n c base nr f rest :
  1 <= a < 10 -> 0 <= b < 10 -> among s_req_http_start n c base nr f -> unmarked f ->
  drop n data = version_chars a b ++ rest -> nr + 10 <= HTTP_MAX_HEADER_SIZE ->
  reaches f (fun g => among s_header_field_start (n + 10) c (version_is a b base) (nr + 10) g /\ unmarked g).
Proof.
  intros Ha Hb A U Hd Hn. unfold version_chars in Hd. cbn [chars app] in Hd.
  destruct (digit_char_num a ltac:(lia)) as (_ & A2 & _). destruct (digit_char_num b Hb) as (B1 & B2 & _).
  assert (A3 : in_class 49 57 (digit_char a) = true) by (destruct (digit_char_num a ltac:(lia)) as (X & Y & _); unfold in_class, digit in *; lia).
  do 5 next_line_byte (fun p : http_parser => p) A U Hd.
  next_line_byte_by ltac:(rewrite A3, A2) (with_http_major a) A U Hd.
  next_line_byte (fun p : http_parser => p) A U Hd.
  next_line_byte_by ltac:(rewrite B1, B2) (with_http_minor b) A U Hd.
  do 2 next_line_byte (fun p : http_parser => p) A U Hd.
  apply reaches_refl. split; [|exact U].
  replace (n + 10)%nat with (S (S (S (S (S (S (S (S (S (S n)))))))))) by lia.
  by replace (nr + 10) with (nr + 1 + 1 + 1 + 1 + 1 + 1 + 1 + 1 + 1 + 1) by lia.
Qed.

End Line.

Abbreviation version_11 := (version_is 1 1).

(** ** A whole head *)

(** The parser in the head of a request, apart from what a line changes. *)
Definition request_head (m : Z) : http_parser :=
  with_method m (with_state s_start_req (with_content_length ULLONG_MAX (with_type HTTP_REQUEST (http_parser_init HTTP_BOTH)))).

(** After the fields. *)
Definition request_fields (m : Z) (kvs : list (string * string)) : http_parser := foldl effect (version_11 (request_head m)) kvs.

Lemma request_fields_ok m kvs : m <> HTTP_CONNECT -> block_ok kvs -> head_ok (request_fields m kvs).
Proof.
  intros Hm [HF Hl Ho]. unfold request_fields.
  destruct (effects_flags (version_11 (request_head m)) kvs) as (F1 & F2 & _ & F4 & F5 & F6).
  destruct (effects_same (version_11 (request_head m)) kvs) as (_ & S2 & S3 & S4 & _).
  split; [by rewrite F4|by rewrite F5|by rewrite F6|by rewrite F1, F2|by rewrite S2|by rewrite S3|by rewrite S4].
Qed.

Lemma request_fields_alive m kvs : http_should_keep_alive (request_fields m kvs) = negb (existsb is_close kvs).
Proof.
  unfold http_should_keep_alive, request_fields.
  destruct (effects_flags (version_11 (request_head m)) kvs) as (_ & _ & F3 & _).
  destruct (effects_same (version_11 (request_head m)) kvs) as (S1 & _ & _ & _ & S5 & S6 & _).
  rewrite S5, S6, F3. unfold http_message_needs_eof. rewrite S1. change (has_flag _ F_CONNECTION_CLOSE) with false. cbn [orb].
  rewrite bool_decide_eq_true_2 by done. by destruct (existsb is_close kvs).
Qed.

Lemma request_fields_body m kvs : block_ok kvs -> body_of (request_fields m kvs) = framing_of no_body kvs.
Proof.
  intros [HF Hl Ho]. unfold body_of, framing_of, request_fields.
  destruct (effects_flags (version_11 (request_head m)) kvs) as (F1 & _).
  destruct (effects_same (version_11 (request_head m)) kvs) as (S1 & _).
  rewrite F1. change (has_flag (version_11 (request_head m)) F_CHUNKED) with false. cbn [orb].
  destruct (existsb is_coding kvs); [done|].
  rewrite (effects_content_length _ kvs None); [|eapply Forall_impl; [exact HF|]; intros kv R E; by destruct (readable_length kv R E) as (n & -> & _)|done].
  fold (declared kvs). unfold http_message_needs_eof. rewrite S1, bool_decide_eq_true_2 by done.
  destruct (declared kvs) as [n|] eqn:E; [|done]. cbn [default from_option]. change (id n) with n.
  apply declared_bound in E; [|done]. change (2 ^ 60) with 1152921504606846976 in E.
  destruct (n =? 0); [done|]. rewrite (proj2 (Z.eqb_neq n ULLONG_MAX)) by (unfold ULLONG_MAX; lia). done.
Qed.

Definition head_text (name : string) (target : string) (kvs : list (string * string)) : string :=
  name +:+ " " +:+ target +:+ " " +:+ http11 +:+ crlf +:+ block kvs +:+ crlf.

Lemma chars_head name target kvs :
  chars (head_text name target kvs) =
    chars name ++ " "%char :: chars target ++ " "%char :: chars (http11 +:+ crlf) ++ chars (block kvs) ++ [CR; LF].
Proof.
  unfold head_text. rewrite !chars_app. change (chars " ") with [" "%char]. change (chars crlf) with [CR; LF].
  by rewrite <- !app_assoc.
Qed.

(** The place in the data. *)
Ltac at_place D :=
  match goal with |- drop ?x _ = _ => match type of D with drop ?y _ = _ => replace x with y by (cbn [length]; lia) end end;
  exact D.

Section Whole.
Context {C : Type} (st : http_parser_settings C) `{!Receiver st} (data beyond : list ascii) (c c1 : C) (Hb : begins st c c1).
Abbreviation reaches := (reaches st data beyond false).

Lemma begun_among m n nr (f : frame C) :
  cur f = url s_req_spaces_before_url -> pmethod (parser f) = m -> pos f = n -> nread (parser f) = nr -> 0 <= nr ->
  beside f = request_begun c1 -> among (url s_req_spaces_before_url) n c1 (request_head m) nr f.
Proof.
  intros H1 H2 H3 H4 H5 H6. unfold beside, request_begun in H6. injection H6 as H6 H7. split; try done; [|by rewrite H4].
  unfold apart, apart_field, request_head. destruct (parser f). cbn in *. by simplify_eq.
Qed.

(** The request line. *)
Lemma line_name_read name m n f rest :
  method_named (chars name) = Some m -> fresh n c f -> drop n data = chars name ++ " "%char :: rest ->
  reaches f (fun g => among (url s_req_spaces_before_url) (n + length (chars name) + 1) c1 (request_head m) (Z.of_nat (length (chars name)) + 1) g /\
    unmarked g /\ drop (n + length (chars name) + 1) data = rest).
Proof.
  intros Hm F Hd. destruct (fresh_between n c f F) as (mk & -> & Hmk).
  destruct (named_taken st data beyond c c1 Hb n mk (chars name) _ Hmk Hd m Hm) as (j & f & R & H1 & H2 & H3 & H4 & H5 & H6 & H7).
  pose proof (begun_among m _ _ f H1 H2 H4 H6 ltac:(lia) H7) as A.
  exists j, f. split; [exact R|]. pose proof (data_on data _ _ _ Hd) as D. apply data_here in D as [_ D].
  replace (n + length (chars name) + 1)%nat with (S (n + length (chars name)))%nat by lia.
  split; [|split; [exact H5|exact D]]. destruct A as [A1 A2 A3 A4 A5]. split; try done; lia.
Qed.

Lemma line_read name m l a b c2 n f rest :
  method_named (chars name) = Some m -> m <> HTTP_CONNECT ->
  (forall k, foldl parse_url_char s_req_path (take k l) <> s_dead) -> 1 <= a < 10 -> 0 <= b < 10 ->
  Z.of_nat (length (chars name) + length l) + 13 <= HTTP_MAX_HEADER_SIZE ->
  tells st url_data (of_chars ("/"%char :: l)) c1 c2 -> fresh n c f ->
  drop n data = chars name ++ " "%char :: ("/"%char :: l) ++ " "%char :: version_chars a b ++ rest ->
  let k := (length (chars name) + length l + 13)%nat in
  reaches f (fun g => among s_header_field_start (n + k) c2 (version_is a b (request_head m)) (Z.of_nat k) g /\ unmarked g /\
    drop (n + k) data = rest).
Proof.
  intros Hm Hc Ha Va Vb Hl T F Hd k.
  eapply reaches_trans; [eapply line_name_read; [exact Hm|exact F|exact Hd]|]. clear F f. intros f (A & U & D1).
  eapply reaches_trans; [eapply (target_read st data beyond false _ _ c2 _ _ f l);
    [exact A|exact U|exact Hc|done|exact Ha|exact D1|exact T|lia]|].
  clear A U f. intros f [A U]. pose proof (data_on data _ _ _ D1) as D2. apply data_here in D2 as [_ D2].
  eapply reaches_trans; [eapply (version_read st data beyond false a b _ _ _ _ f); [exact Va|exact Vb|exact A|exact U| |lia]|].
  { at_place D2. }
  clear A U f. intros f [A U]. pose proof (data_on data _ _ _ D2) as D3. change (length (version_chars a b)) with 10%nat in D3.
  apply reaches_refl. split; [|split; [exact U|]].
  - destruct A as [A1 A2 A3 A4 A5]. split; try done; subst k; [rewrite A2; lia|lia].
  - subst k. at_place D3.
Qed.

Lemma head_read name m l kvs c2 c3 c4 n f rest :
  method_named (chars name) = Some m -> m <> HTTP_CONNECT ->
  (forall k, foldl parse_url_char s_req_path (take k l) <> s_dead) -> block_ok kvs ->
  let text := head_text name (of_chars ("/"%char :: l)) kvs in
  len text <= HTTP_MAX_HEADER_SIZE ->
  tells st url_data (of_chars ("/"%char :: l)) c1 c2 -> told st kvs c2 c3 ->
  head_told st (request_fields m kvs) c3 c4 -> ending c4 ->
  fresh n c f -> drop n data = chars text ++ rest ->
  reaches f (after_head st (n + length (chars text)) c4 (request_fields m kvs)).
Proof.
  intros Hm Hc Ha HB text Hl T1 T2 T3 Hg F Hd.
  assert (D0 : drop n data = chars name ++ " "%char :: ("/"%char :: l) ++ " "%char :: version_chars 1 1 ++ chars (block kvs) ++ CR :: LF :: rest).
  { rewrite Hd. unfold text. rewrite chars_head, chars_of_chars. rewrite <- !app_assoc. cbn [app]. rewrite <- !app_assoc. cbn [app].
    by rewrite <- !app_assoc. }
  assert (Hsum : length (chars text) = (length (chars name) + length l + 13 + (length (chars (block kvs)) + 2))%nat).
  { unfold text. rewrite chars_head, chars_of_chars, length_app. cbn [length]. rewrite length_app. cbn [length]. rewrite length_app.
    change (length (chars (http11 +:+ crlf))) with 10%nat. rewrite length_app. cbn [length]. lia. }
  unfold len in Hl. fold text in Hl.
  eapply reaches_trans; [eapply (line_read name m l 1 1 c2); [exact Hm|exact Hc|exact Ha|lia|lia|lia|exact T1|exact F|exact D0]|].
  clear F f. intros f (A & U & D3).
  eapply reaches_trans; [eapply (block_end st data beyond false kvs _ _ c3 c4 _ (request_fields m kvs) _ f);
    [by apply among_line_start| |exact D3|exact T2|by apply request_fields_ok|exact T3|exact Hg|unfold len; lia]|].
  { apply effects_run; [done|apply HB|apply HB|by left]. }
  intros g G. apply reaches_refl. match type of G with after_head _ ?x _ _ _ => replace (n + length (chars text))%nat with x by lia end. exact G.
Qed.
End Whole.

(** ** The target, for the codec *)
Lemma len_origin p q f :
  len (origin_form p q f) = len p + (if empty q then 0 else 1 + len q) + (if empty f then 0 else 1 + len f).
Proof.
  unfold origin_form. rewrite !len_app.
  destruct (empty q), (empty f); rewrite ?len_app; change (len "?") with 1; change (len "#") with 1; change (len "") with 0; lia.
Qed.

Lemma origin_off p q f g : (g < UF_MAX)%nat -> off (origin_url p q f) g <= len (origin_form p q f).
Proof.
  intros Hg. rewrite len_origin. pose proof (len_nonneg p). pose proof (len_nonneg q). pose proof (len_nonneg f).
  unfold origin_url, query_at, fragment_at, span, UF_MAX in *.
  do 7 (destruct g as [|g]; [destruct (empty q), (empty f); cbn; lia|]). lia.
Qed.

Lemma target_taken p q f r :
  exists r1, take_url (origin_form p q f) (origin_url p q f) r = Ok r1 /\
    base r1 = base r /\ _path r1 = p /\ _query r1 = q /\ _fragment r1 = f.
Proof.
  destruct (origin_fields p q f) as (E1 & E2 & E3 & _). unfold take_url.
  assert (U : forall g, (g < UF_MAX)%nat ->
    url_field (origin_form p q f) (origin_url p q f) g = Ok (field_str (origin_form p q f) (origin_url p q f) g)).
  { intros g Hg. unfold url_field. rewrite (proj2 (Z.ltb_ge _ _)); [done|]. by apply origin_off. }
  rewrite !U by (unfold UF_MAX, UF_SCHEMA, UF_HOST, UF_PORT, UF_PATH, UF_QUERY, UF_FRAGMENT, UF_USERINFO; lia).
  cbn [mbind outcome_bind]. eexists. split; [reflexivity|]. by rewrite E1, E2, E3.
Qed.

(** The codec that waits for a message, and one that begins a request. *)
Definition at_rest (v : proto_version) (out : list decoded) : codec :=
  reset (set_progress v false false (emit out new_codec)).

Lemma reset_rest c : reset c = at_rest (_version c) (output c).
Proof. done. Qed.

Lemma target_told r0 v out p q f :
  path_part p = true -> url_chars q = true -> url_chars f = true -> len (origin_form p q f) <= max_uri_len ->
  MultiMap.wf (_headers (base r0)) ->
  exists r1 c, tells (parser_settings (Some (Req r0))) url_data (origin_form p q f) (set_data_ (Some (Req r0)) (at_rest v out)) c /\
    reading (Req r1) out [] c /\ base r1 = base r0 /\ _path r1 = p /\ _query r1 = q /\ _fragment r1 = f /\ _version c = v /\ _ignore c = false.
Proof.
  intros Hp Hq Hf Hl Hwf. destruct (target_taken p q f r0) as (r1 & E & E0 & E1 & E2 & E3).
  exists r1. eexists. split; [|split; [|split_and!; [exact E0|exact E1|exact E2|exact E3|..]]].
  - intros l pa. unfold plain_cb. cbn [on_event]. unfold on_url. cbv zeta.
    cbn [_urline at_rest reset set_data_ set_progress emit new_codec _connected _url _status set_lines]. rewrite string_app_nil_l.
    rewrite (proj2 (Z.ltb_ge _ _)) by exact Hl.
    rewrite (the_data_eq _ (Req r0)) by done. cbn [mbind outcome_bind as_request mret outcome_ret].
    rewrite parse_origin_form by (done || (unfold max_uri_len in Hl; lia)). cbn [mbind outcome_bind]. rewrite E. reflexivity.
  - split; try done. exists (Req r1), []. split; [done|]. split; [by destruct r1|]. cbn [msg_base]. rewrite E0.
    split; [done|]. split; [done|]. split; [done|]. cbn. by rewrite orb_false_r.
  - done.
  - done.
Qed.

(** ** Requests on a connection *)

(** A request to send: its method's name, the parts of its target, its fields, the
    pieces of its body. *)
Record sent := {
  s_name : string; s_path : string; s_query : string; s_fragment : string;
  s_fields : list (string * string); s_pieces : list string }.

Definition sent_target (w : sent) : string := origin_form (s_path w) (s_query w) (s_fragment w).
Definition sent_head (w : sent) : string := head_text (s_name w) (sent_target w) (s_fields w).

(** A method of the table, [CONNECT] excepted, a path that begins with a slash,
    fields that are followed; the sizes the parser and the codec take.  The body
    is written as [text]. *)
Record sendable (w : sent) (text : string) : Prop := {
  se_method : exists m, method_named (chars (s_name w)) = Some m /\ m <> HTTP_CONNECT;
  se_path : path_part (s_path w) = true;
  se_query : url_chars (s_query w) = true;
  se_fragment : url_chars (s_fragment w) = true;
  se_target : len (sent_target w) <= max_uri_len;
  se_fields : block_ok (s_fields w);
  se_size : len (sent_head w) <= HTTP_MAX_HEADER_SIZE;
  se_body : body_text (framing_of no_body (s_fields w)) (s_pieces w) text }.

(** The request [r] is [w], read into the blank request [r0]; [ka]: whether the
    connection stays. *)
Record arrived_as (ka : bool) (r0 : http_request) (w : sent) (r : http_request) : Prop := {
  ar_method : method_named (chars (s_name w)) = Some (_method r);
  ar_path : _path r = s_path w;
  ar_query : _query r = s_query w;
  ar_fragment : _fragment r = s_fragment w;
  ar_headers : headers_read (base r0) ka (s_fields w) (base r) }.

(** What the fields say of the connection. *)
Definition says_stay (w : sent) : bool := negb (existsb is_close (s_fields w)).
Definition arrived (r0 : http_request) (w : sent) : http_request -> Prop := arrived_as (says_stay w) r0 w.

Lemma host_of_keeps r :
  _method (host_of r) = _method r /\ _path (host_of r) = _path r /\ _query (host_of r) = _query r /\ _fragment (host_of r) = _fragment r.
Proof. unfold host_of. cbv zeta. destruct (empty _); [|done]. by destruct (break_at _ _) as [h [|]]. Qed.

(** What the user of the codec is told of a message. *)
Definition told_of (m : message) (ds : list string) : list decoded := got_header m :: (got_body <$> ds) ++ [got_end].

(** The parser of the URL takes the target; so do the states of the line. *)
Lemma target_alive p q f :
  path_part p = true -> url_chars q = true -> url_chars f = true -> len (origin_form p q f) < 2 ^ 16 ->
  exists l, chars (origin_form p q f) = "/"%char :: l /\ forall k, foldl parse_url_char s_req_path (take k l) <> s_dead.
Proof.
  intros Hp Hq Hf Hl. pose proof (parse_origin_form p q f [] Hp Hq Hf Hl) as E.
  unfold http_parser_parse_url in E. cbv zeta in E.
  destruct (url_loop _ _ _ _ _ _) as [[[alive fa] u]|] eqn:El; [|done]. cbn [mbind outcome_bind] in E.
  destruct alive; cbn [negb] in E; [|done].
  assert (exists l, chars (origin_form p q f) = "/"%char :: l) as (l & Ec).
  { rewrite chars_origin. unfold path_part in Hp. destruct (chars p) as [|ch l]; [done|].
    apply andb_prop in Hp as [Hp _]. apply Ascii.eqb_eq in Hp. subst ch. by eexists. }
  exists l. split; [exact Ec|]. rewrite Ec in El. intros k.
  by destruct (url_loop_alive _ _ _ _ _ _ _ _ El (S k)) as [H|H].
Qed.

(** The codec over the head of a request. *)
Lemma head_heard r0 w text v out m :
  sendable w text -> method_named (chars (s_name w)) = Some m -> MultiMap.wf (_headers (base r0)) -> v = UNSET \/ v = HTTP11 ->
  let st := parser_settings (Some (Req r0)) in
  exists r c2 c3 c4, arrived r0 w r /\
    tells st url_data (sent_target w) (set_data_ (Some (Req r0)) (at_rest v out)) c2 /\ told st (s_fields w) c2 c3 /\
    head_told st (request_fields m (s_fields w)) c3 c4 /\ receiving (settings := st) c4 /\
    output c4 = out ++ [got_header (Req r)] /\ _version c4 = HTTP11.
Proof.
  intros [_ Hp Hq Hf Hu HB _ _] Hm Hwf Hv st.
  destruct (target_told r0 v out _ _ _ Hp Hq Hf Hu Hwf) as (r1 & c2 & T1 & R1 & B & E1 & E2 & E3 & V1 & I1).
  assert (HP : Forall taken (s_fields w)) by (eapply Forall_impl; [apply HB|apply readable_taken]).
  destruct (fields_told (Some (Req r0)) (Req r1) out (s_fields w) [] c2 R1 ltac:(constructor) HP) as (c3 & T2 & R2 & V2 & I2).
  set (p1 := request_fields m (s_fields w)).
  assert (P : http_major p1 = 1 /\ http_minor p1 = 1 /\ pmethod p1 = m).
  { unfold p1, request_fields. by destruct (effects_same (version_11 (request_head m)) (s_fields w)) as (_ & _ & -> & _ & -> & -> & _). }
  destruct P as (P1 & P2 & P3).
  destruct (head_completed (Req r1) out (s_fields w) c3 p1 R2 HP) as (d & msg & c4 & Hk & Hmsg & Hr & Hg & Hi & Ho & V4);
    [rewrite V2, V1; done|exact P1|exact P2|].
  destruct msg as [r2|]; [|done]. cbn [finished with_base] in Ho. rewrite P3 in Ho.
  exists (set_base d (host_of (HttpMessages.method m r2))), c2, c3, c4. split.
  { unfold p1 in Hr. rewrite request_fields_alive in Hr. cbn [msg_base] in Hr. rewrite B in Hr.
    cbn in Hmsg. injection Hmsg as Hmsg. destruct (host_of_keeps (HttpMessages.method m r2)) as (H1 & H2 & H3 & H4).
    split; cbn; [by rewrite H1|by rewrite H2, <- E1, <- Hmsg|by rewrite H3, <- E2, <- Hmsg|by rewrite H4, <- E3, <- Hmsg|exact Hr]. }
  split; [exact T1|]. split; [exact T2|]. split; [|split; [by split; [rewrite Hi, I2, I1|exact Hg]|by split]].
  intros p Hap. unfold plain_cb. cbn [on_event].
  assert (X : on_headers_complete p c3 = on_headers_complete p1 c3) by (by rewrite <- Hap). by rewrite X, Hk.
Qed.

Lemma request_taken r0 w text v out data beyond n f rest :
  sendable w text -> MultiMap.wf (_headers (base r0)) -> v = UNSET \/ v = HTTP11 ->
  drop n data = chars (sent_head w +:+ text) ++ rest -> fresh n (at_rest v out) f ->
  exists r, arrived r0 w r /\ reaches (parser_settings (Some (Req r0))) data beyond false f
    (fresh (n + length (chars (sent_head w +:+ text))) (at_rest HTTP11 (out ++ told_of (Req r) (s_pieces w)))).
Proof.
  intros S Hwf Hv Hd F. pose proof S as [(m & Hm & Hc) Hp Hq Hf Hu HB Hl HT]. unfold max_uri_len in Hu.
  destruct (target_alive _ _ _ Hp Hq Hf ltac:(unfold sent_target in Hu; lia)) as (l & El & Ha).
  destruct (head_heard r0 w text v out m S Hm Hwf Hv) as (r & c2 & c3 & c4 & Ar & T1 & T2 & T3 & Hrec & Ho & V4).
  exists r. split; [exact Ar|]. rewrite chars_app, <- app_assoc in Hd.
  pose proof (head_read (parser_settings (Some (Req r0))) data beyond (at_rest v out) (set_data_ (Some (Req r0)) (at_rest v out)) ltac:(done)
    (s_name w) m l (s_fields w) c2 c3 c4 n f (chars text ++ rest) Hm Hc Ha HB) as Q. cbv zeta in Q.
  rewrite <- El, of_chars_chars in Q. specialize (Q Hl T1 T2 T3 (proj2 Hrec) F Hd). fold (sent_target w) (sent_head w) in Q.
  eapply reaches_trans; [exact Q|]. intros g G.
  eapply reaches_trans; [eapply body_read; [exact G|rewrite request_fields_body by done; exact HT|by apply request_fields_ok|exact Hrec|by apply data_on]|].
  intros h H. apply reaches_refl. cbn [take_end codec_receiver] in H. rewrite codec_pieces, emit_emit, reset_rest in H.
  change (_version (emit _ c4)) with (_version c4) in H. cbn [output emit] in H. rewrite V4, Ho in H.
  rewrite chars_app, length_app. unfold told_of. rewrite <- app_assoc in H. by rewrite Nat.add_assoc.
Qed.

(** ** Reads of whole messages *)

Section Chain.
Context {C W : Type} (st : http_parser_settings C) `{!Callbacks st}.
Context (text : W -> string) (step : W -> C -> C -> Prop) (inv : list W -> C -> Prop).

(** The text of a message, wherever it stands in a read, makes a step of the state
    of the callbacks; [inv]: what holds before the messages that are still to come. *)
Definition takes (w : W) : Prop :=
  text w <> "" /\ forall ws data beyond n f rest c, inv (w :: ws) c -> drop n data = chars (text w) ++ rest -> fresh n c f ->
    exists c', step w c c' /\ inv ws c' /\ reaches st data beyond false f (fresh (n + length (chars (text w))) c').

Inductive chain : list W -> C -> C -> Prop :=
| chain_nil c : chain [] c c
| chain_cons w ws c c1 c2 : step w c c1 -> chain ws c1 c2 -> chain (w :: ws) c c2.

Lemma chain_app ws1 ws2 c c1 c2 : chain ws1 c c1 -> chain ws2 c1 c2 -> chain (ws1 ++ ws2) c c2.
Proof. induction 1; [done|]. intros H'. cbn. econstructor; [done|by apply IHchain]. Qed.

(** Some of them in a read. *)
Lemma chain_taken ws more data beyond n f rest c :
  Forall takes ws -> inv (ws ++ more) c -> drop n data = chars (concat_str (text <$> ws)) ++ rest -> fresh n c f ->
  exists c', chain ws c c' /\ inv more c' /\
    reaches st data beyond false f (fresh (n + length (chars (concat_str (text <$> ws)))) c').
Proof.
  intros HF. revert n f c. induction HF as [|w ws [_ Hw] HF IH]; intros n f c Hi Hd F.
  { exists c. split; [constructor|]. split; [done|]. apply reaches_refl. cbn. by rewrite Nat.add_0_r. }
  cbn [fmap list_fmap concat_str] in *. rewrite chars_app, <- app_assoc in Hd.
  destruct (Hw (ws ++ more) data beyond n f _ c Hi Hd F) as (c1 & S1 & I1 & (k & g & R1 & G)).
  destruct (IH _ g c1 I1 (data_on _ _ _ _ Hd) G) as (c2 & S2 & I2 & R2).
  exists c2. split; [by econstructor|]. split; [done|].
  eapply reaches_trans with (P := fun h => h = g); [by exists k, g|]. intros ? ->.
  by rewrite chars_app, length_app, Nat.add_assoc.
Qed.

Lemma texts_full ws : Forall takes ws -> ws <> [] -> concat_str (text <$> ws) <> "".
Proof.
  intros [|w ws' [N _]]; [done|]. intros _. cbn [fmap list_fmap concat_str]. intros E. apply (f_equal len) in E.
  rewrite len_app in E. change (len "") with 0 in E. pose proof (len_nonneg (text w)).
  pose proof (len_nonneg (concat_str (text <$> ws'))). apply N, len_zero. lia.
Qed.

(** All of them, in whatever reads of whole messages. *)
Lemma chain_fed ws (ls : list (list string)) c :
  Forall takes ws -> mjoin ls = text <$> ws -> Forall (fun l => l <> []) ls -> inv ws c ->
  exists c', chain ws c c' /\ inv [] c' /\
    fed st (concat_str <$> ls) (http_parser_init HTTP_BOTH) c (http_parser_init HTTP_BOTH) c'.
Proof.
  intros HF Hj HL. revert ws c HF Hj. induction HL as [|l ls Hne HL IH]; intros ws c HF Hj Hi.
  { symmetry in Hj. apply fmap_nil_inv in Hj. subst ws. exists c. by repeat constructor. }
  cbn [mjoin list_join] in Hj. symmetry in Hj. apply fmap_app_inv in Hj as (ws1 & ws2 & -> & Er & ->).
  apply Forall_app in HF as [HF1 HF2]. set (d := concat_str (text <$> ws1)).
  assert (Hd : d <> "") by (apply texts_full; [done|by intros ->]).
  assert (F : fresh 0 c (start_frame (http_parser_init HTTP_BOTH) c)) by (split; [done|by intros []]).
  destruct (chain_taken ws1 ws2 (chars d) [] 0 _ [] c HF1 Hi ltac:(by rewrite app_nil_r) F) as (c1 & S1 & I1 & (k & g & R1 & G1 & G2)).
  destruct (IH ws2 c1 HF2 Er I1) as (c2 & S2 & I2 & F2).
  exists c2. split; [by eapply chain_app|]. split; [done|]. exists (http_parser_init HTTP_BOTH), c1. split; [done|]. split; [done|]. split; [|done].
  eapply (execute_run _ _ _ _ _ k 1); [apply init_ok|done| |exact R1|]; [by intros N; apply Hd, chars_inj|].
  fold d. rewrite loop_end; [|by rewrite G1|exact G2|by rewrite G1]. by rewrite G1.
Qed.
End Chain.

(** A message that is told to the user of the codec and leaves the codec at rest. *)
Definition taken_whole {R} (m0 : message) (text : string) (told : R -> list decoded) (P : R -> Prop) : Prop :=
  text <> "" /\ forall data beyond n f rest v out,
    v = UNSET \/ v = HTTP11 -> drop n data = chars text ++ rest -> fresh n (at_rest v out) f ->
    exists r, P r /\ reaches (parser_settings (Some m0)) data beyond false f
      (fresh (n + length (chars text)) (at_rest HTTP11 (out ++ told r))).

Lemma reads_messages {W R : Type} (m0 : message) (text : W -> string) (told : W -> R -> list decoded) (P : W -> R -> Prop)
    ws (ls : list (list string)) out :
  Forall (fun w => taken_whole m0 (text w) (told w) (P w)) ws ->
  mjoin ls = text <$> ws -> Forall (fun l => l <> [] /\ len (concat_str l) < 2 ^ 31) ls ->
  exists rs v, Forall2 P ws rs /\
    reads (Some m0) (concat_str <$> ls)
        {| _parser := http_parser_init HTTP_BOTH; impl := at_rest UNSET out; _ignore_content_len := false |} =
      Some (Ok (true, {| _parser := http_parser_init HTTP_BOTH;
        impl := at_rest v (out ++ mjoin (zip_with told ws rs)); _ignore_content_len := false |})).
Proof.
  intros HF Hj HL. set (st := parser_settings (Some m0)).
  set (step w c c' := exists v o r, c = at_rest v o /\ P w r /\ c' = at_rest HTTP11 (o ++ told w r)).
  destruct (chain_fed st text step (fun _ c => exists v o, (v = UNSET \/ v = HTTP11) /\ c = at_rest v o) ws ls (at_rest UNSET out))
    as (c' & S & _ & F).
  - eapply Forall_impl; [exact HF|]. intros w [N T]. split; [exact N|].
    intros _ data beyond n f rest c (v & o & Hv & ->) Hd Hf. destruct (T data beyond n f rest v o Hv Hd Hf) as (r & Pr & X).
    exists (at_rest HTTP11 (o ++ told w r)). split; [by exists v, o, r|]. split; [|exact X]. exists HTTP11, (o ++ told w r). split; [by right|done].
  - exact Hj.
  - eapply Forall_impl; [exact HL|]. by intros l [].
  - exists UNSET, out. split; [by left|done].
  - assert (Z : forall v o, chain step ws (at_rest v o) c' ->
      exists rs v', Forall2 P ws rs /\ c' = at_rest v' (o ++ mjoin (zip_with told ws rs))).
    { clear -step. induction ws as [|w ws IH]; intros v o S; inversion S as [|? ? ? c1 ? (v1 & o1 & r & E & Pr & E1) S2]; subst.
      - exists [], v. split; [constructor|]. cbn. by rewrite app_nil_r.
      - apply (f_equal output) in E. cbn in E. subst o1. destruct (IH _ _ S2) as (rs & v' & As & ->).
        exists (r :: rs), v'. split; [by constructor|]. cbn [zip_with mjoin list_join]. by rewrite app_assoc. }
    destruct (Z _ _ S) as (rs & v' & As & ->). exists rs, v'. split; [exact As|].
    apply fed_reads; [exact F|done|]. apply Forall_fmap. eapply Forall_impl; [exact HL|]. by intros l [].
Qed.

Lemma sent_full w text : sent_head w +:+ text <> "".
Proof.
  intros N. apply (f_equal chars) in N. unfold sent_head, head_text in N. rewrite !chars_app in N. by destruct (chars (s_name w)).
Qed.

Lemma request_whole r0 w text :
  sendable w text -> MultiMap.wf (_headers (base r0)) ->
  taken_whole (Req r0) (sent_head w +:+ text) (fun r => told_of (Req r) (s_pieces w)) (arrived r0 w).
Proof.
  intros S Hwf. split.
  - apply sent_full.
  - intros data beyond n f rest v out Hv Hd F. by eapply request_taken.
Qed.

(** C6: Requests sent one after the other, in whatever reads of whole requests, are
    told to the user of the codec as they were written: every one arrives, in order,
    with its method, its path, its query, its fragment, the values of its fields -
    all of them, or the last one of a field that has but one -, whether the
    connection stays, the pieces of its body, sized or in chunks, and its end; all
    the bytes are taken and the codec is at rest again. *)
Theorem requests_received (r0 : http_request) (ws : list (sent * string)) (ls : list (list string)) (out : list decoded) :
  MultiMap.wf (_headers (base r0)) -> Forall (fun w => sendable w.1 w.2) ws ->
  mjoin ls = (fun w => sent_head w.1 +:+ w.2) <$> ws -> Forall (fun l => l <> [] /\ len (concat_str l) < 2 ^ 31) ls ->
  exists rs v, Forall2 (fun w r => arrived r0 w.1 r) ws rs /\
    reads (Some (Req r0)) (concat_str <$> ls)
        {| _parser := http_parser_init HTTP_BOTH; impl := at_rest UNSET out; _ignore_content_len := false |} =
      Some (Ok (true, {| _parser := http_parser_init HTTP_BOTH;
        impl := at_rest v (out ++ mjoin (zip_with (fun w r => told_of (Req r) (s_pieces w.1)) ws rs));
        _ignore_content_len := false |})).
Proof.
  intros Hwf HF Hj HL. apply (reads_messages (Req r0) (fun w => sent_head w.1 +:+ w.2)); [|exact Hj|exact HL].
  eapply Forall_impl; [exact HF|]. intros [w text] S. by apply request_whole.
Qed.

Ltac computed := first [by vm_compute|apply Nat.leb_le; by vm_compute].

Definition example_sent : list (sent * string) :=
  [({| s_name := "GET"; s_path := "/a/b"; s_query := "x=1"; s_fragment := "end";
       s_fields := [("Host", "example.org:8080"); ("X-Tag", "one"); ("x-tag", "two")]; s_pieces := [] |}, "");
   ({| s_name := "POST"; s_path := "/"; s_query := ""; s_fragment := "";
       s_fields := [("Content-Length", "3"); ("connection", "keep-alive")]; s_pieces := ["abc"] |}, "abc");
   ({| s_name := "HEAD"; s_path := "/"; s_query := ""; s_fragment := "";
       s_fields := [("Connection", "close"); ("transfer-encoding", "chunked")];
       s_pieces := filter (fun d => d <> "") ["ab"; ""; "c"] |},
    concat_str (chunk <$> ["ab"; ""; "c"]) +:+ transfer_chunked_termination +:+ crlf)].

(** The first two in a read, the third in another. *)
Definition example_reads {W} (text : W -> string) (ws : list W) : list (list string) :=
  [text <$> take 2 ws; text <$> drop 2 ws].

Lemma example_sendable : Forall (fun w => sendable w.1 w.2) example_sent.
Proof.
  constructor; [|constructor; [|constructor; [|constructor]]]; cbn [fst snd].
  - split; [exists 1; by split| | | | |split; [readable_fields| |]| |exact text_none]; computed.
  - assert (B : framing_of no_body [("Content-Length", "3"); ("connection", "keep-alive")] = of_length (len "abc")) by by vm_compute.
    split; [exists 3; by split| | | | |split; [readable_fields| |]| |cbn [s_fields s_pieces]; rewrite B; by apply text_length]; computed.
  - assert (F : Forall (fun d => len d < 2 ^ 60) ["ab"; ""; "c"]) by (repeat constructor; by vm_compute).
    split; [exists 2; by split| | | | |split; [readable_fields| |]| |exact (text_chunks _ F)]; computed.
Qed.

Lemma requests_received_witness :
  exists rs v, Forall2 (fun w r => arrived example_request w.1 r) example_sent rs /\
    reads (Some (Req example_request)) (concat_str <$> example_reads (fun w => sent_head w.1 +:+ w.2) example_sent) new_http_codec =
      Some (Ok (true, {| _parser := http_parser_init HTTP_BOTH;
        impl := at_rest v (mjoin (zip_with (fun w r => told_of (Req r) (s_pieces w.1)) example_sent rs)); _ignore_content_len := false |})).
Proof.
  apply (requests_received example_request example_sent (example_reads (fun w => sent_head w.1 +:+ w.2) example_sent) []).
  - repeat constructor; by vm_compute.
  - exact example_sendable.
  - done.
  - repeat constructor; first [discriminate|by vm_compute].
Defined.
