(* ===== verification/HttpResponse.v ===== *)
(** * A response from its bytes to the user of the codec

    The run of src/src/http_parser/http_parser.c and of the callbacks of
    src/src/http/http_codec_impl.h over a whole response: the status line here,
    the fields by [HttpHead] and [HttpFields], what the codec makes of them by
    [DecodeHead], the body by [HttpBody]. *)

From S2P Require Import Prelude CppStd MultiMap Utils HttpCommons StructuredData HttpMessages.
From S2P Require Import Encoder UrlParser HttpParser HttpExecute HttpSafe Decoder HttpCodec HttpRun.
From S2P Require Import HttpMethod HttpHead HttpFields DecodeHead HttpBody HttpRequest.

(** ** The status line *)

(** The parser in the first line, apart from what a line changes. *)
Definition line_head : http_parser := with_state s_start_req (with_content_length ULLONG_MAX (http_parser_init HTTP_BOTH)).
Definition response_head (code : Z) : http_parser := with_status_code code (version_11 (with_type HTTP_RESPONSE line_head)).

(** The text of a reason: what is neither CR nor LF. *)
Definition reason_char (ch : ascii) : Prop := ch <> CR /\ ch <> LF.

Section Line.
Context {C : Type} (settings : http_parser_settings C) (data beyond : list ascii) (lenient : bool).
Implicit Types (f : frame C).
Abbreviation reaches := (reaches settings data beyond lenient).
Abbreviation switch := (switch settings data beyond lenient).

(** A data callback, told with the parser of the line. *)
Definition tells_at (base : http_parser) (k : data_kind) (s : string) (c c' : C) : Prop :=
  match on_data settings k with Some cb => forall l p, apart p = base -> cb s l p c = Ok (0, p, c') | None => False end.

(** One more digit of the code. *)
Lemma code_digit n c base nr f d l :
  among s_res_status_code n c base nr f -> unmarked f -> nr < HTTP_MAX_HEADER_SIZE -> 0 <= d < 10 ->
  0 <= status_code base -> status_code base * 10 + d <= 999 -> drop n data = digit_char d :: l ->
  reaches f (fun g => among s_res_status_code (S n) c (with_status_code (status_code base * 10 + d) base) (nr + 1) g /\
    unmarked g /\ drop (S n) data = l).
Proof.
  intros A U Hn Hd H0 H9 Hdr. apply data_here in Hdr as [Hch Hdr]. destruct (digit_char_num d Hd) as (N1 & N2 & _).
  eapply among_pass; [exact A|done|exact Hn|exact Hch|]. intros g B Bm _ _.
  assert (Ec : status_code (parser g) = status_code base) by (by rewrite <- (am_base _ _ _ _ _ _ B)).
  unfold HttpExecute.switch. rewrite (am_cur _ _ _ _ _ _ B). unfold run_res_status. rewrite N1. cbn [negb]. unfold more_digits. cbv zeta.
  rewrite N2, Ec, (wrap_id 16 (status_code base * 10)), wrap_id by (unfold in_range; cbn; lia).
  rewrite (proj2 (Z.ltb_ge _ _)) by lia. eexists. split; [reflexivity|]. destruct B as [B1 B2 B3 B4 B5]. split; [|split; [|exact Hdr]].
  - split; cbn; try done; [by rewrite B2|]. by rewrite <- B4.
  - intros k. cbn. rewrite Bm. apply U.
Qed.

Ltac next_byte_of tac h A U Hd :=
  let g := fresh in let Hg := fresh in
  eapply reaches_trans;
    [eapply (line_byte _ _ _ _ _ _ _ h _ _ _ _ _ _ A U); [done|lia|exact Hd| |by intros p]; intros g Hg;
     unfold HttpExecute.switch; rewrite Hg; tac; reflexivity
    |clear A U Hd; intros ? (A & U & Hd)].

(** From the second byte to the code. *)
Lemma res_version_read n c f rest :
  among s_res_or_resp_H (n + 1) c line_head 1 f -> unmarked f ->
  drop (n + 1) data = chars "TTP/1.1 " ++ rest ->
  reaches f (fun g => among s_res_first_status_code (n + 9) c (version_11 (with_type HTTP_RESPONSE line_head)) 9 g /\ unmarked g /\
    drop (n + 9) data = rest).
Proof.
  intros A U Hd. assert (HM : 80 * 1024 = HTTP_MAX_HEADER_SIZE) by done.
  next_byte_of ltac:(unfold run_res_or_resp_H) (with_type HTTP_RESPONSE) A U Hd.
  do 3 next_byte_of ltac:(unfold run_res_version, expect, strict_check) (fun p : http_parser => p) A U Hd.
  next_byte_of ltac:(unfold run_res_version) (with_http_major 1) A U Hd.
  next_byte_of ltac:(unfold run_res_version) (fun p : http_parser => p) A U Hd.
  next_byte_of ltac:(unfold run_res_version) (with_http_minor 1) A U Hd.
  next_byte_of ltac:(unfold run_res_version) (fun p : http_parser => p) A U Hd.
  apply reaches_refl. replace (n + 9)%nat with (S (S (S (S (S (S (S (S (n + 1))))))))) by lia. by split.
Qed.

(** The three digits, and the space after them. *)
Lemma code_read n c f a b e rest :
  among s_res_first_status_code n c (version_11 (with_type HTTP_RESPONSE line_head)) 9 f -> unmarked f ->
  0 <= a < 10 -> 0 <= b < 10 -> 0 <= e < 10 ->
  drop n data = [digit_char a; digit_char b; digit_char e; " "%char] ++ rest ->
  reaches f (fun g => among s_res_status_start (n + 4) c (response_head ((a * 10 + b) * 10 + e)) 13 g /\ unmarked g /\ drop (n + 4) data = rest).
Proof.
  intros A U Ha Hb He Hd. assert (HM : 80 * 1024 = HTTP_MAX_HEADER_SIZE) by done.
  destruct (digit_char_num a Ha) as (N1 & N2 & _).
  next_byte_of ltac:(unfold run_res_status; rewrite N1; cbn [negb]; rewrite N2) (with_status_code a) A U Hd.
  eapply reaches_trans; [eapply code_digit; [exact A|exact U|lia|exact Hb|cbn; lia|cbn; lia|exact Hd]|].
  clear A U Hd. intros ? (A & U & Hd).
  eapply reaches_trans; [eapply code_digit; [exact A|exact U|lia|exact He|cbn; lia|cbn; lia|exact Hd]|].
  clear A U Hd. intros ? (A & U & Hd).
  next_byte_of ltac:(unfold run_res_status) (fun p : http_parser => p) A U Hd.
  apply reaches_refl. replace (n + 4)%nat with (S (S (S (S n)))) by lia. by split.
Qed.

(** The line feed after the line. *)
Lemma status_line_end n c base nr f rest :
  among s_res_line_almost_done n c base nr f -> unmarked f -> nr < HTTP_MAX_HEADER_SIZE -> drop n data = LF :: rest ->
  reaches f (fun g => among s_header_field_start (S n) c base (nr + 1) g /\ unmarked g).
Proof.
  intros A U Hn Hd. eapply reaches_trans; [eapply (line_byte settings data beyond lenient LF _ s_header_field_start (fun p => p));
    [exact A|exact U|done|exact Hn|exact Hd| |by intros p]; intros g Hg; unfold HttpExecute.switch; rewrite Hg; reflexivity|].
  intros g (G1 & G2 & _). by apply reaches_refl.
Qed.

(** In the reason, marked at [m]. *)
Definition in_reason (m n : nat) (c : C) (base : http_parser) (nr : Z) f : Prop :=
  among s_res_status n c base nr f /\ marks f status = Some m /\ unmarked_but status f.

Lemma reason_goes_on m l n c base nr f rest :
  in_reason m n c base nr f -> Forall reason_char l -> drop n data = l ++ rest ->
  nr + Z.of_nat (length l) <= HTTP_MAX_HEADER_SIZE ->
  reaches f (in_reason m (n + length l) c base (nr + Z.of_nat (length l))).
Proof.
  intros I HF. revert n nr f I. induction HF as [|ch l [H1 H2] HF IH]; intros n nr f I Hd Hn.
  { apply reaches_refl. cbn. by rewrite Nat.add_0_r, Z.add_0_r. }
  cbn [length app] in Hn, Hd. apply data_here in Hd as [Hch Hd]. apply plain_eq in H1, H2.
  eapply reaches_trans with (P := in_reason m (S n) c base (nr + 1)).
  { destruct I as (A & Hm & Hb). eapply among_pass; [exact A|done|lia|exact Hch|]. intros g B Bm _ _.
    unfold HttpExecute.switch. rewrite (am_cur _ _ _ _ _ _ B). unfold run_res_status. rewrite H1, H2.
    eexists. split; [reflexivity|]. destruct B as [B1 B2 B3 B4 B5]. split; [|split].
    - split; try done. cbn. by rewrite B2.
    - cbn. by rewrite Bm.
    - intros k Hk. cbn. rewrite Bm. by apply Hb. }
  intros g G. pose proof (IH _ _ g G Hd ltac:(lia)) as R.
  cbn [length]. by rewrite Nat2Z.inj_succ, <- Z.add_succ_comm, <- Nat.add_succ_comm.
Qed.

Lemma reason_marked n c base nr f ch l rest :
  among s_res_status_start n c base nr f -> unmarked f -> Forall reason_char (ch :: l) ->
  drop n data = (ch :: l) ++ rest -> nr + Z.of_nat (length l) + 1 <= HTTP_MAX_HEADER_SIZE ->
  reaches f (in_reason n (S n + length l) c base (nr + 1 + Z.of_nat (length l))).
Proof.
  intros A U HF Hd Hn. inversion HF as [|? ? [H1 H2] HF']; subst. apply plain_eq in H1, H2.
  cbn [app] in Hd. apply data_here in Hd as [Hch Hd].
  eapply reaches_trans with (P := in_reason n (S n) c base (nr + 1)).
  { eapply among_pass; [exact A|done|lia|exact Hch|]. intros g B Bm _ _.
    unfold HttpExecute.switch. rewrite (am_cur _ _ _ _ _ _ B). unfold run_res_status. rewrite H1, H2.
    assert (Ug : unmarked g) by (intros k; rewrite Bm; apply U). rewrite mark_unmarked by done.
    eexists. split; [reflexivity|]. destruct B as [B1 B2 B3 B4 B5]. split; [|split].
    - split; try done. cbn. by rewrite B2.
    - cbn. by rewrite B2.
    - intros k Hk. cbn. rewrite decide_False by done. apply Ug. }
  intros g I. eapply (reason_goes_on n l); [exact I|exact HF'|exact Hd|lia].
Qed.

(** The carriage return after it: the status is told. *)
Lemma reason_over f :
  cur f = s_res_status ->
  switch CR f = callback_data settings data beyond status (pos f) (S (pos f)) (update_state s_res_line_almost_done f) (@break C).
Proof. intros H. unfold HttpExecute.switch. by rewrite H. Qed.

Lemma reason_read n c c1 base nr f ch l rest :
  among s_res_status_start n c base nr f -> unmarked f -> errno base = HPE_OK -> Forall reason_char (ch :: l) ->
  drop n data = (ch :: l) ++ CR :: LF :: rest -> tells_at base status (of_chars (ch :: l)) c c1 ->
  nr + Z.of_nat (length l) + 3 <= HTTP_MAX_HEADER_SIZE ->
  reaches f (fun g => among s_header_field_start (n + length l + 3) c1 base (nr + Z.of_nat (length l) + 3) g /\ unmarked g).
Proof.
  intros A U He HF Hd Ht Hn. pose proof (data_on _ _ _ _ Hd) as Hd2. apply data_here in Hd2 as [Hcr Hd2].
  replace (n + length (ch :: l))%nat with (S n + length l)%nat in Hcr, Hd2 by (cbn [length]; lia).
  eapply reaches_trans; [eapply (reason_marked n c base nr f ch l); [exact A|exact U|exact HF|exact Hd|lia]|].
  clear A U f. intros f (A & Hm & Hb).
  eapply reaches_trans with (P := fun g => among s_res_line_almost_done (S (S n + length l)) c1 base (nr + Z.of_nat (length l) + 2) g /\ unmarked g).
  { eapply among_pass; [exact A|done|lia|exact Hcr|]. intros g B Bm _ _. rewrite reason_over by apply B.
    erewrite data_run; [|by rewrite <- He, <- (among_errno _ _ _ _ _ _ B)|cbn; rewrite Bm; exact Hm|].
    2:{ unfold tells_at in Ht. destruct (on_data settings status) as [cb|]; [|done].
        rewrite (am_pos _ _ _ _ _ _ B). replace (S n + length l - n)%nat with (length (ch :: l)) by (cbn; lia).
        rewrite Hd, take_app_length. cbn [client update_state]. rewrite (am_client _ _ _ _ _ _ B). apply Ht.
        by rewrite <- (am_base _ _ _ _ _ _ B). }
    eexists. split; [reflexivity|]. destruct B as [B1 B2 B3 B4 B5]. split.
    - split; cbn; try done; [by rewrite B2|lia].
    - intros k. cbn. destruct (decide (k = status)) as [|Hk]; [done|]. rewrite Bm. by apply Hb. }
  clear A Hm Hb f. intros f [A U].
  eapply reaches_trans; [eapply status_line_end; [exact A|exact U|lia|exact Hd2]|]. intros g [G1 G2]. apply reaches_refl. split; [|exact G2].
  replace (n + length l + 3)%nat with (S (S (S n + length l))) by lia. by replace (nr + Z.of_nat (length l) + 3) with (nr + Z.of_nat (length l) + 2 + 1) by lia.
Qed.

(** Without a reason nobody is told of the status. *)
Lemma no_reason_read n c base nr f rest :
  among s_res_status_start n c base nr f -> unmarked f -> drop n data = CR :: LF :: rest -> nr + 2 <= HTTP_MAX_HEADER_SIZE ->
  reaches f (fun g => among s_header_field_start (n + 2) c base (nr + 2) g /\ unmarked g).
Proof.
  intros A U Hd Hn. eapply reaches_trans; [eapply (line_byte settings data beyond lenient CR _ s_res_line_almost_done (fun p => p));
    [exact A|exact U|done|lia|exact Hd| |by intros p]; intros g Hg; unfold HttpExecute.switch; rewrite Hg; reflexivity|].
  clear A U f. intros f (A & U & Hd1).
  eapply reaches_trans; [eapply status_line_end; [exact A|exact U|lia|exact Hd1]|]. intros g [G1 G2]. apply reaches_refl. split; [|exact G2].
  replace (n + 2)%nat with (S (S n)) by lia. by replace (nr + 2) with (nr + 1 + 1) by lia.
Qed.
End Line.

(** ** A whole head *)

(** After the fields. *)
Definition response_fields (code : Z) (kvs : list (string * string)) : http_parser := foldl effect (response_head code) kvs.

(** How the body ends when no field tells: there is none after some codes. *)
Definition bodiless (code : Z) : bool := (code ÷ 100 =? 1) || (code =? 204) || (code =? 304).
Definition response_framing (code : Z) (kvs : list (string * string)) : body_kind :=
  framing_of (if bodiless code then no_body else until_eof) kvs.

Lemma response_fields_ok code kvs : block_ok kvs -> head_ok (response_fields code kvs).
Proof.
  intros [HF Hl Ho]. unfold response_fields.
  destruct (effects_flags (response_head code) kvs) as (F1 & F2 & _ & F4 & F5 & F6).
  destruct (effects_same (response_head code) kvs) as (_ & S2 & S3 & S4 & _).
  split; [by rewrite F4|by rewrite F5|by rewrite F6|by rewrite F1, F2|by rewrite S2|by rewrite S3|by rewrite S4].
Qed.

Lemma response_length code kvs :
  block_ok kvs -> content_length (response_fields code kvs) = default ULLONG_MAX (declared kvs).
Proof.
  intros [HF _ _]. unfold response_fields. apply effects_content_length; [|done].
  eapply Forall_impl; [exact HF|]. intros kv R E. by destruct (readable_length kv R E) as (n & -> & _).
Qed.

Lemma response_needs_eof code kvs :
  block_ok kvs -> http_message_needs_eof (response_fields code kvs) =
    negb (bodiless code) && negb (existsb is_coding kvs) && bool_decide (declared kvs = None).
Proof.
  intros B. unfold http_message_needs_eof. rewrite response_length by done. unfold response_fields.
  destruct (effects_flags (response_head code) kvs) as (F1 & _ & _ & _ & _ & F6).
  destruct (effects_same (response_head code) kvs) as (S1 & _ & _ & _ & _ & _ & S7).
  rewrite F1, F6, S1, S7, bool_decide_eq_false_2 by done. change (status_code (response_head code)) with code.
  change (has_flag (response_head code) F_SKIPBODY) with false. change (has_flag (response_head code) F_CHUNKED) with false.
  rewrite orb_false_r. fold (bodiless code). destruct (bodiless code); [done|]. cbn [negb andb orb].
  destruct (declared kvs) as [n|] eqn:E; cbn [default from_option].
  - change (id n) with n. apply declared_bound in E; [|apply B]. change (2 ^ 60) with 1152921504606846976 in E.
    rewrite (proj2 (Z.eqb_neq n ULLONG_MAX)) by (unfold ULLONG_MAX; lia). cbn [negb]. by rewrite orb_true_r, andb_false_r.
  - rewrite Z.eqb_refl, bool_decide_eq_true_2 by done. cbn [negb]. by rewrite orb_false_r, andb_true_r.
Qed.

(** Whether the connection stays. *)
Definition stays (code : Z) (kvs : list (string * string)) : bool :=
  negb (existsb is_close kvs) && match response_framing code kvs with until_eof => false | _ => true end.

Lemma response_fields_alive code kvs : block_ok kvs -> http_should_keep_alive (response_fields code kvs) = stays code kvs.
Proof.
  intros B. unfold http_should_keep_alive. rewrite response_needs_eof by done. unfold response_fields.
  destruct (effects_flags (response_head code) kvs) as (_ & _ & F3 & _).
  destruct (effects_same (response_head code) kvs) as (_ & _ & _ & _ & S5 & S6 & _).
  rewrite S5, S6, F3. cbn [Z.ltb Z.compare andb response_head with_status_code version_is with_http_major with_http_minor http_major http_minor].
  change (has_flag _ F_CONNECTION_CLOSE) with false. cbn [orb]. unfold stays, response_framing, framing_of.
  destruct (existsb is_close kvs); [done|]. cbn [negb andb].
  destruct (existsb is_coding kvs); [by rewrite andb_false_r|]. rewrite andb_true_r.
  destruct (declared kvs) as [n|].
  - rewrite bool_decide_eq_false_2 by done. rewrite andb_false_r. by destruct (n =? 0).
  - rewrite bool_decide_eq_true_2 by done. by destruct (bodiless code).
Qed.

Lemma response_fields_body code kvs : block_ok kvs -> body_of (response_fields code kvs) = response_framing code kvs.
Proof.
  intros B. unfold body_of, response_framing, framing_of. rewrite response_needs_eof, response_length by done.
  unfold response_fields. destruct (effects_flags (response_head code) kvs) as (F1 & _). rewrite F1.
  change (has_flag (response_head code) F_CHUNKED) with false. cbn [orb]. destruct (existsb is_coding kvs); [done|].
  cbn [negb]. rewrite andb_true_r. destruct (declared kvs) as [n|] eqn:E; cbn [default from_option].
  - change (id n) with n. apply declared_bound in E; [|apply B]. change (2 ^ 60) with 1152921504606846976 in E.
    destruct (n =? 0); [done|]. by rewrite (proj2 (Z.eqb_neq n ULLONG_MAX)) by (unfold ULLONG_MAX; lia).
  - rewrite Z.eqb_refl, bool_decide_eq_true_2 by done. cbn [Z.eqb ULLONG_MAX negb]. change (ULLONG_MAX =? 0) with false. cbn iota. rewrite andb_true_r. by destruct (bodiless code).
Qed.

(** The text of a head. *)
Definition response_text (code : Z) (reason : string) (kvs : list (string * string)) : string :=
  http11 +:+ " " +:+ to_string code +:+ " " +:+ reason +:+ crlf +:+ block kvs +:+ crlf.

(** A code of three digits. *)
Lemma code_digits code :
  100 <= code <= 999 -> exists a b e, 0 <= a < 10 /\ 0 <= b < 10 /\ 0 <= e < 10 /\ code = (a * 10 + b) * 10 + e /\
    chars (to_string code) = [digit_char a; digit_char b; digit_char e].
Proof.
  intros H. exists (code / 100), (code / 10 mod 10), (code mod 10).
  assert (A : forallb (fun k => let c := 100 + Z.of_nat k in
    bool_decide (chars (to_string c) = [digit_char (c / 100); digit_char (c / 10 mod 10); digit_char (c mod 10)])) (seq 0 900) = true)
    by (by vm_compute).
  rewrite forallb_forall in A. specialize (A (Z.to_nat (code - 100)) (proj2 (in_seq 900 0 (Z.to_nat (code - 100))) ltac:(lia))). cbv zeta in A.
  rewrite Z2Nat.id, Zplus_minus in A by lia. apply bool_decide_eq_true_1 in A.
  split_and!; [apply Z.div_pos; lia|apply Z.div_lt_upper_bound; lia|apply Z.mod_pos_bound; lia..| |exact A].
  pose proof (Z.div_mod code 10 ltac:(lia)). pose proof (Z.div_mod (code / 10) 10 ltac:(lia)).
  rewrite Z.div_div in * by lia. change (10 * 10) with 100 in *. lia.
Qed.

Lemma chars_response code reason kvs :
  chars (response_text code reason kvs) =
    "H"%char :: chars "TTP/1.1 " ++ (chars (to_string code) ++ [" "%char]) ++ chars reason ++ CR :: LF :: chars (block kvs) ++ [CR; LF].
Proof.
  unfold response_text. rewrite !chars_app. change (chars http11) with ("H"%char :: chars "TTP/1.1"). change (chars crlf) with [CR; LF].
  change (chars " ") with [" "%char]. change (chars "TTP/1.1 ") with (chars "TTP/1.1" ++ [" "%char]).
  cbn [app]. by rewrite <- !app_assoc.
Qed.

Section Whole.
Context {C : Type} (st : http_parser_settings C) `{!Receiver st} (data beyond : list ascii) (c c1 : C) (Hbegin : begins st c c1).
Abbreviation reaches := (reaches st data beyond false).

(** The first byte tells nothing but that a message begins. *)
Lemma response_begins n f rest :
  fresh n c f -> drop n data = "H"%char :: rest ->
  reaches f (fun g => among s_res_or_resp_H (n + 1) c1 line_head 1 g /\ unmarked g).
Proof.
  intros F Hd. apply data_here in Hd as [H0 _]. destruct (fresh_between n c f F) as (mk & -> & Hmk). clear F.
  set (f1 := update_state s_res_or_resp_H (clear_message (counted (between n mk c)))).
  assert (P1 : pass st data beyond false false "H"%char (between n mk c) = callback_notify st message_begin (S n) f1 (@break C)).
  { rewrite pass_counted by (by vm_compute). reflexivity. }
  rewrite (begins_run st c c1) in P1 by done.
  eexists 1%nat, _. split; [eapply run_break; [exact H0|exact P1|apply run_refl]|].
  split; [split; try done; cbn; lia|]. intros k. cbn. apply Hmk.
Qed.

(** What the callbacks make of their state on the status line: without a reason
    there is none. *)
Definition status_told (code : Z) (reason : string) (d1 d2 : C) : Prop :=
  if decide (reason = "") then d2 = d1 else tells_at st (response_head code) status reason d1 d2.

Lemma response_head_read code reason kvs c2 c3 c4 n f rest :
  100 <= code <= 999 -> Forall reason_char (chars reason) -> block_ok kvs ->
  let text := response_text code reason kvs in
  len text <= HTTP_MAX_HEADER_SIZE ->
  status_told code reason c1 c2 -> told st kvs c2 c3 ->
  head_told st (response_fields code kvs) c3 c4 -> ending c4 ->
  fresh n c f -> drop n data = chars text ++ rest ->
  reaches f (after_head st (n + length (chars text)) c4 (response_fields code kvs)).
Proof.
  intros Hc HR HB text Hl T1 T2 T3 Hg F Hd.
  destruct (code_digits code Hc) as (a & b & e & Ha & Hb & He & Ec & Et).
  assert (D0 : drop n data = "H"%char :: chars "TTP/1.1 " ++ [digit_char a; digit_char b; digit_char e; " "%char] ++
    chars reason ++ CR :: LF :: chars (block kvs) ++ CR :: LF :: rest).
  { rewrite Hd. unfold text. rewrite chars_response, Et. cbn [app]. rewrite <- !app_assoc. cbn [app]. rewrite <- !app_assoc. cbn [app].
    by rewrite <- !app_assoc. }
  assert (Hsum : length (chars text) = (13 + (length (chars reason) + (2 + (length (chars (block kvs)) + 2))))%nat).
  { unfold text. rewrite chars_response, Et. cbn [length app]. rewrite length_app. change (length (chars "TTP/1.1 ")) with 8%nat.
    cbn [length]. rewrite length_app. cbn [length]. rewrite length_app. cbn [length]. lia. }
  unfold len in Hl. fold text in Hl.
  eapply reaches_trans; [eapply response_begins; [exact F|exact D0]|]. clear F f. intros f [A U].
  apply data_here in D0 as [_ D0]. replace (S n) with (n + 1)%nat in D0 by lia.
  eapply reaches_trans; [eapply (res_version_read st data beyond false _ _ f); [exact A|exact U|exact D0]|].
  clear A U f. intros f (A & U & D1).
  eapply reaches_trans; [eapply (code_read st data beyond false _ _ f a b e); [exact A|exact U|exact Ha|exact Hb|exact He|exact D1]|].
  clear A U f D0 D1. intros f (A & U & D2). rewrite <- Ec in A.
  eapply reaches_trans with (P := fun g => among s_header_field_start (n + 13 + length (chars reason) + 2) c2 (response_head code)
    (13 + Z.of_nat (length (chars reason)) + 2) g /\ unmarked g).
  { replace (n + 13)%nat with (n + 9 + 4)%nat by lia. unfold status_told in T1. destruct (decide (reason = "")) as [->|Hne].
    - subst c2. cbn [chars length]. rewrite Nat.add_0_r. eapply no_reason_read; [exact A|exact U|exact D2|cbn; lia].
    - destruct (chars reason) as [|ch l] eqn:Er; [by destruct Hne; apply chars_inj|].
      rewrite <- (of_chars_chars reason), Er in T1.
      eapply reaches_trans; [eapply reason_read; [exact A|exact U|done|exact HR|exact D2|exact T1|cbn in *; lia]|].
      intros g [G1 G2]. apply reaches_refl. split; [|exact G2]. cbn [length].
      replace (n + 9 + 4 + S (length l) + 2)%nat with (n + 9 + 4 + length l + 3)%nat by lia.
      by replace (13 + Z.of_nat (S (length l)) + 2) with (13 + Z.of_nat (length l) + 3) by lia. }
  clear A U f. intros f [A U]. pose proof (data_on data _ _ _ D2) as D3. apply data_here in D3 as [_ D3]. apply data_here in D3 as [_ D3].
  eapply reaches_trans; [eapply (block_end st data beyond false kvs _ _ c3 c4 _ (response_fields code kvs) _ f);
    [by apply among_line_start| | |exact T2|by apply response_fields_ok|exact T3|exact Hg|unfold len; lia]|].
  { apply effects_run; [done|apply HB|apply HB|by left]. }
  { at_place D3. }
  intros g G. apply reaches_refl. match type of G with after_head _ ?x _ _ _ => replace (n + length (chars text))%nat with x by lia end. exact G.
Qed.
End Whole.

(** ** Responses on a connection *)

(** A response to send: its code, its reason, its fields, the pieces of its body. *)
Record answer := { a_code : Z; a_reason : string; a_fields : list (string * string); a_pieces : list string }.

Definition answer_head (w : answer) : string := response_text (a_code w) (a_reason w) (a_fields w).

(** A code of three digits, a reason of one line, fields that are followed, of a
    size the parser takes. *)
Record head_answerable (w : answer) : Prop := {
  an_code : 100 <= a_code w <= 999;
  an_reason : Forall reason_char (chars (a_reason w));
  an_fields : block_ok (a_fields w);
  an_size : len (answer_head w) <= HTTP_MAX_HEADER_SIZE }.

(** The body is written as [text]. *)
Record answerable (w : answer) (text : string) : Prop := {
  an_head : head_answerable w;
  an_body : body_text (response_framing (a_code w) (a_fields w)) (a_pieces w) text }.

(** The status that is told: without a reason, that of the object it is read into. *)
Definition told_status (r0 : http_response) (code : Z) (reason : string) : Z * string :=
  if decide (reason = "") then (_status_code r0, _status_message r0) else (code, reason).

(** The response [r] is [w], read into the blank response [r0]. *)
Record answered (r0 : http_response) (w : answer) (r : http_response) : Prop := {
  as_status : (_status_code r, _status_message r) = told_status r0 (a_code w) (a_reason w);
  as_headers : headers_read (response_base r0) (stays (a_code w) (a_fields w)) (a_fields w) (response_base r) }.

Lemma status_heard r0 v out code reason :
  MultiMap.wf (_headers (response_base r0)) ->
  exists r1 c, status_told (parser_settings (Some (Res r0))) code reason (set_data_ (Some (Res r0)) (at_rest v out)) c /\
    reading (Res r1) out [] c /\ response_base r1 = response_base r0 /\
    (_status_code r1, _status_message r1) = told_status r0 code reason /\ _version c = v /\ _ignore c = false.
Proof.
  intros Hwf. unfold status_told, told_status.
  assert (R : forall c r, _data c = Some (Res r) -> response_base r = response_base r0 -> _headers_completed c = false ->
    output c = out -> _got_header c = false -> _key c = "" /\ _value c = "" -> reading (Res r) out [] c).
  { intros c r H1 H2 H3 H4 H5 H6. split; [done|done|]. exists (Res r), []. rewrite with_base_same. cbn [msg_base]. rewrite H2, H5.
    do 5 (split; [done|]). split; [cbn; by rewrite orb_false_r|]. done. }
  destruct (decide (reason = "")) as [->|Hne].
  - exists r0. eexists. split; [reflexivity|]. split; [by apply R|]. done.
  - exists (status_with code reason r0). eexists. split; [|split; [|split; [reflexivity|split; [reflexivity|]]]].
    + intros l p Hap. unfold plain_cb. cbn [on_event]. unfold on_status. rewrite (the_data_eq _ (Res r0)) by done.
      cbn [mbind outcome_bind mret outcome_ret _status at_rest reset set_data_ set_progress emit new_codec].
      rewrite string_app_nil_l. assert (Es : status_code p = code) by (change (status_code (apart p) = code); by rewrite Hap).
      rewrite Es. reflexivity.
    + by apply R.
    + done.
Qed.

(** The codec over the head of a response. *)
Lemma answer_heard r0 w v out :
  head_answerable w -> MultiMap.wf (_headers (response_base r0)) -> v = UNSET \/ v = HTTP11 ->
  let st := parser_settings (Some (Res r0)) in
  exists r c2 c3 c4, answered r0 w r /\
    status_told st (a_code w) (a_reason w) (set_data_ (Some (Res r0)) (at_rest v out)) c2 /\ told st (a_fields w) c2 c3 /\
    head_told st (response_fields (a_code w) (a_fields w)) c3 c4 /\ receiving (settings := st) c4 /\
    output c4 = out ++ [got_header (Res r)] /\ _version c4 = HTTP11.
Proof.
  intros [_ _ HB _] Hwf Hv st.
  destruct (status_heard r0 v out (a_code w) (a_reason w) Hwf) as (r1 & c2 & T1 & R1 & B & Es & V1 & I1).
  assert (HP : Forall taken (a_fields w)) by (eapply Forall_impl; [apply HB|apply readable_taken]).
  destruct (fields_told (Some (Res r0)) (Res r1) out (a_fields w) [] c2 R1 ltac:(constructor) HP) as (c3 & T2 & R2 & V2 & I2).
  set (p1 := response_fields (a_code w) (a_fields w)).
  assert (P : http_major p1 = 1 /\ http_minor p1 = 1).
  { unfold p1, response_fields. by destruct (effects_same (response_head (a_code w)) (a_fields w)) as (_ & _ & _ & _ & -> & -> & _). }
  destruct P as (P1 & P2).
  destruct (head_completed (Res r1) out (a_fields w) c3 p1 R2 HP) as (d & msg & c4 & Hk & Hmsg & Hr & Hg & Hi & Ho & V4);
    [rewrite V2, V1; done|exact P1|exact P2|].
  destruct msg as [|r2]; [done|]. cbn [finished with_base] in Ho.
  eexists _, c2, c3, c4. split; [|split; [exact T1|split; [exact T2|split; [|split; [|split; [exact Ho|done]]]]]].
  - cbn in Hmsg. injection Hmsg as Hmsg. split; cbn.
    + rewrite <- Es, <- Hmsg. done.
    + unfold p1 in Hr. rewrite response_fields_alive in Hr by done. cbn [msg_base] in Hr. by rewrite B in Hr.
  - intros p Hap. unfold plain_cb. cbn [on_event].
    assert (X : on_headers_complete p c3 = on_headers_complete p1 c3) by (by rewrite <- Hap). by rewrite X, Hk.
  - split; [by rewrite Hi, I2, I1|exact Hg].
Qed.

(** The parser and the codec over it. *)
Lemma answer_head_taken r0 w v out data beyond n f rest :
  head_answerable w -> MultiMap.wf (_headers (response_base r0)) -> v = UNSET \/ v = HTTP11 ->
  drop n data = chars (answer_head w) ++ rest -> fresh n (at_rest v out) f ->
  let st := parser_settings (Some (Res r0)) in
  exists r c, answered r0 w r /\ receiving (settings := st) c /\ output c = out ++ [got_header (Res r)] /\ _version c = HTTP11 /\
    reaches st data beyond false f (after_head st (n + length (chars (answer_head w))) c (response_fields (a_code w) (a_fields w))).
Proof.
  intros S Hwf Hv Hd F st. pose proof S as [Hc HR HB Hl].
  destruct (answer_heard r0 w v out S Hwf Hv) as (r & c2 & c3 & c4 & Ar & T1 & T2 & T3 & Hrec & Ho & V4).
  exists r, c4. do 4 (split; [done|]).
  exact (response_head_read st data beyond (at_rest v out) (set_data_ (Some (Res r0)) (at_rest v out)) ltac:(done) (a_code w) (a_reason w) (a_fields w) c2 c3 c4 n f rest
    Hc HR HB Hl T1 T2 T3 (proj2 Hrec) F Hd).
Qed.

Lemma answer_whole r0 w text :
  answerable w text -> MultiMap.wf (_headers (response_base r0)) ->
  taken_whole (Res r0) (answer_head w +:+ text) (fun r => told_of (Res r) (a_pieces w)) (answered r0 w).
Proof.
  intros [S HT] Hwf. split.
  { intros N. apply (f_equal chars) in N. unfold answer_head in N. by rewrite chars_app, chars_response in N. }
  intros data beyond n f rest v out Hv Hd F. pose proof (an_fields _ S) as HB. rewrite chars_app, <- app_assoc in Hd.
  destruct (answer_head_taken r0 w v out data beyond n f _ S Hwf Hv Hd F) as (r & c4 & Ar & Hrec & Ho & V4 & Q).
  exists r. split; [exact Ar|]. eapply reaches_trans; [exact Q|]. intros g G.
  eapply reaches_trans; [eapply body_read; [exact G|rewrite response_fields_body by done; exact HT|by apply response_fields_ok|exact Hrec|by apply data_on]|].
  intros h H. apply reaches_refl. cbn [take_end codec_receiver] in H. rewrite codec_pieces, emit_emit, reset_rest in H.
  change (_version (emit _ c4)) with (_version c4) in H. cbn [output emit] in H. rewrite V4, Ho in H.
  rewrite chars_app, length_app. unfold told_of. rewrite <- app_assoc in H. by rewrite Nat.add_assoc.
Qed.

(** ** Properties *)

(** C7: Responses sent one after the other, in whatever reads of whole responses, are
    told to the user of the codec as they were written: every one arrives, in order,
    with its code and its reason, the values of its fields, whether the connection
    stays, the pieces of its body, sized or in chunks, and its end; all the bytes
    are taken and the codec is at rest again.  There is no body where the code
    allows none.  The exception is a response without a reason: its code is lost,
    and the status is the one that the object had. *)
Theorem responses_received (r0 : http_response) (ws : list (answer * string)) (ls : list (list string)) (out : list decoded) :
  MultiMap.wf (_headers (response_base r0)) -> Forall (fun w => answerable w.1 w.2) ws ->
  mjoin ls = (fun w => answer_head w.1 +:+ w.2) <$> ws -> Forall (fun l => l <> [] /\ len (concat_str l) < 2 ^ 31) ls ->
  exists rs v, Forall2 (fun w r => answered r0 w.1 r) ws rs /\
    reads (Some (Res r0)) (concat_str <$> ls)
        {| _parser := http_parser_init HTTP_BOTH; impl := at_rest UNSET out; _ignore_content_len := false |} =
      Some (Ok (true, {| _parser := http_parser_init HTTP_BOTH;
        impl := at_rest v (out ++ mjoin (zip_with (fun w r => told_of (Res r) (a_pieces w.1)) ws rs));
        _ignore_content_len := false |})).
Proof.
  intros Hwf HF Hj HL. apply (reads_messages (Res r0) (fun w => answer_head w.1 +:+ w.2)); [|exact Hj|exact HL].
  eapply Forall_impl; [exact HF|]. intros [w text] S. by apply answer_whole.
Qed.

(** C38: A response of which the body goes on to the end of the stream - a code that
    allows a body, neither a length nor chunks - is never over for the user of the
    codec: he is told of the head and of every piece that arrives, and not of the
    end, for the codec hands no empty read to the parser, which would take it for
    the end of the stream. *)
Theorem unended_response_received (r0 : http_response) (w : answer) (out : list decoded) :
  MultiMap.wf (_headers (response_base r0)) -> head_answerable w ->
  response_framing (a_code w) (a_fields w) = until_eof -> Forall (fun d => d <> "" /\ len d < 2 ^ 31) (a_pieces w) ->
  exists r s, answered r0 w r /\
    reads (Some (Res r0)) (answer_head w :: a_pieces w)
        {| _parser := http_parser_init HTTP_BOTH; impl := at_rest UNSET out; _ignore_content_len := false |} = Some (Ok (true, s)) /\
    output (impl s) = out ++ got_header (Res r) :: (got_body <$> a_pieces w) /\
    pstate (_parser s) = s_body_identity_eof /\
    decode (Some (Res r0)) (fun _ => true) "" [] s = Some (Ok (true, s)).
Proof.
  intros Hwf S He HF. pose proof (an_fields _ S) as HB.
  set (txt := chars (answer_head w)).
  assert (F0 : fresh 0 (at_rest UNSET out) (start_frame (http_parser_init HTTP_BOTH) (at_rest UNSET out))) by (split; [done|by intros []]).
  destruct (answer_head_taken r0 w UNSET out txt [] 0 _ [] S Hwf ltac:(by left) ltac:(by rewrite app_nil_r) F0) as (r & c4 & Ar & Hrec & Ho & V4 & Q).
  assert (Hne : answer_head w <> "").
  { intros N. apply (f_equal chars) in N. unfold answer_head in N. by rewrite chars_response in N. }
  destruct (unended_head _ _ _ (http_parser_init HTTP_BOTH) _ _ _ Q) as (p1 & X & E1 & O1);
    [by rewrite response_fields_body|by apply response_fields_ok|apply init_ok|done|by intros N; apply Hne, chars_inj|].
  destruct (unended_taken (parser_settings (Some (Res r0))) (a_pieces w) p1 c4 E1 O1) as (p2 & F & E2);
    [eapply Forall_impl; [exact HF|]; by intros d []|exact Hrec|].
  rewrite codec_pieces in F. exists r. eexists. split; [exact Ar|]. split; [|split; [|split; [|reflexivity]]].
  - eapply fed_reads; [exists p1, c4; split; [exact Hne|split; [apply E1|split; [exact X|exact F]]]|done|].
    constructor; [|eapply Forall_impl; [exact HF|]; by intros d []].
    pose proof (an_size _ S) as Hl. unfold HTTP_MAX_HEADER_SIZE in Hl. change (2 ^ 31) with 2147483648. lia.
  - cbn. by rewrite Ho, <- app_assoc.
  - apply E2.
Qed.

(** The object of the examples, with an old status. *)
Definition a_response (code : Z) : http_response :=
  {| response_base := base example_request; _status_code := code; _status_message := "" |}.

Definition example_answers : list (answer * string) :=
  [({| a_code := 200; a_reason := "OK"; a_fields := [("Content-Length", "3"); ("ETag", "x")]; a_pieces := ["abc"] |}, "abc");
   ({| a_code := 304; a_reason := "Not Modified"; a_fields := [("Connection", "close")]; a_pieces := [] |}, "");
   ({| a_code := 404; a_reason := ""; a_fields := [("transfer-encoding", "chunked")];
       a_pieces := filter (fun d => d <> "") ["ab"; ""; "c"] |},
    concat_str (chunk <$> ["ab"; ""; "c"]) +:+ transfer_chunked_termination +:+ crlf)].

Ltac a_reason_line := repeat (apply Forall_cons; split; [split; discriminate|]); apply Forall_nil; exact I.

Lemma example_answerable : Forall (fun w => answerable w.1 w.2) example_answers.
Proof.
  constructor; [|constructor; [|constructor; [|constructor]]]; cbn [fst snd].
  - assert (B : response_framing 200 [("Content-Length", "3"); ("ETag", "x")] = of_length (len "abc")) by by vm_compute.
    split; [split; [by cbn; lia|a_reason_line|split; [readable_fields| |]|]|cbn [a_code a_fields a_pieces]; rewrite B; by apply text_length]; computed.
  - split; [split; [by cbn; lia|a_reason_line|split; [readable_fields| |]|]|exact text_none]; computed.
  - assert (F : Forall (fun d => len d < 2 ^ 60) ["ab"; ""; "c"]) by (repeat constructor; by vm_compute).
    split; [split; [by cbn; lia|a_reason_line|split; [readable_fields| |]|]|exact (text_chunks _ F)]; computed.
Qed.

Lemma responses_received_witness :
  exists rs v, Forall2 (fun w r => answered (a_response 7) w.1 r) example_answers rs /\
    reads (Some (Res (a_response 7))) (concat_str <$> example_reads (fun w => answer_head w.1 +:+ w.2) example_answers) new_http_codec =
      Some (Ok (true, {| _parser := http_parser_init HTTP_BOTH;
        impl := at_rest v (mjoin (zip_with (fun w r => told_of (Res r) (a_pieces w.1)) example_answers rs));
        _ignore_content_len := false |})).
Proof.
  apply (responses_received (a_response 7) example_answers (example_reads (fun w => answer_head w.1 +:+ w.2) example_answers) []).
  - repeat constructor; by vm_compute.
  - exact example_answerable.
  - done.
  - repeat constructor; first [discriminate|by vm_compute].
Defined.

Lemma unended_response_received_witness :
  exists r s, answered (a_response 7) {| a_code := 200; a_reason := "OK"; a_fields := [("Server", "x")]; a_pieces := ["ab"; "c"] |} r /\
    reads (Some (Res (a_response 7))) ["HTTP/1.1 200 OK" +:+ crlf +:+ "Server: x" +:+ crlf +:+ crlf; "ab"; "c"] new_http_codec =
      Some (Ok (true, s)) /\
    output (impl s) = [got_header (Res r); got_body "ab"; got_body "c"].
Proof.
  destruct (unended_response_received (a_response 7)
    {| a_code := 200; a_reason := "OK"; a_fields := [("Server", "x")]; a_pieces := ["ab"; "c"] |} []) as (r & s & H1 & H2 & H3 & _).
  - repeat constructor; by vm_compute.
  - split; [by cbn; lia|a_reason_line|split; [readable_fields| |]|]; computed.
  - by vm_compute.
  - repeat constructor; discriminate.
  - exists r, s. split; [exact H1|]. split; [exact H2|exact H3].
Defined.
