(* ===== verification/HttpCrash.v ===== *)
(** * Messages that the callbacks of the codec do not survive

    The parser of src/src/http_parser/http_parser.c is set to take requests and
    responses alike, and any version; the callbacks of
    src/src/http/http_codec_impl.h assert, or take for granted, that they are told
    of messages of their own side and of version 1. *)

From S2P Require Import Prelude CppStd MultiMap Utils HttpCommons StructuredData HttpMessages.
From S2P Require Import Encoder UrlParser HttpParser HttpExecute HttpSafe Decoder HttpCodec HttpRun.
From S2P Require Import HttpMethod HttpHead HttpFields DecodeHead HttpBody HttpRequest HttpResponse.

(** ** Runs that end in a crash *)
Section Crashes.
Context {C : Type} (st : http_parser_settings C) (data beyond : list ascii) (lenient : bool).
Implicit Types (f : frame C).





End Crashes.





(** ** A request line where responses are received *)






(** ** Properties *)



(** A request line without a version, which the parser takes for version 0.9, and an
    empty content length, which is read as a number in a function that must not
    throw. *)
Example no_version (fatal : Z -> bool) (r : http_request) (beyond : list ascii) :
  decode (Some (Req r)) fatal (lines ["GET /"; ""]) beyond new_http_codec = Some (Crash AssertFailed).
Proof. vm_compute. reflexivity. Qed.

Example no_length (fatal : Z -> bool) (beyond : list ascii) :
  decode (Some (Req example_request)) fatal (lines ["GET / HTTP/1.1"; "Content-Length:"; ""]) beyond new_http_codec = Some (Crash Terminated).
Proof. vm_compute. reflexivity. Qed.
