(* ===== verification/HttpRoundTrip.v ===== *)
(** * From a message to its bytes and back

    What a user of the codec sends, another one receives: [serialize] and the
    encoder (src/src/http/http_structured_data.cpp, http_request.cpp,
    http_response.cpp, http_codec.cpp) write what the parser and the callbacks of
    the codec (src/src/http_parser/http_parser.c, src/src/http/http_codec_impl.h)
    read. *)

From S2P Require Import Prelude CppStd MultiMap Utils HttpCommons StructuredData HttpMessages.
From S2P Require Import Encoder UrlParser HttpParser HttpExecute HttpSafe Decoder HttpCodec HttpRun.
From S2P Require Import HttpMethod HttpHead HttpFields DecodeHead HttpBody HttpRequest HttpResponse.

(** ** A block with a line for every field *)

(** No field has two values: their line would be one. *)
Definition single (m : headers_map) : Prop := forall k, (length (values k m) <= 1)%nat.

Lemma single_cons h m : single (h :: m) -> single m /\ values h.1 m = [].
Proof.
  intros S. split.
  - intros k. pose proof (S k) as H. rewrite values_cons in H. case_decide; cbn in H; lia.
  - pose proof (S h.1) as H. rewrite values_cons, decide_True in H by done. cbn in H. apply length_zero_iff_nil. lia.
Qed.

Lemma single_value m k v : single m -> (k, v) ∈ m -> values k m = [v].
Proof.
  intros S H. apply values_elem in H. pose proof (S k) as L. destruct (values k m) as [|x [|y l]]; cbn in L; [by apply elem_of_nil in H| |lia].
  apply list_elem_of_singleton in H. by subst.
Qed.

Lemma keys_single m last : single m -> (forall k, last = Some k -> values k m = []) -> keys_after last m = fst <$> m.
Proof.
  revert last. induction m as [|h m IH]; intros last S Hl; [done|]. cbn [keys_after fmap list_fmap].
  rewrite bool_decide_eq_false_2.
  - f_equal. destruct (single_cons h m S) as [S1 S2]. apply IH; [done|]. by intros k [= <-].
  - intros ->. specialize (Hl h.1 eq_refl). by rewrite values_cons, decide_True in Hl.
Qed.

Lemma block_single m : single m -> header_block m = block m +:+ crlf.
Proof.
  intros S. unfold header_block, block, keys. rewrite keys_single by done. f_equal. f_equal.
  rewrite <- list_fmap_compose. apply list_fmap_ext. intros i [k v] Hi. apply list_elem_of_lookup_2 in Hi.
  unfold line, field_line. cbn [compose fst snd]. rewrite (single_value m k v S Hi). done.
Qed.

(** ** Fields read back *)

Lemma field_values_absent k old m :
  Forall (fun h => lowercase h.1 = h.1) m -> values k m = [] ->
  field_values k old m = if chunks_set m && bool_decide (k = hf_content_len) then [] else old.
Proof.
  intros HF. revert old. induction HF as [|h m Hh HF IH]; intros old Hv; [done|].
  rewrite values_cons in Hv. case_decide as Hk; [done|]. cbn [field_values foldl]. fold (field_values k (values_step k old h) m).
  rewrite IH by done. unfold values_step. cbv zeta. rewrite Hh, decide_False by done. cbn [chunks_set existsb].
  fold (chunks_set m). rewrite Hh. by destruct (sets_chunked _ _), (chunks_set m), (bool_decide _).
Qed.

Lemma field_values_present k v old m :
  Forall (fun h => lowercase h.1 = h.1) m -> single m -> values k m = [v] -> (k = hf_content_len -> chunks_set m = false) ->
  old = [] \/ singular k = true -> field_values k old m = [v].
Proof.
  intros HF. revert old. induction HF as [|h m Hh HF IH]; intros old S Hv Hc Ho; [done|].
  destruct (single_cons h m S) as [S1 S2]. cbn [field_values foldl]. fold (field_values k (values_step k old h) m).
  cbn [chunks_set existsb] in Hc. fold (chunks_set m) in Hc.
  assert (Hc' : k = hf_content_len -> chunks_set m = false) by (intros E; by apply Hc, orb_false_iff in E as [_ ?]).
  rewrite values_cons in Hv. unfold values_step. cbv zeta. rewrite Hh. case_decide as Hk.
  - subst k. injection Hv as <- Hv. rewrite field_values_absent by done.
    assert (E : chunks_set m && bool_decide (h.1 = hf_content_len) = false).
    { apply andb_false_iff. destruct (decide (h.1 = hf_content_len)) as [E|E]; [left; by apply Hc'|right; by apply bool_decide_eq_false]. }
    rewrite E. destruct Ho as [-> | ->]; [by destruct (singular h.1 || sets_chunked h.1 h.2)|done].
  - apply IH; [done|done|done|]. destruct (sets_chunked h.1 h.2 && bool_decide (k = hf_content_len)); [by left|exact Ho].
Qed.

(** ** Headers that are read back *)

(** The headers of a message that is sent with the pieces [ds]: in the range of
    the operations of [http_structured_data], HTTP/1.1, every field once and of a
    form that is followed, and what the members say said by the fields. *)
Record sendable_data (d : http_structured_data) (ds : list string) : Prop := {
  sd_valid : valid d;
  sd_protocol : _protocol d = HTTP11;
  sd_single : single (_headers d);
  sd_block : block_ok (_headers d);
  sd_connection : values hf_connection (_headers d) = [if _keepalive d then hv_keepalive else hv_connection_close];
  sd_chunked : existsb is_coding (_headers d) = _chunked d;
  sd_framed : _chunked d = false -> values hf_content_len (_headers d) = [to_string (len (concat_str ds))];
  sd_length : len (concat_str ds) < 2 ^ 60 }.

(** The members that go over the wire, or are said there. *)
Record same_data (d d' : http_structured_data) : Prop := {
  sm_headers : _headers d' = _headers d;
  sm_protocol : _protocol d' = _protocol d;
  sm_chunked : _chunked d' = _chunked d;
  sm_keepalive : _keepalive d' = _keepalive d;
  sm_length : _chunked d = false -> _content_len d' = _content_len d }.

Lemma existsb_in {A} (f g : A -> bool) l : (forall x, x ∈ l -> f x = g x) -> existsb f l = existsb g l.
Proof.
  induction l as [|x l IH]; intros H; [done|]. cbn. rewrite (H x) by by left. f_equal. apply IH. intros y Hy. apply H. by right.
Qed.

Lemma coding_chunks m : Forall readable m -> chunks_set m = existsb is_coding m.
Proof.
  intros HF. apply existsb_in. intros kv Hin. rewrite Forall_forall in HF. specialize (HF kv Hin).
  unfold sets_chunked, is_coding. change hf_transfer_encoding with TRANSFER_ENCODING.
  case_bool_decide as Hk; [|done]. cbn [andb]. destruct HF as [G|[[H _]|[[H _]|[_ Hv]]]].
  - by destruct (good_unknown kv TRANSFER_ENCODING G ltac:(in_list)).
  - by rewrite Hk in H.
  - by rewrite Hk in H.
  - by rewrite Hv.
Qed.

Lemma close_single m (ka : bool) :
  Forall (fun h => lowercase h.1 = h.1) m -> single m -> values hf_connection m = [if ka then hv_keepalive else hv_connection_close] ->
  existsb is_close m = negb ka.
Proof.
  intros HL S Hv. destruct ka; cbn [negb].
  - apply not_true_iff_false. intros ([k v] & Hin & E)%existsb_exists. apply list_elem_of_In in Hin.
    rewrite Forall_forall in HL. unfold is_close in E. rewrite (HL _ Hin) in E. cbn [fst snd] in E.
    apply andb_prop in E as [E1%bool_decide_eq_true E2%bool_decide_eq_true]. subst.
    pose proof (single_value m _ _ S Hin) as H. change CONNECTION with hf_connection in H. by rewrite Hv in H.
  - apply existsb_exists. exists (hf_connection, hv_connection_close). split; [|done].
    apply list_elem_of_In, values_elem. rewrite Hv. by left.
Qed.

Lemma blank_headers t d0 :
  new_data t = Ok d0 -> valid d0 /\ _chunked d0 = false /\ values hf_content_len (_headers d0) = ["0"] /\
    forall k, k <> hf_connection -> k <> hf_content_len -> values k (_headers d0) = [].
Proof.
  intros E. split; [by eapply valid_new|]. revert E. vm_compute (new_data t). intros [= <-]. split; [done|]. split; [done|].
  intros k H1 H2. unfold _headers. rewrite !values_cons. cbn [fst snd].
  rewrite !decide_False by (intros <-; by first [apply H1|apply H2]). done.
Qed.

Lemma data_back d ds t d0 d' :
  sendable_data d ds -> new_data t = Ok d0 -> headers_read d0 (_keepalive d) (_headers d) d' -> same_data d d'.
Proof.
  intros [V P S B Hk Hc Hf Hl] Hn [W' V' P' K' C' N' F']. destruct (blank_headers t d0 Hn) as (V0 & C0 & L0 & N0).
  assert (EC : chunks_set (_headers d) = _chunked d) by (rewrite coding_chunks, Hc; [done|apply B]).
  assert (EH : _headers d' = _headers d).
  { apply multimap_ext; [exact W'|apply V|]. intros k. destruct (decide (k = hf_connection)) as [->|Hne]; [by rewrite N', Hk|].
    rewrite F' by done. destruct (values k (_headers d)) as [|v [|]] eqn:Ev.
    - rewrite field_values_absent; [|apply V|exact Ev]. rewrite EC. destruct (decide (k = hf_content_len)) as [->|Hcl].
      + destruct (_chunked d) eqn:Ech; [done|]. by rewrite Hf in Ev.
      + rewrite N0 by done. by destruct (_ && _).
    - apply field_values_present; [apply V|exact S|exact Ev| |].
      + intros ->. rewrite EC, <- Hc. pose proof (bo_one _ B) as Ho. apply andb_false_iff in Ho as [Ho|Ho]; [exact Ho|].
        exfalso. apply not_true_iff_false in Ho. apply Ho, existsb_exists. exists (hf_content_len, v). split; [|done].
        apply list_elem_of_In, values_elem. rewrite Ev. by left.
      + destruct (decide (k = hf_content_len)) as [->|Hcl]; [by right|left; by apply N0].
    - pose proof (S k) as Hs. rewrite Ev in Hs. cbn in Hs. lia. }
  split; [exact EH|by rewrite P', P|by rewrite C', C0, EC|exact K'|].
  intros Hnc. pose proof (valid_content_len _ V _ ltac:(rewrite Hf by done; by left)) as E1.
  pose proof (valid_content_len _ (V' V0) (to_string (len (concat_str ds))) ltac:(rewrite EH, Hf by done; by left)) as E2.
  congruence.
Qed.

(** ** What is written of a message *)

(** The pieces the reader is told of. *)
Definition body_pieces (chunked : bool) (ds : list string) : list string :=
  if chunked then filter (fun d => d <> "") ds
  else if empty (concat_str ds) then [] else [concat_str ds].

Definition body_sent (chunked : bool) (ds : list string) : string :=
  if chunked then concat_str (chunk <$> ds) +:+ last_chunk [] else concat_str ds.

Lemma declared_single m o :
  Forall (fun h => lowercase h.1 = h.1) m -> single m ->
  foldl (fun o kv => if is_length kv then stoull kv.2 else o) o m =
    match values hf_content_len m with v :: _ => stoull v | [] => o end.
Proof.
  intros HF. revert o. induction HF as [|h m Hh HF IH]; intros o S; [done|].
  destruct (single_cons h m S) as [S1 S2]. cbn [foldl]. rewrite IH by done. rewrite values_cons.
  unfold is_length. rewrite Hh. change CONTENT_LENGTH with hf_content_len. case_decide as Hk.
  - rewrite <- Hk, S2, bool_decide_eq_true_2; done.
  - by rewrite bool_decide_eq_false_2.
Qed.

Lemma body_written eof d ds :
  sendable_data d ds ->
  body_text (framing_of eof (_headers d)) (body_pieces (_chunked d) ds) (body_sent (_chunked d) ds).
Proof.
  intros [V P S B Hk Hc Hf Hl]. unfold framing_of, body_sent, body_pieces. rewrite Hc. destruct (_chunked d).
  - change (last_chunk []) with (transfer_chunked_termination +:+ crlf). apply text_chunks.
    clear -Hl. induction ds as [|x ds IH]; [constructor|]. cbn [concat_str] in Hl. rewrite len_app in Hl.
    pose proof (len_nonneg x). pose proof (len_nonneg (concat_str ds)). constructor; [lia|]. apply IH. lia.
  - unfold declared. rewrite declared_single, Hf by (done || apply V). pose proof (len_nonneg (concat_str ds)).
    change (2 ^ 60) with 1152921504606846976 in Hl. rewrite stoull_to_string by (unfold in_range; cbn; lia).
    destruct (Z.eqb_spec (len (concat_str ds)) 0) as [E|E].
    + apply len_zero in E. rewrite E. apply text_none.
    + assert (N : concat_str ds <> "") by (intros N; apply E; by rewrite N).
      unfold empty. rewrite bool_decide_eq_false_2 by done. by apply text_length.
Qed.

Lemma head_serialized d ds : sendable_data d ds -> serialize d = Ok (block (_headers d) +:+ crlf).
Proof.
  intros [V P S B Hk _ _ _]. rewrite serialize_spec; [by rewrite block_single|apply V| |].
  - eapply Forall_impl; [apply (bo_readable _ B)|]. intros [k v] [[N _]|[[E _]|[[E _]|[E _]]]]; [exact N|..];
      cbn [fst] in *; intros ->; discriminate E.
  - intros N. by rewrite N in Hk.
Qed.

(** Messages encoded one after the other. *)
Fixpoint encode_messages `{Message T} (ws : list (T * list string)) (e : encoder) : outcome (list string * encoder) :=
  match ws with
  | [] => mret ([], e)
  | (m, ds) :: ws =>
      '(s, e) ← encode_message m ds [] e;
      '(l, e) ← encode_messages ws e;
      mret (s :: l, e)
  end.

Lemma messages_written `{Message T} (head : T -> list string -> string) ws e :
  Forall (fun w => msg_serialize w.1 = Ok (head w.1 w.2)) ws -> enc_state e = ZERO ->
  exists e', encode_messages ws e = Ok ((fun w => head w.1 w.2 +:+ body_sent (msg_chunked w.1) w.2) <$> ws, e') /\ enc_state e' = ZERO.
Proof.
  intros HF. revert e. induction HF as [|[m ds] ws Hs HF IH]; intros e He; [by exists e|]. cbn [fst snd] in Hs. cbn [encode_messages].
  destruct (encode_message_ok m _ ds [] e Hs He ltac:(done)) as (e1 & E1 & Z1). rewrite E1. cbn [mbind outcome_bind].
  destruct (IH e1 Z1) as (e2 & E2 & Z2). rewrite E2. exists e2. split; [|exact Z2]. cbn [mbind outcome_bind mret outcome_ret fmap list_fmap fst snd].
  unfold body_sent. destruct (msg_chunked m); [done|]. cbn [fmap list_fmap concat_str]. by rewrite string_app_nil_r.
Qed.

(** Messages of which what is written is told, one after the other. *)
Lemma messages_back `{Message T} (m0 : message) (mk : T -> message) (head : T -> list string -> string) (P : T -> T -> Prop) ws e out :
  enc_state e = ZERO ->
  Forall (fun w => msg_serialize w.1 = Ok (head w.1 w.2) /\
    taken_whole m0 (head w.1 w.2 +:+ body_sent (msg_chunked w.1) w.2)
      (fun r => told_of (mk r) (body_pieces (msg_chunked w.1) w.2)) (P w.1)) ws ->
  exists texts e', encode_messages ws e = Ok (texts, e') /\ enc_state e' = ZERO /\
    forall ls, mjoin ls = texts -> Forall (fun l => l <> [] /\ len (concat_str l) < 2 ^ 31) ls ->
    exists rs v, Forall2 (fun w r => P w.1 r) ws rs /\
      reads (Some m0) (concat_str <$> ls)
          {| _parser := http_parser_init HTTP_BOTH; impl := at_rest UNSET out; _ignore_content_len := false |} =
        Some (Ok (true, {| _parser := http_parser_init HTTP_BOTH;
          impl := at_rest v (out ++ mjoin (zip_with (fun w r => told_of (mk r) (body_pieces (msg_chunked w.1) w.2)) ws rs));
          _ignore_content_len := false |})).
Proof.
  intros He HF. destruct (messages_written head ws e) as (e' & E & Z); [by eapply Forall_impl; [exact HF|]; intros w []|exact He|].
  eexists _, e'. split; [exact E|]. split; [exact Z|]. intros ls Hj HL.
  apply (reads_messages m0 (fun w : T * list string => head w.1 w.2 +:+ body_sent (msg_chunked w.1) w.2)
    (fun w r => told_of (mk r) (body_pieces (msg_chunked w.1) w.2)) (fun w r => P w.1 r) ws ls out); [|exact Hj|exact HL].
  eapply Forall_impl; [exact HF|]. by intros w [_ ?].
Qed.

(** ** Requests *)

Definition request_sent (r : http_request) (ds : list string) : sent :=
  {| s_name := default "" (method_mapper !! Z.to_nat (_method r));
     s_path := _path r; s_query := _query r; s_fragment := _fragment r;
     s_fields := _headers (base r); s_pieces := body_pieces (_chunked (base r)) ds |}.

(** A request that is sent with the pieces [ds]. *)
Record sendable_request (r : http_request) (ds : list string) : Prop := {
  sr_data : sendable_data (base r) ds;
  sr_method : 0 <= _method r < HTTP_END /\ _method r <> HTTP_CONNECT;
  sr_path : path_part (_path r) = true;
  sr_query : url_chars (_query r) = true;
  sr_fragment : url_chars (_fragment r) = true;
  sr_target : len (sent_target (request_sent r ds)) <= max_uri_len;
  sr_size : len (sent_head (request_sent r ds)) <= HTTP_MAX_HEADER_SIZE }.

(** The same request, as far as it goes over the wire. *)
Record same_request (r r' : http_request) : Prop := {
  sq_method : _method r' = _method r;
  sq_path : _path r' = _path r;
  sq_query : _query r' = _query r;
  sq_fragment : _fragment r' = _fragment r;
  sq_data : same_data (base r) (base r') }.

Lemma method_listed m : 0 <= m < HTTP_END ->
  exists name, method_mapper !! Z.to_nat m = Some name /\ method_named (chars name) = Some m.
Proof.
  intros Hm. unfold HTTP_END in Hm.
  assert (A : forallb (fun i => match method_mapper !! i with
      | Some name => bool_decide (method_named (chars name) = Some (Z.of_nat i))
      | None => false end) (seq 0 33) = true) by (by vm_compute).
  rewrite forallb_forall in A. specialize (A (Z.to_nat m) (proj2 (in_seq 33 0 (Z.to_nat m)) ltac:(lia))).
  destruct (method_mapper !! Z.to_nat m) as [name|]; [|done]. exists name. split; [done|].
  apply bool_decide_eq_true_1 in A. rewrite A. f_equal. lia.
Qed.

Lemma request_written r ds : sendable_request r ds -> serialize_request r = Ok (sent_head (request_sent r ds)).
Proof.
  intros [S [Hm _] Hp _ _ _ _]. destruct (method_listed _ Hm) as (name & En & _).
  unfold serialize_request, method_string, method_name. rewrite (proj2 (Z.ltb_ge _ _)), En by lia.
  cbn [of_option mbind outcome_bind]. rewrite (head_serialized _ _ S). cbn [mbind outcome_bind mret outcome_ret]. f_equal.
  rewrite start_line_target. unfold sent_head, head_text, sent_target, origin_form, target, protocol_string. cbn [request_sent s_name s_path s_query s_fragment s_fields].
  rewrite En, (sd_protocol _ _ S). cbn [default from_option proto_to_string]. change (id name) with name.
  assert (E : empty (_path r) = false) by (apply bool_decide_eq_false; intros N; by rewrite N in Hp).
  rewrite E. by rewrite !string_app_assoc.
Qed.

Lemma request_sendable r ds : sendable_request r ds -> sendable (request_sent r ds) (body_sent (_chunked (base r)) ds).
Proof.
  intros [S [Hm Hc] Hp Hq Hf Ht Hs]. destruct (method_listed _ Hm) as (name & En & Nn). split; try done.
  - exists (_method r). cbn. by rewrite En.
  - apply S.
  - by apply body_written.
Qed.

Lemma request_back r ds ssl m r0 r' :
  sendable_request r ds -> new_request ssl m = Ok r0 -> arrived r0 (request_sent r ds) r' -> same_request r r'.
Proof.
  intros [S [Hm _] _ _ _ _ _] Hn [A1 A2 A3 A4 A5]. destruct (method_listed _ Hm) as (name & En & Nn).
  assert (EN : s_name (request_sent r ds) = name) by (cbn; by rewrite En). rewrite EN, Nn in A1. cbn [request_sent s_path s_query s_fragment s_fields] in *.
  unfold new_request in Hn. destruct (new_data http_request_type) as [d0|] eqn:Ed; [|done]. injection Hn as <-.
  split; [congruence|done|done|done|]. unfold says_stay in A5. cbn [s_fields] in A5. rewrite (close_single _ (_keepalive (base r))), negb_involutive in A5; [|apply S..].
  by eapply data_back.
Qed.

(** ** Responses *)

Definition response_sent (r : http_response) (ds : list string) : answer :=
  {| a_code := _status_code r; a_reason := _status_message r; a_fields := _headers (response_base r);
     a_pieces := body_pieces (_chunked (response_base r)) ds |}.

(** A response that is sent with the pieces [ds]. *)
Record sendable_response (r : http_response) (ds : list string) : Prop := {
  ss_data : sendable_data (response_base r) ds;
  ss_code : 100 <= _status_code r <= 999;
  ss_reason : _status_message r <> "" /\ Forall reason_char (chars (_status_message r));
  ss_size : len (answer_head (response_sent r ds)) <= HTTP_MAX_HEADER_SIZE }.

(** The same response, as far as it goes over the wire. *)
Record same_response (r r' : http_response) : Prop := {
  sp_code : _status_code r' = _status_code r;
  sp_message : _status_message r' = _status_message r;
  sp_data : same_data (response_base r) (response_base r') }.

Lemma response_written r ds : sendable_response r ds -> serialize_response r = Ok (answer_head (response_sent r ds)).
Proof.
  intros [S _ _ _]. unfold serialize_response. rewrite (head_serialized _ _ S). cbn [mbind outcome_bind mret outcome_ret]. f_equal.
  unfold status_line, protocol_string, answer_head, response_text. rewrite (sd_protocol _ _ S). cbn [proto_to_string].
  by rewrite !string_app_assoc.
Qed.

Lemma response_answerable r ds :
  sendable_response r ds -> answerable (response_sent r ds) (body_sent (_chunked (response_base r)) ds).
Proof.
  intros [S Hc [_ Hm] Hs]. split; [split; try done; apply S|by apply body_written].
Qed.

Lemma response_stays r ds : sendable_response r ds -> stays (_status_code r) (_headers (response_base r)) = _keepalive (response_base r).
Proof.
  intros [S _ _ _].
  unfold stays. rewrite (close_single _ (_keepalive (response_base r))), negb_involutive by apply S.
    unfold response_framing, framing_of. rewrite (sd_chunked _ _ S). destruct (_chunked (response_base r)) eqn:Ec; [by rewrite andb_true_r|].
    unfold declared. rewrite declared_single, (sd_framed _ _ S Ec) by apply S. pose proof (len_nonneg (concat_str ds)).
    pose proof (sd_length _ _ S) as Hl. change (2 ^ 60) with 1152921504606846976 in Hl. rewrite stoull_to_string by (unfold in_range; cbn; lia).
    destruct (_ =? 0); by rewrite andb_true_r.
Qed.

Lemma response_back r ds g r0 r' :
  sendable_response r ds -> new_response g = Ok r0 -> answered r0 (response_sent r ds) r' -> same_response r r'.
Proof.
  intros SR Hn [A1 A2]. pose proof SR as [S _ [Hne _] _]. cbn [response_sent a_code a_reason a_fields] in *.
  unfold told_status in A1. rewrite decide_False in A1 by done. injection A1 as E1 E2.
  unfold new_response in Hn. destruct (new_data http_response_type) as [d0|] eqn:Ed; [|done]. injection Hn as <-.
  split; [done|done|]. cbn [response_base] in A2.
  rewrite (response_stays r ds) in A2; [|exact SR]. by eapply data_back.
Qed.

(** ** Properties *)

(** C4: What a user of the codec sends, another one receives.  Requests that are in
    the range of the operations of [http_request] and of HTTP/1.1, with a method of
    the table but [CONNECT], a target that the parser takes, every field once and
    fields that say what the members say, are encoded one after the other, with
    bodies sized or in chunks; what comes of it, in whatever reads of whole ones, is
    told to the codec's user as the same requests - method, target, all the fields,
    whether the connection stays, the framing -, in order, each followed by the
    pieces of its body and its end. *)
Theorem requests_roundtrip (ssl : bool) (m : Z) (r0 : http_request) (ws : list (http_request * list string))
    (e : encoder) (out : list decoded) :
  new_request ssl m = Ok r0 -> enc_state e = ZERO -> Forall (fun w => sendable_request w.1 w.2) ws ->
  exists texts e', encode_messages ws e = Ok (texts, e') /\ enc_state e' = ZERO /\
    forall ls, mjoin ls = texts -> Forall (fun l => l <> [] /\ len (concat_str l) < 2 ^ 31) ls ->
    exists rs v, Forall2 (fun w r => same_request w.1 r) ws rs /\
      reads (Some (Req r0)) (concat_str <$> ls)
          {| _parser := http_parser_init HTTP_BOTH; impl := at_rest UNSET out; _ignore_content_len := false |} =
        Some (Ok (true, {| _parser := http_parser_init HTTP_BOTH;
          impl := at_rest v (out ++ mjoin (zip_with (fun w r => told_of (Req r) (body_pieces (_chunked (base w.1)) w.2)) ws rs));
          _ignore_content_len := false |})).
Proof.
  intros Hn He HF. pose proof (blank_request _ _ _ Hn) as Hwf.
  assert (Q := messages_back (Req r0) Req (fun r ds => sent_head (request_sent r ds)) same_request ws e out He).
  cbn [msg_chunked msg_serialize request_message response_message] in Q. apply Q. clear Q.
  eapply Forall_impl; [exact HF|]. intros [r ds] S. cbn [fst snd] in *. split; [by apply request_written|].
  destruct (request_whole r0 _ _ (request_sendable _ _ S) Hwf) as [N T]. split; [exact N|].
  intros data beyond n f rest v o Hv Hd F. destruct (T data beyond n f rest v o Hv Hd F) as (r' & Ar & X).
  exists r'. split; [by eapply request_back|exact X].
Qed.

(** C5: The same of responses with a reason, and a length or chunks. *)
Theorem responses_roundtrip (g : Z) (r0 : http_response) (ws : list (http_response * list string))
    (e : encoder) (out : list decoded) :
  new_response g = Ok r0 -> enc_state e = ZERO -> Forall (fun w => sendable_response w.1 w.2) ws ->
  exists texts e', encode_messages ws e = Ok (texts, e') /\ enc_state e' = ZERO /\
    forall ls, mjoin ls = texts -> Forall (fun l => l <> [] /\ len (concat_str l) < 2 ^ 31) ls ->
    exists rs v, Forall2 (fun w r => same_response w.1 r) ws rs /\
      reads (Some (Res r0)) (concat_str <$> ls)
          {| _parser := http_parser_init HTTP_BOTH; impl := at_rest UNSET out; _ignore_content_len := false |} =
        Some (Ok (true, {| _parser := http_parser_init HTTP_BOTH;
          impl := at_rest v (out ++ mjoin (zip_with (fun w r => told_of (Res r) (body_pieces (_chunked (response_base w.1)) w.2)) ws rs));
          _ignore_content_len := false |})).
Proof.
  intros Hn He HF. pose proof (blank_response _ _ Hn) as Hwf.
  assert (Q := messages_back (Res r0) Res (fun r ds => answer_head (response_sent r ds)) same_response ws e out He).
  cbn [msg_chunked msg_serialize request_message response_message] in Q. apply Q. clear Q.
  eapply Forall_impl; [exact HF|]. intros [r ds] S. cbn [fst snd] in *. split; [by apply response_written|].
  destruct (answer_whole r0 _ _ (response_answerable _ _ S) Hwf) as [N T]. split; [exact N|].
  intros data beyond n f rest v o Hv Hd F. destruct (T data beyond n f rest v o Hv Hd F) as (r' & Ar & X).
  exists r'. split; [by eapply response_back|exact X].
Qed.

(** ** Witnesses *)
Lemma nodup_single m : NoDup (fst <$> m) -> single m.
Proof.
  induction m as [|h m IH]; intros H k; [cbn; lia|]. cbn [fmap list_fmap] in H. apply NoDup_cons in H as [Hn H].
  rewrite values_cons. case_decide as Hk; [|by apply IH]. subst k. cbn.
  destruct (values h.1 m) as [|v l] eqn:E; [cbn; lia|]. exfalso. apply Hn, list_elem_of_fmap. exists (h.1, v). split; [done|].
  apply values_elem. rewrite E. by left.
Qed.

(** Headers of an example: in order, in lower case, once. *)
Definition example_headers (chunked : bool) (ka : bool) (n : Z) (m : headers_map) : http_structured_data :=
  {| _type := http_request_type; _protocol := HTTP11; _channel := HTTP11; _headers := m; _chunked := chunked;
     _keepalive := ka; _default_keepalive := true; _content_len := n |}.

Definition get_it : http_request * list string :=
  ({| base := example_headers false true 0 [("connection", "keep-alive"); ("content-length", "0"); ("host", "a.org")];
      _ssl := false; _method := HTTP_GET; _schema := ""; _urihost := ""; _port := ""; _path := "/a"; _query := "x=1";
      _fragment := ""; _userinfo := ""; _params := ∅ |}, []).
Definition put_it : http_request * list string :=
  ({| base := example_headers true false 0 [("connection", "close"); ("transfer-encoding", "chunked")];
      _ssl := false; _method := HTTP_PUT; _schema := ""; _urihost := ""; _port := ""; _path := "/"; _query := "";
      _fragment := ""; _userinfo := ""; _params := ∅ |}, ["ab"; ""; "c"]).
Definition answer_it : http_response * list string :=
  ({| response_base := example_headers false true 3 [("connection", "keep-alive"); ("content-length", "3"); ("x-tag", "t")];
      _status_code := 200; _status_message := "OK" |}, ["ab"; "c"]).

Lemma examples_valid d :
  single (_headers d) -> MultiMap.wf (_headers d) ->
  bool_decide (Forall (fun h => lowercase h.1 = h.1) (_headers d)) = true ->
  bool_decide (Forall (fun v => stoull v = Some (_content_len d)) (values hf_content_len (_headers d))) = true ->
  in_range 64 (_content_len d) -> valid d.
Proof.
  intros S H1 H2%bool_decide_eq_true H3%bool_decide_eq_true H4. split; [exact H1|exact H2| | |exact H4].
  - intros k _. apply S.
  - by rewrite Forall_forall in H3.
Qed.

Ltac sendable_example :=
  lazymatch goal with
  | |- single _ => apply nodup_single, (bool_decide_unpack _); by vm_compute
  | |- valid _ => apply examples_valid; [apply nodup_single, (bool_decide_unpack _); by vm_compute|repeat constructor; by vm_compute|by vm_compute..]
  | |- block_ok _ => split; [readable_fields| |]; computed
  | |- sendable_data _ _ => split; sendable_example
  | |- _ -> _ => intros; by vm_compute
  | |- _ => computed
  end.

Definition idle : encoder := {| enc_chunked := false; enc_state := ZERO |}.

Lemma requests_roundtrip_witness :
  exists r0 t1 t2 e' rs v, new_request false 0 = Ok r0 /\ encode_messages [get_it; put_it] idle = Ok ([t1; t2], e') /\
    Forall2 (fun w r => same_request w.1 r) [get_it; put_it] rs /\
    reads (Some (Req r0)) [t1 +:+ t2] new_http_codec = Some (Ok (true, {| _parser := http_parser_init HTTP_BOTH;
      impl := at_rest v (mjoin (zip_with (fun w r => told_of (Req r) (body_pieces (_chunked (base w.1)) w.2)) [get_it; put_it] rs));
      _ignore_content_len := false |})).
Proof.
  destruct (new_request false 0) as [r0|] eqn:E; [|by vm_compute in E].
  destruct (requests_roundtrip false 0 r0 [get_it; put_it] idle [] E eq_refl) as (texts & e' & H1 & _ & H2).
  - constructor; [|constructor; [|constructor]]; (split; [sendable_example|split; [split; by vm_compute|by vm_compute]|computed..]).
  - assert (exists t1 t2, texts = [t1; t2] /\ len (concat_str [t1; t2]) < 2 ^ 31) as (t1 & t2 & -> & Hl).
    { vm_compute in H1. injection H1 as <- _. eexists _, _. split; [reflexivity|by vm_compute]. }
    destruct (H2 [[t1; t2]]) as (rs & v & H3 & H4); [done|by constructor|].
    exists r0, t1, t2, e', rs, v. split; [done|]. split; [exact H1|]. split; [exact H3|].
    cbn [fmap list_fmap concat_str] in H4. rewrite string_app_nil_r in H4. exact H4.
Defined.

Lemma responses_roundtrip_witness :
  exists r0 t e' rs v, new_response 0 = Ok r0 /\ encode_messages [answer_it] idle = Ok ([t], e') /\
    Forall2 (fun w r => same_response w.1 r) [answer_it] rs /\
    reads (Some (Res r0)) [t] new_http_codec = Some (Ok (true, {| _parser := http_parser_init HTTP_BOTH;
      impl := at_rest v (mjoin (zip_with (fun w r => told_of (Res r) (body_pieces (_chunked (response_base w.1)) w.2)) [answer_it] rs));
      _ignore_content_len := false |})).
Proof.
  destruct (new_response 0) as [r0|] eqn:E; [|by vm_compute in E].
  destruct (responses_roundtrip 0 r0 [answer_it] idle [] E eq_refl) as (texts & e' & H1 & _ & H2).
  - constructor; [|constructor]. split; [sendable_example|by split|split; [done|a_reason_line]|computed..].
  - assert (exists t, texts = [t] /\ len (concat_str [t]) < 2 ^ 31) as (t & -> & Hl).
    { vm_compute in H1. injection H1 as <- _. eexists. split; [reflexivity|by vm_compute]. }
    destruct (H2 [[t]]) as (rs & v & H3 & H4); [done|by constructor|].
    exists r0, t, e', rs, v. split; [done|]. split; [exact H1|]. split; [exact H3|].
    cbn [fmap list_fmap concat_str] in H4. rewrite string_app_nil_r in H4. exact H4.
Defined.
