(* ===== verification/Negotiation.v ===== *)
(** * Choosing a protocol (src/src/protocol/handler_factory.{h,cpp}, the second half
    of src/src/network/communicator/dns_communicator_factory.cpp,
    src/src/http_client.{h,cpp})

    A list of protocols travels as bytes: each name after its length.  The client
    offers such a list with ALPN, and reads the server's with NPN; when the
    handshake is over each side asks OpenSSL for the name and builds the handler
    for it.  OpenSSL is not part of the program: what it answers is an argument. *)

From S2P Require Import Prelude CppStd HttpCommons.

(** ** Lists of protocols *)

(** A name as a list has it. *)
Definition entry (p : string) : list ascii := ascii_of (len p) :: chars p.
Definition wire (ps : list string) : list ascii := mjoin (entry <$> ps).

(** A name that a list can have. *)
Definition nameable (p : string) : Prop := 1 <= len p < 256.

(** The constants, as both files have them. *)
Definition NGHTTP2_H2_ALPN : list ascii := entry "h2".
Definition NGHTTP2_H2_16_ALPN : list ascii := entry "h2-16".
Definition NGHTTP2_H2_14_ALPN : list ascii := entry "h2-14".
Definition HTTP1_1_ALPN : list ascii := entry "http/1.1".
Definition HTTP1_0_ALPN : list ascii := entry "http/1.0".

Definition alpn_protos_default : list (list ascii) :=
  [NGHTTP2_H2_ALPN; NGHTTP2_H2_16_ALPN; NGHTTP2_H2_14_ALPN; HTTP1_1_ALPN; HTTP1_0_ALPN].

Definition npn_protos : list ascii :=
  [ascii_of 2; "h"; "2";
   ascii_of 5; "h"; "2"; "-"; "1"; "6";
   ascii_of 5; "h"; "2"; "-"; "1"; "4";
   ascii_of 8; "h"; "t"; "t"; "p"; "/"; "1"; "."; "1";
   ascii_of 8; "h"; "t"; "t"; "p"; "/"; "1"; "."; "0"]%char.

(** [npn_adv_cb]: what the server advertises. *)
Definition npn_adv_cb : list ascii := npn_protos.

(** [get_default_alpn()], the copies one after the other. *)
Definition get_default_alpn : list ascii :=
  NGHTTP2_H2_ALPN ++ NGHTTP2_H2_16_ALPN ++ NGHTTP2_H2_14_ALPN ++ HTTP1_1_ALPN ++ HTTP1_0_ALPN.

(** ** The client selects *)

(** [select_proto]: [p] goes over the list, [skip] bytes of the name it is at are
    left; the name found is what [out] and [outlen] point at. *)
Fixpoint scan_protos (key : list ascii) (skip : nat) (p : list ascii) : option (list ascii) :=
  match p with
  | [] => None
  | c :: p' =>
      match skip with
      | S skip => scan_protos key skip p'
      | O =>
          if (length key <=? length p)%nat then
            if bool_decide (take (length key) p = key)
            then Some (take (Z.to_nat (byte_of c)) p')
            else scan_protos key (Z.to_nat (byte_of c)) p'
          else None
      end
  end.

Definition select_proto (in_ key : list ascii) : option (list ascii) := scan_protos key 0 in_.

(** The first that answers. *)
Definition or_else {A} (x y : option A) : option A := match x with Some _ => x | None => y end.

Definition select_h2 (in_ : list ascii) : option (list ascii) :=
  or_else (select_proto in_ NGHTTP2_H2_ALPN)
    (or_else (select_proto in_ NGHTTP2_H2_16_ALPN) (select_proto in_ NGHTTP2_H2_14_ALPN)).

Definition select_h1 (in_ : list ascii) : option (list ascii) :=
  or_else (select_proto in_ HTTP1_1_ALPN) (select_proto in_ HTTP1_0_ALPN).

(** [client_select_next_proto_cb]; [None] is [SSL_TLSEXT_ERR_NOACK]. *)
Definition client_select_next_proto_cb (in_ : list ascii) : option (list ascii) :=
  or_else (select_h2 in_) (select_h1 in_).

(** ** The server selects

    [select] is [SSL_select_next_proto]: it is given the server's bytes, how many
    of them are the list, and the client's list, and answers the name when it is
    [OPENSSL_NPN_NEGOTIATED].  The length handed over is one short. *)
Definition alpn_select_cb (select : list ascii -> Z -> list ascii -> option string) (in_ : list ascii)
    : option string :=
  foldl (fun found proto => or_else found (select (proto ++ [ascii_of 0]) (Z.of_nat (length proto) - 1) in_))
    None alpn_protos_default.

(** ** What was negotiated

    [alpn] and [npn] are the names OpenSSL has, empty where there is none. *)
Inductive handler_type := ht_h1 | ht_h2.
#[export] Instance handler_type_eq_dec : EqDecision handler_type.
Proof. solve_decision. Defined.

Definition negotiated (alpn npn : string) : string := if len alpn =? 0 then npn else alpn.

(** [negotiate_handler]: the handler and the version it is built for. *)
Definition negotiate_handler (alpn npn : string) : handler_type * proto_version :=
  let proto := negotiated alpn npn in
  let type := if (len proto =? 2) || (len proto =? 3) || (len proto =? 5) then ht_h2 else ht_h1 in
  (type,
   match type with
   | ht_h2 => HTTP20
   | ht_h1 => if empty proto || bool_decide (last (chars proto) = Some "0"%char) then HTTP10 else HTTP11
   end).

(** [chose_protocol], of the client. *)
Definition chose_protocol (alpn npn : string) : proto_version :=
  let proto := chars (negotiated alpn npn) in
  if bool_decide (take 2 proto = ["h"; "2"]%char) then HTTP20
  else if bool_decide (proto = chars "http/1.1") then HTTP11
  else HTTP10.

(** [handler_from_connector_factory::operator()], and the [get_connection] of the
    other factory, which is always asked for HTTP/1.1. *)
Definition handler_from_connector (v : proto_version) : handler_type :=
  if bool_decide (v = HTTP20) then ht_h2 else ht_h1.
Definition get_connection : handler_type := handler_from_connector HTTP11.

(** ** Lemmas *)
Lemma scan_skip key a b : scan_protos key (length a) (a ++ b) = scan_protos key 0 b.
Proof. by induction a. Qed.

Lemma length_entry p : nameable p -> Z.to_nat (byte_of (ascii_of (len p))) = length (chars p).
Proof.
  unfold nameable. intros H. rewrite byte_of_ascii_of by (unfold in_range; cbn; lia). unfold len. lia.
Qed.

Lemma take_entry p k rest :
  nameable p -> nameable k -> take (length (entry k)) (entry p ++ rest) = entry k -> p = k.
Proof.
  intros Hp Hk H. unfold entry in H. cbn [length app take] in H. injection H as H1 H2.
  assert (E : length (chars p) = length (chars k)).
  { apply (f_equal (fun c => Z.to_nat (byte_of c))) in H1. by rewrite !length_entry in H1. }
  rewrite <- E, take_app_length in H2. by apply chars_inj.
Qed.

(** On a list, [select_proto] finds the name it looks for and nothing else. *)
Lemma select_proto_wire k ps :
  nameable k -> Forall nameable ps ->
  select_proto (wire ps) (entry k) = if bool_decide (k ∈ ps) then Some (chars k) else None.
Proof.
  intros Hk. unfold select_proto. induction 1 as [|p ps Hp Hps IH]; [by rewrite bool_decide_eq_false_2 by apply not_elem_of_nil|].
  change (wire (p :: ps)) with (entry p ++ wire ps).
  destruct (decide (p = k)) as [->|Hne].
  - rewrite bool_decide_eq_true_2 by apply list_elem_of_here.
    unfold entry at 2. cbn [app scan_protos]. change (ascii_of (len k) :: chars k ++ wire ps) with (entry k ++ wire ps).
    rewrite length_app, (proj2 (Nat.leb_le _ _)) by lia. rewrite take_app_length, bool_decide_eq_true_2 by done.
    by rewrite length_entry, take_app_length by done.
  - assert (E : bool_decide (k ∈ p :: ps) = bool_decide (k ∈ ps)).
    { apply bool_decide_ext. rewrite elem_of_cons. split; [by intros [->|]|by right]. }
    rewrite E, <- IH. clear E IH. unfold entry at 2. cbn [app scan_protos].
    change (ascii_of (len p) :: chars p ++ wire ps) with (entry p ++ wire ps).
    rewrite (length_entry p Hp).
    destruct (Nat.leb_spec (length (entry k)) (length (entry p ++ wire ps))) as [_|Hlt].
    + rewrite bool_decide_eq_false_2 by (intros Ht; by apply Hne, (take_entry p k (wire ps))).
      apply scan_skip.
    + rewrite length_app in Hlt. unfold entry in Hlt. cbn [length] in Hlt.
      destruct (wire ps) as [|c l] eqn:Ew; [done|]. cbn [scan_protos].
      rewrite (proj2 (Nat.leb_gt _ _)) by (unfold entry; cbn [length] in *; lia). done.
Qed.

(** ** Properties *)

(** The names, most wanted first. *)
Definition preferences : list string := ["h2"; "h2-16"; "h2-14"; "http/1.1"; "http/1.0"].

Lemma preferences_nameable : Forall nameable preferences.
Proof. unfold nameable. repeat constructor; by vm_compute. Qed.

(** The first of the preferences that a list has. *)
Definition preferred (ps : list string) : option string := List.find (fun k => bool_decide (k ∈ ps)) preferences.

Lemma client_prefers ps :
  Forall nameable ps -> client_select_next_proto_cb (wire ps) = chars <$> preferred ps.
Proof.
  intros H. pose proof preferences_nameable as P. unfold preferences in P.
  repeat match goal with P : Forall _ (_ :: _) |- _ => apply Forall_cons in P as [? P] end.
  unfold client_select_next_proto_cb, select_h2, select_h1, preferred, preferences. cbn [List.find].
  unfold NGHTTP2_H2_ALPN, NGHTTP2_H2_16_ALPN, NGHTTP2_H2_14_ALPN, HTTP1_1_ALPN, HTTP1_0_ALPN.
  rewrite !select_proto_wire by done.
  repeat (case_bool_decide; [done|]; cbn [or_else]). done.
Qed.

(** C26: The two sides of a TLS connection come to the same protocol.  Whatever list
    of names the server advertises, the client's callback picks from it the one
    that comes first in its own preferences, whatever their order in the list, and
    refuses a list that has none of them; with the name it picked, the server
    builds an HTTP/2 session exactly when the client does, and the client's
    version is the one of the name.  The list that the server of the program
    advertises is the list that the client of the program offers. *)
Theorem protocol_agreed (ps : list string) :
  Forall nameable ps ->
  npn_adv_cb = get_default_alpn /\ get_default_alpn = wire preferences /\
  client_select_next_proto_cb (wire ps) = chars <$> preferred ps /\
  forall p, preferred ps = Some p ->
    p ∈ ps /\
    (negotiate_handler "" p).1 = handler_from_connector (chose_protocol "" p) /\
    (negotiate_handler p "").1 = handler_from_connector (chose_protocol p "") /\
    (chose_protocol p "" = HTTP20 <-> p ∈ take 3 preferences) /\ (chose_protocol p "" = HTTP11 <-> p = "http/1.1").
Proof.
  intros H. split; [by vm_compute|]. split; [by vm_compute|]. split; [by apply client_prefers|].
  intros p Hp. apply find_some in Hp as [Hin Hp]. split; [by apply bool_decide_eq_true in Hp|]. clear Hp H.
  repeat destruct Hin as [<-|Hin]; [..|destruct Hin].
  all: split; [done|]; split; [done|].
  all: split; (split; [intros E; try done|intros E; try done]).
  all: try (repeat first [apply list_elem_of_here|apply list_elem_of_further]).
  all: try (repeat (apply elem_of_cons in E as [E|E]; [discriminate E|]); by apply elem_of_nil in E).
Qed.

Lemma protocol_agreed_witness :
  client_select_next_proto_cb (wire ["spdy/3"; "http/1.1"; "h2-14"]) = Some (chars "h2-14") /\
  (negotiate_handler "" "h2-14").1 = ht_h2.
Proof.
  assert (H : Forall nameable ["spdy/3"; "http/1.1"; "h2-14"]) by (unfold nameable; repeat constructor; by vm_compute).
  destruct (protocol_agreed _ H) as (_ & _ & H1 & H2).
  assert (E : preferred ["spdy/3"; "http/1.1"; "h2-14"] = Some "h2-14") by (vm_compute; reflexivity).
  rewrite E in H1. split; [exact H1|]. destruct (H2 _ E) as (_ & H3 & _). rewrite H3. reflexivity.
Defined.

(** A library that answers a name of the list it is given, when that is a list,
    and nothing otherwise, never answers the server: the length it is given cuts
    the last byte of every entry. *)
Lemma cut_entry_no_list p ps :
  nameable p -> Forall nameable ps -> take (length (chars p)) (entry p ++ [ascii_of 0]) = wire ps -> False.
Proof.
  intros Hp Hps H. assert (E : length (chars p) = length (wire ps)).
  { rewrite <- H, length_take, length_app. unfold entry. cbn [length]. lia. }
  destruct Hps as [|q ps Hq Hps]; [unfold nameable, len in Hp; cbn in E; lia|].
  change (wire (q :: ps)) with (entry q ++ wire ps) in H, E.
  destruct (length (chars p)) as [|n] eqn:En; [unfold nameable, len in Hp; lia|].
  unfold entry in H. cbn [app take] in H. injection H as H1 _.
  apply (f_equal (fun c => Z.to_nat (byte_of c))) in H1. rewrite !length_entry in H1 by done.
  rewrite length_app in E. unfold entry in E. cbn [length] in E. lia.
Qed.

Lemma alpn_never_selects (select : list ascii -> Z -> list ascii -> option string) (in_ : list ascii) :
  (forall buf n client p, select buf n client = Some p ->
     exists ps, Forall nameable ps /\ take (Z.to_nat n) buf = wire ps) ->
  alpn_select_cb select in_ = None.
Proof.
  intros H. pose proof preferences_nameable as P.
  assert (N : forall p, p ∈ preferences -> select (entry p ++ [ascii_of 0]) (Z.of_nat (length (entry p)) - 1) in_ = None).
  { intros p Hp. rewrite Forall_forall in P. specialize (P p Hp).
    destruct (select _ _ _) as [q|] eqn:E; [exfalso|done]. apply H in E as (ps & Hps & E).
    apply (cut_entry_no_list p ps P Hps). rewrite <- E. f_equal. unfold entry. cbn [length]. lia. }
  unfold alpn_select_cb, alpn_protos_default. cbn [foldl].
  unfold NGHTTP2_H2_ALPN, NGHTTP2_H2_16_ALPN, NGHTTP2_H2_14_ALPN, HTTP1_1_ALPN, HTTP1_0_ALPN.
  rewrite !N by (unfold preferences; repeat first [apply list_elem_of_here|apply list_elem_of_further]). done.
Qed.
