(* ===== verification/Sni.v ===== *)
(** * Choosing a certificate (src/src/utils/sni_solver.{h,cpp})

    [sni_solver] loads the certificates of the server and answers OpenSSL's
    callback for the name a client asks for.  Files, contexts and X.509 belong to
    OpenSSL and Boost: [prepare] is what they make of a certificate's files, and
    [check_host] is [X509_check_host]. *)

From S2P Require Import Prelude CppStd Utils.

Definition SSL_TLSEXT_ERR_OK : Z := 0.
Definition SSL_TLSEXT_ERR_NOACK : Z := 3.
Definition TLS1_AD_UNRECOGNIZED_NAME : Z := 112.

Section Sni.
Context {ssl_context X509 : Type}.

(** [None] where the files cannot be used and an exception is caught; without a
    subject there is a context and no X.509. *)
Abbreviation raw_certificate := (string * string * string)%type.
Context (prepare : raw_certificate -> option (ssl_context * option X509)).
Context (check_host : X509 -> string -> bool).

(** [x509] is indeterminate until the end of [prepare_certificate]. *)
Record certificate := {
  server_name : string;
  context : ssl_context;
  x509 : option X509 }.

Record sni_solver := {
  certificates_list : list certificate;
  raw_certificates : list raw_certificate }.

Definition new_solver : sni_solver := {| certificates_list := []; raw_certificates := [] |}.

Definition add_certificate (r : raw_certificate) (s : sni_solver) : sni_solver :=
  {| certificates_list := certificates_list s; raw_certificates := raw_certificates s ++ [r] |}.

(** The common name is read into [cn], which is filled with zeros: the call that
    would read it is commented out.  The entry of a certificate without a subject
    stays in the list. *)
Definition prepare_certificate (r : raw_certificate) (l : list certificate) : bool * list certificate :=
  match prepare r with
  | None => (false, l)
  | Some (ctx, None) => (false, l ++ [{| server_name := ""; context := ctx; x509 := None |}])
  | Some (ctx, Some x) => (true, l ++ [{| server_name := ""; context := ctx; x509 := Some x |}])
  end.

Fixpoint prepare_all (rs : list raw_certificate) (l : list certificate) : bool * list certificate :=
  match rs with
  | [] => (negb (bool_decide (l = [])), l)
  | r :: rs =>
      let '(ok, l) := prepare_certificate r l in
      if (ok : bool) then prepare_all rs l else (false, l)
  end.

Definition load_certificates (s : sni_solver) : bool * sni_solver :=
  let '(ok, l) := prepare_all (raw_certificates s) (certificates_list s) in
  (ok, {| certificates_list := l; raw_certificates := raw_certificates s |}).

Definition clean_wildcard_name (name : string) : string := of_chars (drop 2 (chars name)).

Definition is_wildcard (c : certificate) : bool := bool_decide (take 2 (chars (server_name c)) = ["*"; "."]%char).

(** The first certificate that a test, which may be undefined, finds. *)
Fixpoint find_certificate (test : certificate -> outcome bool) (l : list certificate)
    : outcome (option certificate) :=
  match l with
  | [] => mret None
  | c :: l => b ← test c; if (b : bool) then mret (Some c) else find_certificate test l
  end.

Definition names_it (required : string) (c : certificate) : outcome bool :=
  mret (bool_decide (server_name c = required)).

Definition covers_it (required : string) (c : certificate) : outcome bool :=
  if is_wildcard c then ends_with required (clean_wildcard_name (server_name c)) Ascii.eqb else mret false.

Definition lists_it (required : string) (c : certificate) : outcome bool :=
  x ← of_option Undefined (x509 c); mret (check_host x required).

(** [sni_callback]: the code, and the context that was set.  [required] is what
    [SSL_get_servername] answers. *)
Definition sni_callback (s : option sni_solver) (required : option string) : outcome (Z * option ssl_context) :=
  match s, required with
  | Some s, Some required =>
      c ← find_certificate (names_it required) (certificates_list s);
      match c with
      | Some c => mret (SSL_TLSEXT_ERR_OK, Some (context c))
      | None =>
          c ← find_certificate (covers_it required) (certificates_list s);
          match c with
          | Some c => mret (SSL_TLSEXT_ERR_OK, Some (context c))
          | None =>
              c ← find_certificate (lists_it required) (certificates_list s);
              match c with
              | Some c => mret (SSL_TLSEXT_ERR_OK, Some (context c))
              | None => mret (TLS1_AD_UNRECOGNIZED_NAME, None)
              end
          end
      end
  | _, _ => mret (SSL_TLSEXT_ERR_NOACK, None)
  end.

(** ** What the certificates of a running server look like *)

(** The operations of the server on its solver. *)
Inductive solver_reach : sni_solver -> Prop :=
| reach_new : solver_reach new_solver
| reach_add r s : solver_reach s -> solver_reach (add_certificate r s)
| reach_load s : solver_reach s -> solver_reach (load_certificates s).2.

(** The certificate that a list of files gives. *)
Definition prepared (r : raw_certificate) : option certificate :=
  p ← prepare r; x ← p.2; Some {| server_name := ""; context := p.1; x509 := Some x |}.

Lemma prepare_all_names rs l :
  Forall (fun c => server_name c = "") l -> Forall (fun c => server_name c = "") (prepare_all rs l).2.
Proof.
  revert l. induction rs as [|r rs IH]; intros l H; cbn [prepare_all]; [done|].
  unfold prepare_certificate. destruct (prepare r) as [[c [x|]]|]; cbn; [|by apply Forall_app; split; [|repeat constructor]|done].
  apply IH, Forall_app. split; [done|by repeat constructor].
Qed.

Lemma prepare_all_true rs l l' :
  prepare_all rs l = (true, l') -> exists cs, mapM prepared rs = Some cs /\ l' = l ++ cs /\ l' <> [].
Proof.
  revert l. induction rs as [|r rs IH]; intros l H; cbn [prepare_all] in H.
  - injection H as H <-. exists []. split; [done|]. rewrite app_nil_r. split; [done|].
    by apply negb_true_iff, bool_decide_eq_false in H.
  - unfold prepare_certificate in H. destruct (prepare r) as [[c [x|]]|] eqn:E; cbn in H; [|done..].
    apply IH in H as (cs & H1 & H2 & H3). eexists (_ :: cs). split.
    + assert (P : prepared r = Some {| server_name := ""; context := c; x509 := Some x |}) by (unfold prepared; by rewrite E).
      cbn [mapM]. rewrite P. cbn [mbind option_bind]. rewrite H1. reflexivity.
    + split; [by rewrite H2, <- app_assoc|done].
Qed.

Lemma solver_names s : solver_reach s -> Forall (fun c => server_name c = "") (certificates_list s).
Proof.
  induction 1 as [| |s H IH]; [constructor|done|]. unfold load_certificates.
  pose proof (prepare_all_names (raw_certificates s) _ IH) as P. by destruct (prepare_all _ _).
Qed.

Lemma find_never test l : Forall (fun c => test c = Ok false) l -> find_certificate test l = Ok None.
Proof. induction 1 as [|c l H _ IH]; [done|]. cbn. by rewrite H. Qed.

Lemma no_wildcard required c : server_name c = "" -> covers_it required c = Ok false.
Proof. intros H. unfold covers_it, is_wildcard. by rewrite H. Qed.

(** C30: For the certificates that a server has loaded, however often, the name of a
    certificate and its wildcard never decide: the common name is not read, so
    every name is empty.  What the client asks for is looked up in the alternative
    names alone, the first certificate in the order of loading wins, and a client
    that asks for the empty name is given the first certificate.  Loading
    succeeds only if every file was usable, and then each has its certificate, in
    order, after those that were there. *)
Theorem sni_by_alternative_names (s : sni_solver) (required : string) :
  solver_reach s ->
  sni_callback (Some s) (Some required) =
    (if bool_decide (required = "") && negb (bool_decide (certificates_list s = [])) then
       mret (SSL_TLSEXT_ERR_OK, context <$> head (certificates_list s))
     else
       c ← find_certificate (lists_it required) (certificates_list s);
       mret (if c is Some c then (SSL_TLSEXT_ERR_OK, Some (context c)) else (TLS1_AD_UNRECOGNIZED_NAME, None))) /\
  forall s', load_certificates s = (true, s') ->
    exists cs, mapM prepared (raw_certificates s) = Some cs /\ certificates_list s' = certificates_list s ++ cs.
Proof.
  intros H. split.
  - pose proof (solver_names s H) as N. unfold sni_callback. destruct N as [|c l Hc Hl]; [by rewrite andb_false_r|].
    rewrite (bool_decide_eq_false_2 (_ :: _ = [])), andb_true_r by done. cbn [negb].
    case_bool_decide as E.
    + subst. cbn [find_certificate]. unfold names_it at 1. cbn. by rewrite Hc, bool_decide_eq_true_2.
    + rewrite (find_never (names_it required)).
      2:{ constructor; [|eapply Forall_impl; [exact Hl|]; cbn; intros d Hd]; unfold names_it;
            by rewrite ?Hc, ?Hd, bool_decide_eq_false_2 by congruence. }
      cbn [mbind outcome_bind]. rewrite (find_never (covers_it required)).
      2:{ constructor; [by apply no_wildcard|]. eapply Forall_impl; [exact Hl|]. apply no_wildcard. }
      cbn [mbind outcome_bind]. by destruct (find_certificate _ _) as [[]|].
  - intros s'. unfold load_certificates. destruct (prepare_all _ _) as [b l] eqn:E. intros [= -> <-].
    apply prepare_all_true in E as (cs & H1 & H2 & _). eauto.
Qed.
End Sni.

(** Two certificates; the second is for two names. *)
Definition test_prepare (r : string * string * string) : option (string * option (list string)) :=
  if bool_decide (r.1.1 = "a.pem") then Some ("A", Some ["a.org"])
  else if bool_decide (r.1.1 = "b.pem") then Some ("B", Some ["b.org"; "a.org"; "*.c.org"])
  else None.

Definition test_solver : sni_solver :=
  (load_certificates test_prepare
    (add_certificate ("b.pem", "", "") (add_certificate ("a.pem", "", "") new_solver))).2.

Lemma sni_by_alternative_names_witness :
  let check x h := bool_decide (h ∈ x) in
  sni_callback check (Some test_solver) (Some "b.org") = Ok (SSL_TLSEXT_ERR_OK, Some "B") /\
  sni_callback check (Some test_solver) (Some "x.c.org") = Ok (TLS1_AD_UNRECOGNIZED_NAME, None).
Proof.
  cbv zeta. assert (R : solver_reach test_prepare test_solver) by (apply reach_load; do 2 constructor; constructor).
  split.
  - rewrite (proj1 (sni_by_alternative_names test_prepare (fun x h => bool_decide (h ∈ x)) test_solver "b.org" R)). vm_compute. reflexivity.
  - rewrite (proj1 (sni_by_alternative_names test_prepare (fun x h => bool_decide (h ∈ x)) test_solver "x.c.org" R)). vm_compute. reflexivity.
Defined.

(** The wildcard test, if a certificate had a name: the dot before the domain is
    dropped with the star, so that a wildcard covers other domains, and hosts any
    number of labels below its own. *)
Lemma wildcard_covers_other_domains :
  let c := {| server_name := "*.example.com"; context := tt; x509 := None (A := unit) |} in
  covers_it "notexample.com" c = Ok true /\ covers_it "a.b.example.com" c = Ok true /\ covers_it "example.com" c = Ok true.
Proof. by vm_compute. Qed.
