(* ===== verification/Communicator.v ===== *)
(** * Connecting to a server (src/src/network/communicator/communicator_factory.h,
    dns_communicator_factory.{h,cpp})

    [dns_connector_factory] resolves a name, tries its addresses and hands a
    connector to its user, or an error.  Every step is an asynchronous operation;
    its completion lambda is a [handler] here, and the operations that have not
    been completed are the state, as the [io_service] keeps them.  An operation
    that the environment has finished, or that was cancelled, is [ready]; its
    handler runs later, so that a timer can expire while the handler it should
    have stopped is already on its way. *)

From S2P Require Import Prelude CppStd HttpCommons Connector Negotiation.

(** Addresses are not looked into. *)
Definition endpoint := Z.

(** What a completed operation hands to its handler: the error, the addresses
    (an iterator: what is left of the list), the names the two sides of a
    handshake have come to. *)
Record result := {
  ec : option io_error;
  endpoints : list endpoint;
  alpn : string;
  npn : string }.

Definition success : result := {| ec := None; endpoints := []; alpn := ""; npn := "" |}.
Definition canceled : result := {| ec := Some operation_canceled; endpoints := []; alpn := ""; npn := "" |}.

(** The completion lambdas, with what they capture; [tm] is the operation of the
    timer they cancel. *)
Inductive handler :=
| resolve_timer
| resolve_done (tls : bool) (tm : nat)
| connect_timer (tls : bool)
| connect_done (it : list endpoint) (tm : nat)
| tls_connect_done (it : list endpoint) (tm : nat)
| handshake_done (tm : nat).

Record op := {
  request : nat;
  what : handler;
  ready : option result }.

(** What the factory does that its user, or the peer, can see. *)
Inductive act :=
| a_resolve (address : string) (port : Z)
| a_error (n : Z)
| a_connector (tls : bool) (v : proto_version) (timeout : Z)
| a_shutdown.

(** [dead] is the flag that the lambdas share with the destructor. *)
Record factory := {
  stopping : bool;
  dead : bool;
  conn_timeout : Z;
  requests : nat;
  ops : gmap nat op;
  next_op : nat;
  log : list (nat * act) }.

Definition new_factory (connector_timeout : Z) : factory :=
  {| stopping := false; dead := false; conn_timeout := connector_timeout; requests := O; ops := ∅;
     next_op := O; log := [] |}.

Definition set_flags (s d : bool) (f : factory) : factory :=
  {| stopping := s; dead := d; conn_timeout := conn_timeout f; requests := requests f; ops := ops f;
     next_op := next_op f; log := log f |}.

Definition stop (f : factory) : factory := set_flags true (dead f) f.
Definition destroy (f : factory) : factory := set_flags (stopping f) true f.

Definition set_ops (o : gmap nat op) (f : factory) : factory :=
  {| stopping := stopping f; dead := dead f; conn_timeout := conn_timeout f; requests := requests f; ops := o;
     next_op := next_op f; log := log f |}.

Definition say (r : nat) (a : act) (f : factory) : factory :=
  {| stopping := stopping f; dead := dead f; conn_timeout := conn_timeout f; requests := requests f; ops := ops f;
     next_op := next_op f; log := log f ++ [(r, a)] |}.

(** An operation is started. *)
Definition begin_op (r : nat) (h : handler) (f : factory) : factory :=
  {| stopping := stopping f; dead := dead f; conn_timeout := conn_timeout f; requests := requests f;
     ops := <[next_op f := {| request := r; what := h; ready := None |}]> (ops f);
     next_op := S (next_op f); log := log f |}.

Definition finish_op (res : result) (o : op) : op :=
  match ready o with Some _ => o | None => {| request := request o; what := what o; ready := Some res |} end.

(** [cancel()]: what has not completed is given an error, the rest is too late. *)
Definition cancel_timer (tm : nat) (f : factory) : factory := set_ops (alter (finish_op canceled) tm (ops f)) f.

Definition on_socket (h : handler) : bool :=
  match h with connect_done _ _ | tls_connect_done _ _ | handshake_done _ => true | _ => false end.
Definition on_resolver (h : handler) : bool := match h with resolve_done _ _ => true | _ => false end.

Definition cancel_all (which : handler -> bool) (r : nat) (f : factory) : factory :=
  set_ops ((fun o => if bool_decide (request o = r) && which (what o) then finish_op canceled o else o) <$> ops f) f.

(** [endpoint_connect], for a socket and for a stream. *)
Definition endpoint_connect (r : nat) (it : list endpoint) (f : factory) : factory :=
  match it with
  | [] => say r (a_error 3) f
  | _ :: it =>
      if stopping f then say r (a_error 3) f
      else begin_op r (connect_done it (next_op f)) (begin_op r (connect_timer false) f)
  end.

Definition tls_endpoint_connect (r : nat) (it : list endpoint) (f : factory) : factory :=
  match it with
  | [] => say r (a_error 3) f
  | _ =>
      if stopping f then say r (a_error 3) f
      else begin_op r (tls_connect_done it (next_op f)) (begin_op r (connect_timer true) f)
  end.

Definition dns_resolver (r : nat) (address : string) (port : Z) (tls : bool) (f : factory) : factory :=
  let port := if port =? 0 then (if tls then 443 else 80) else port in
  begin_op r (resolve_done tls (next_op f)) (begin_op r resolve_timer (say r (a_resolve address port) f)).

(** [get_connector], as the request of the next number. *)
Definition get_connector (address : string) (port : Z) (tls : bool) (f : factory) : factory :=
  let r := requests f in
  let f := {| stopping := stopping f; dead := dead f; conn_timeout := conn_timeout f; requests := S r; ops := ops f;
              next_op := next_op f; log := log f |} in
  if stopping f then say r (a_error 1) f else dns_resolver r address port tls f.

(** ** The lambdas *)
Definition on_resolved (r : nat) (tls : bool) (tm : nat) (res : result) (f : factory) : factory :=
  if dead f then f
  else
    let f := cancel_timer tm f in
    match ec res, endpoints res with
    | Some _, _ | None, [] => say r (a_error 3) f
    | None, it => if tls then tls_endpoint_connect r it f else endpoint_connect r it f
    end.

Definition on_connect_timer (r : nat) (tls : bool) (res : result) (f : factory) : factory :=
  match ec res with
  | Some _ => f
  | None =>
      let f := if tls then say r a_shutdown f else f in
      say r (a_error 4) (cancel_all on_socket r f)
  end.

Definition on_connected (r : nat) (it : list endpoint) (tm : nat) (res : result) (f : factory) : factory :=
  if dead f then f
  else
    let f := cancel_timer tm f in
    match ec res with
    | Some operation_canceled => f
    | Some other_error => endpoint_connect r it f
    | None => say r (a_connector false HTTP11 (conn_timeout f)) f
    end.

(** The iterator is where [boost::asio::async_connect] ended; the timer goes on. *)
Definition on_tls_connected (r : nat) (tm : nat) (res : result) (f : factory) : factory :=
  if dead f then f
  else
    match ec res with
    | Some operation_canceled => f
    | Some other_error => tls_endpoint_connect r (endpoints res) f
    | None => begin_op r (handshake_done tm) f
    end.

(** The members of a factory that is no more are read. *)
Definition on_handshake (r : nat) (tm : nat) (res : result) (f : factory) : outcome factory :=
  let f := cancel_timer tm f in
  match ec res with
  | Some operation_canceled => mret f
  | Some other_error => mret (say r (a_error 3) f)
  | None =>
      _ ← guard_ub (negb (dead f));
      mret (say r (a_connector true (chose_protocol (alpn res) (npn res)) (conn_timeout f)) f)
  end.

Definition run_handler (r : nat) (h : handler) (res : result) (f : factory) : outcome factory :=
  match h with
  | resolve_timer => mret (match ec res with None => cancel_all on_resolver r f | Some _ => f end)
  | resolve_done tls tm => mret (on_resolved r tls tm res f)
  | connect_timer tls => mret (on_connect_timer r tls res f)
  | connect_done it tm => mret (on_connected r it tm res f)
  | tls_connect_done _ tm => mret (on_tls_connected r tm res f)
  | handshake_done tm => on_handshake r tm res f
  end.

(** The handler of an operation that is ready runs. *)
Definition run_op (k : nat) (f : factory) : outcome factory :=
  match ops f !! k with
  | Some {| request := r; what := h; ready := Some res |} => run_handler r h res (set_ops (delete k (ops f)) f)
  | _ => mret f
  end.

(** The environment finishes an operation. *)
Definition complete (k : nat) (res : result) (f : factory) : factory :=
  set_ops (alter (finish_op res) k (ops f)) f.

(** ** What can happen

    [timeouts] tells whether a timer may expire. *)
Definition is_timer (h : handler) : bool := match h with resolve_timer | connect_timer _ => true | _ => false end.

Inductive step (timeouts : bool) : factory -> factory -> Prop :=
| step_get address port tls f : dead f = false -> step timeouts f (get_connector address port tls f)
| step_stop f : dead f = false -> step timeouts f (stop f)
| step_destroy f : step timeouts f (destroy f)
| step_expire k o f :
    timeouts = true -> ops f !! k = Some o -> is_timer (what o) = true -> step timeouts f (complete k success f)
| step_complete k o res f :
    ops f !! k = Some o -> is_timer (what o) = false -> ec res <> Some operation_canceled ->
    step timeouts f (complete k res f)
| step_run k f f' : run_op k f = Ok f' -> step timeouts f f'.

Inductive reach (timeouts : bool) (ms : Z) : factory -> Prop :=
| reach_new : reach timeouts ms (new_factory ms)
| reach_step f f' : reach timeouts ms f -> step timeouts f f' -> reach timeouts ms f'.

(** The answers a request has had. *)
Definition is_answer (r : nat) (e : nat * act) : bool :=
  bool_decide (e.1 = r) && match e.2 with a_error _ | a_connector _ _ _ => true | _ => false end.
Definition answers (r : nat) (f : factory) : nat := length (List.filter (is_answer r) (log f)).

(** Nothing of the request is under way. *)
Definition settled (r : nat) (f : factory) : Prop := forall k o, ops f !! k = Some o -> request o <> r.

(** ** The operations that carry a request

    One that is not a timer; what a timer's expiry does is told apart. *)
Definition captured (h : handler) : option nat :=
  match h with
  | resolve_done _ tm | connect_done _ tm | tls_connect_done _ tm | handshake_done tm => Some tm
  | _ => None
  end.

Definition carries (r : nat) (o : op) : Prop := request o = r /\ is_timer (what o) = false.

(** A timer, or nothing any more. *)
Definition timer_at (tm : nat) (f : factory) : Prop :=
  (tm < next_op f)%nat /\ forall o, ops f !! tm = Some o -> is_timer (what o) = true.

Record wf (f : factory) : Prop := {
  wf_key k o : ops f !! k = Some o -> (k < next_op f)%nat;
  wf_request k o : ops f !! k = Some o -> (request o < requests f)%nat;
  wf_timer k o tm : ops f !! k = Some o -> captured (what o) = Some tm -> timer_at tm f;
  wf_log e : e ∈ log f -> (e.1 < requests f)%nat }.

(** Nothing of the request has changed but its timers. *)
Definition same (r : nat) (f f' : factory) : Prop :=
  answers r f' = answers r f /\ forall k o, carries r o -> ops f' !! k = Some o <-> ops f !! k = Some o.

Definition has (r : nat) (f : factory) (k : nat) : Prop := exists o, ops f !! k = Some o /\ carries r o.

(** An operation whose handler will not give up silently. *)
Definition alive (o : op) : Prop :=
  on_socket (what o) = true -> forall res, ready o = Some res -> ec res <> Some operation_canceled.

Definition live (r : nat) (f : factory) : Prop :=
  (1 <= answers r f)%nat \/ exists k o, ops f !! k = Some o /\ carries r o /\ alive o.

Definition idle (r : nat) (f : factory) : Prop := answers r f = O /\ forall k, ~ has r f k.

Definition once (r : nat) (f : factory) : Prop :=
  (answers r f <= 1)%nat /\ (forall k l, has r f k -> has r f l -> k = l) /\ (forall k, has r f k -> answers r f = O).

(** No timer has expired. *)
Definition quiet (f : factory) : Prop :=
  forall k o res, ops f !! k = Some o -> is_timer (what o) = true -> ready o = Some res -> ec res = Some operation_canceled.

Implicit Types (f : factory) (o : op) (r : nat).

Lemma same_refl r f : same r f f.
Proof. done. Qed.

Lemma same_trans r f g h : same r f g -> same r g h -> same r f h.
Proof. intros [H1 H2] [H3 H4]. split; [congruence|]. intros k o Ho. by rewrite H4, H2. Qed.

Lemma same_has r f f' k : same r f f' -> has r f' k <-> has r f k.
Proof. intros [_ H]. unfold has. split; intros (o & H1 & H2); exists o; split; try done; by apply (H k o H2). Qed.

Lemma same_live r f f' : same r f f' -> live r f -> live r f'.
Proof.
  intros [H1 H2] [H|(k & o & Ho & Hc & Ha)]; [left; lia|right]. exists k, o. split; [by apply (H2 k o Hc)|done].
Qed.

Lemma same_once r f f' : same r f f' -> once r f -> once r f'.
Proof.
  intros H (O1 & O2 & O3). pose proof (proj1 H) as E. split; [lia|]. split.
  - intros k l. rewrite !(same_has r f f') by done. apply O2.
  - intros k. rewrite (same_has r f f') by done. rewrite E. apply O3.
Qed.

Lemma same_idle r f f' : same r f f' -> idle r f -> idle r f'.
Proof. intros H [I1 I2]. split; [by rewrite (proj1 H)|]. intros k. rewrite (same_has r f f') by done. apply I2. Qed.

Lemma idle_once r f : idle r f -> once r f.
Proof. intros [H1 H2]. split; [lia|]. split; intros k; [intros l|]; intros H; by destruct (H2 k). Qed.

Lemma finish_what res o : what (finish_op res o) = what o /\ request (finish_op res o) = request o.
Proof. unfold finish_op. by destruct (ready o). Qed.

(** ** The primitives *)
Lemma wf_delete k f : wf f -> wf (set_ops (delete k (ops f)) f).
Proof.
  intros [W1 W2 W3 W4]. split; cbn; [intros l o|intros l o|intros l o tm|exact W4]; rewrite lookup_delete_Some; intros [Hl Ho].
  - by eapply W1. - by eapply W2.
  - intros Hc. destruct (W3 l o tm Ho Hc) as [T1 T2]. split; [done|]. cbn. intros o'. rewrite lookup_delete_Some. intros [_ ?]. by apply T2.
Qed.

Lemma wf_map (g : op -> op) (m : gmap nat op) f :
  (forall o, what (g o) = what o /\ request (g o) = request o) ->
  (forall k o', m !! k = Some o' -> exists o, ops f !! k = Some o /\ (o' = o \/ o' = g o)) -> wf f -> wf (set_ops m f).
Proof.
  intros G M [W1 W2 W3 W4].
  assert (M' : forall k o', m !! k = Some o' -> exists o, ops f !! k = Some o /\ what o' = what o /\ request o' = request o).
  { intros k o' H. destruct (M k o' H) as (o & Ho & [->| ->]); exists o; [done|]. destruct (G o). done. }
  split; cbn; [intros k o'|intros k o'|intros k o' tm|exact W4]; intros H; destruct (M' k o' H) as (o & Ho & E1 & E2).
  - by eapply W1. - rewrite E2. by eapply W2.
  - rewrite E1. intros Hc. destruct (W3 k o tm Ho Hc) as [T1 T2]. split; [done|]. cbn. intros o2 H2.
    destruct (M' tm o2 H2) as (o3 & H3 & E3 & _). rewrite E3. by apply T2.
Qed.

Lemma alter_lookup (g : op -> op) tm f k o' :
  alter g tm (ops f) !! k = Some o' -> exists o, ops f !! k = Some o /\ (o' = o \/ o' = g o).
Proof.
  destruct (decide (tm = k)) as [->|Hne]; [rewrite lookup_alter_eq|rewrite lookup_alter_ne by done].
  - intros H. apply fmap_Some in H as (o & Ho & ->). eauto.
  - eauto.
Qed.

Lemma wf_finish res k f : wf f -> wf (set_ops (alter (finish_op res) k (ops f)) f).
Proof. apply wf_map with (g := finish_op res); [apply finish_what|apply alter_lookup]. Qed.

Lemma wf_cancel_all which r f : wf f -> wf (cancel_all which r f).
Proof.
  apply wf_map with (g := finish_op canceled); [apply finish_what|]. intros k o' H. apply lookup_fmap_Some in H as (o & <- & Ho).
  exists o. split; [done|]. destruct (_ && _); auto.
Qed.

Lemma wf_say r a f : wf f -> (r < requests f)%nat -> wf (say r a f).
Proof.
  intros [W1 W2 W3 W4] Hr. split; cbn; [exact W1|exact W2|exact W3|].
  intros e H. apply elem_of_app in H as [H|H]; [by apply W4|]. apply list_elem_of_singleton in H as ->. done.
Qed.

Lemma fresh_op f : wf f -> ops f !! next_op f = None.
Proof. intros W. destruct (ops f !! next_op f) as [o|] eqn:E; [|done]. apply (wf_key f W) in E. lia. Qed.

Lemma wf_begin r h f :
  wf f -> (r < requests f)%nat -> (forall tm, captured h = Some tm -> timer_at tm f) -> wf (begin_op r h f).
Proof.
  intros W Hr Ht. pose proof W as [W1 W2 W3 W4].
  assert (T : forall tm, timer_at tm f -> timer_at tm (begin_op r h f)).
  { intros tm [T1 T2]. split; [cbn; lia|]. cbn. intros o. rewrite lookup_insert_ne by lia. apply T2. }
  split; cbn; [intros k o|intros k o|intros k o tm|exact W4]; intros H; apply lookup_insert_Some in H as [[<- <-]|[Hne H]].
  - lia. - apply W1 in H. lia. - done. - by eapply W2. - intros Hc. apply T, Ht, Hc. - intros Hc. apply T. by eapply W3.
Qed.

Lemma same_delete r k f : (forall o, ops f !! k = Some o -> ~ carries r o) -> same r f (set_ops (delete k (ops f)) f).
Proof.
  intros H. split; [done|]. intros l o Ho. cbn. rewrite lookup_delete_Some. split; [by intros [_ ?]|]. intros Hl.
  split; [|done]. intros ->. by apply (H o).
Qed.

Lemma same_cancel_timer r tm f : (forall o, ops f !! tm = Some o -> is_timer (what o) = true) -> same r f (cancel_timer tm f).
Proof.
  intros T. split; [done|]. intros k o [Ho1 Ho2]. cbn.
  destruct (decide (tm = k)) as [->|Hne]; [|by rewrite lookup_alter_ne].
  rewrite lookup_alter_eq. split; intros H.
  - apply fmap_Some in H as (o' & H & ->). rewrite (proj1 (finish_what _ _)), (T o' H) in Ho2. done.
  - by rewrite (T o H) in Ho2.
Qed.

Lemma answers_say r r' a f :
  answers r (say r' a f) = (answers r f + if is_answer r (r', a) then 1 else 0)%nat.
Proof. unfold answers. cbn [log say]. rewrite List.filter_app, length_app. cbn [List.filter]. by destruct (is_answer r (r', a)). Qed.

Lemma same_say r r' a f : is_answer r (r', a) = false -> same r f (say r' a f).
Proof. intros H. split; [|done]. rewrite answers_say, H. lia. Qed.

Lemma same_begin r r' h f : wf f -> (r' <> r \/ is_timer h = true) -> same r f (begin_op r' h f).
Proof.
  intros W Hr. split; [done|]. intros k o [Ho1 Ho2]. cbn. pose proof (fresh_op f W) as N.
  destruct (decide (next_op f = k)) as [<-|Hne]; [|by rewrite lookup_insert_ne].
  rewrite lookup_insert_eq, N. split; [|done]. intros [= <-]. cbn in *. destruct Hr; congruence.
Qed.

Lemma same_cancel_all r r' which f : r' <> r -> same r f (cancel_all which r' f).
Proof.
  intros Hr. split; [done|]. intros k o [Ho1 Ho2]. cbn. rewrite lookup_fmap_Some. split.
  - intros (o' & E & H). destruct (bool_decide_reflect (request o' = r')) as [E'|E']; cbn in E; [|congruence].
    destruct (which (what o')); [|congruence]. rewrite <- E, (proj2 (finish_what _ _)) in Ho1. congruence.
  - intros H. exists o. split; [|done]. rewrite bool_decide_eq_false_2 by congruence. done.
Qed.

Lemma same_complete r k res f : (forall o, ops f !! k = Some o -> ~ carries r o) -> same r f (complete k res f).
Proof.
  intros H. split; [done|]. intros l o Ho. cbn.
  destruct (decide (k = l)) as [->|Hne]; [|by rewrite lookup_alter_ne].
  rewrite lookup_alter_eq. split; intros E.
  - apply fmap_Some in E as (o' & E & ->). destruct (H o' E). unfold carries in *. by rewrite (proj1 (finish_what _ _)), (proj2 (finish_what _ _)) in Ho.
  - by destruct (H o E).
Qed.

(** ** The handlers of a request *)

(** What the handler of an operation that carries a request comes to: it gives up
    silently, answers, goes on with a timer of its own, or goes on. *)
Lemma carrier_runs r h res tm f f' :
  captured h = Some tm -> run_handler r h res f = Ok f' ->
  exists g, (g = f \/ g = cancel_timer tm f) /\
    ((f' = g /\ (dead f = true \/ (on_socket h = true /\ ec res = Some operation_canceled))) \/
     (exists a, is_answer r (r, a) = true /\ f' = say r a g) \/
     (exists h' b, is_timer h' = false /\ captured h' = Some (next_op g) /\
        f' = begin_op r h' (begin_op r (connect_timer b) g)) \/
     (exists h', is_timer h' = false /\ captured h' = Some tm /\ f' = begin_op r h' g)).
Proof.
  assert (A : forall n, is_answer r (r, a_error n) = true) by (intros n; unfold is_answer; cbn; by rewrite bool_decide_eq_true_2).
  assert (B : forall t v n, is_answer r (r, a_connector t v n) = true) by (intros t v n; unfold is_answer; cbn; by rewrite bool_decide_eq_true_2).
  destruct h; cbn [captured]; intros [= ->]; cbn [run_handler].
  - intros [= <-]. unfold on_resolved. destruct (dead f) eqn:Ed; [exists f; split; [by left|left; auto]|].
    exists (cancel_timer tm f). split; [by right|]. right.
    destruct (ec res); [left; eauto|]. destruct (endpoints res) as [|e it]; [left; eauto|].
    destruct tls; unfold tls_endpoint_connect, endpoint_connect; cbn [stopping cancel_timer set_ops];
      (destruct (stopping f); [left; eauto|right; left; refine (ex_intro _ _ (ex_intro _ _ (conj _ (conj _ eq_refl)))); reflexivity]).
  - intros [= <-]. unfold on_connected. destruct (dead f) eqn:Ed; [exists f; split; [by left|left; auto]|].
    exists (cancel_timer tm f). split; [by right|]. destruct (ec res) as [[]|].
    + left. split; [done|]. right. done.
    + right. unfold endpoint_connect. destruct it as [|e it]; [left; eauto|]. cbn [stopping cancel_timer set_ops].
      destruct (stopping f); [left; eauto|right; left; refine (ex_intro _ _ (ex_intro _ _ (conj _ (conj _ eq_refl)))); reflexivity].
    + right. left. eauto.
  - intros [= <-]. unfold on_tls_connected. exists f. split; [by left|]. destruct (dead f) eqn:Ed; [left; auto|].
    destruct (ec res) as [[]|].
    + left. split; [done|]. right. done.
    + right. unfold tls_endpoint_connect. destruct (endpoints res) as [|e it']; [left; eauto|].
      destruct (stopping f); [left; eauto|right; left; refine (ex_intro _ _ (ex_intro _ _ (conj _ (conj _ eq_refl)))); reflexivity].
    + right. right. right. refine (ex_intro _ _ (conj _ (conj _ eq_refl))); reflexivity.
  - unfold on_handshake. cbv zeta. intros H. exists (cancel_timer tm f). split; [by right|]. destruct (ec res) as [[]|].
    + injection H as <-. left. split; [done|]. right. done.
    + injection H as <-. right. left. eauto.
    + apply bind_Ok_inv in H as (? & _ & [= <-]). right. left. eauto.
Qed.

(** The handler of a timer changes nothing but by expiring. *)
Lemma timer_runs r h res f f' :
  is_timer h = true -> run_handler r h res f = Ok f' ->
  (ec res <> None /\ f' = f) \/
  (ec res = None /\ h = resolve_timer /\ f' = cancel_all on_resolver r f) \/
  (exists tls, ec res = None /\ f' = say r (a_error 4) (cancel_all on_socket r (if (tls : bool) then say r a_shutdown f else f))).
Proof.
  destruct h; [|done| |done..]; intros _ [= <-].
  - destruct (ec res); [left; done|right; left; done].
  - unfold on_connect_timer. cbv zeta. destruct (ec res); [left; done|].
    right. right. exists tls. done.
Qed.

(** ** Other requests, and the well-formedness *)
Lemma begin_two_wf r h t f :
  wf f -> (r < requests f)%nat -> is_timer t = true -> captured h = Some (next_op f) ->
  wf (begin_op r h (begin_op r t f)).
Proof.
  intros W Hr Ht Hc. apply wf_begin; [apply wf_begin; [done..|by destruct t]|done|]. rewrite Hc. intros tm [= <-]. split; [cbn; lia|].
  cbn. intros o. rewrite lookup_insert_eq. by intros [= <-].
Qed.

Lemma timer_at_cancel tm tm' f : timer_at tm f -> timer_at tm (cancel_timer tm' f).
Proof.
  intros [T1 T2]. split; [exact T1|]. intros o Ho. apply alter_lookup in Ho as (o' & Ho & [->| ->]); [by apply T2|].
  rewrite (proj1 (finish_what _ _)). by apply T2.
Qed.

Lemma run_carrier_frame r h res tm f f' :
  wf f -> (r < requests f)%nat -> captured h = Some tm -> timer_at tm f -> run_handler r h res f = Ok f' ->
  wf f' /\ dead f' = dead f /\ requests f' = requests f /\ forall r', r' <> r -> same r' f f'.
Proof.
  intros W Hr Hc T H. destruct (carrier_runs r h res tm f f' Hc H) as (g & Hg & C).
  assert (G : wf g /\ dead g = dead f /\ requests g = requests f /\ timer_at tm g /\ forall r', same r' f g).
  { destruct Hg as [->| ->]; [done|]. split; [by apply wf_finish|]. split; [done|]. split; [done|].
    split; [by apply timer_at_cancel|]. intros r'. apply same_cancel_timer, T. }
  destruct G as (G1 & G2 & G3 & G4 & G5).
  destruct C as [[-> _]|[(a & Ha & ->)|[(h' & b & Hh & Hcap & ->)|(h' & Hh & Hcap & ->)]]].
  - done.
  - split; [apply wf_say; [done|lia]|]. split; [done|]. split; [done|]. intros r' Hne. eapply same_trans; [apply G5|].
    apply same_say. unfold is_answer. by rewrite bool_decide_eq_false_2.
  - split; [apply begin_two_wf; [done|lia|done|done]|]. split; [done|]. split; [done|]. intros r' Hne.
    eapply same_trans; [apply G5|]. eapply same_trans; apply same_begin; [done|by left|apply wf_begin; [done|lia|done]|by left].
  - split; [apply wf_begin; [done|lia|rewrite Hcap; by intros ? [= <-]]|]. split; [done|]. split; [done|]. intros r' Hne.
    eapply same_trans; [apply G5|]. apply same_begin; [done|by left].
Qed.

Lemma run_timer_frame r h res f f' :
  wf f -> (r < requests f)%nat -> is_timer h = true -> run_handler r h res f = Ok f' ->
  wf f' /\ dead f' = dead f /\ requests f' = requests f /\ forall r', r' <> r -> same r' f f'.
Proof.
  intros W Hr Ht H. destruct (timer_runs r h res f f' Ht H) as [[_ ->]|[(_ & _ & ->)|(tls & _ & ->)]].
  - done.
  - split; [by apply wf_cancel_all|]. split; [done|]. split; [done|]. intros r' Hne. by apply same_cancel_all.
  - assert (S : wf (if tls then say r a_shutdown f else f)) by (destruct tls; [by apply wf_say|done]).
    split; [apply wf_say; [by apply wf_cancel_all|by destruct tls]|]. split; [by destruct tls|]. split; [by destruct tls|].
    intros r' Hne. eapply same_trans; [|apply same_say; unfold is_answer; by rewrite bool_decide_eq_false_2].
    eapply same_trans; [|by apply same_cancel_all]. destruct tls; [|done]. apply same_say. unfold is_answer. by rewrite andb_false_r.
Qed.

(** ** The invariant *)
Lemma quiet_map (m : gmap nat op) f :
  (forall k o', m !! k = Some o' -> exists o, ops f !! k = Some o /\ (o' = o \/ o' = finish_op canceled o)) ->
  quiet f -> quiet (set_ops m f).
Proof.
  intros M Q k o' res. cbn. intros H Ht Hr. destruct (M k o' H) as (o & Ho & [->| ->]); [by eapply Q|].
  rewrite (proj1 (finish_what _ _)) in Ht. unfold finish_op in Hr. destruct (ready o) eqn:E.
  - eapply Q; [done|done|by rewrite <- Hr].
  - injection Hr as <-. done.
Qed.

Lemma quiet_delete k f : quiet f -> quiet (set_ops (delete k (ops f)) f).
Proof. apply quiet_map. intros l o H. apply lookup_delete_Some in H as [_ H]. eauto. Qed.

Lemma quiet_cancel tm f : quiet f -> quiet (cancel_timer tm f).
Proof. apply quiet_map, alter_lookup. Qed.

Lemma quiet_begin r h f : quiet f -> quiet (begin_op r h f).
Proof. intros Q k o res. cbn. rewrite lookup_insert_Some. intros [[_ <-]|[_ H]]; [done|by apply (Q k)]. Qed.

Lemma has_begin r h f k : wf f -> has r (begin_op r h f) k -> k = next_op f \/ has r f k.
Proof.
  intros W (o & H & Hc). cbn in H. apply lookup_insert_Some in H as [[<- _]|[_ H]]; [by left|right]. by exists o.
Qed.

Lemma once_begin r h f : wf f -> idle r f -> once r (begin_op r h f).
Proof.
  intros W [I1 I2]. split; [unfold answers in *; cbn; lia|]. split; [|done].
  intros k l Hk Hl. apply has_begin in Hk as [->|Hk]; [|by destruct (I2 k)|done].
  apply has_begin in Hl as [->|Hl]; [done|by destruct (I2 l)|done].
Qed.

Lemma live_begin r h f : is_timer h = false -> live r (begin_op r h f).
Proof. intros H. right. eexists (next_op f), _. cbn. rewrite lookup_insert_eq. split; [done|]. by split; [split|]. Qed.

Lemma once_say r a f : idle r f -> once r (say r a f).
Proof.
  intros [I1 I2]. assert (H : forall k, ~ has r (say r a f) k) by exact I2.
  split; [rewrite answers_say; destruct (is_answer _ _); lia|]. split; intros k; [intros l|]; intros Hk; by destruct (H k).
Qed.

Lemma live_say r a f : is_answer r (r, a) = true -> live r (say r a f).
Proof. intros H. left. rewrite answers_say, H. lia. Qed.

(** A handler of the request, its operation gone from [f0]. *)
Lemma run_carrier_live r h res tm k f0 f' :
  let f := set_ops (delete k (ops f0)) f0 in
  ops f0 !! k = Some {| request := r; what := h; ready := Some res |} -> captured h = Some tm -> timer_at tm f ->
  run_handler r h res f = Ok f' -> dead f0 = false -> live r f0 -> live r f'.
Proof.
  intros f Hk Hc T H Hd L. destruct (carrier_runs r h res tm f f' Hc H) as (g & Hg & C).
  assert (G : same r f g) by (destruct Hg as [->| ->]; [done|apply same_cancel_timer, T]).
  destruct C as [[-> [Hdd|[Hs He]]]|[(a & Ha & ->)|[(h' & b & Hh & _ & ->)|(h' & Hh & _ & ->)]]].
  - cbn in Hdd. congruence.
  - apply (same_live r f g G). destruct L as [L|(l & o & Ho & Hr & Ha)]; [by left|right].
    exists l, o. split; [|done]. cbn. apply lookup_delete_Some. split; [|done]. intros ->.
    rewrite Hk in Ho. injection Ho as <-. by apply (Ha Hs res).
  - by apply live_say.
  - by apply live_begin.
  - by apply live_begin.
Qed.

Lemma run_carrier_once r h res tm k f0 f' :
  let f := set_ops (delete k (ops f0)) f0 in
  wf f -> (r < requests f)%nat -> is_timer h = false ->
  ops f0 !! k = Some {| request := r; what := h; ready := Some res |} -> captured h = Some tm -> timer_at tm f ->
  run_handler r h res f = Ok f' -> once r f0 -> quiet f0 -> once r f' /\ quiet f'.
Proof.
  intros f W Hr Hh Hk Hc T H (O1 & O2 & O3) Q. destruct (carrier_runs r h res tm f f' Hc H) as (g & Hg & C).
  assert (Hhas : has r f0 k) by (eexists; split; [done|by split]).
  assert (I : idle r f).
  { split; [exact (O3 k Hhas)|]. intros l (o & Ho & Hcar). cbn in Ho. apply lookup_delete_Some in Ho as [Hne Ho].
    apply Hne, (O2 k l); [done|by exists o]. }
  assert (G : idle r g /\ wf g /\ requests g = requests f /\ quiet g).
  { pose proof (quiet_delete k f0 Q) as Qf. destruct Hg as [->| ->]; [done|]. split; [|split; [by apply wf_finish|split; [done|by apply quiet_cancel]]].
    eapply same_idle; [apply same_cancel_timer, T|done]. }
  destruct G as (G1 & G2 & G3 & G4).
  destruct C as [[-> _]|[(a & Ha & ->)|[(h' & b & Hh' & Hcap & ->)|(h' & Hh' & _ & ->)]]].
  - split; [by apply idle_once|done].
  - split; [by apply once_say|done].
  - split; [|by do 2 apply quiet_begin]. apply once_begin; [apply wf_begin; [done|lia|done]|].
    eapply same_idle; [apply same_begin; [done|by right]|done].
  - split; [by apply once_begin|by apply quiet_begin].
Qed.

Lemma run_timer_live r h res k f0 f' :
  let f := set_ops (delete k (ops f0)) f0 in
  ops f0 !! k = Some {| request := r; what := h; ready := Some res |} -> is_timer h = true ->
  run_handler r h res f = Ok f' -> live r f0 -> live r f'.
Proof.
  intros f Hk Ht H L. assert (Lf : live r f).
  { apply (same_live r f0 f); [|done]. apply same_delete. rewrite Hk. intros o [= <-] [_ Hc]. cbn in Hc. congruence. }
  destruct (timer_runs r h res f f' Ht H) as [[_ ->]|[(_ & _ & ->)|(tls & _ & ->)]].
  - done.
  - destruct Lf as [Lf|(l & o & Ho & Hr & Ha)]; [by left|right]. exists l. cbn [ops cancel_all set_ops].
    rewrite lookup_fmap, Ho. cbn [fmap option_fmap option_map]. eexists. split; [done|].
    destruct (bool_decide (request o = r) && on_resolver (what o)) eqn:E; [|done].
    apply andb_prop in E as [_ E]. split; [unfold carries; by rewrite (proj1 (finish_what _ _)), (proj2 (finish_what _ _))|].
    unfold alive. rewrite (proj1 (finish_what _ _)). destruct (what o); done.
  - apply live_say. unfold is_answer. cbn. by rewrite bool_decide_eq_true_2.
Qed.

Record invariant (timeouts : bool) f : Prop := {
  inv_wf : wf f;
  inv_live r : dead f = false -> (r < requests f)%nat -> live r f;
  inv_once r : timeouts = false -> once r f;
  inv_quiet : timeouts = false -> quiet f }.

Lemma new_invariant b ms : invariant b (new_factory ms).
Proof.
  split.
  - split; cbn; try (intros k o; by rewrite lookup_empty).
    intros e He. by apply elem_of_nil in He.
  - cbn. lia.
  - intros r _. split; [cbn; lia|]. split; intros k; [intros l|]; intros (o & H & _); cbn in H; by rewrite lookup_empty in H.
  - intros _ k o res. cbn. by rewrite lookup_empty.
Qed.

(** ** A step *)
Lemma get_frame address port tls f :
  wf f -> let f' := get_connector address port tls f in
  wf f' /\ dead f' = dead f /\ requests f' = S (requests f) /\ live (requests f) f' /\ once (requests f) f' /\
  (forall r', r' <> requests f -> same r' f f') /\ (quiet f -> quiet f').
Proof.
  intros W. cbv zeta. unfold get_connector. cbv zeta. set (r := requests f).
  set (f1 := {| stopping := stopping f; dead := dead f; conn_timeout := conn_timeout f; requests := S r; ops := ops f;
    next_op := next_op f; log := log f |}).
  assert (W1 : wf f1).
  { destruct W as [W1 W2 W3 W4]. split; [exact W1| |exact W3|]; cbn.
    - intros k o H. specialize (W2 k o H). fold r in W2. lia.
    - intros e H. specialize (W4 e H). fold r in W4. lia. }
  assert (I1 : idle r f1).
  { split.
    - unfold answers. cbn [log f1]. rewrite (List.filter_ext_in _ (fun _ => false)), List.filter_false; [done|]. intros e He.
      apply list_elem_of_In, (wf_log f W) in He. unfold is_answer. rewrite bool_decide_eq_false_2; [done|]. fold r in He. lia.
    - intros k (o & Ho & Hr & _). apply (wf_request f W) in Ho. fold r in Ho. lia. }
  assert (S1 : forall r', same r' f f1) by (by split).
  change (stopping f1) with (stopping f). destruct (stopping f).
  - assert (A : is_answer r (r, a_error 1) = true) by (unfold is_answer; cbn; by rewrite bool_decide_eq_true_2).
    split; [apply wf_say; [done|cbn; lia]|]. split; [done|]. split; [done|]. split; [by apply live_say|].
    split; [by apply once_say|]. split; [|done]. intros r' Hne. eapply same_trans; [apply S1|]. apply same_say. unfold is_answer. by rewrite bool_decide_eq_false_2.
  - unfold dns_resolver. cbv zeta. set (p := if port =? 0 then _ else port). set (f2 := say r (a_resolve address p) f1).
    assert (W2 : wf f2) by (apply wf_say; [done|cbn; lia]).
    assert (S2 : forall r', same r' f1 f2) by (intros r'; apply same_say; unfold is_answer; by rewrite andb_false_r).
    assert (W3 : wf (begin_op r resolve_timer f2)) by (apply wf_begin; [done|cbn; lia|done]).
    split; [by apply begin_two_wf; [|cbn; lia| |]|]. split; [done|]. split; [done|]. split; [by apply live_begin|].
    split.
    { apply once_begin; [done|]. eapply same_idle; [apply same_begin; [done|by right]|]. by eapply same_idle. }
    split; [|intros Q; by do 2 apply quiet_begin].
    intros r' Hne. eapply same_trans; [apply S1|]. eapply same_trans; [exact (S2 r')|]. eapply same_trans; apply same_begin; [done|by left|done|by left].
Qed.

Lemma run_op_frame b k f f' : invariant b f -> run_op k f = Ok f' -> invariant b f'.
Proof.
  intros [W L O Q]. unfold run_op. destruct (ops f !! k) as [[r h [res|]]|] eqn:Ek; [|by intros [= <-]..].
  set (g := set_ops (delete k (ops f)) f). intros H.
  assert (Hr : (r < requests g)%nat) by (exact (wf_request f W k _ Ek)).
  assert (Wg : wf g) by (by apply wf_delete).
  assert (Sg : forall r', r' <> r -> same r' f g).
  { intros r' Hne. apply same_delete. rewrite Ek. intros o [= <-] [Hc _]. cbn in Hc. congruence. }
  destruct (is_timer h) eqn:Et.
  - destruct (run_timer_frame r h res g f' Wg Hr Et H) as (W' & Hd & Hq & HS). split; [done| | |].
    + intros r' Hd' Hr'. rewrite Hd in Hd'. rewrite Hq in Hr'. destruct (decide (r' = r)) as [->|Hne].
      * eapply run_timer_live; [exact Ek|done|exact H|by apply L].
      * apply (same_live r' g f'); [by apply HS|]. apply (same_live r' f g); [by apply Sg|]. by apply L.
    + intros r' Hb. pose proof (Q Hb k _ res Ek Et eq_refl) as Hc.
      destruct (timer_runs r h res g f' Et H) as [[_ ->]|[(E & _)|(tls & E & _)]]; [|congruence..].
      apply (same_once r' f g); [|by apply O]. apply same_delete. rewrite Ek. intros o [= <-] [_ Hc']. cbn in Hc'. congruence.
    + intros Hb. pose proof (Q Hb k _ res Ek Et eq_refl) as Hc.
      destruct (timer_runs r h res g f' Et H) as [[_ ->]|[(E & _)|(tls & E & _)]]; [|congruence..]. apply quiet_delete. by apply Q.
  - assert (Hc : exists tm, captured h = Some tm) by (destruct h; cbn in *; eauto; done). destruct Hc as [tm Hc].
    assert (T : timer_at tm g).
    { destruct (wf_timer f W k _ tm Ek Hc) as [T1 T2]. split; [done|]. cbn. intros o. rewrite lookup_delete_Some. intros [_ Ho]. by apply T2. }
    destruct (run_carrier_frame r h res tm g f' Wg Hr Hc T H) as (W' & Hd & Hq & HS). split; [done| | |].
    + intros r' Hd' Hr'. rewrite Hd in Hd'. rewrite Hq in Hr'. destruct (decide (r' = r)) as [->|Hne].
      * eapply run_carrier_live; [exact Ek|done|done|exact H|done|by apply L].
      * apply (same_live r' g f'); [by apply HS|]. apply (same_live r' f g); [by apply Sg|]. by apply L.
    + intros r' Hb. destruct (decide (r' = r)) as [->|Hne].
      * by eapply run_carrier_once; [..|exact H|apply O|apply Q].
      * apply (same_once r' g f'); [by apply HS|]. apply (same_once r' f g); [by apply Sg|]. by apply O.
    + intros Hb. by eapply run_carrier_once; [..|exact H|apply O|apply Q].
Qed.

Lemma complete_invariant b k o res f :
  ops f !! k = Some o -> ec res <> Some operation_canceled -> (is_timer (what o) = true -> b = true) ->
  invariant b f -> invariant b (complete k res f).
Proof.
  intros Hk Hres Hb [W L O Q].
  assert (Lk : forall l o', ops f !! l = Some o' -> ops (complete k res f) !! l = Some (if decide (l = k) then finish_op res o' else o')).
  { intros l o' Hl. cbn. destruct (decide (l = k)) as [->|Hne]; [by rewrite lookup_alter_eq, Hl|by rewrite lookup_alter_ne]. }
  assert (Hhas : forall r l, has r (complete k res f) l -> has r f l).
  { intros r l (o' & H & Hc). apply alter_lookup in H as (o2 & H2 & [->| ->]); exists o2; split; try done.
    unfold carries in *. by rewrite (proj1 (finish_what _ _)), (proj2 (finish_what _ _)) in Hc. }
  split.
  - by apply wf_finish.
  - intros r Hd Hr. destruct (L r Hd Hr) as [H|(l & o' & Ho & Hc & Ha)]; [by left|right]. exists l. eexists. split; [by apply Lk|].
    destruct (decide (l = k)) as [->|]; [|done]. split; [unfold carries; by rewrite (proj1 (finish_what _ _)), (proj2 (finish_what _ _))|].
    unfold alive. rewrite (proj1 (finish_what _ _)). intros Hs res'. unfold finish_op. destruct (ready o') eqn:E.
    + intros H. apply (Ha Hs). by rewrite <- H.
    + by intros [= <-].
  - intros r Hb'. destruct (O r Hb') as (O1 & O2 & O3). split; [done|]. split.
    + intros l1 l2 H1 H2. apply O2; by apply Hhas.
    + intros l Hl. by apply (O3 l), Hhas.
  - intros Hb' l o' res' Hl Ht Hr. cbn in Hl. destruct (decide (k = l)) as [<-|Hne].
    + rewrite lookup_alter_eq, Hk in Hl. injection Hl as <-. rewrite (proj1 (finish_what _ _)) in Ht. specialize (Hb Ht). congruence.
    + rewrite lookup_alter_ne in Hl by done. by apply (Q Hb' l o').
Qed.

Lemma step_invariant b f f' : step b f f' -> invariant b f -> invariant b f'.
Proof.
  intros S I. destruct S as [address port tls f Hd|f _|f|k o f Hb Hk Ht|k o res f Hk Ht He|k f f' H].
  - destruct I as [W L O Q]. destruct (get_frame address port tls f W) as (W' & Hd' & Hq & HL & HO & HS & HQ). split; [done| | |].
    + intros r Hdd Hr. rewrite Hd' in Hdd. rewrite Hq in Hr. destruct (decide (r = requests f)) as [->|Hne]; [done|].
      apply (same_live r f); [by apply HS|]. apply L; [done|lia].
    + intros r Hb. destruct (decide (r = requests f)) as [->|Hne]; [done|]. apply (same_once r f); [by apply HS|by apply O].
    + intros Hb. by apply HQ, Q.
  - destruct I as [[W1 W2 W3 W4] L O Q]. split; [by split|exact L|exact O|exact Q].
  - destruct I as [[W1 W2 W3 W4] L O Q]. split; [by split|done|exact O|exact Q].
  - by apply (complete_invariant b k o).
  - apply (complete_invariant b k o); [done|done| |done]. congruence.
  - by eapply run_op_frame.
Qed.

Lemma reach_invariant b ms f : reach b ms f -> invariant b f.
Proof. induction 1 as [|f f' _ IH S]; [apply new_invariant|by eapply step_invariant]. Qed.

(** ** Properties *)

(** C16: Every request is answered: as long as the factory lives, a request of which
    nothing is under way any more has had a connector or an error, whatever the
    resolver, the peers, the timers and [stop()] have done, and in whatever order
    the handlers have run. *)
Theorem request_answered (timeouts : bool) (ms : Z) (f : factory) (r : nat) :
  reach timeouts ms f -> dead f = false -> (r < requests f)%nat -> settled r f -> (1 <= answers r f)%nat.
Proof.
  intros R Hd Hr Hs. destruct (inv_live _ _ (reach_invariant _ _ _ R) r Hd Hr) as [H|(k & o & Ho & [Hc _] & _)]; [done|].
  by destruct (Hs k o).
Qed.

(** C25: Unless a timer expires, no request is answered twice, and one of which
    nothing is under way has had exactly one answer; while it has had none, one
    operation at most carries it. *)
Theorem answered_once (ms : Z) (f : factory) (r : nat) :
  reach false ms f ->
  (answers r f <= 1)%nat /\
  (dead f = false -> (r < requests f)%nat -> settled r f -> answers r f = 1%nat) /\
  (forall k l, has r f k -> has r f l -> k = l /\ answers r f = O).
Proof.
  intros R. pose proof (reach_invariant _ _ _ R) as [_ L O _]. destruct (O r eq_refl) as (O1 & O2 & O3).
  split; [done|]. split.
  - intros Hd Hr Hs. destruct (L r Hd Hr) as [H|(k & o & Ho & [Hc _] & _)]; [lia|]. by destruct (Hs k o).
  - intros k l Hk Hl. split; [by apply O2|by apply (O3 k)].
Qed.

Definition resolved (l : list endpoint) : result := {| ec := None; endpoints := l; alpn := ""; npn := "" |}.
Definition failed : result := {| ec := Some other_error; endpoints := []; alpn := ""; npn := "" |}.

(** A run, as its moves. *)
Inductive move := m_get (tls : bool) | m_expire (k : nat) | m_complete (k : nat) (res : result) | m_run (k : nat) | m_destroy.

Definition do_move (m : move) (f : factory) : option factory :=
  match m with
  | m_get tls => if dead f then None else Some (get_connector "example.org" 0 tls f)
  | m_expire k => o ← ops f !! k; if is_timer (what o) then Some (complete k success f) else None
  | m_complete k res =>
      o ← ops f !! k;
      if is_timer (what o) || bool_decide (ec res = Some operation_canceled) then None else Some (complete k res f)
  | m_run k => match run_op k f with Ok f => Some f | Crash _ => None end
  | m_destroy => Some (destroy f)
  end.

Definition do_moves (l : list move) (f : factory) : option factory :=
  foldl (fun (f : option factory) m => f ≫= do_move m) (Some f) l.

Lemma move_step m f f' : do_move m f = Some f' -> step true f f'.
Proof.
  destruct m as [tls|k|k res|k|]; cbn [do_move].
  - destruct (dead f) eqn:E; intros [= <-]. by constructor.
  - destruct (ops f !! k) as [o|] eqn:E; [|done]. cbn. destruct (is_timer (what o)) eqn:T; intros [= <-]. by eapply step_expire.
  - destruct (ops f !! k) as [o|] eqn:E; [|done]. cbn. destruct (is_timer (what o)) eqn:T; [done|].
    destruct (bool_decide_reflect (ec res = Some operation_canceled)); intros [= <-]. by eapply step_complete.
  - destruct (run_op k f) eqn:E; intros [= <-]. by eapply step_run.
  - intros [= <-]. constructor.
Qed.

Lemma moves_reach f f' l ms : reach true ms f -> do_moves l f = Some f' -> reach true ms f'.
Proof.
  revert f. induction l as [|m l IH]; intros f R; unfold do_moves; cbn [foldl]; [by intros [= <-]|].
  cbn [mbind option_bind]. destruct (do_move m f) as [g|] eqn:E.
  - apply (IH g). eapply reach_step; [exact R|]. by apply move_step in E.
  - intros H. exfalso. clear -H. induction l; [done|]. by apply IHl.
Qed.

(** The name is resolved to [l], and the first address tried. *)
Definition connecting (tls : bool) (l : list endpoint) : list move := [m_get tls; m_complete 1 (resolved l); m_run 1].

(** C35: With timers, a request can be answered twice.  Over TLS, the timer of an
    attempt that failed is never cancelled: the user is told of the failure, and
    two seconds later, when the timer expires, of another one, after a shutdown of
    the stream.  On a plain connection, a timer that expires when the connection has
    just been made tells the user of an error, and then the connector follows.
    And the handshake of a factory that has been destroyed reads its members: the
    flag that guards the other handlers is not asked there. *)
Theorem answered_twice (ms : Z) (e : endpoint) (l : list endpoint) :
  (exists f, reach true ms f /\ dead f = false /\
     log f = [(0%nat, a_resolve "example.org" 443); (0%nat, a_error 3); (0%nat, a_shutdown); (0%nat, a_error 4)]) /\
  (exists f, reach true ms f /\ dead f = false /\
     log f = [(0%nat, a_resolve "example.org" 80); (0%nat, a_error 4); (0%nat, a_connector false HTTP11 ms)]) /\
  (exists f, reach true ms f /\ run_op 4 f = Crash Undefined).
Proof.
  split; [|split].
  - destruct (do_moves (connecting true (e :: l) ++ [m_complete 3 failed; m_run 3; m_expire 2; m_run 2]) (new_factory ms)) as [f|] eqn:E;
      [|by vm_compute in E].
    exists f. split; [eapply moves_reach; [apply reach_new|exact E]|]. vm_compute in E. by injection E as <-.
  - destruct (do_moves (connecting false (e :: l) ++ [m_expire 2; m_complete 3 success; m_run 2; m_run 3]) (new_factory ms)) as [f|] eqn:E;
      [|by vm_compute in E].
    exists f. split; [eapply moves_reach; [apply reach_new|exact E]|]. vm_compute in E. by injection E as <-.
  - destruct (do_moves (connecting true (e :: l) ++ [m_complete 3 success; m_run 3; m_destroy; m_complete 4 success]) (new_factory ms)) as [f|] eqn:E;
      [|by vm_compute in E].
    exists f. split; [eapply moves_reach; [apply reach_new|exact E]|]. vm_compute in E. by injection E as <-.
Qed.

(** ** Witnesses *)

(** Two addresses, the second of which answers. *)
Definition second_answers : list move := connecting false [1; 2] ++ [m_complete 3 failed; m_run 3; m_complete 5 success; m_run 5].

Lemma request_answered_witness :
  exists f, do_moves (second_answers ++ [m_run 0; m_run 2; m_run 4]) (new_factory 5000) = Some f /\ settled 0 f /\ (1 <= answers 0 f)%nat.
Proof.
  destruct (do_moves (second_answers ++ [m_run 0; m_run 2; m_run 4]) (new_factory 5000)) as [f|] eqn:E; [|by vm_compute in E].
  assert (R : reach true 5000 f) by (eapply moves_reach; [apply reach_new|exact E]).
  vm_compute in E. injection E as <-. eexists. split; [reflexivity|].
  match goal with |- settled 0 ?f /\ _ => assert (S : settled 0 f) by (intros k o H; by vm_compute in H) end.
  split; [exact S|]. by apply (request_answered true 5000 _ 0 R); [..|exact S]; vm_compute.
Defined.

Lemma answered_once_witness :
  exists f, reach false 5000 f /\ answers 0 f = O /\ (answers 0 f <= 1)%nat /\ has 0 f 1.
Proof.
  set (f := get_connector "example.org" 8080 true (new_factory 5000)).
  assert (R : reach false 5000 f) by (eapply reach_step; [apply reach_new|by apply step_get]).
  destruct (answered_once 5000 f 0 R) as (H1 & _ & H2).
  assert (H : has 0 f 1) by (eexists; split; [vm_compute; reflexivity|by split]).
  exists f. split; [exact R|]. split; [exact (proj2 (H2 1%nat 1%nat H H))|]. split; [exact H1|exact H].
Defined.
