(* ===== verification/Server.v ===== *)
(** * The server (src/src/http_server.{h,cpp}, [build_handler] of
    src/src/protocol/handler_factory.h)

    [http_server] listens on a plain and on a TLS port, accepts connections and
    builds a handler for each.  The operations under way are kept as in
    [Communicator]: an operation that is [ready] has a handler that will run.
    What the system makes of addresses, and OpenSSL of certificates and
    handshakes, are arguments. *)

From stdpp Require Import relations.
From S2P Require Import Prelude CppStd HttpCommons Connector Negotiation Sni Communicator.

(** The completion lambdas. *)
Inductive server_handler :=
| accept_done (ssl : bool)
| connection_timer
| server_handshake (tm : nat).

Record server_op := {
  server_what : server_handler;
  server_ready : option result }.

(** What is seen of the server: a handler for a connection, and whether the user
    has been given it; the shutdown of a connection whose handshake takes too
    long. *)
Inductive server_act :=
| s_handler (type : handler_type) (v : proto_version) (told : bool)
| s_shutdown.

Section Server.
Context {ssl_context X509 : Type} (prepare : string * string * string -> option (ssl_context * option X509)).
Implicit Types (ssl : bool).

(** An acceptor, once made, stays; [stop] closes it. *)
Record http_server := {
  running : bool;
  _ssl : bool;
  ssl_port : Z;
  http_port : Z;
  sni : @sni_solver ssl_context X509;
  _ssl_ctx : bool;
  (** open, or closed *)
  plain_acceptor : option bool;
  ssl_acceptor : option bool;
  connect_cb : bool;
  server_ops : gmap nat server_op;
  server_next : nat;
  server_log : list server_act }.

Definition new_server (ssl_port http_port : Z) : http_server :=
  {| running := false; _ssl := negb (ssl_port =? 0); ssl_port := ssl_port; http_port := http_port;
     sni := new_solver; _ssl_ctx := false; plain_acceptor := None; ssl_acceptor := None; connect_cb := false;
     server_ops := ∅; server_next := O; server_log := [] |}.

Implicit Types (s : http_server).

Definition set_server (run ssl : bool) (solver : sni_solver) (ctx cb : bool) s : http_server :=
  {| running := run; _ssl := ssl; ssl_port := ssl_port s; http_port := http_port s; sni := solver;
     _ssl_ctx := ctx; plain_acceptor := plain_acceptor s; ssl_acceptor := ssl_acceptor s; connect_cb := cb;
     server_ops := server_ops s; server_next := server_next s; server_log := server_log s |}.

Definition acceptor ssl s : option bool := if ssl then ssl_acceptor s else plain_acceptor s.

Definition set_acceptor ssl (a : option bool) s : http_server :=
  {| running := running s; _ssl := _ssl s; ssl_port := ssl_port s; http_port := http_port s; sni := sni s;
     _ssl_ctx := _ssl_ctx s; plain_acceptor := if ssl then plain_acceptor s else a;
     ssl_acceptor := if ssl then a else ssl_acceptor s; connect_cb := connect_cb s;
     server_ops := server_ops s; server_next := server_next s; server_log := server_log s |}.

Definition set_server_ops (o : gmap nat server_op) s : http_server :=
  {| running := running s; _ssl := _ssl s; ssl_port := ssl_port s; http_port := http_port s; sni := sni s;
     _ssl_ctx := _ssl_ctx s; plain_acceptor := plain_acceptor s; ssl_acceptor := ssl_acceptor s;
     connect_cb := connect_cb s; server_ops := o; server_next := server_next s; server_log := server_log s |}.

Definition begin_server_op (h : server_handler) s : http_server :=
  {| running := running s; _ssl := _ssl s; ssl_port := ssl_port s; http_port := http_port s; sni := sni s;
     _ssl_ctx := _ssl_ctx s; plain_acceptor := plain_acceptor s; ssl_acceptor := ssl_acceptor s;
     connect_cb := connect_cb s;
     server_ops := <[server_next s := {| server_what := h; server_ready := None |}]> (server_ops s);
     server_next := S (server_next s); server_log := server_log s |}.

Definition log_act (a : server_act) s : http_server :=
  {| running := running s; _ssl := _ssl s; ssl_port := ssl_port s; http_port := http_port s; sni := sni s;
     _ssl_ctx := _ssl_ctx s; plain_acceptor := plain_acceptor s; ssl_acceptor := ssl_acceptor s;
     connect_cb := connect_cb s; server_ops := server_ops s; server_next := server_next s;
     server_log := server_log s ++ [a] |}.

Definition finish_server_op (res : result) (o : server_op) : server_op :=
  match server_ready o with
  | Some _ => o
  | None => {| server_what := server_what o; server_ready := Some res |}
  end.

(** ** The user's operations *)
Definition on_client_connect s : http_server := set_server (running s) (_ssl s) (sni s) (_ssl_ctx s) true s.

(** An exception, and nothing is changed, while the server runs. *)
Definition add_server_certificate (r : string * string * string) s : option http_server :=
  if running s then None
  else Some (set_server (running s) (_ssl s) (add_certificate r (sni s)) (_ssl_ctx s) (connect_cb s) s).

(** [listen]: [addresses] is what the port resolves to, and whether each address
    could be opened, bound and listened on.  The error of the last one is thrown,
    unless there is no acceptor at all. *)
Definition listen ssl (addresses : option (list bool)) s : outcome http_server :=
  let ok := match addresses with None => false | Some l => default true (last l) end in
  let made := match addresses with None => false | Some l => existsb id l end in
  let s := if made then set_acceptor ssl (Some true) s else s in
  if negb ok && bool_decide (is_Some (acceptor ssl s)) then Crash Terminated else mret s.

Definition start_accept ssl s : http_server := if running s then begin_server_op (accept_done ssl) s else s.

(** [start]: [noexcept], so that what [listen] throws is the end. *)
Definition start (plain tls : option (list bool)) s : outcome http_server :=
  if running s then mret s
  else
    let s := set_server true (_ssl s) (sni s) (_ssl_ctx s) (connect_cb s) s in
    let '(loaded, solver) := if _ssl s then load_certificates prepare (sni s) else (false, sni s) in
    let s := set_server true loaded solver (loaded || _ssl_ctx s) (connect_cb s) s in
    s ← (if loaded then listen true tls s else mret s);
    s ← listen false plain s;
    let s := if plain_acceptor s is Some _ then start_accept false s else s in
    match ssl_acceptor s with
    | Some _ => _ ← cassert (_ssl_ctx s); mret (start_accept true s)
    | None => mret s
    end.

(** Closing an acceptor cancels what waits on it. *)
Definition close_acceptor ssl s : http_server :=
  match acceptor ssl s with
  | None => s
  | Some _ =>
      set_acceptor ssl (Some false)
        (set_server_ops
           ((fun o => match server_what o with
                      | accept_done b => if Bool.eqb b ssl then finish_server_op canceled o else o
                      | _ => o
                      end) <$> server_ops s) s)
  end.

Definition stop_server s : http_server :=
  if running s then
    close_acceptor true (close_acceptor false (set_server false (_ssl s) (sni s) (_ssl_ctx s) (connect_cb s) s))
  else s.

(** ** The lambdas *)

(** [build_handler], and the user is told. *)
Definition build_handler (type : handler_type) (v : proto_version) s : http_server :=
  log_act (s_handler type v (connect_cb s)) s.

Definition on_accept ssl (res : result) s : http_server :=
  match ec res with
  | Some operation_canceled => s
  | Some other_error => start_accept ssl s
  | None =>
      start_accept ssl
        (if ssl then begin_server_op (server_handshake (server_next s)) (begin_server_op connection_timer s)
         else build_handler ht_h1 UNSET s)
  end.

Definition on_connection_timer (res : result) s : http_server :=
  match ec res with Some _ => s | None => log_act s_shutdown s end.

Definition on_server_handshake (tm : nat) (res : result) s : http_server :=
  let s := match ec res with
           | Some operation_canceled => s
           | _ => set_server_ops (alter (finish_server_op canceled) tm (server_ops s)) s
           end in
  match ec res with
  | Some _ => s
  | None => let '(type, v) := negotiate_handler (alpn res) (npn res) in build_handler type v s
  end.

Definition run_server_handler (h : server_handler) (res : result) s : http_server :=
  match h with
  | accept_done ssl => on_accept ssl res s
  | connection_timer => on_connection_timer res s
  | server_handshake tm => on_server_handshake tm res s
  end.

(** The handler of an operation that is ready runs; the environment finishes one. *)
Definition run_server_op (k : nat) s : http_server :=
  match server_ops s !! k with
  | Some {| server_what := h; server_ready := Some res |} =>
      run_server_handler h res (set_server_ops (delete k (server_ops s)) s)
  | _ => s
  end.

Definition complete_server_op (k : nat) (res : result) s : http_server :=
  set_server_ops (alter (finish_server_op res) k (server_ops s)) s.

(** ** What can happen

    [starts] tells whether the server may be started. *)
Inductive server_step (starts : bool) : http_server -> http_server -> Prop :=
| server_start plain tls s s' : starts = true -> start plain tls s = Ok s' -> server_step starts s s'
| server_stop s : server_step starts s (stop_server s)
| server_connect s : server_step starts s (on_client_connect s)
| server_add r s s' : add_server_certificate r s = Some s' -> server_step starts s s'
| server_complete k res s :
    ec res <> Some operation_canceled -> server_step starts s (complete_server_op k res s)
| server_run k s : server_step starts s (run_server_op k s).

Inductive server_reach (ports : Z * Z) : http_server -> Prop :=
| server_new : server_reach ports (new_server ports.1 ports.2)
| server_next_step s s' : server_reach ports s -> server_step true s s' -> server_reach ports s'.

(** An accept is under way, or its handler will run and not give up. *)
Definition awaits ssl s (k : nat) : Prop :=
  exists o, server_ops s !! k = Some o /\ server_what o = accept_done ssl /\
    forall res, server_ready o = Some res -> ec res <> Some operation_canceled.

Definition accepting ssl s (k : nat) : Prop := exists o, server_ops s !! k = Some o /\ server_what o = accept_done ssl.

(** ** The operations under way *)

(** Keys are not used again; what a handshake cancels is its timer. *)
Record ops_ok s : Prop := {
  key_ok k o : server_ops s !! k = Some o -> (k < server_next s)%nat;
  timer_ok k o tm : server_ops s !! k = Some o -> server_what o = server_handshake tm ->
    (tm < server_next s)%nat /\ forall o', server_ops s !! tm = Some o' -> server_what o' = connection_timer }.

Lemma finish_server_what res o : server_what (finish_server_op res o) = server_what o.
Proof. unfold finish_server_op. by destruct (server_ready o). Qed.

Lemma ops_ok_map (m : gmap nat server_op) s :
  (forall k o', m !! k = Some o' -> exists o, server_ops s !! k = Some o /\ server_what o' = server_what o) ->
  ops_ok s -> ops_ok (set_server_ops m s).
Proof.
  intros M [K T]. split; cbn; intros k o'; [|intros tm]; intros H; destruct (M k o' H) as (o & Ho & E).
  - by eapply K.
  - rewrite E. intros Ht. destruct (T k o tm Ho Ht) as [T1 T2]. split; [done|]. intros o2 H2.
    destruct (M tm o2 H2) as (o3 & H3 & E3). rewrite E3. by apply T2.
Qed.

Lemma ops_ok_begin h s :
  ops_ok s ->
  (forall tm, h = server_handshake tm ->
     (tm < server_next s)%nat /\ forall o, server_ops s !! tm = Some o -> server_what o = connection_timer) ->
  ops_ok (begin_server_op h s).
Proof.
  intros [K T] Hh.
  assert (L : forall tm, (tm < server_next s)%nat /\ (forall o, server_ops s !! tm = Some o -> server_what o = connection_timer) ->
    (tm < S (server_next s))%nat /\ forall o, <[server_next s := {| server_what := h; server_ready := None |}]> (server_ops s) !! tm = Some o ->
      server_what o = connection_timer).
  { intros tm [H1 H2]. split; [lia|]. intros o. rewrite lookup_insert_ne by lia. apply H2. }
  split; cbn; intros k o; [|intros tm]; intros H; apply lookup_insert_Some in H as [[<- <-]|[_ H]].
  - lia.
  - apply K in H. lia.
  - cbn. intros ->. by apply L, Hh.
  - intros Ht. apply L. by eapply T.
Qed.

(** [accepting] and [awaits] through the primitives. *)
Lemma awaits_accepting ssl s k : awaits ssl s k -> accepting ssl s k.
Proof. intros (o & H1 & H2 & _). by exists o. Qed.

Lemma awaits_begin ssl h s k : ops_ok s -> awaits ssl s k -> awaits ssl (begin_server_op h s) k.
Proof.
  intros K (o & Ho & Hr). exists o. split; [|done]. cbn. apply (key_ok s K) in Ho as Hk. by rewrite lookup_insert_ne by lia.
Qed.

Lemma awaits_new ssl s : awaits ssl (begin_server_op (accept_done ssl) s) (server_next s).
Proof. eexists. cbn. rewrite lookup_insert_eq. by split. Qed.

Lemma awaits_delete ssl s k l : l <> k -> awaits ssl s k -> awaits ssl (set_server_ops (delete l (server_ops s)) s) k.
Proof. intros Hne (o & Ho & Hr). exists o. split; [|done]. cbn. by rewrite lookup_delete_ne. Qed.

(** An operation is finished that is none of this kind, or not with a cancellation. *)
Lemma awaits_finish ssl res l s k :
  (ec res <> Some operation_canceled \/ forall o, server_ops s !! l = Some o -> server_what o <> accept_done ssl) ->
  awaits ssl s k -> awaits ssl (set_server_ops (alter (finish_server_op res) l (server_ops s)) s) k.
Proof.
  intros Hres (o & Ho & Hw & Hr). destruct (decide (l = k)) as [->|Hne].
  - exists (finish_server_op res o). split; [by cbn; rewrite lookup_alter_eq, Ho|]. rewrite finish_server_what. split; [done|].
    unfold finish_server_op. destruct (server_ready o) eqn:E; [by rewrite E|]. cbn. intros r [= <-].
    destruct Hres as [?|H]; [done|]. by destruct (H o Ho).
  - exists o. split; [by cbn; rewrite lookup_alter_ne|done].
Qed.

Lemma accepting_begin ssl h s k : accepting ssl (begin_server_op h s) k -> h = accept_done ssl /\ k = server_next s \/ accepting ssl s k.
Proof.
  intros (o & Ho & Hw). cbn in Ho. apply lookup_insert_Some in Ho as [[<- <-]|[_ Ho]]; [by left|right; by exists o].
Qed.

Lemma accepting_map ssl (m : gmap nat server_op) s k :
  (forall k o', m !! k = Some o' -> exists o, server_ops s !! k = Some o /\ server_what o' = server_what o) ->
  accepting ssl (set_server_ops m s) k -> accepting ssl s k.
Proof. intros M (o' & H & Hw). destruct (M k o' H) as (o & Ho & E). exists o. split; [done|congruence]. Qed.

Lemma map_delete l s k o' : delete l (server_ops s) !! k = Some o' -> exists o, server_ops s !! k = Some o /\ server_what o' = server_what o.
Proof. intros H. apply lookup_delete_Some in H as [_ H]. eauto. Qed.

Lemma map_finish res l s k o' :
  alter (finish_server_op res) l (server_ops s) !! k = Some o' -> exists o, server_ops s !! k = Some o /\ server_what o' = server_what o.
Proof.
  destruct (decide (l = k)) as [->|Hne]; [rewrite lookup_alter_eq|rewrite lookup_alter_ne by done].
  - intros H. apply fmap_Some in H as (o & Ho & ->). exists o. split; [done|]. apply finish_server_what.
  - eauto.
Qed.

Lemma map_close ssl s k o' :
  ((fun o => match server_what o with
             | accept_done b => if Bool.eqb b ssl then finish_server_op canceled o else o
             | _ => o
             end) <$> server_ops s) !! k = Some o' -> exists o, server_ops s !! k = Some o /\ server_what o' = server_what o.
Proof.
  intros H. apply lookup_fmap_Some in H as (o & <- & Ho). exists o. split; [done|].
  destruct (server_what o) eqn:E; try done. destruct (Bool.eqb _ _); [by rewrite finish_server_what|done].
Qed.

(** ** The invariant of the server *)
Record server_wf s : Prop := {
  wf_ops : ops_ok s;
  wf_ctx : is_Some (ssl_acceptor s) -> _ssl_ctx s = true;
  wf_awaits ssl : running s = true -> is_Some (acceptor ssl s) -> exists k, awaits ssl s k }.

(** The fields that the lambdas leave alone. *)
Definition same_server s s' : Prop :=
  running s' = running s /\ _ssl_ctx s' = _ssl_ctx s /\ forall ssl, acceptor ssl s' = acceptor ssl s.

Lemma same_server_run h res s : same_server s (run_server_handler h res s).
Proof.
  destruct h as [b| |tm]; cbn [run_server_handler].
  - unfold on_accept, start_accept, build_handler. destruct (ec res) as [[]|]; [done| |destruct b]; by case_match.
  - unfold on_connection_timer. by case_match.
  - unfold on_server_handshake. destruct (ec res) as [[]|]; [done..|]. by destruct (negotiate_handler _ _).
Qed.

Lemma ops_ok_same s s' : server_ops s' = server_ops s -> server_next s' = server_next s -> ops_ok s -> ops_ok s'.
Proof. intros E1 E2 [K T]. split; by rewrite E1, E2. Qed.

Lemma awaits_same ssl s s' k : server_ops s' = server_ops s -> awaits ssl s k -> awaits ssl s' k.
Proof. unfold awaits. by intros ->. Qed.

Lemma start_accept_ok ssl s : ops_ok s -> ops_ok (start_accept ssl s).
Proof. intros K. unfold start_accept. destruct (running s); [|done]. by apply ops_ok_begin. Qed.

Lemma start_accept_awaits ssl s : running s = true -> exists k, awaits ssl (start_accept ssl s) k.
Proof. intros H. unfold start_accept. rewrite H. eexists. apply awaits_new. Qed.

Lemma start_accept_keeps ssl b s k : ops_ok s -> awaits ssl s k -> awaits ssl (start_accept b s) k.
Proof. intros K H. unfold start_accept. destruct (running s); [|done]. by apply awaits_begin. Qed.

(** *** [start] *)
Lemma listen_ok ssl addresses s s' :
  listen ssl addresses s = Ok s' -> s' = s \/ s' = set_acceptor ssl (Some true) s.
Proof. unfold listen. cbv zeta. destruct (match addresses with None => false | Some l => existsb id l end); destruct (_ && _); intros [= <-]; auto. Qed.

Lemma listen_frame ssl addresses s s' :
  listen ssl addresses s = Ok s' ->
  running s' = running s /\ _ssl_ctx s' = _ssl_ctx s /\ server_ops s' = server_ops s /\ server_next s' = server_next s /\
  (ssl = false -> ssl_acceptor s' = ssl_acceptor s).
Proof. intros H. apply listen_ok in H as [->| ->]; [done|]. by destruct ssl. Qed.

Lemma listen_crash ssl addresses s e : listen ssl addresses s = Crash e -> e = Terminated.
Proof. unfold listen. cbv zeta. destruct (_ && _); [by intros [= <-]|done]. Qed.

(** Up to the accepts. *)
Definition prepare_start (plain tls : option (list bool)) s : outcome http_server :=
  let '(loaded, solver) := if _ssl s then load_certificates prepare (sni s) else (false, sni s) in
  let s := set_server true loaded solver (loaded || _ssl_ctx s) (connect_cb s) s in
  s ← (if loaded then listen true tls s else mret s); listen false plain s.

Definition accept_all s : outcome http_server :=
  let s := if plain_acceptor s is Some _ then start_accept false s else s in
  match ssl_acceptor s with
  | Some _ => _ ← cassert (_ssl_ctx s); mret (start_accept true s)
  | None => mret s
  end.

Lemma start_split plain tls s :
  start plain tls s = if running s then mret s else s ← prepare_start plain tls s; accept_all s.
Proof.
  unfold start, prepare_start. destruct (running s); [done|]. cbv zeta. cbn [_ssl set_server sni _ssl_ctx connect_cb].
  destruct (if _ssl s then _ else _) as [loaded solver]. destruct loaded; [|done].
  destruct (listen true _ _); [|done]. cbn [mbind outcome_bind]. by destruct (listen false _ _).
Qed.

Lemma prepare_start_ok plain tls s s' :
  server_wf s -> prepare_start plain tls s = Ok s' ->
  ops_ok s' /\ running s' = true /\ (is_Some (ssl_acceptor s') -> _ssl_ctx s' = true).
Proof.
  intros [K C _]. unfold prepare_start. destruct (if _ssl s then _ else _) as [loaded solver]. cbv zeta.
  set (s1 := set_server _ _ _ _ _ s). intros H. apply bind_Ok_inv in H as (s2 & H2 & H).
  assert (P : ops_ok s2 /\ running s2 = true /\ (is_Some (ssl_acceptor s2) -> _ssl_ctx s2 = true)).
  { destruct loaded.
    - apply listen_frame in H2 as (E1 & E2 & E3 & E4 & _). split; [by apply (ops_ok_same s)|]. by rewrite E1, E2.
    - injection H2 as <-. split; [by apply (ops_ok_same s)|]. split; [done|]. cbn. intros Hs. by rewrite C. }
  destruct P as (P1 & P2 & P3). apply listen_frame in H as (E1 & E2 & E3 & E4 & E5).
  split; [by apply (ops_ok_same s2)|]. rewrite E1, E2, E5 by done. done.
Qed.

Lemma accept_all_ok s :
  ops_ok s -> running s = true -> (is_Some (ssl_acceptor s) -> _ssl_ctx s = true) ->
  exists s', accept_all s = Ok s' /\ server_wf s'.
Proof.
  intros K R C. unfold accept_all. cbv zeta. set (s1 := if plain_acceptor s is Some _ then _ else s).
  assert (P : ops_ok s1 /\ same_server s s1 /\ (is_Some (plain_acceptor s) -> exists k, awaits false s1 k)).
  { unfold s1. destruct (plain_acceptor s); [|split; [done|split; [done|by intros []]]].
    split; [by apply start_accept_ok|]. split; [unfold start_accept; by rewrite R|]. intros _. by apply start_accept_awaits. }
  clearbody s1. destruct P as (K1 & (R1 & C1 & A1) & P1). rewrite R in R1.
  pose proof (A1 true) as At. pose proof (A1 false) as Ap. cbn in At, Ap. rewrite At.
  destruct (ssl_acceptor s) as [a|] eqn:Es.
  - rewrite C1, C by done. eexists. split; [reflexivity|]. assert (S2 : same_server s1 (start_accept true s1)) by (unfold start_accept; by rewrite R1).
    destruct S2 as (R2 & C2 & A2). split.
    + by apply start_accept_ok.
    + intros _. by rewrite C2, C1, C.
    + intros ssl _. rewrite A2. destruct ssl; cbn; intros H; [by apply start_accept_awaits|].
      rewrite Ap in H. destruct (P1 H) as [k Hk]. exists k. by apply start_accept_keeps.
  - exists s1. split; [done|]. split; [done|rewrite At; by intros []|]. intros ssl _. destruct ssl; cbn; [rewrite At; by intros []|].
    rewrite Ap. exact P1.
Qed.

Lemma start_outcomes plain tls s :
  server_wf s -> (exists s', start plain tls s = Ok s' /\ server_wf s') \/ start plain tls s = Crash Terminated.
Proof.
  intros W. rewrite start_split. destruct (running s); [left; by exists s|].
  destruct (prepare_start plain tls s) as [s1|e] eqn:E; cbn [mbind outcome_bind].
  - left. destruct (prepare_start_ok plain tls s s1 W E) as (P1 & P2 & P3). by apply accept_all_ok.
  - right. f_equal. unfold prepare_start in E. destruct (if _ssl s then _ else _) as [loaded solver]. cbv zeta in E.
    destruct loaded; [|by apply listen_crash in E]. destruct (listen true _ _) as [s2|e2] eqn:E2; cbn in E; [by apply listen_crash in E|].
    injection E as <-. by apply listen_crash in E2.
Qed.

(** *** The other steps *)
Lemma run_handler_ops h res s :
  ops_ok s -> (forall tm, h = server_handshake tm -> forall o, server_ops s !! tm = Some o -> server_what o = connection_timer) ->
  ops_ok (run_server_handler h res s) /\
  (forall ssl k, awaits ssl s k -> awaits ssl (run_server_handler h res s) k) /\
  (forall ssl k, accepting ssl (run_server_handler h res s) k -> accepting ssl s k \/ running s = true) /\
  forall ssl, h = accept_done ssl -> ec res <> Some operation_canceled -> running s = true ->
    exists k, awaits ssl (run_server_handler h res s) k.
Proof.
  intros K T. destruct h as [b| |tm]; cbn [run_server_handler].
  - unfold on_accept. destruct (ec res) as [[]|]; [split; [done|split; [done|split; [by left|done]]]| |].
    + split; [by apply start_accept_ok|]. split; [intros; by apply start_accept_keeps|]. split.
      * intros ssl k. unfold start_accept. destruct (running s); [by right|by left].
      * intros ssl [= ->] _ R. by apply start_accept_awaits.
    + set (s1 := if b then _ else _).
      assert (P : ops_ok s1 /\ running s1 = running s /\ (forall ssl k, awaits ssl s k -> awaits ssl s1 k) /\
        (forall ssl k, accepting ssl s1 k -> accepting ssl s k)).
      { unfold s1. destruct b; [|split; [by apply (ops_ok_same s)|done]].
        assert (K1 : ops_ok (begin_server_op connection_timer s)) by (by apply ops_ok_begin).
        split; [|split; [done|split; [intros; by do 2 (apply awaits_begin; [done|])|]]].
        - apply ops_ok_begin; [done|]. intros tm [= <-]. split; [cbn; lia|]. cbn. intros o. rewrite lookup_insert_eq. by intros [= <-].
        - intros ssl k H. by repeat (apply accepting_begin in H as [[[=] _]|H]). }
      clearbody s1. destruct P as (P1 & P2 & P3 & P4). split; [by apply start_accept_ok|].
      split; [intros; apply start_accept_keeps; auto|]. split.
      * intros ssl k. unfold start_accept. rewrite P2. destruct (running s); [by right|left; by apply P4].
      * intros ssl [= ->] _ R. apply start_accept_awaits. by rewrite P2.
  - unfold on_connection_timer. by destruct (ec res); (split; [by apply (ops_ok_same s)|split; [done|split; [by left|done]]]).
  - assert (K1 : ops_ok (set_server_ops (alter (finish_server_op canceled) tm (server_ops s)) s)) by (apply ops_ok_map; [apply map_finish|done]).
    assert (A1 : forall ssl k, awaits ssl s k -> awaits ssl (set_server_ops (alter (finish_server_op canceled) tm (server_ops s)) s) k).
    { intros ssl k. apply awaits_finish. right. intros o Ho. rewrite (T tm eq_refl o Ho). done. }
    assert (B1 : forall ssl k, accepting ssl (set_server_ops (alter (finish_server_op canceled) tm (server_ops s)) s) k -> accepting ssl s k)
      by (intros ssl k; apply accepting_map, map_finish).
    unfold on_server_handshake. destruct (ec res) as [[]|]; [split; [done|split; [done|split; [by left|done]]]| |].
    + split; [done|]. split; [done|]. split; [intros ssl k H; left; by apply B1|done].
    + destruct (negotiate_handler _ _) as [t v]. unfold build_handler. split; [by eapply ops_ok_same; [..|exact K1]|].
      split; [intros ssl k H; by apply (awaits_same ssl (set_server_ops (alter (finish_server_op canceled) tm (server_ops s)) s)), A1|].
      split; [intros ssl k H; left; by apply B1|done].
Qed.

Lemma run_wf k s : server_wf s -> server_wf (run_server_op k s).
Proof.
  intros [K C A]. unfold run_server_op. destruct (server_ops s !! k) as [[h [res|]]|] eqn:Ek; [|done..].
  set (s1 := set_server_ops (delete k (server_ops s)) s).
  assert (K1 : ops_ok s1) by (apply ops_ok_map; [apply map_delete|done]).
  destruct (run_handler_ops h res s1 K1) as (K2 & A2 & _ & N2).
  { intros tm -> o Ho. cbn in Ho. apply lookup_delete_Some in Ho as [_ Ho]. by apply (timer_ok s K k _ tm Ek eq_refl). }
  destruct (same_server_run h res s1) as (R2 & C2 & S2). split; [done| |].
  - rewrite C2. pose proof (S2 true) as E. cbn in E. rewrite E. exact C.
  - intros ssl. rewrite R2, S2. intros HR HA. destruct (A ssl HR HA) as [l Hl]. destruct (decide (k = l)) as [->|Hne].
    + destruct Hl as (o & Ho & Hw & Hr). rewrite Ek in Ho. injection Ho as <-. cbn in Hw. apply (N2 ssl Hw); [by apply Hr|done].
    + exists l. by apply A2, awaits_delete.
Qed.

Lemma same_ops_wf s s' :
  server_ops s' = server_ops s -> server_next s' = server_next s -> same_server s s' -> server_wf s -> server_wf s'.
Proof.
  intros E1 E2 (R & C & A) [K W1 W2]. split; [by apply (ops_ok_same s)| |].
  - rewrite C. pose proof (A true) as At. cbn in At. by rewrite At.
  - intros ssl. rewrite R, A. intros H1 H2. destruct (W2 ssl H1 H2) as [k Hk]. exists k. by apply (awaits_same ssl s).
Qed.

Lemma close_frame ssl s :
  (ops_ok s -> ops_ok (close_acceptor ssl s)) /\ running (close_acceptor ssl s) = running s /\
  _ssl_ctx (close_acceptor ssl s) = _ssl_ctx s /\ (forall b, is_Some (acceptor b (close_acceptor ssl s)) -> is_Some (acceptor b s)) /\
  forall b k, accepting b (close_acceptor ssl s) k -> accepting b s k.
Proof.
  unfold close_acceptor. destruct (acceptor ssl s) as [a|] eqn:E; [|done]. split; [|split; [done|split; [done|split]]].
  - intros K. eapply ops_ok_same; [..|exact (ops_ok_map _ s (map_close ssl s) K)]; done.
  - intros b. destruct ssl, b; cbn in *; rewrite ?E; eauto.
  - intros b k. exact (accepting_map b _ s k (map_close ssl s)).
Qed.

Lemma stop_frame s :
  (ops_ok s -> ops_ok (stop_server s)) /\ running (stop_server s) = false /\
  (forall b k, accepting b (stop_server s) k -> accepting b s k) /\
  ((is_Some (ssl_acceptor s) -> _ssl_ctx s = true) -> is_Some (ssl_acceptor (stop_server s)) -> _ssl_ctx (stop_server s) = true).
Proof.
  unfold stop_server. destruct (running s) eqn:R; [|done]. set (s1 := set_server false _ _ _ _ s).
  destruct (close_frame false s1) as (K1 & R1 & C1 & A1 & B1). destruct (close_frame true (close_acceptor false s1)) as (K2 & R2 & C2 & A2 & B2).
  split; [intros K; by apply K2, K1, (ops_ok_same s)|]. split; [by rewrite R2, R1|]. split; [intros b k H; by apply B2, B1 in H|].
  intros C H. rewrite C2, C1. apply C. exact (A1 true (A2 true H)).
Qed.

Lemma step_wf b s s' : server_step b s s' -> server_wf s -> server_wf s'.
Proof.
  intros S W. destruct S as [plain tls s s' _ H|s|s|r s s' H|k res s He|k s].
  - destruct (start_outcomes plain tls s W) as [(s2 & E & W2)|E]; rewrite E in H; [by injection H as <-|done].
  - destruct W as [K C A]. destruct (stop_frame s) as (K' & R' & _ & C'). split; [by apply K'|exact (C' C)|]. intros ssl. by rewrite R'.
  - by apply (same_ops_wf s).
  - unfold add_server_certificate in H. destruct (running s) eqn:E; [done|]. injection H as <-.
    apply (same_ops_wf s); [done..| |done]. by split; [rewrite E|].
  - destruct W as [K C A]. split; [apply ops_ok_map; [apply map_finish|done]|exact C|].
    intros ssl H1 H2. destruct (A ssl H1 H2) as [l Hl]. exists l. apply awaits_finish; [by left|done].
  - by apply run_wf.
Qed.

Lemma reach_wf ports s : server_reach ports s -> server_wf s.
Proof.
  induction 1 as [|s s' _ IH S]; [|by eapply step_wf]. split; [|by intros []|done].
  split; cbn; [intros k o|intros k o tm]; by rewrite lookup_empty.
Qed.

(** ** Properties *)

(** C17: While the server runs, every port it listens on is accepted on: an accept
    is under way, or its handler is about to run and will start the next one,
    whatever errors the accepts and the handshakes have ended with, and however
    often the server has been stopped and started.  Starting it does not fail
    its assertion. *)
Theorem running_server_accepts (ports : Z * Z) s ssl :
  server_reach ports s ->
  (running s = true -> is_Some (acceptor ssl s) -> exists k, awaits ssl s k) /\
  forall plain tls, start plain tls s <> Crash AssertFailed.
Proof.
  intros R. pose proof (reach_wf ports s R) as W. split; [by apply wf_awaits|].
  intros plain tls. destruct (start_outcomes plain tls s W) as [(s' & -> & _)| ->]; done.
Qed.

(** C29: A server that has been stopped starts no accept any more: until it is started
    again, whatever happens, it stays stopped, the accepts that are left are among
    those that were there, and each of them is gone when its handler has run. *)
Theorem stopped_server_settles (ports : Z * Z) s s' :
  server_reach ports s -> rtc (server_step false) (stop_server s) s' ->
  running s' = false /\
  (forall ssl k, accepting ssl s' k -> accepting ssl s k) /\
  (forall ssl k o res, server_ops s' !! k = Some o -> server_ready o = Some res -> ~ accepting ssl (run_server_op k s') k).
Proof.
  intros R H.
  assert (P : server_wf s' /\ running s' = false /\ forall ssl k, accepting ssl s' k -> accepting ssl s k).
  { pose proof (step_wf true s (stop_server s) (server_stop true s) (reach_wf ports s R)) as W.
    destruct (stop_frame s) as (_ & R0 & B0 & _).
    assert (W0 : server_wf (stop_server s) /\ running (stop_server s) = false /\ forall ssl k, accepting ssl (stop_server s) k -> accepting ssl s k) by done.
    clear W R0 B0. revert W0. induction H as [|t u v S _ IH]; [done|]. intros (W & R0 & B0). apply IH. clear IH.
    pose proof (step_wf false t u S W) as W'. split; [done|].
    destruct S as [plain tls t u Hf|t|t|r t u Ha|k res t He|k t]; [done| | | | |].
    - destruct (stop_frame t) as (_ & R1 & B1 & _). split; [done|]. intros ssl k Hk. by apply B0, B1.
    - split; [done|exact B0].
    - unfold add_server_certificate in Ha. rewrite R0 in Ha. injection Ha as <-. split; [done|exact B0].
    - split; [done|]. intros ssl l Hl. apply B0. by eapply accepting_map; [apply map_finish|].
    - unfold run_server_op. destruct (server_ops t !! k) as [[h [q|]]|] eqn:Ek; [|done..].
      set (t1 := set_server_ops (delete k (server_ops t)) t).
      destruct (run_handler_ops h q t1) as (_ & _ & B1 & _).
      { apply ops_ok_map; [apply map_delete|apply W]. }
      { intros tm -> o Ho. cbn in Ho. apply lookup_delete_Some in Ho as [_ Ho]. by apply (timer_ok t (wf_ops t W) k _ tm Ek eq_refl). }
      destruct (same_server_run h q t1) as (R2 & _ & _). split; [by rewrite R2|]. intros ssl l Hl. apply B0.
      apply B1 in Hl as [Hl|Hl]; [by eapply accepting_map; [apply map_delete|]|]. cbn in Hl. congruence. }
  destruct P as (W & P1 & P2). split; [done|]. split; [done|]. intros ssl k o res Ho Hr Hk.
  unfold run_server_op in Hk. rewrite Ho in Hk. destruct o as [h q]. cbn in Hr. subst q.
  set (t1 := set_server_ops (delete k (server_ops s')) s') in Hk.
  destruct (run_handler_ops h res t1) as (_ & _ & B1 & _).
  { apply ops_ok_map; [apply map_delete|apply W]. }
  { intros tm -> o Ho'. cbn in Ho'. apply lookup_delete_Some in Ho' as [_ Ho']. by apply (timer_ok s' (wf_ops s' W) k _ tm Ho eq_refl). }
  apply B1 in Hk as [(o' & Ho' & _)|Hk]; [cbn in Ho'; by rewrite lookup_delete_eq in Ho'|]. cbn in Hk. congruence.
Qed.

(** What becomes of a plain server whose addresses cannot all be listened on: if
    none can, it starts, tells nobody, and accepts nothing; if one can and the last
    one cannot, the error is thrown out of a function that must not throw, and the
    process goes down; otherwise it accepts. *)
Theorem start_outcome (addresses : list bool) (tls : option (list bool)) s :
  running s = false -> _ssl s = false -> plain_acceptor s = None -> ssl_acceptor s = None ->
  start (Some addresses) tls s =
    if existsb id addresses then
      if default true (last addresses) then
        mret (begin_server_op (accept_done false) (set_acceptor false (Some true) (set_server true false (sni s) (_ssl_ctx s) (connect_cb s) s)))
      else Crash Terminated
    else mret (set_server true false (sni s) (_ssl_ctx s) (connect_cb s) s).
Proof.
  intros R S P A. rewrite start_split, R. unfold prepare_start. rewrite S. cbv zeta. cbn [orb mbind outcome_bind mret outcome_ret].
  unfold listen. cbv zeta. destruct (existsb id addresses).
  - cbn [acceptor set_acceptor plain_acceptor]. rewrite bool_decide_eq_true_2, andb_true_r by done.
    destruct (default true (last addresses)); [|done]. cbn [negb mbind outcome_bind mret outcome_ret].
    unfold accept_all. cbn [plain_acceptor set_acceptor set_server]. unfold start_accept. cbn [running set_acceptor set_server].
    match goal with |- context [ssl_acceptor ?x] => change (ssl_acceptor x) with (ssl_acceptor s) end. by rewrite A.
  - cbn [acceptor plain_acceptor set_server]. rewrite P, (bool_decide_eq_false_2 (is_Some None)), andb_false_r by apply is_Some_None.
    cbn [negb mbind outcome_bind mret outcome_ret]. unfold accept_all. cbn [plain_acceptor set_server]. rewrite P.
    match goal with |- context [ssl_acceptor ?x] => change (ssl_acceptor x) with (ssl_acceptor s) end. by rewrite A.
Qed.
End Server.

(** ** Witnesses

    No certificates; the plain port has one address. *)
Definition no_files (r : string * string * string) : option (unit * option unit) := None.
Definition listening : @http_server unit unit :=
  match start no_files (Some [true]) None (new_server 0 80) with Ok s => s | Crash _ => new_server 0 80 end.

Lemma listening_reach : server_reach no_files (0, 80) listening.
Proof. eapply server_next_step; [apply server_new|]. apply (server_start no_files true (Some [true]) None); [done|by vm_compute]. Qed.

(** An accept has failed. *)
Definition accept_failed : @http_server unit unit := run_server_op 0 (complete_server_op 0 failed listening).

Lemma running_server_accepts_witness :
  running accept_failed = true /\ exists k, awaits false accept_failed k.
Proof.
  assert (R : server_reach no_files (0, 80) accept_failed).
  { eapply server_next_step; [|apply server_run]. eapply server_next_step; [apply listening_reach|by apply (server_complete no_files true 0 failed)]. }
  split; [by vm_compute|]. apply (running_server_accepts no_files (0, 80) accept_failed false R); [by vm_compute|by eexists].
Defined.

Lemma stopped_server_settles_witness :
  let s := run_server_op 0 (stop_server listening) in running s = false /\ ~ accepting false s 0.
Proof.
  cbv zeta. assert (S : rtc (server_step no_files false) (stop_server listening) (stop_server listening)) by apply rtc_refl.
  assert (S' : rtc (server_step no_files false) (stop_server listening) (run_server_op 0 (stop_server listening)))
    by (apply rtc_once, server_run).
  split; [exact (proj1 (stopped_server_settles no_files (0, 80) listening _ listening_reach S'))|].
  eapply (stopped_server_settles no_files (0, 80) listening _ listening_reach S); vm_compute; reflexivity.
Defined.

Lemma start_outcome_witness :
  start no_files (Some [true; false]) None (new_server 0 80) = Crash Terminated /\
  exists s, start no_files (Some [false]) None (new_server 0 80) = Ok s /\ running s = true /\ server_ops s = ∅.
Proof.
  split; [by rewrite (start_outcome no_files [true; false] None (new_server 0 80))|].
  eexists. split; [by rewrite (start_outcome no_files [false] None (new_server 0 80))|]. by split.
Defined.
