(* ===== verification/Http2Handler.v ===== *)
(** * The HTTP/2 session as a handler of the connector (session.{h,cpp},
    session_client.{h,cpp} of src/src/http2)

    What a connector calls of a session of [Http2Session], on top of nghttp2: the
    bytes to write, the feedbacks, whether to stop, the timeout.  nghttp2 is a
    parameter: the class [Nghttp2] has what the session calls while it writes, with
    the callbacks that nghttp2 makes meanwhile, [Nghttp2Laws] what its documentation
    says of it. *)

From S2P Require Import Prelude CppStd HttpMessages Errors UserObjects Http2Stream Http2Session.
From S2P Require Connector.

(** ** nghttp2, while the session writes *)

(** [nghttp2_session_mem_send]: it returns, with the count of the bytes and where
    they are, or a negative number; before that it makes callbacks, and goes on
    with what they answer.  The read callback is called with the stream [k] that
    was given to [nghttp2_submit_response]; [rc] is what a call of
    [nghttp2_submit_rst_stream] answers inside a callback. *)
Inductive sending (N : Type) :=
| sent (consumed : Z) (d : string) (n : N)
| asks_data (k : nat) (length : Z) (n : N) (go_on : read_answer -> N -> sending N)
| closes_stream (i : Z) (n : N) (go_on : N -> sending N)
| frame_not_sent (f : frame) (rc : Z) (n : N) (go_on : N -> sending N)
| misused.
Arguments sent {N} _ _ _.
Arguments asks_data {N} _ _ _ _.
Arguments closes_stream {N} _ _ _.
Arguments frame_not_sent {N} _ _ _ _.
Arguments misused {N}.

Class Nghttp2 (N : Type) := {
  (** The flag: the call comes from one of the callbacks. *)
  mem_send : bool -> N -> sending N;
  (** [nghttp2_session_want_read], [nghttp2_session_want_write] are not 0. *)
  want_read : N -> bool;
  want_write : N -> bool }.

(** From the programmers' guide of nghttp2: do not call [nghttp2_session_mem_send]
    from the callback functions, directly or indirectly; it will lead to the crash. *)
Class Nghttp2Laws (N : Type) `{Nghttp2 N} := mem_send_nested n : mem_send true n = misused.

(** What is posted to the [io_service]. *)
Inductive session_task :=
| task_cleared (k : nat)
| task_write_error (k : nat)
| task_timeout.

(** ** The two sessions *)
Class SessionKind (M : Type) := {
  (** [on_write] looks at its connector before it calls nghttp2. *)
  connector_first : bool;
  (** What it makes of the answer of nghttp2. *)
  write_answer : Z -> string -> session M -> outcome (bool * string);
  read_callback : Z -> stream -> read_answer * stream;
  (** The two agree while the connector is there. *)
  write_answer_connected consumed bytes s : connected s = true ->
    write_answer consumed bytes s = if consumed <? 0 then Crash Terminated else mret (true, bytes) }.

#[export] Instance server_kind : SessionKind http_request.
Proof.
  refine {| connector_first := true;
            write_answer consumed bytes s := Http2Session.on_write consumed bytes "" s;
            read_callback := data_source_read_callback |}.
  intros consumed bytes s E. unfold Http2Session.on_write. by rewrite E.
Defined.

#[export] Instance client_kind : SessionKind http_response.
Proof.
  refine {| connector_first := false;
            write_answer := Client.client_on_write;
            read_callback := client_data_source_read_callback |}.
  intros consumed bytes s E. unfold Client.client_on_write. by rewrite E.
Defined.

Section Handler.
Context {M N : Type} `{SessionKind M} `{Nghttp2 N}.

(** [within]: one of the callbacks of [nghttp2_session_mem_send] is running. *)
Record h2_handler := {
  sess : session M;
  ng : N;
  within : bool }.

(** The read callback of the stream [k]. *)
Definition data_asked (k : nat) (length : Z) (s : session M) : outcome (read_answer * session M) :=
  x ← of_option Undefined (objects s !! k);
  let '(a, o) := read_callback length (out x) in
  mret (a, set_objects (<[k := set_out o x]> (objects s)) s).

(** The session while nghttp2 sends.  [on_stream_close_callback] calls [do_write]
    when nghttp2 has more to write. *)
Fixpoint session_sends (t : sending N) (s : session M) (w : bool) : Connector.writing h2_handler :=
  match t with
  | sent consumed d n =>
      match write_answer consumed (sub_string d 0 consumed) s with
      | Ok (answer, chunk) => Connector.returns answer (Some chunk) {| sess := s; ng := n; within := w |}
      | Crash e => Connector.fails e
      end
  | asks_data k length n go_on =>
      match data_asked k length s with
      | Ok (a, s) => session_sends (go_on a n) s w
      | Crash e => Connector.fails e
      end
  | closes_stream i n go_on =>
      match on_stream_close_callback i (want_write n) s with
      | Ok s =>
          if want_write n && connected s
          then Connector.calls_do_write {| sess := s; ng := n; within := true |}
                 (fun h => session_sends (go_on (ng h)) (sess h) w)
          else session_sends (go_on n) s w
      | Crash e => Connector.fails e
      end
  | frame_not_sent f rc n go_on =>
      match frame_not_send_callback f rc s with
      | Ok s => session_sends (go_on n) s w
      | Crash e => Connector.fails e
      end
  | misused => Connector.fails Undefined
  end.

(** [on_write]. *)
Definition h2_on_write (h : h2_handler) : Connector.writing h2_handler :=
  if connector_first && negb (connected (sess h)) then Connector.returns false None h
  else session_sends (mem_send (within h) (ng h)) (sess h) (within h).

Definition feedbacks (ks : list nat) : list (session_task * session_task) :=
  (fun k => (task_cleared k, task_write_error k)) <$> ks.

Definition h2_write_feedbacks (h : h2_handler) : list (session_task * session_task) * h2_handler :=
  let '(ks, s) := write_feedbacks (sess h) in (feedbacks ks, {| sess := s; ng := ng h; within := within h |}).

Definition h2_should_stop (h : h2_handler) : bool :=
  should_stop (if want_read (ng h) then 1 else 0) (if want_write (ng h) then 1 else 0).

#[export] Instance h2_http_handler : Connector.HttpHandler h2_handler session_task := {|
  Connector.on_write := h2_on_write;
  Connector.write_feedbacks := h2_write_feedbacks;
  Connector.should_stop := h2_should_stop;
  Connector.timeout_event h := [task_timeout] |}.

(** ** What nghttp2 does with the session when nobody asks it to write meanwhile

    [None] where a stream is closed and there is more to write. *)
Fixpoint send_alone (t : sending N) (s : session M) : option (outcome (Z * string * N * session M)) :=
  match t with
  | sent consumed d n => Some (mret (consumed, sub_string d 0 consumed, n, s))
  | asks_data k length n go_on =>
      match data_asked k length s with
      | Ok (a, s) => send_alone (go_on a n) s
      | Crash e => Some (Crash e)
      end
  | closes_stream i n go_on =>
      match on_stream_close_callback i (want_write n) s with
      | Ok s => if want_write n then None else send_alone (go_on n) s
      | Crash e => Some (Crash e)
      end
  | frame_not_sent f rc n go_on =>
      match frame_not_send_callback f rc s with
      | Ok s => send_alone (go_on n) s
      | Crash e => Some (Crash e)
      end
  | misused => Some (Crash Undefined)
  end.
End Handler.
Arguments h2_handler : clear implicits.

(** No callback takes the connector away. *)
Section Connected.
Context {M : Type}.
Implicit Types s : session M.

Lemma killed_connected k s s' : kill_stream k s = Ok s' -> connected s' = connected s.
Proof.
  unfold kill_stream, on_object. destruct (objects s !! k) as [x|]; [|done]. intros [= <-].
  unfold settle_destroyed. destruct (objects _ !! k) as [y|]; [|done]. by destruct (destroyed (out y)).
Qed.

Lemma closed_connected i w s s' : on_stream_close_callback i w s = Ok s' -> connected s' = connected s.
Proof.
  unfold on_stream_close_callback. intros E. inv_outcome. subst s'. apply killed_connected in E2. rewrite <- E2.
  unfold write_if, do_write. destruct w; [|done]. destruct (connected a1) eqn:Ec; exact Ec.
Qed.

Lemma not_sent_connected f rc s s' : frame_not_send_callback f rc s = Ok s' -> connected s' = connected s.
Proof.
  unfold frame_not_send_callback. destruct (_ || _); [by intros [= <-]|]. intros E. apply bind_Ok_inv in E as (s1 & E1 & E).
  destruct (negb (rc =? 0)); [done|]. injection E as <-. cbn. destruct (user_data s !! stream_id f); [by apply killed_connected in E1|].
  by injection E1 as <-.
Qed.

Lemma asked_connected `{SessionKind M} k length s a s' : data_asked k length s = Ok (a, s') -> connected s' = connected s.
Proof.
  unfold data_asked. intros E. apply bind_Ok_inv in E as (x & _ & E). destruct (read_callback length (out x)). by injection E as _ <-.
Qed.
End Connected.

(** ** Properties *)
Section Closing.
Context {M N : Type} `{SessionKind M} `{Nghttp2Laws N}.
Abbreviation h2_connector := (Connector.connector (h2_handler M N) session_task).

(** The call of [on_write], where a call back from a callback is fatal. *)
Lemma sends_alone again (c : h2_connector) t s w :
  (forall s n, connected s = true -> again (Connector.set_handler {| sess := s; ng := n; within := true |} c) = Some (Crash Undefined)) ->
  connected s = true -> Connector._writing c = false ->
  Connector.call_on_write again (session_sends t s w) c =
    match send_alone t s with
    | None => Some (Crash Undefined)
    | Some (Crash e) => Some (Crash e)
    | Some (Ok (consumed, bytes, n, s')) => Some (
        '(answer, chunk) ← write_answer consumed bytes s';
        mret (answer, Connector.set_out chunk (Connector.set_handler {| sess := s'; ng := n; within := w |} c)))
    end /\
  match send_alone t s with Some (Ok (_, s')) => connected s' = true | _ => True end.
Proof.
  intros Ha. revert s. induction t as [consumed d n|k length n go_on IH|i n go_on IH|f rc n go_on IH|]; intros s Hc Hw; cbn [session_sends send_alone].
  - split; [|exact Hc]. cbn [mret outcome_ret]. destruct (write_answer _ _ s) as [[answer chunk]|e]; [|done].
    cbn [Connector.call_on_write mbind outcome_bind]. unfold Connector.assign_out.
    change (Connector._writing (Connector.set_handler _ c)) with (Connector._writing c). by rewrite Hw.
  - destruct (data_asked k length s) as [[a s']|e] eqn:E; [|done]. apply asked_connected in E. apply IH; [congruence|done].
  - destruct (on_stream_close_callback i (want_write n) s) as [s'|e] eqn:E; [|done]. apply closed_connected in E. rewrite E, Hc, andb_true_r.
    destruct (want_write n); [|apply IH; [congruence|done]]. cbn [Connector.call_on_write]. split; [|done]. by rewrite Ha by congruence.
  - destruct (frame_not_send_callback f rc s) as [s'|e] eqn:E; [|done]. apply not_sent_connected in E. apply IH; [congruence|done].
  - done.
Qed.

(** A call of [do_write] from a callback. *)
Lemma nested_write_crashes fuel (c : h2_connector) s n :
  Connector._writing c = false -> Connector._stopped c = false -> connected s = true ->
  Connector.do_write_with (S fuel) (Connector.set_handler {| sess := s; ng := n; within := true |} c) = Some (Crash Undefined).
Proof.
  intros Hw Hs Hc. rewrite Connector.do_write_with_step by done.
  cbn [Connector._handler Connector.set_handler Connector.on_write h2_http_handler].
  unfold h2_on_write. cbn [sess ng within]. by rewrite Hc, andb_false_r, mem_send_nested.
Qed.

(** What the connector does with the answer of nghttp2. *)
Lemma h2_finish_write (c : h2_connector) bytes n s :
  Connector._stopped c = false -> Connector._writing c = false -> Connector.in_flight c = None ->
  let c1 := Connector.set_out bytes (Connector.set_handler {| sess := s; ng := n; within := false |} c) in
  let c' := Connector.finish_write true c1 in
  let closes := empty bytes && negb (want_read n) && negb (want_write n) in
  ng (Connector._handler c') = n /\
  Connector._stopped c' = closes /\ Connector._writing c' = negb (empty bytes) /\
  Connector.writes c' = Connector.writes c ++ (if empty bytes then [] else [bytes]) /\
  Connector.in_flight c' = (if empty bytes then None else Some (feedbacks (pending s))) /\
  Connector.posted c' = Connector.posted c ++ (if closes then task_cleared <$> pending s else []) /\
  pending (sess (Connector._handler c')) = (if empty bytes && negb closes then pending s else []).
Proof.
  intros Hs Hw Hf c1 c' closes. subst c' closes. unfold Connector.finish_write. cbn [negb].
  change (Connector._out c1) with bytes.
  change (Connector.should_stop (Connector._handler c1)) with (should_stop (if want_read n then 1 else 0) (if want_write n then 1 else 0)).
  assert (F : fst <$> feedbacks (pending s) = task_cleared <$> pending s)
    by (unfold feedbacks; rewrite <- list_fmap_compose; by apply list_fmap_ext).
  destruct (empty bytes); cbn [andb negb].
  - unfold should_stop. destruct (want_read n), (want_write n); cbn; rewrite ?app_nil_r; try done.
    unfold Connector.stop. cbn. rewrite Hs. cbn. by rewrite F, ?app_nil_r.
  - cbn. by rewrite app_nil_r.
Qed.

(** C24: A connector with a session in it, that is asked to write.  What comes of it
    is what nghttp2 makes of the session, its callbacks run in their order.  When it
    returns bytes, they are given to the socket in one write, with the feedbacks of
    everybody who waits for a message to be written; when there are none, nothing is
    written, and the connection is closed exactly when nghttp2 wants neither to read
    nor to write: then all who wait are told.  When it returns an error, the
    exception ends the process.  And when a stream is closed while nghttp2 has more
    to write, the callback asks the connector to write, which calls nghttp2 out of
    its own callback: undefined. *)
Theorem h2_closes_when_done (fuel : nat) (c : h2_connector) :
  let h := Connector._handler c in
  Connector._writing c = false -> Connector._stopped c = false -> Connector.in_flight c = None -> connected (sess h) = true -> within h = false ->
  let r := Connector.do_write_with (S (S fuel)) c in
  match send_alone (mem_send false (ng h)) (sess h) with
  | None => r = Some (Crash Undefined)
  | Some (Crash e) => r = Some (Crash e)
  | Some (Ok (consumed, bytes, n, s)) =>
      if consumed <? 0 then r = Some (Crash Terminated)
      else
        let closes := empty bytes && negb (want_read n) && negb (want_write n) in
        exists c', r = Some (Ok c') /\ ng (Connector._handler c') = n /\
          Connector._stopped c' = closes /\ Connector._writing c' = negb (empty bytes) /\
          Connector.writes c' = Connector.writes c ++ (if empty bytes then [] else [bytes]) /\
          Connector.in_flight c' = (if empty bytes then None else Some (feedbacks (pending s))) /\
          Connector.posted c' = Connector.posted c ++ (if closes then task_cleared <$> pending s else []) /\
          pending (sess (Connector._handler c')) = (if empty bytes && negb closes then pending s else [])
  end.
Proof.
  intros h Hw Hs Hf Hc Hn r. subst r. rewrite Connector.do_write_with_step by done.
  set (c1 := Connector.set_out "" (Connector.renew_ttl c)).
  assert (E : Connector.writes c1 = Connector.writes c /\ Connector.posted c1 = Connector.posted c /\
    Connector._stopped c1 = false /\ Connector._writing c1 = false /\ Connector.in_flight c1 = None)
    by (unfold c1, Connector.renew_ttl; by case_match).
  destruct E as (E1 & E2 & E3 & E4 & E5). rewrite <- E1, <- E2. clearbody c1. clear E1 E2 Hf.
  assert (Eo : Connector.on_write h = session_sends (mem_send false (ng h)) (sess h) false)
    by (cbn; unfold h2_on_write; by rewrite Hc, andb_false_r, Hn).
  fold h. rewrite Eo.
  destruct (sends_alone (Connector.do_write_with (S fuel)) c1 (mem_send false (ng h)) (sess h) false) as [S1 S2];
    [intros s n Hcs; by apply nested_write_crashes|exact Hc|exact E4|]. rewrite S1.
  destruct (send_alone _ (sess h)) as [[[[[consumed bytes] n] s]|e]|]; [|done..].
  rewrite write_answer_connected by exact S2. destruct (consumed <? 0); [done|].
  cbn [mret outcome_ret mbind outcome_bind]. unfold Connector.write_allowed.
  change (Connector._writing (Connector.set_out _ _)) with (Connector._writing c1). rewrite E4. cbn [andb negb guard_ub mbind outcome_bind].
  eexists. split; [reflexivity|]. by apply h2_finish_write.
Qed.
End Closing.

(** nghttp2 as the bytes that are left, given three at a time, the streams to be
    closed with the next of them, and whether the peer may still send. *)
Record toy := { left_over : list ascii; closing : list Z; peer_open : bool }.

#[export] Instance toy_nghttp2 : Nghttp2 toy := {|
  mem_send nested n :=
    let give n := sent (Z.of_nat (length (take 3 (left_over n)))) (of_chars (take 3 (left_over n)))
      {| left_over := drop 3 (left_over n); closing := closing n; peer_open := peer_open n |} in
    if (nested : bool) then misused
    else match closing n with
         | i :: l => closes_stream i {| left_over := left_over n; closing := l; peer_open := peer_open n |} give
         | [] => give n
         end;
  want_read n := peer_open n;
  want_write n := negb (bool_decide (left_over n = [])) |}.

#[export] Instance toy_laws : Nghttp2Laws toy.
Proof. done. Defined.

(** A session with one stream, that waits for a message to be written, in a
    connector. *)
Definition one_stream : session http_request :=
  set_user_data 1 7 (set_objects {[7%nat := {| id_ := 1; out := new_stream 0; incoming := sample_request; _headers_sent := true;
    receiver := false; told := []; local_held := true; local_errors := [] |}]} (set_listeners [7%nat] [7%nat] new_session)).

Definition in_connector (l : string) (streams : list Z) : Connector.connector (h2_handler http_request toy) session_task :=
  Connector.new_connector 16
    {| sess := one_stream; ng := {| left_over := chars l; closing := streams; peer_open := false |}; within := false |}.

Lemma h2_closes_when_done_witness :
  (exists c', Connector.do_write_with 2 (in_connector "" [1]) = Some (Ok c') /\
     Connector._stopped c' = true /\ Connector.posted c' = [task_cleared 7]) /\
  (exists c', Connector.do_write_with 2 (in_connector "bytes" []) = Some (Ok c') /\
     Connector._stopped c' = false /\ Connector.writes c' = ["byt"]) /\
  Connector.do_write_with 2 (in_connector "bytes" [1]) = Some (Crash Undefined).
Proof.
  split; [|split].
  - destruct (h2_closes_when_done 0 (in_connector "" [1]) eq_refl eq_refl eq_refl eq_refl eq_refl) as (c' & E & _ & H1 & _ & _ & _ & H2 & _).
    exists c'. split; [exact E|]. split; [exact H1|exact H2].
  - destruct (h2_closes_when_done 0 (in_connector "bytes" []) eq_refl eq_refl eq_refl eq_refl eq_refl) as (c' & E & _ & H1 & _ & H2 & _).
    exists c'. split; [exact E|]. split; [exact H1|exact H2].
  - exact (h2_closes_when_done 0 (in_connector "bytes" [1]) eq_refl eq_refl eq_refl eq_refl eq_refl).
Defined.

(** ** The rest of the client

    [session_client] repeats most of [session], and [stream_client] of [stream]:
    where the code is the same, these are the operations of [Http2Session] and
    [Http2Stream], on responses that are received.  The settings, the error of a
    request, and the [on_read] over the client's own callbacks differ. *)
Module Client_session.
Abbreviation client_session := (session http_response).

Definition send_connection_header (max_concurrent_streams r : Z) (s : client_session) : outcome client_session :=
  submit_settings
    [(NGHTTP2_SETTINGS_MAX_CONCURRENT_STREAMS, max_concurrent_streams); (NGHTTP2_SETTINGS_ENABLE_PUSH, 0)] r s.

Definition start (max_concurrent_streams r : Z) (s : client_session) : outcome (bool * client_session) :=
  if negb (connected s) then mret (false, s)
  else s ← send_connection_header max_concurrent_streams r s; mret (true, do_write s).

(** [garbage]: the status code a response starts with. *)
Definition create_stream (garbage i rv : Z) (s : client_session) : outcome (nat * client_session) :=
  Http2Session.create_stream (Client.initial_response garbage) false 200 i rv s.

(** [req_handler->on_error]: a request that is given up kills its stream. *)
Definition on_request_error (k : nat) (s : client_session) : outcome client_session := kill_stream k s.

Definition go_away : Z -> client_session -> outcome client_session := Http2Session.go_away.
Definition trigger_timeout_event : client_session -> outcome client_session := Http2Session.trigger_timeout_event.
Definition do_write : client_session -> client_session := Http2Session.do_write.
Definition close : client_session -> client_session := Http2Session.close.
Definition set_timeout : Z -> client_session -> client_session := Http2Session.set_timeout.
Definition on_connector_nulled : client_session -> outcome client_session := Http2Session.on_connector_nulled.
Definition notify_error : error_code -> client_session -> outcome client_session := Http2Session.notify_error.
Definition finished_stream : client_session -> client_session := Http2Session.finished_stream.
Definition on_stream_close_callback : Z -> bool -> client_session -> outcome client_session :=
  Http2Session.on_stream_close_callback.
Definition should_stop : Z -> Z -> bool := Http2Session.should_stop.
Definition frame_not_send_callback : frame -> Z -> client_session -> outcome client_session :=
  Http2Session.frame_not_send_callback.
Definition before_frame_send_callback : Z := 0.
Definition write_feedbacks : client_session -> list nat * client_session := Http2Session.write_feedbacks.
Definition subscribe : nat -> client_session -> outcome client_session := Http2Session.subscribe.
Definition unsubscribe : nat -> client_session -> client_session := Http2Session.unsubscribe.

Definition on_read (moved : http_response -> http_response) (want_write : bool) (garbage : Z) :
    list h2_event -> Z -> Z -> Z -> bool -> client_session -> outcome (bool * client_session) :=
  Http2Session.on_read (Client.on_event moved want_write garbage).
End Client_session.

Module Client_stream.
Definition body_empty : stream -> bool := Http2Stream.body_empty.
Definition defer : stream -> bool := Http2Stream.defer.
Definition body_length : stream -> Z := Http2Stream.body_length.
Definition is_last_frame : Z -> stream -> bool := Http2Stream.is_last_frame.
Definition body_eof : stream -> bool := Http2Stream.body_eof.
Definition die : stream -> stream := Http2Stream.die.
Definition on_trailer : string -> string -> stream -> stream := Http2Stream.on_trailer.
Definition on_body (rc : ng_call -> Z) : string -> stream -> outcome stream := Http2Stream.on_body (client_flush rc).
Definition on_eom (rc : ng_call -> Z) : stream -> outcome stream := Http2Stream.on_eom (client_flush rc).
Definition notify_error : error_code -> h2_stream http_response -> h2_stream http_response := stream_error.
End Client_stream.

(** A client does not want streams from the server: its first frame says so. *)
Lemma client_refuses_push max (s : session http_response) s' :
  Client_session.start max 0 s = Ok (true, s') ->
  exists iv, c_submit_settings iv ∈ session_calls s' /\ (NGHTTP2_SETTINGS_ENABLE_PUSH, 0) ∈ iv.
Proof.
  unfold Client_session.start. destruct (connected s) eqn:E; cbn; [|done].
  intros [= <-]. eexists. split; [|by apply elem_of_cons; right; apply list_elem_of_here].
  unfold Http2Session.do_write. cbn. rewrite !E. cbn. rewrite E. cbn. rewrite !elem_of_app. left. left. right. apply list_elem_of_here.
Qed.
