(* ===== verification/Http1Connection.v ===== *)
(** * An HTTP/1 connection, from the bytes that are read to its user
    (src/src/protocol/handler_http1.h, [start] and [on_read])

    The handler of [HandlerHttp1] registers its operations as the callbacks of the
    codec; [on_read] hands the bytes to [http_codec::decode].  Here the three are
    put together: the parser of [HttpExecute] calls the codec of [Decoder], and
    what the codec would tell its user is told the handler at once, in the same
    call.  The state of the callbacks is the codec and the handler in its
    connector. *)

From S2P Require Import Prelude CppStd HttpCommons StructuredData HttpMessages UserObjects Connector HandlerHttp1.
From S2P Require Import Encoder HttpParser HttpExecute HttpSafe Decoder HttpCodec HttpRun.

Section Connection.
Context {RM LM : Type} `{Traits RM LM}.
(** The message a codec works on, as the handler knows it, and back; the remote
    object that the next transaction gets. *)
Context (to_message : RM -> message) (of_message : message -> option RM) (remote : remote_object RM).
Abbreviation world := (connector (handler (RM := RM) (LM := LM)) task).
Abbreviation client_state := (codec * world)%type.

(** ** [start]: the callbacks of the codec *)

(** The codec has written into the handler's [current_decoded_object]; through
    its static type nothing else can be there. *)
Definition decoded_into (m : message) (w : world) : outcome world :=
  obj ← of_option Undefined (of_message m);
  mret (on_handler (fun h => set_decoding obj (decoding_error h) (managing_continue h) h) w).

Definition deliver (d : decoded) (w : world) : outcome world :=
  match d with
  | got_header m => w ← decoded_into m w; decoded_headers w
  | got_body b => decoded_body b w
  | got_trailer k v => decoded_trailer k v w
  | got_end => decoding_end w
  | got_error _ => decoding_failure w
  end.

Fixpoint deliver_all (ds : list decoded) (w : world) : outcome world :=
  match ds with
  | [] => mret w
  | d :: ds => w ← deliver d w; deliver_all ds w
  end.

(** What a callback adds to the output of the codec goes to the handler. *)
Definition relay (ev : parser_event) (p : http_parser) (s : client_state) : outcome (Z * http_parser * client_state) :=
  '(r, c) ← on_event p ev s.1;
  w ← deliver_all (drop (length (output s.1)) (output c)) s.2;
  mret (r, p, (c, w)).

(** [decoding_start] points the codec to the handler's object. *)
Definition relay_begin (p : http_parser) (s : client_state) : outcome (Z * http_parser * client_state) :=
  let w := decoding_start remote s.2 in
  relay (pe_message_begin (Some (to_message (current_decoded_object (_handler w))))) p (s.1, w).

Definition relay_complete (p : http_parser) (s : client_state) : outcome (Z * http_parser * client_state) :=
  '(r, _, s) ← relay pe_message_complete p s; mret (r, http_parser_init HTTP_BOTH, s).

Definition connection_settings : http_parser_settings client_state :=
  {| on_notify n := Some
       match n with
       | message_begin => relay_begin
       | headers_complete => relay pe_headers_complete
       | message_complete => relay_complete
       | chunk_header => relay pe_chunk_header
       | chunk_complete => relay pe_chunk_complete
       end;
     on_data k := Some
       match k with
       | header_field => fun s _ => relay (pe_header_field s)
       | header_value => fun s _ => relay (pe_header_value s)
       | url_data => fun s beyond => relay (pe_url s beyond)
       | body => fun s _ => relay (pe_body s)
       | status => fun s _ => relay (pe_status s)
       end |}.

(** ** [on_read] *)
Record connection := {
  decoder_parser : http_parser;
  decoder_codec : codec;
  conn : world }.

(** The error callback leaves [fatal] as it is, true. *)
Definition connection_failure (s : connection) : outcome connection :=
  let '(_, c) := on_parser_error (errno_code (errno (decoder_parser s))) true (decoder_codec s) in
  w ← deliver_all (drop (length (output (decoder_codec s))) (output c)) (conn s);
  mret {| decoder_parser := http_parser_init HTTP_BOTH; decoder_codec := c; conn := w |}.

(** The loop of [decode]. *)
Fixpoint read_loop (fuel : nat) (data beyond : list ascii) (b : nat) (s : connection)
    : option (outcome (bool * connection)) :=
  if (length data <=? b)%nat then Some (mret (true, s))
  else
    match fuel with
    | O => None
    | S fuel =>
        match http_parser_execute connection_settings (drop b data) beyond (decoder_parser s) (decoder_codec s, conn s) with
        | None => None
        | Some (Crash e) => Some (Crash e)
        | Some (Ok (n, p, cw)) =>
            let s := {| decoder_parser := p; decoder_codec := cw.1; conn := cw.2 |} in
            if bool_decide (errno p = HPE_OK)
            then read_loop fuel data beyond (Z.to_nat (u64 (Z.of_nat b + to_int (Z.of_nat n)))) s
            else Some (s ← connection_failure s; mret (false, s))
        end
    end.

Definition on_read (data : string) (beyond : list ascii) (s : connection) : option (outcome (bool * connection)) :=
  let l := chars data in read_loop (length l) l beyond 0 s.

(** ** It returns *)
#[export] Instance connection_callbacks : Callbacks connection_settings.
Proof.
  assert (P : forall ev p s r p' s', relay ev p s = Ok (r, p', s') -> p' = p).
  { intros ev p s r p' s' E. unfold relay in E. apply bind_Ok_inv in E as ([q c] & _ & E).
    by apply bind_Ok_inv in E as (w & _ & [= _ <- _]). }
  split.
  - intros n cb p c r p' c' Hn [= <-]. destruct n; by first [apply P|destruct Hn|unfold relay_begin; apply P].
  - intros cb p c r p' c' [= <-]. unfold relay_complete. intros E. apply bind_Ok_inv in E as ([[q ?] c1] & _ & E).
    injection E as _ <- _. right. eauto.
  - intros k cb s l p c r p' c' [= <-]. destruct k; apply P.
Qed.

(** Between two reads. *)
Definition connection_ok (s : connection) : Prop :=
  parser_ok (decoder_parser s) /\ errno (decoder_parser s) = HPE_OK.

(** A callback brings the process down: one of the codec's, or the handler's own
    operation on what the codec tells it. *)
Definition told_crash (e : failure) : Prop :=
  callback_crash connection_settings e \/ exists d w, deliver d w = Crash e.

Lemma deliver_all_crash ds w e : deliver_all ds w = Crash e -> exists d w, deliver d w = Crash e.
Proof.
  revert w. induction ds as [|d ds IH]; intros w; cbn; [done|].
  destruct (deliver d w) as [w'|e'] eqn:E; cbn; [apply IH|]. intros [= <-]. eauto.
Qed.

Lemma connection_failure_ok s :
  match connection_failure s with
  | Ok s' => connection_ok s'
  | Crash e => exists d w, deliver d w = Crash e
  end.
Proof.
  unfold connection_failure. destruct (on_parser_error _ _ _) as [q c].
  destruct (deliver_all _ _) as [w|e] eqn:E; cbn; [|by apply deliver_all_crash in E].
  split; [apply init_ok|done].
Qed.

Lemma read_loop_ends fuel data beyond b s :
  connection_ok s -> Z.of_nat (length data) < 2 ^ 31 -> (length data - b <= fuel)%nat ->
  exists r, read_loop fuel data beyond b s = Some r /\
    match r with Crash e => told_crash e | Ok (_, s') => connection_ok s' end.
Proof.
  intros Hok Hl. revert b s Hok. induction fuel as [|fuel IH]; intros b s [Hp He] Hb; cbn [read_loop].
  { rewrite (proj2 (Nat.leb_le _ _)) by lia. eexists. by split. }
  destruct (Nat.leb_spec (length data) b) as [|Hlt]; [eexists; by split|].
  destruct (execute_call_ok connection_settings (drop b data) beyond (decoder_parser s) (decoder_codec s, conn s) Hp) as (r & -> & Hr).
  destruct r as [[[n p] cw]|e]; [|eexists; split; [done|by left]].
  destruct Hr as (Hn & Hp' & Hprog). rewrite length_drop in Hn, Hprog. cbv zeta. case_bool_decide as Hpe.
  - specialize (Hprog Hpe ltac:(lia)). change (2 ^ 31) with 2147483648 in Hl.
    rewrite to_int_small by (cbn; lia). rewrite wrap_id by (unfold in_range; cbn; lia). apply IH; [by split|lia].
  - eexists. split; [reflexivity|]. pose proof (connection_failure_ok {| decoder_parser := p; decoder_codec := cw.1; conn := cw.2 |}) as F.
    destruct (connection_failure _) as [s'|e]; [exact F|by right].
Qed.

(** C15: A read of a connection always returns, whatever the peer sends and whatever
    the user's objects make of it, for buffers of less than 2 GiB: it says whether
    the connection goes on, and leaves a parser that is ready for the next read.
    When the process goes down, a callback of the codec, or an operation of the
    handler on what was decoded, has brought it down. *)
Theorem on_read_returns (data : string) (beyond : list ascii) (s : connection) :
  connection_ok s -> len data < 2 ^ 31 ->
  exists r, on_read data beyond s = Some r /\
    match r with Crash e => told_crash e | Ok (_, s') => connection_ok s' end.
Proof. intros Hok Hl. unfold on_read. cbv zeta. by apply read_loop_ends; [..|lia]. Qed.

(** ** A body reaches the user *)

(** A piece of a body changes nothing in the remote object: it is posted. *)
Class BodyTraits : Prop := body_keeps d r : (pull_remote (t_body d) r).2 = r.
Context `{!BodyTraits}.

(** The front of the queue takes a call. *)
Definition hand (t : trigger RM) (w : world) : world :=
  match remote_objects (_handler w) with
  | [] => w
  | id :: _ => match call_remote id t w with Ok w => w | Crash _ => w end
  end.

(** The transaction that is being received: its object is at the front. *)
Record receives (id : nat) (rest : list nat) (r : remote_object RM) (w : world) : Prop := {
  rc_error : decoding_error (_handler w) = false;
  rc_queue : remote_objects (_handler w) = id :: rest;
  rc_object : remotes (_handler w) !! id = Some r;
  rc_open : terminated r = false }.

(** Nobody waits for the message, and the user of the connection has been told. *)
Record unheard (w : world) : Prop := {
  uh_error : decoding_error (_handler w) = true;
  uh_queue : remote_objects (_handler w) = [] }.

Definition reception (w : world) : Prop := (exists id rest r, receives id rest r w) \/ unheard w.

(** What the object is told when the message ends: a client takes an interim
    response for no more than that. *)
Definition end_trigger (w : world) : trigger RM :=
  if is_server then t_finished else if managing_continue (_handler w) then t_continue else t_finished.

Lemma hand_call id rest r t w :
  receives id rest r w ->
  hand t w = post_remote id (pull_remote t r).1 (put_remote id (pull_remote t r).2 w) /\ call_remote id t w = Ok (hand t w).
Proof.
  intros R. unfold hand. rewrite (rc_queue _ _ _ _ R). unfold call_remote. rewrite (rc_object _ _ _ _ R). cbn.
  by destruct (pull_remote t r).
Qed.

Lemma current_there id rest r w : receives id rest r w -> get_current w = Ok (Some id, w).
Proof.
  intros [E Q O T]. unfold get_current. rewrite E, Q. cbv zeta. rewrite O. cbn. by rewrite T.
Qed.

Lemma hand_body id rest r d w :
  receives id rest r w -> decoded_body d w = Ok (hand (t_body d) w) /\ receives id rest r (hand (t_body d) w).
Proof.
  intros R. destruct (hand_call id rest r (t_body d) w R) as [H1 H2]. split.
  - unfold decoded_body, with_current. rewrite (current_there _ _ _ _ R). exact H2.
  - rewrite H1, body_keeps. destruct R as [E Q O T]. split; try done. cbn. by rewrite lookup_insert_eq.
Qed.

Lemma hand_end id rest r w : receives id rest r w -> decoding_end w = Ok (pop_remote (hand (end_trigger w) w)).
Proof.
  intros R. destruct (hand_call id rest r (end_trigger w) w R) as [H1 H2]. unfold end_trigger in *.
  unfold decoding_end, with_current. rewrite (current_there _ _ _ _ R). cbn [mbind outcome_bind].
  destruct is_server eqn:S; [by rewrite H2|]. cbv zeta. change (managing_continue (_handler (pop_remote w))) with (managing_continue (_handler w)).
  assert (X : forall t, call_remote id t (pop_remote w) = Ok (pop_remote (post_remote id (pull_remote t r).1 (put_remote id (pull_remote t r).2 w)))).
  { intros t. unfold call_remote. change (remotes (_handler (pop_remote w))) with (remotes (_handler w)). rewrite (rc_object _ _ _ _ R). cbn.
    by destruct (pull_remote t r). }
  destruct (managing_continue (_handler w)); by rewrite X, H1.
Qed.

(** Nothing is heard. *)
Lemma unheard_none w : unheard w -> get_current w = Ok (None, w).
Proof. intros [E _]. unfold get_current. by rewrite E. Qed.

Lemma unheard_same t w : unheard w -> hand t w = w /\ pop_remote w = w.
Proof.
  intros [E Q]. split; [unfold hand; by rewrite Q|]. unfold pop_remote, on_handler. rewrite Q. destruct w as [h]. cbn in *.
  destruct h. cbn in *. by subst.
Qed.

Lemma reception_body d w : reception w -> decoded_body d w = Ok (hand (t_body d) w) /\ reception (hand (t_body d) w).
Proof.
  intros [(id & rest & r & R)|U].
  - destruct (hand_body id rest r d w R) as [H1 H2]. split; [exact H1|left; by exists id, rest, r].
  - destruct (unheard_same (t_body d) w U) as [-> _]. split; [|by right]. unfold decoded_body, with_current. by rewrite unheard_none.
Qed.

Lemma reception_end w : reception w -> decoding_end w = Ok (pop_remote (hand (end_trigger w) w)).
Proof.
  intros [(id & rest & r & R)|U]; [by eapply hand_end|].
  destruct (unheard_same (end_trigger w) w U) as [-> ->]. unfold decoding_end, with_current. by rewrite unheard_none.
Qed.

Lemma deliver_emit ds (c : codec) w :
  deliver_all (drop (length (output c)) (output (emit ds c))) w = deliver_all ds w.
Proof. unfold emit. cbn. by rewrite drop_app_length. Qed.

#[export] Instance connection_receiver : Receiver connection_settings.
Proof.
  refine {| receiving s := (_ignore s.1 = false /\ _got_header s.1 = false) /\ reception s.2;
            ending s := _got_header s.1 = false /\ reception s.2;
            take_body d s := (emit [got_body d] s.1, hand (t_body d) s.2);
            take_boundary p s := (on_chunk p s.1, s.2);
            take_end s := (reset (emit [got_end] s.1), pop_remote (hand (end_trigger s.2) s.2)) |}.
  - intros d l p [c w] [[Hi _] R]. cbn in *. unfold relay. cbn [on_event mbind outcome_bind mret outcome_ret].
    unfold on_body. cbn [fst snd]. rewrite Hi. cbn [negb]. rewrite deliver_emit. cbn [deliver_all deliver].
    destruct (reception_body d w R) as [-> _]. done.
  - intros d [c w] [Hc R]. split; [exact Hc|]. by apply reception_body.
  - intros n p [c w] Hn _. assert (E : relay pe_chunk_header p (c, w) = Ok (0, p, (on_chunk p c, w))).
    { unfold relay. cbn. assert (O : output (on_chunk p c) = output c) by (unfold on_chunk; by destruct (http_body_is_final p)).
      by rewrite O, drop_all. }
    destruct Hn as [-> | ->]; exact E.
  - by intros s [[_ Hk] R].
  - intros p [c w] [[_ Hk] R]. split; [|exact R]. cbn. unfold on_chunk. by destruct (http_body_is_final p).
  - intros p [c w] Hk. cbn. unfold on_chunk. by rewrite Hk.
  - intros p [c w]. cbn. unfold on_chunk. by destruct (http_body_is_final p).
  - intros p [c w] [Hk R]. cbn in *. unfold relay_complete, relay. cbn [on_event mbind outcome_bind mret outcome_ret fst snd].
    rewrite complete_plain by done. unfold report_trailer. rewrite Hk, drop_app_length. cbn [deliver_all deliver]. by rewrite (reception_end w R).
Defined.

(** Several reads, one after the other. *)
Fixpoint connection_reads (l : list string) (s : connection) : option (outcome (bool * connection)) :=
  match l with
  | [] => Some (mret (true, s))
  | d :: l =>
      match on_read d [] s with
      | Some (Ok (true, s)) => connection_reads l s
      | x => x
      end
  end.

Lemma read_whole d s p cw :
  d <> "" -> len d < 2 ^ 31 -> errno p = HPE_OK ->
  http_parser_execute connection_settings (chars d) [] (decoder_parser s) (decoder_codec s, conn s) =
    Some (Ok (length (chars d), p, cw)) ->
  on_read d [] s = Some (Ok (true, {| decoder_parser := p; decoder_codec := cw.1; conn := cw.2 |})).
Proof.
  intros Hd Hl He Hx. unfold on_read. cbv zeta. destruct (length (chars d)) as [|n] eqn:En.
  { destruct d; [done|]. cbn in En. lia. }
  rewrite <- En in Hx. cbn [read_loop]. rewrite En. cbn [Nat.leb]. rewrite drop_0, Hx, En. cbv zeta.
  rewrite bool_decide_eq_true_2 by done. unfold len in Hl. change (2 ^ 31) with 2147483648 in Hl.
  rewrite to_int_small by (change (2 ^ 31) with 2147483648; lia).
  rewrite wrap_id by (unfold in_range; cbn [Z.of_nat]; change (2 ^ 64) with 18446744073709551616; lia).
  replace (Z.to_nat _) with (S n) by lia. destruct n; cbn [read_loop]; rewrite En, Nat.leb_refl; done.
Qed.

Lemma fed_connection ds s p cw :
  fed connection_settings ds (decoder_parser s) (decoder_codec s, conn s) p cw ->
  Forall (fun d => len d < 2 ^ 31) ds ->
  connection_reads ds s = Some (Ok (true, {| decoder_parser := p; decoder_codec := cw.1; conn := cw.2 |})).
Proof.
  intros F HF. revert s F. induction HF as [|d ds Hd HF IH]; intros s F.
  { destruct F as [<- <-]. by destruct s. }
  destruct F as (p1 & c1 & Hne & He & Hx & F). cbn [connection_reads].
  rewrite (read_whole d s p1 c1) by done. apply IH. by destruct c1.
Qed.

(** What the pieces do to the two halves of the state. *)
Lemma pieces_split ds c w :
  take_pieces (settings := connection_settings) ds (c, w) =
    (emit (got_body <$> ds) c, foldl (fun w d => hand (t_body d) w) w ds).
Proof.
  revert c w. induction ds as [|d ds IH]; intros c w; [unfold emit; cbn; rewrite app_nil_r; by destruct c|].
  change (take_pieces (settings := connection_settings) (d :: ds) (c, w))
    with (take_pieces (settings := connection_settings) ds (emit [got_body d] c, hand (t_body d) w)).
  by rewrite IH, emit_emit.
Qed.

(** The tasks that tell the user of a body in pieces, and of its end. *)
Definition told_pieces (ds : list string) (r : remote_object RM) : list remote_task :=
  mjoin ((fun d => (pull_remote (t_body d) r).1) <$> ds).

(** What goes to the socket. *)
Definition wire (w : world) : list string * bool * option (list (task * task)) := (writes w, _writing w, in_flight w).

Lemma put_same id r (w : world) : remotes (_handler w) !! id = Some r -> _handler (put_remote id r w) = _handler w.
Proof. intros E. cbn. rewrite insert_id by done. by destruct (_handler w). Qed.

Lemma hand_pieces ds id rest r w :
  receives id rest r w ->
  let w' := foldl (fun w d => hand (t_body d) w) w ds in
  receives id rest r w' /\ posted w' = posted w ++ (task_remote id <$> told_pieces ds r) /\
  wire w' = wire w /\ _handler w' = _handler w.
Proof.
  cbv zeta. revert w. induction ds as [|d ds IH]; intros w R; cbn [foldl].
  { unfold told_pieces. cbn. by rewrite app_nil_r. }
  destruct (hand_body id rest r d w R) as [_ R']. destruct (IH _ R') as (IH1 & IH2 & IH3 & IH4).
  destruct (hand_call id rest r (t_body d) w R) as [Hk _]. split; [exact IH1|].
  rewrite IH2, IH3, IH4, Hk. split; [|split; [done|rewrite body_keeps; apply put_same, R]].
  unfold told_pieces. cbn. by rewrite fmap_app, <- app_assoc.
Qed.

(** What is left when the message has been received. *)
Record received (ds : list string) (id : nat) (rest : list nat) (r : remote_object RM) (s s' : connection) : Prop := {
  rd_parser : decoder_parser s' = http_parser_init HTTP_BOTH;
  rd_codec : decoder_codec s' = reset (emit ((got_body <$> ds) ++ [got_end]) (decoder_codec s));
  rd_posted : posted (conn s') =
    posted (conn s) ++ (task_remote id <$> told_pieces ds r ++ (pull_remote t_finished r).1);
  rd_queue : remote_objects (_handler (conn s')) = rest;
  rd_object : remotes (_handler (conn s')) !! id = Some (pull_remote t_finished r).2;
  rd_writes : writes (conn s') = writes (conn s);
  rd_locals : local_objects (_handler (conn s')) = local_objects (_handler (conn s)) /\
    locals (_handler (conn s')) = locals (_handler (conn s)) }.

Lemma taken_received ds id rest r s :
  receives id rest r (conn s) -> end_trigger (conn s) = t_finished ->
  let cw := take_end (take_pieces (settings := connection_settings) ds (decoder_codec s, conn s)) in
  received ds id rest r s {| decoder_parser := http_parser_init HTTP_BOTH; decoder_codec := cw.1; conn := cw.2 |}.
Proof.
  intros R T. cbv zeta. rewrite pieces_split. cbn [take_end connection_receiver fst snd].
  destruct (hand_pieces ds id rest r (conn s) R) as (R' & P & W & L).
  set (w := foldl _ _ _) in *. assert (Ew : end_trigger w = t_finished) by (rewrite <- T; unfold end_trigger; by rewrite L).
  rewrite Ew. destruct (hand_call id rest r t_finished w R') as [Hk _].
  split; cbn [decoder_parser decoder_codec conn]; [done|by rewrite emit_emit|..]; rewrite Hk.
  - cbn. by rewrite P, fmap_app, app_assoc.
  - cbn. by rewrite (rc_queue _ _ _ _ R').
  - cbn. apply lookup_insert_eq.
  - exact (f_equal (fun x => x.1.1) W).
  - cbn. by rewrite L.
Qed.
(** C10: A body reaches the user: a message that is being received, not an interim
    response, with its remote object at the front of the queue, has its body handed to that object in the
    pieces the socket gave, unchanged and in order, and then its end; the object
    leaves the queue, the handler writes nothing, and the parser is ready for the
    next message.  So for a body with a content length, whatever the reads it
    arrives in, and for a chunked body as the encoder of the program writes it,
    where the empty pieces are left out. *)
Theorem body_reaches_user (ds : list string) (id : nat) (rest : list nat) (r : remote_object RM) (s : connection) :
  receives id rest r (conn s) -> end_trigger (conn s) = t_finished ->
  _ignore (decoder_codec s) = false -> _got_header (decoder_codec s) = false ->
  (expects_body (len (concat_str ds)) (decoder_parser s) -> 0 < len (concat_str ds) < ULLONG_MAX ->
   Forall (fun d => d <> "" /\ len d < 2 ^ 31) ds ->
     exists s', connection_reads ds s = Some (Ok (true, s')) /\ received ds id rest r s s') /\
  (forall e, enc_chunked e = true -> enc_state e = HEADER \/ enc_state e = BODY -> expects_chunk (decoder_parser s) ->
   Forall (fun d => len d < 2 ^ 60) ds ->
     exists text e1 tail e2, encode_bodies ds e = Ok (text, e1) /\ encode_eom e1 = Ok (tail, e2) /\
       (len (text +:+ tail) < 2 ^ 31 ->
        exists s', on_read (text +:+ tail) [] s = Some (Ok (true, s')) /\
          received (filter (fun d => d <> "") ds) id rest r s s')).
Proof.
  intros R T Hi Hg.
  assert (Rc : receiving (settings := connection_settings) (decoder_codec s, conn s)) by (split; [done|left; by exists id, rest, r]).
  split.
  - intros Hp Hn HF.
    assert (HN : Forall (fun d => d <> "") ds) by (eapply Forall_impl; [exact HF|]; by intros d []).
    pose proof (sized_taken connection_settings ds (decoder_parser s) _ Hp Hn HN Rc) as F. apply fed_connection in F.
    + eexists. split; [exact F|by apply taken_received].
    + eapply Forall_impl; [exact HF|]. by intros d [].
  - intros e Hc He Hp HF.
    destruct (chunked_taken connection_settings [] ds e (decoder_parser s) _ Hc He Hp Rc HF)
      as (text & e1 & tail & e2 & E1 & E2 & Hne & Hx).
    exists text, e1, tail, e2. split; [exact E1|]. split; [exact E2|]. intros Hl.
    eexists. split; [|by apply taken_received].
    apply (read_whole (text +:+ tail) s (http_parser_init HTTP_BOTH)); [exact Hne|exact Hl|done|exact Hx].
Qed.
End Connection.
Arguments connection : clear implicits.

#[export] Instance server_body : BodyTraits (RM := http_request) (LM := http_response).
Proof. done. Qed.
#[export] Instance client_body `{mem : Garbage} : BodyTraits (RM := http_response) (LM := http_request).
Proof. done. Qed.

(** ** A server *)
Definition request_of_message (m : message) : option http_request := match m with Req r => Some r | Res _ => None end.

Abbreviation server_connection := (connection http_request http_response).
Definition server_read : string -> list ascii -> server_connection -> option (outcome (bool * server_connection)) :=
  on_read Req request_of_message remote0.

Definition server_start : server_connection :=
  {| decoder_parser := http_parser_init HTTP_BOTH; decoder_codec := new_codec; conn := server0 |}.

(** Two requests, the second with a body, cut in the middle of the first. *)
Definition first_read : string := "GET /a?x=1 HTTP/1.1" +:+ crlf +:+ "Ho".
Definition second_read : string :=
  lines ["st: a.org:8080"; ""; "PUT /b HTTP/1.1"; "Host: b.org"; "Content-Length: 3"; ""] +:+ "xyz".

Definition after_reads : option (outcome (bool * server_connection)) :=
  match server_read first_read [] server_start with
  | Some (Ok (true, s)) => server_read second_read [] s
  | r => r
  end.

Lemma server_start_ok : connection_ok server_start.
Proof. split; [apply init_ok|done]. Qed.

Lemma on_read_returns_witness :
  exists s, server_read first_read [] server_start = Some (Ok (true, s)) /\ connection_ok s.
Proof.
  destruct (on_read_returns Req request_of_message remote0 first_read [] server_start server_start_ok) as (r & H & G);
    [by vm_compute|].
  destruct r as [[b s]|e]; [|by vm_compute in H]. exists s. split; [|exact G].
  assert (b = true) as -> by (vm_compute in H; by injection H as <- _). exact H.
Defined.

(** A request with a body of nine bytes, its head read. *)
Definition head_read : server_connection :=
  match server_read (lines ["PUT /a HTTP/1.1"; "Host: a"; "Content-Length: 9"; ""]) [] server_start with
  | Some (Ok (_, s)) => s
  | _ => server_start
  end.

Lemma body_reaches_user_witness :
  exists s, connection_reads Req request_of_message remote0 ["wiki"; "pedia"] head_read = Some (Ok (true, s)) /\
    posted (conn s) = [task_remote 0 run_headers; task_remote 0 (run_body "wiki"); task_remote 0 (run_body "pedia");
                       task_remote 0 run_finished].
Proof.
  destruct (remotes (_handler (conn head_read)) !! 0%nat) as [r|] eqn:E; [|by vm_compute in E].
  assert (R : receives 0 [] r (conn head_read)).
  { split; [by vm_compute|by vm_compute|exact E|]. vm_compute in E. by injection E as <-. }
  assert (G1 : _ignore (decoder_codec head_read) = false) by (vm_compute; reflexivity).
  assert (G2 : _got_header (decoder_codec head_read) = false) by (vm_compute; reflexivity).
  assert (G3 : expects_body (len (concat_str ["wiki"; "pedia"])) (decoder_parser head_read))
    by (split; [|split]; vm_compute; reflexivity).
  assert (G4 : Forall (fun d => d <> "" /\ len d < 2 ^ 31) ["wiki"; "pedia"]) by (by repeat constructor).
  pose proof (body_reaches_user Req request_of_message remote0 ["wiki"; "pedia"] 0 [] r head_read R eq_refl G1 G2) as [B _].
  specialize (B G3).
  assert (G5 : 0 < len (concat_str ["wiki"; "pedia"]) < ULLONG_MAX) by (vm_compute; split; reflexivity).
  specialize (B G5).
  specialize (B G4).
  destruct B as (s' & H1 & H2).
  exists s'. split; [exact H1|]. rewrite (rd_posted _ _ _ _ _ _ H2). vm_compute in E. injection E as <-. vm_compute. reflexivity.
Defined.

(** The user's answer to a transaction, [end()] posted and run. *)
Definition answer (id : nat) (b : string) (w : connector (handler (RM := http_request) (LM := http_response)) task)
    : outcome (connector (handler (RM := http_request) (LM := http_response)) task) :=
  w ← user_call id (c_headers ok_response) w;
  w ← user_call id (c_body b) w;
  w ← user_call id c_end w;
  run_task (task_end id) w.

Definition reply (b : string) : string := lines ["HTTP/1.1 200 OK"; "host: a"; ""] +:+ b.

(** The whole way: both requests are told their users, in order and with their
    content; the second is answered before the first; the answers leave in the
    order of the requests. *)
Example pipelined_exchange :
  match after_reads with
  | Some (Ok (true, s)) =>
      posted (conn s) = [task_remote 0 run_headers; task_remote 0 run_finished; task_remote 1 run_headers;
                         task_remote 1 (run_body "xyz"); task_remote 1 run_finished] /\
      events (_handler (conn s)) = [new_request_pair 0 0; new_request_pair 1 1] /\
      (fmap (fun r => (_path (_preamble r), _urihost (_preamble r), _port (_preamble r))) (remotes (_handler (conn s)) !! 0%nat))
        = Some ("/a", "a.org", "8080") /\
      match w ← answer 1 "two" (conn s); answer 0 "one" w with
      | Ok w => concat_str (writes w) +:+ serialization (_handler w) = reply "one" +:+ reply "two" /\ local_objects (_handler w) = []
      | Crash _ => False
      end
  | _ => False
  end.
Proof. vm_compute. repeat split. Qed.
