(* ===== verification/Http1Lift.v ===== *)
(** * Parser and codec in a connection

    What the codec alone makes of the bytes of a message ([HttpRequest],
    [HttpResponse]) is what it makes of them in a connection, and what it tells goes
    to the handler (src/src/protocol/handler_http1.h): the lemmas that
    [Http1Requests] and [Http1Responses] share, and the view of the user that their
    theorems speak of. *)

From S2P Require Import Prelude CppStd MultiMap Utils HttpCommons StructuredData HttpMessages UserObjects Connector HandlerHttp1.
From S2P Require Import Encoder UrlParser HttpParser HttpExecute HttpSafe Decoder HttpCodec HttpRun Http1Connection.
From S2P Require Import HttpMethod HttpHead HttpFields DecodeHead HttpBody HttpRequest HttpResponse.

Section Lift.
Context {RM LM : Type} `{Traits RM LM} (to_message : RM -> message) (of_message : message -> option RM) (remote : remote_object RM).
Context (begin : option message).
Let alone := parser_settings begin.
Let inside := connection_settings to_message of_message remote.
Abbreviation world := (connector (handler (RM := RM) (LM := LM)) task).

(** A callback of the codec that tells nobody. *)
Lemma relay_silent ev p (c c' : codec) (w : world) :
  on_event p ev c = Ok (0, c') -> output c' = output c -> relay of_message ev p (c, w) = Ok (0, p, (c', w)).
Proof.
  intros E O. unfold relay. cbn [fst snd]. rewrite E. cbn [mbind outcome_bind]. by rewrite O, drop_all.
Qed.

(** What is silent: no output, and the block of the head is as open as before. *)
Definition silent (c c' : codec) : Prop := output c' = output c /\ _headers_completed c' = _headers_completed c.

Lemma process_silent c c' : process_current_header c = Ok c' -> silent c c'.
Proof.
  unfold process_current_header. destruct (negb _); [by intros [= <-]|]. intros E.
  apply bind_Ok_inv in E as (m & _ & E). by apply bind_Ok_inv in E as (m' & _ & [= <-]).
Qed.

Lemma field_silent s c c' : on_header_field s c = Ok c' -> silent c c'.
Proof.
  unfold on_header_field. intros E. apply bind_Ok_inv in E as (? & _ & E). apply bind_Ok_inv in E as (d & E & [= <-]).
  by apply process_silent in E.
Qed.

Lemma url_silent s l r c c' : on_url s l c = Ok (r, c') -> silent c c'.
Proof.
  unfold on_url. cbv zeta. destruct (_ <? _); [by intros [= _ <-]|]. intros E.
  apply bind_Ok_inv in E as (m & _ & E). apply bind_Ok_inv in E as (q & _ & E).
  apply bind_Ok_inv in E as ([b u] & _ & E). by apply bind_Ok_inv in E as (q' & _ & [= _ <-]).
Qed.

Lemma status_silent p s c c' : on_status p s c = Ok c' -> silent c c'.
Proof.
  unfold on_status. intros E. apply bind_Ok_inv in E as (m & _ & E). destruct m; [done|]. by injection E as <-.
Qed.

(** The plain callback, read back. *)
Lemma plain_inv ev p c c' : plain_cb ev p c = Ok (0, p, c') -> on_event p ev c = Ok (0, c').
Proof. unfold plain_cb. intros E. apply bind_Ok_inv in E as ([r d] & E & [= -> ->]). exact E. Qed.

Lemma url_lift s c c' w : tells alone url_data s c c' -> tells inside url_data s (c, w) (c', w) /\ silent c c'.
Proof.
  intros T. assert (E : forall l p, on_event p (pe_url s l) c = Ok (0, c')) by (intros l p; by apply plain_inv, T).
  assert (S : silent c c') by (by apply (url_silent s [] 0), (E [] (http_parser_init HTTP_BOTH))).
  split; [|exact S]. intros l p. apply (relay_silent (pe_url s l) p); [apply E|apply S].
Qed.

Lemma field_lift k s c c' w :
  k = header_field \/ k = header_value -> _headers_completed c = false ->
  tells alone k s c c' -> tells inside k s (c, w) (c', w) /\ silent c c'.
Proof.
  intros Hk Hc T. set (p0 := http_parser_init HTTP_BOTH).
  destruct Hk as [-> | ->].
  - assert (E : forall p, on_event p (pe_header_field s) c = Ok (0, c')) by (intros p; apply plain_inv, (T [] p)).
    assert (S : silent c c').
    { pose proof (E p0) as E0. cbn [on_event] in E0. rewrite Hc in E0. apply bind_Ok_inv in E0 as (d & E0 & [= <-]). by apply field_silent in E0. }
    split; [|exact S]. intros l p. apply (relay_silent (pe_header_field s) p); [apply E|apply S].
  - assert (E : forall p, on_event p (pe_header_value s) c = Ok (0, c')) by (intros p; apply plain_inv, (T [] p)).
    assert (S : silent c c') by (pose proof (E p0) as E0; rewrite any_value in E0; by injection E0 as <-).
    split; [|exact S]. intros l p. apply (relay_silent (pe_header_value s) p); [apply E|apply S].
Qed.

Lemma told_lift kvs c c' w :
  told alone kvs c c' -> _headers_completed c = false -> told inside kvs (c, w) (c', w) /\ silent c c'.
Proof.
  induction 1 as [c|k v l c c1 c2 c3 T1 T2 T IH]; intros Hc; [split; [constructor|done]|].
  destruct (field_lift header_field k c c1 w) as [L1 [O1 C1]]; [by left|done|exact T1|].
  destruct (field_lift header_value v c1 c2 w) as [L2 [O2 C2]]; [by right|by rewrite C1|exact T2|].
  destruct IH as [L3 [O3 C3]]; [by rewrite C2, C1|].
  split; [by econstructor|]. split; congruence.
Qed.

Lemma head_told_lift base c c' d w w' :
  head_told alone base c c' -> output c' = output c ++ [d] -> deliver of_message d w = Ok w' ->
  head_told inside base (c, w) (c', w').
Proof.
  intros T O D p Hp. pose proof (plain_inv pe_headers_complete p c c' (T p Hp)) as E.
  change (relay of_message pe_headers_complete p (c, w) = Ok (0, p, (c', w'))). unfold relay. cbn [fst snd]. rewrite E. cbn [mbind outcome_bind]. rewrite O, drop_app_length. cbn [deliver_all]. by rewrite D.
Qed.

Lemma begins_lift c w :
  let w1 := decoding_start remote w in
  begins inside (c, w) (set_data_ (Some (to_message (current_decoded_object (_handler w1)))) c, w1).
Proof.
  intros w1 p. cbn. by rewrite drop_all.
Qed.

Lemma status_lift code reason c c' w :
  status_told alone code reason c c' -> status_told inside code reason (c, w) (c', w) /\ silent c c'.
Proof.
  unfold status_told. destruct (decide (reason = "")); [by intros ->|]. intros T.
  assert (E : forall l p, apart p = response_head code -> on_event p (pe_status reason) c = Ok (0, c'))
    by (intros l p Hp; by apply plain_inv, (T l p)).
  assert (S : silent c c').
  { specialize (E [] (response_head code) eq_refl). cbn [on_event] in E. apply bind_Ok_inv in E as (d & E & [= <-]).
    by apply (status_silent (response_head code) reason). }
  split; [|exact S]. intros l p Hp. apply (relay_silent (pe_status reason) p); [by apply (E l)|apply S].
Qed.

(** *** What is decoded of a head *)
Lemma update_persistent_ok (w : world) d p :
  let d0 := remote_data (current_decoded_object (_handler w)) in
  (if bool_decide (_protocol d0 = HTTP10)
   then persistent (_handler w) && (has hf_connection d0 && bool_decide (header_get hf_connection d0 = hv_keepalive))
   else persistent (_handler w) && (negb (has hf_connection d0) || bool_decide (header_get hf_connection d0 = hv_keepalive))) = p ->
  keepalive p d0 = Ok d ->
  update_persistent w = Ok (on_handler (fun h => set_decoding (set_remote_data d (current_decoded_object h))
    (decoding_error h) (managing_continue h) (set_persistent p h)) w).
Proof. cbv zeta. intros <- E. unfold update_persistent. cbv zeta. by rewrite E. Qed.

(** *** What the user is to see

    The promise of a connection, without the codec and the parser. *)
Record view := {
  v_next : nat;
  v_objects : gmap nat (remote_object RM);
  v_answers : gmap nat (local_object LM);
  v_waiting : list nat;
  v_receiving : list nat;
  v_stays : bool;
  v_told : list task;
  v_events : list connection_event;
  (** the bytes for the socket, and what serves to write them *)
  v_output : list string * bool * option (list (task * task)) * string * encoder }.

Definition view_of (w : world) : view :=
  let h := _handler w in
  {| v_next := next_id h; v_objects := remotes h; v_answers := locals h; v_waiting := local_objects h;
     v_receiving := remote_objects h; v_stays := persistent h; v_told := posted w; v_events := events h;
     v_output := (wire w, serialization h, encoder_ h) |}.
End Lift.
Arguments view : clear implicits.


(** The connection field counts. *)
Lemma persistent_after (p ka : bool) d :
  _protocol d = HTTP11 -> values hf_connection (_headers d) = [if ka then hv_keepalive else hv_connection_close] ->
  (if bool_decide (_protocol d = HTTP10)
   then p && (has hf_connection d && bool_decide (header_get hf_connection d = hv_keepalive))
   else p && (negb (has hf_connection d) || bool_decide (header_get hf_connection d = hv_keepalive)))
  = p && ka.
Proof.
  intros P V. rewrite bool_decide_eq_false_2 by congruence. unfold has, header_get. rewrite find_values, V. by destruct ka.
Qed.

(** The connection field is written again: a connection that is to close stays so. *)
Lemma keepalive_again d0 ka kvs d b :
  headers_read d0 ka kvs d -> exists d', keepalive b d = Ok d' /\ headers_read d0 b kvs d' /\ _keepalive d' = b.
Proof.
  intros [W V P K C N F]. destruct (keepalive_plain b d W) as (d' & E & W' & V' & P' & K' & C' & N').
  exists d'. split; [exact E|]. split; [|exact K'].
  split; [exact W'|by intros; apply V', V|by rewrite P'|exact K'|by rewrite C'|by rewrite N', decide_True|].
  intros k Hk. rewrite N', decide_False by done. by apply F.
Qed.
