(* ===== verification/Http1Requests.v ===== *)
(** * Requests from the socket to the objects of the user

    Parser, codec and handler (src/src/http_parser/http_parser.c,
    src/src/http/http_codec_impl.h, src/src/protocol/handler_http1.h) of a server
    over whole requests. *)

From S2P Require Import Prelude CppStd MultiMap Utils HttpCommons StructuredData HttpMessages UserObjects Connector HandlerHttp1.
From S2P Require Import Encoder UrlParser HttpParser HttpExecute HttpSafe Decoder HttpCodec HttpRun Http1Connection.
From S2P Require Import HttpMethod HttpHead HttpFields DecodeHead HttpBody HttpRequest Http1Lift.

(** ** A server *)
Section Server.
Context (remote : remote_object http_request) (Hopen : terminated remote = false).
Abbreviation world := (connector (handler (RM := http_request) (LM := http_response)) task).
Let inside := connection_settings Req request_of_message remote.

(** The object a message is read into, between two messages. *)
Definition blank (r0 : http_request) (w : world) : Prop :=
  current_decoded_object (_handler w) = r0 /\ remote_objects (_handler w) = [].

Abbreviation server_view := (view http_request http_response).

(** What the user's object has become of the request [r]. *)
Definition object_of (r : http_request) : remote_object http_request := Remote.set_preamble r remote.

(** The handler when the head of a request is in: a pair of objects is made, the
    user is told of them, and the remote one of the head. *)
Record head_served (r : http_request) (w w' : world) : Prop := {
  hs_error : decoding_error (_handler w') = false;
  hs_queue : remote_objects (_handler w') = [next_id (_handler w)];
  hs_remotes : remotes (_handler w') = <[next_id (_handler w) := object_of r]> (remotes (_handler w));
  hs_locals : locals (_handler w') = <[next_id (_handler w) := Local.new]> (locals (_handler w));
  hs_local_objects : local_objects (_handler w') = local_objects (_handler w) ++ [next_id (_handler w)];
  hs_next : next_id (_handler w') = S (next_id (_handler w));
  hs_events : events (_handler w') = events (_handler w) ++ [new_request_pair (next_id (_handler w)) (next_id (_handler w))];
  hs_persistent : persistent (_handler w') = _keepalive (base r);
  hs_current : new_request false HTTP_GET = Ok (current_decoded_object (_handler w'));
  hs_posted : posted w' = posted w ++ [task_remote (next_id (_handler w)) run_headers];
  hs_output : (wire w', serialization (_handler w'), encoder_ (_handler w')) = (wire w, serialization (_handler w), encoder_ (_handler w)) }.

Lemma call_headers id r m (w : world) :
  remotes (_handler w) !! id = Some r ->
  call_remote id (t_headers m) w = Ok (post_remote id [run_headers] (put_remote id (Remote.set_preamble m r) w)).
Proof. intros E. unfold call_remote. by rewrite E. Qed.

Lemma head_delivered r (w : world) ka d0 kvs :
  remote_objects (_handler w) = [] -> headers_read d0 ka kvs (base r) ->
  exists d w', deliver request_of_message (got_header (Req r)) (decoding_start remote w) = Ok w' /\
    headers_read d0 (persistent (_handler w) && ka) kvs d /\ head_served (set_base d r) w w'.
Proof.
  intros Hq HR. destruct (keepalive_again d0 ka kvs (base r) (persistent (_handler w) && ka) HR) as (d & E & HR' & K).
  exists d. pose proof (persistent_after (persistent (_handler w)) ka (base r) (hr_protocol _ _ _ _ HR) (hr_connection _ _ _ _ HR)) as PA.
  set (id := next_id (_handler w)). set (w1 := decoding_start remote w).
  set (w2 := on_handler (fun h => set_decoding r (decoding_error h) (managing_continue h) h) w1).
  assert (F1 : remote_objects (_handler w2) = [id]) by (cbn; by rewrite Hq).
  assert (F2 : remotes (_handler w2) = <[id := remote]> (remotes (_handler w))) by reflexivity.
  assert (R : receives id [] remote w2) by (split; [done|exact F1|by rewrite F2, lookup_insert_eq|exact Hopen]).
  set (w3 := on_handler (fun h => set_decoding (set_remote_data d (current_decoded_object h))
    (decoding_error h) (managing_continue h) (set_persistent (persistent (_handler w) && ka) h)) w2).
  assert (E3 : update_persistent w2 = Ok w3) by (apply update_persistent_ok; [exact PA|exact E]).
  assert (F3 : remotes (_handler w3) = <[id := remote]> (remotes (_handler w))) by reflexivity.
  set (w4 := post_remote id [run_headers] (put_remote id (object_of (set_base d r)) w3)).
  assert (E4 : call_remote id (t_headers (current_decoded_object (_handler w3))) w3 = Ok w4).
  { rewrite (call_headers id remote); [reflexivity|]. by rewrite F3, lookup_insert_eq. }
  destruct (new_request false HTTP_GET) as [obj|] eqn:Eo; [|by vm_compute in Eo].
  set (w5 := on_handler (fun h => set_decoding obj (decoding_error h) (managing_continue (_handler w3)) h) w4).
  exists w5. split; [|split; [exact HR'|]].
  { change (decoded_headers w2 = Ok w5). unfold decoded_headers, with_current. rewrite (current_there _ _ _ _ R). cbn [mbind outcome_bind].
    rewrite E3. cbn [mbind outcome_bind is_server server_traits negb andb]. rewrite E4. cbn [mbind outcome_bind].
    change (fresh_remote (Traits := server_traits) _) with (new_request false HTTP_GET). rewrite Eo. reflexivity. }
  assert (F5 : remotes (_handler w5) = <[id := object_of (set_base d r)]> (remotes (_handler w3))) by reflexivity.
  split; [reflexivity|exact F1|by rewrite F5, F3, insert_insert_eq|reflexivity..|exact (eq_sym K)|exact Eo|reflexivity|reflexivity].
Qed.

(** The user is told of a request: a pair of objects, the remote one with the head
    and over when the message is; the tasks that bring head, body and end to it;
    the answer waits behind those of the requests before. *)
Definition serve (u : sent) (r : http_request) (v : server_view) : server_view :=
  let id := v_next v in
  {| v_next := S id;
     v_objects := <[id := Remote.set_terminated (object_of r)]> (v_objects v);
     v_answers := <[id := Local.new]> (v_answers v);
     v_waiting := v_waiting v ++ [id];
     v_receiving := v_receiving v;
     v_stays := _keepalive (base r);
     v_told := v_told v ++ (task_remote id <$> run_headers :: (run_body <$> s_pieces u) ++ [run_finished]);
     v_events := v_events v ++ [new_request_pair id id];
     v_output := v_output v |}.

(** One request after the other; a connection that is to close stays so. *)
Inductive all_served (r0 : http_request) : server_view -> list sent -> server_view -> Prop :=
| served_none v : all_served r0 v [] v
| served_next v u us r v' :
    arrived_as (v_stays v && says_stay u) r0 u r -> all_served r0 (serve u r v) us v' -> all_served r0 v (u :: us) v'.

Lemma body_view r u (w w' : world) :
  head_served r w w' -> remote_objects (_handler w) = [] ->
  let wb := foldl (fun w d => hand (t_body d) w) w' (s_pieces u) in
  let we := pop_remote (hand t_finished wb) in
  view_of we = serve u r (view_of w) /\ new_request false HTTP_GET = Ok (current_decoded_object (_handler we)) /\ remote_objects (_handler we) = [].
Proof.
  intros [H1 H2 H3 H4 H5 H6 H7 H8 H9 H10 H11] Hq wb we. set (id := next_id (_handler w)) in *.
  assert (R : receives id [] (object_of r) w') by (split; [done|done|by rewrite H3, lookup_insert_eq|exact Hopen]).
  destruct (hand_pieces (s_pieces u) id [] (object_of r) w' R) as (R' & P & W & K). fold wb in R', P, W, K.
  destruct (hand_call id [] _ t_finished wb R') as [E _].
  assert (T : told_pieces (s_pieces u) (object_of r) = run_body <$> s_pieces u).
  { unfold told_pieces. generalize (s_pieces u). intros l. induction l as [|d l IH]; [reflexivity|]. exact (f_equal (cons (run_body d)) IH). }
  assert (Eh : we = pop_remote (post_remote id [run_finished] (put_remote id (Remote.set_terminated (object_of r)) wb))).
  { unfold we. rewrite E. cbn [pull_remote server_traits Remote.pull]. unfold Remote.finished.
    change (terminated (object_of r)) with (terminated remote). rewrite Hopen. reflexivity. }
  assert (Eo : (wire we, serialization (_handler we), encoder_ (_handler we)) = (wire w, serialization (_handler w), encoder_ (_handler w))).
  { rewrite <- H11, Eh, <- K, <- W. reflexivity. }
  split; [|rewrite Eh; split].
  - unfold view_of. rewrite Eo, Eh. unfold serve. cbn. fold id.
    rewrite K, Hq, H2, H3, H4, H5, H6, H7, H8, P, H10, T, insert_insert_eq. f_equal. by rewrite fmap_app, <- !app_assoc.
  - cbn. rewrite K. exact H9.
  - cbn. by rewrite K, H2.
Qed.

(** Between two messages. *)
Definition ready (r0 : http_request) (s : codec * world) : Prop :=
  (exists v out, (v = UNSET \/ v = HTTP11) /\ s.1 = at_rest v out) /\ blank r0 s.2.

Definition request_step (r0 : http_request) (u : sent * string) (s s' : codec * world) : Prop :=
  exists r, arrived_as (v_stays (view_of s.2) && says_stay u.1) r0 u.1 r /\ view_of s'.2 = serve u.1 r (view_of s.2).

Lemma arrived_again d ka r0 u r :
  arrived r0 u r -> headers_read (base r0) (ka && says_stay u) (s_fields u) d -> arrived_as (ka && says_stay u) r0 u (set_base d r).
Proof. by intros [A1 A2 A3 A4 _] HR; split. Qed.

(** The head and the body of a request, in a connection. *)
Lemma request_heard r0 u text data beyond n f rest (s : codec * world) :
  sendable u text -> MultiMap.wf (_headers (base r0)) -> new_request false HTTP_GET = Ok r0 -> ready r0 s ->
  drop n data = chars (sent_head u +:+ text) ++ rest -> fresh n s f ->
  exists s', request_step r0 (u, text) s s' /\ ready r0 s' /\
    reaches inside data beyond false f (fresh (n + length (chars (sent_head u +:+ text))) s').
Proof.
  intros S Hwf Hnew [(v & out & Hv & Hc) [Hcur Hq]] Hd F. destruct s as [c w]. cbn [fst snd] in *. subst c.
  pose proof S as [(m & Hm & Hmc) Hp Hpq Hpf Hu HB Hl HT]. unfold max_uri_len in Hu.
  destruct (target_alive _ _ _ Hp Hpq Hpf ltac:(unfold sent_target in Hu; lia)) as (l & El & Ha).
  destruct (head_heard r0 u text v out m S Hm Hwf Hv) as (r & c2 & c3 & c4 & Ar & T1 & T2 & T3 & Hrec & Ho & V4).
  set (w1 := decoding_start remote w). set (c1 := set_data_ (Some (Req r0)) (at_rest v out)) in *.
  destruct (head_delivered r w _ _ _ Hq (ar_headers _ _ _ _ Ar)) as (d & w' & D & HR & HS).
  destruct (url_lift Req request_of_message remote (Some (Req r0)) _ _ _ w1 T1) as [L1 [O1 C1]].
  destruct (told_lift Req request_of_message remote (Some (Req r0)) _ _ _ w1 T2) as [L2 [O2 C2]]; [by rewrite C1|].
  assert (Oc : output c4 = output c3 ++ [got_header (Req r)]) by (rewrite Ho, O2, O1; reflexivity).
  pose proof (head_told_lift Req request_of_message remote (Some (Req r0)) _ _ _ _ w1 w' T3 Oc D) as L3.
  pose proof (begins_lift Req request_of_message remote (at_rest v out) w) as B. cbv zeta in B. fold w1 in B.
  change (current_decoded_object (_handler w1)) with (current_decoded_object (_handler w)) in B. rewrite Hcur in B. fold c1 in B.
  set (id := next_id (_handler w)).
  assert (R : receives id [] (object_of (set_base d r)) w').
  { destruct HS as [H1 H2 H3 _ _ _ _ _ _ _ _]. split; [done|done|by rewrite H3, lookup_insert_eq|exact Hopen]. }
  assert (Hin : receiving (settings := inside) (c4, w')) by (split; [exact Hrec|left; by exists id, [], (object_of (set_base d r))]).
  rewrite chars_app, <- app_assoc in Hd.
  pose proof (head_read inside data beyond (at_rest v out, w) (c1, w1) B
    (s_name u) m l (s_fields u) (c2, w1) (c3, w1) (c4, w') n f (chars text ++ rest) Hm Hmc Ha HB) as Q. cbv zeta in Q.
  rewrite <- El, of_chars_chars in Q. specialize (Q Hl L1 L2 L3 (receiving_ending _ Hin) F Hd). fold (sent_target u) (sent_head u) in Q.
  destruct (body_view (set_base d r) u w w' HS Hq) as (V & N & E).
  set (s1 := take_pieces (settings := inside) (s_pieces u) (c4, w')).
  assert (Es : s1 = (emit (got_body <$> s_pieces u) c4, foldl (fun w d => hand (t_body d) w) w' (s_pieces u)))
    by exact (pieces_split Req request_of_message remote (s_pieces u) c4 w').
  exists (take_end s1).
  split; [|split]; [| |eapply reaches_trans; [exact Q|]; intros g G;
    eapply reaches_trans; [eapply body_read; [exact G|rewrite request_fields_body by done; exact HT|by apply request_fields_ok|exact Hin|by apply data_on]|];
    intros h H; apply reaches_refl; rewrite chars_app, length_app, Nat.add_assoc; exact H].
  - rewrite Es. exists (set_base d r). split; [by apply arrived_again|exact V].
  - rewrite Es. split.
    + eexists _, _. split; [|cbn; rewrite reset_rest; reflexivity]. right. exact V4.
    + split; [|exact E]. cbn [snd]. rewrite Hnew in N. by injection N.
Qed.

Lemma steps_served r0 us s s' : chain (request_step r0) us s s' -> all_served r0 (view_of s.2) us.*1 (view_of s'.2).
Proof.
  induction 1 as [s|u us s s1 s2 (r & A & V) _ IH]; [constructor|]. cbn. eapply served_next; [exact A|]. by rewrite <- V.
Qed.

Lemma requests_fed (r0 : http_request) (us : list (sent * string)) (ls : list (list string)) (s : connection http_request http_response) :
  new_request false HTTP_GET = Ok r0 -> decoder_parser s = http_parser_init HTTP_BOTH -> ready r0 (decoder_codec s, conn s) ->
  Forall (fun u => sendable u.1 u.2) us ->
  mjoin ls = (fun u => sent_head u.1 +:+ u.2) <$> us -> Forall (fun l => l <> [] /\ len (concat_str l) < 2 ^ 31) ls ->
  exists s', connection_reads Req request_of_message remote (concat_str <$> ls) s = Some (Ok (true, s')) /\
    decoder_parser s' = http_parser_init HTTP_BOTH /\ ready r0 (decoder_codec s', conn s') /\
    all_served r0 (view_of (conn s)) us.*1 (view_of (conn s')).
Proof.
  intros Hnew Hp Hr HF Hj HL.
  destruct (chain_fed inside (fun u : sent * string => sent_head u.1 +:+ u.2) (request_step r0) (fun _ => ready r0) us ls (decoder_codec s, conn s))
    as ([c' w'] & S & I & X).
  - eapply Forall_impl; [exact HF|]. intros [u text] Hu. split.
    + apply sent_full.
    + intros _ data beyond n f rest s1 I1 Hd F. eapply request_heard; [exact Hu| |exact Hnew|exact I1|exact Hd|exact F].
      by apply (blank_request _ _ _ Hnew).
  - exact Hj.
  - eapply Forall_impl; [exact HL|]. by intros l [].
  - exact Hr.
  - rewrite <- Hp in X at 1. apply fed_connection in X.
    + eexists. split; [exact X|]. split; [reflexivity|]. split; [exact I|]. apply (steps_served _ _ _ _ S).
    + apply Forall_fmap. eapply Forall_impl; [exact HL|]. by intros l [].
Qed.

(** C8: Requests sent to a server one after the other, in whatever reads of whole
    requests, reach its user: for every one, in order, a pair of objects is made
    and the user is told; the remote object gets the head as it was written, and
    head, every piece of the body and the end are posted to it; the answer waits
    behind those of the requests before; the connection stays as long as every
    request says so, and nothing is written.  The connection is ready for the next
    read. *)
Theorem requests_served (r0 : http_request) (us : list (sent * string)) (ls : list (list string)) (s : connection http_request http_response) :
  new_request false HTTP_GET = Ok r0 -> decoder_parser s = http_parser_init HTTP_BOTH -> ready r0 (decoder_codec s, conn s) ->
  Forall (fun u => sendable u.1 u.2) us ->
  mjoin ls = (fun u => sent_head u.1 +:+ u.2) <$> us -> Forall (fun l => l <> [] /\ len (concat_str l) < 2 ^ 31) ls ->
  exists s', connection_reads Req request_of_message remote (concat_str <$> ls) s = Some (Ok (true, s')) /\
    decoder_parser s' = http_parser_init HTTP_BOTH /\ ready r0 (decoder_codec s', conn s') /\
    all_served r0 (view_of (conn s)) us.*1 (view_of (conn s')).
Proof. apply requests_fed. Qed.
End Server.

(** A connection that has just been made. *)
Definition new_server (r0 : http_request) : connection http_request http_response :=
  {| decoder_parser := http_parser_init HTTP_BOTH; decoder_codec := new_codec; conn := new_connector 4 (new_handler r0) |}.

Lemma requests_served_witness :
  exists r0 s', new_request false HTTP_GET = Ok r0 /\
    connection_reads Req request_of_message (UserObjects.fresh all_callbacks r0)
        (concat_str <$> example_reads (fun u => sent_head u.1 +:+ u.2) example_sent) (new_server r0) = Some (Ok (true, s')) /\
    all_served (UserObjects.fresh all_callbacks r0) r0 (view_of (conn (new_server r0))) example_sent.*1 (view_of (conn s')).
Proof.
  destruct (new_request false HTTP_GET) as [r0|] eqn:E; [|by vm_compute in E].
  destruct (requests_served (UserObjects.fresh all_callbacks r0) eq_refl r0 example_sent
    (example_reads (fun u => sent_head u.1 +:+ u.2) example_sent) (new_server r0)) as (s' & H1 & _ & _ & H2).
  - exact E.
  - reflexivity.
  - split; [exists UNSET, []; split; [by left|reflexivity]|by split].
  - exact example_sendable.
  - reflexivity.
  - repeat constructor; first [discriminate|by vm_compute].
  - exists r0, s'. split; [reflexivity|]. split; [exact H1|exact H2].
Defined.
