(* ===== verification/Http1Responses.v ===== *)
(** * Responses from the socket to the objects of the user

    Parser, codec and handler (src/src/http_parser/http_parser.c,
    src/src/http/http_codec_impl.h, src/src/protocol/handler_http1.h, with the
    specializations for [client_traits]) of a client over whole responses: the
    final ones, the interim ones, and those that nobody waits for. *)

From S2P Require Import Prelude CppStd MultiMap Utils HttpCommons StructuredData HttpMessages Errors UserObjects Connector HandlerHttp1.
From S2P Require Import Encoder UrlParser HttpParser HttpExecute HttpSafe Decoder HttpCodec HttpRun Http1Connection.
From S2P Require Import HttpMethod HttpHead HttpFields DecodeHead HttpBody HttpRequest HttpResponse Http1Lift.

Definition response_of_message (m : message) : option http_response := match m with Res r => Some r | Req _ => None end.

Section Client.
Context `{mem : Garbage}.
(** A client makes the objects when a request is sent: this one is not used. *)
Context (remote : remote_object http_response).
Abbreviation world := (connector (handler (RM := http_response) (LM := http_request)) task).
Abbreviation client_view := (view http_response http_request).
Let inside := connection_settings Res response_of_message remote.

(** ** What the user is to see *)

(** A task is posted where the user has set the callback. *)
Definition run_if (b : bool) (t : remote_task) : list remote_task := if b then [t] else [].

Definition head_tasks (r : http_response) (o : remote_object http_response) : list remote_task :=
  if is_continue r then [] else run_if (has_headers (cbs o)) run_headers.
Definition body_tasks (ds : list string) (o : remote_object http_response) : list remote_task :=
  if has_body (cbs o) then run_body <$> ds else [].
Definition end_tasks (r : http_response) (o : remote_object http_response) : list remote_task :=
  if is_continue r then run_if (has_continue (cbs o)) run_continue else run_if (has_finished (cbs o)) run_finished.

(** The object has the head of a final response; an interim one leaves it alone. *)
Definition headed (r : http_response) (o : remote_object http_response) : remote_object http_response :=
  if is_continue r then o else Remote.set_preamble r o.

(** The response [r] to the transaction at the front, [id] with its object [o]:
    whatever it is, it takes the object off the queue, [q] is left. *)
Definition hear (u : answer) (r : http_response) (id : nat) (q : list nat) (o : remote_object http_response)
    (v : client_view) : client_view :=
  {| v_next := v_next v; v_objects := <[id := headed r o]> (v_objects v);
     v_answers := v_answers v; v_waiting := v_waiting v; v_receiving := q;
     v_stays := _keepalive (response_base r);
     v_told := v_told v ++ (task_remote id <$> head_tasks r o ++ body_tasks (a_pieces u) o ++ end_tasks r o);
     v_events := v_events v; v_output := v_output v |}.

(** Nobody waits: an error of the connection. *)
Definition stray (v : client_view) : client_view :=
  {| v_next := v_next v; v_objects := v_objects v; v_answers := v_answers v; v_waiting := v_waiting v;
     v_receiving := v_receiving v; v_stays := v_stays v; v_told := v_told v;
     v_events := v_events v ++ [connection_failed invalid_read]; v_output := v_output v |}.

(** The response [r] is [u], read into the blank response [r0], on a connection
    that is to stay or not. *)
Record heard_as (ka : bool) (r0 : http_response) (u : answer) (r : http_response) : Prop := {
  hd_status : (_status_code r, _status_message r) = told_status r0 (a_code u) (a_reason u);
  hd_headers : headers_read (response_base r0) (ka && stays (a_code u) (a_fields u)) (a_fields u) (response_base r) }.

(** A fresh response, whatever its status. *)
Definition blank (r : http_response) : Prop := exists g, new_response g = Ok r.

(** One after the other.  A response is read into the handler's
    [current_decoded_object], the first argument; it is a fresh one after a
    transaction has got its response, but what nobody waits for stays in it. *)
Inductive all_heard : http_response -> client_view -> list answer -> http_response -> client_view -> Prop :=
| heard_none r0 v : all_heard r0 v [] r0 v
| heard_next r0 v u us id q o r obj r' v' :
    v_receiving v = id :: q -> v_objects v !! id = Some o -> heard_as (v_stays v) r0 u r -> blank obj ->
    all_heard obj (hear u r id q o v) us r' v' -> all_heard r0 v (u :: us) r' v'
| heard_stray r0 v u us r r' v' :
    v_receiving v = [] -> answered r0 u r -> all_heard r (stray v) us r' v' -> all_heard r0 v (u :: us) r' v'.

(** ** The head *)
Lemma new_response_ok g : exists r, new_response g = Ok r.
Proof. unfold new_response. destruct (new_data http_response_type) as [d|] eqn:E; [by eexists|by vm_compute in E]. Qed.

Lemma call_client_headers id o m (w : world) :
  remotes (_handler w) !! id = Some o ->
  call_remote id (t_headers m) w = Ok (post_remote id (run_if (has_headers (cbs o)) run_headers) (put_remote id (Remote.set_preamble m o) w)).
Proof. intros E. unfold call_remote. by rewrite E. Qed.

(** The handler when the head of a response is in. *)
Record head_answered (r : http_response) (id : nat) (q : list nat) (o : remote_object http_response) (w w' : world) : Prop := {
  ha_error : decoding_error (_handler w') = false;
  ha_continue : managing_continue (_handler w') = is_continue r;
  ha_current : blank (current_decoded_object (_handler w'));
  ha_next : next_id (_handler w') = next_id (_handler w);
  ha_objects : remotes (_handler w') = <[id := headed r o]> (remotes (_handler w));
  ha_answers : locals (_handler w') = locals (_handler w);
  ha_waiting : local_objects (_handler w') = local_objects (_handler w);
  ha_receiving : remote_objects (_handler w') = id :: q;
  ha_stays : persistent (_handler w') = _keepalive (response_base r);
  ha_told : posted w' = posted w ++ (task_remote id <$> head_tasks r o);
  ha_events : events (_handler w') = events (_handler w);
  ha_output : (wire w', serialization (_handler w'), encoder_ (_handler w')) = (wire w, serialization (_handler w), encoder_ (_handler w)) }.

Lemma answer_delivered r (w : world) ka d0 kvs id q o :
  remote_objects (_handler w) = id :: q -> remotes (_handler w) !! id = Some o -> terminated o = false ->
  headers_read d0 ka kvs (response_base r) ->
  exists d w', deliver response_of_message (got_header (Res r)) (decoding_start remote w) = Ok w' /\
    headers_read d0 (persistent (_handler w) && ka) kvs d /\ head_answered (set_response_base d r) id q o w w'.
Proof.
  intros Hq Ho Ht HR. destruct (keepalive_again d0 ka kvs (response_base r) (persistent (_handler w) && ka) HR) as (d & E & HR' & K).
  exists d. pose proof (persistent_after (persistent (_handler w)) ka (response_base r) (hr_protocol _ _ _ _ HR) (hr_connection _ _ _ _ HR)) as PA.
  set (w1 := decoding_start remote w).
  set (w2 := on_handler (fun h => set_decoding r (decoding_error h) (managing_continue h) h) w1).
  assert (R : receives id q o w2) by (split; [reflexivity|exact Hq|exact Ho|exact Ht]).
  set (r' := set_response_base d r).
  set (w3 := on_handler (fun h => set_decoding (set_remote_data d (current_decoded_object h))
    (decoding_error h) (managing_continue h) (set_persistent (persistent (_handler w) && ka) h)) w2).
  assert (E3 : update_persistent w2 = Ok w3) by (apply update_persistent_ok; [exact PA|exact E]).
  set (w4 := if is_continue r' then w3
             else post_remote id (run_if (has_headers (cbs o)) run_headers) (put_remote id (Remote.set_preamble r' o) w3)).
  assert (E4 : (if negb (is_server (Traits := client_traits)) && is_continue r' then Ok w3 else call_remote id (t_headers r') w3) = Ok w4).
  { unfold w4. cbn [is_server client_traits negb andb]. destruct (is_continue r'); [reflexivity|]. by apply call_client_headers. }
  destruct (new_response_ok (garbage r')) as [obj Eo].
  set (w5 := on_handler (fun h => set_decoding obj (decoding_error h) (is_continue r') h) w4).
  exists w5. split; [|split; [exact HR'|]].
  { change (decoded_headers w2 = Ok w5). unfold decoded_headers, with_current. rewrite (current_there _ _ _ _ R). cbn [mbind outcome_bind].
    rewrite E3. cbn [mbind outcome_bind]. cbv zeta. change (current_decoded_object (_handler w3)) with r'.
    change (if is_server then managing_continue (_handler w3) else is_continue r') with (is_continue r').
    change (mret w3) with (Ok w3). rewrite E4. cbn [mbind outcome_bind].
    change (fresh_remote (Traits := client_traits) r') with (new_response (garbage r')). rewrite Eo. reflexivity. }
  assert (X : remotes (_handler w5) = <[id := headed r' o]> (remotes (_handler w)) /\
    posted w5 = posted w ++ (task_remote id <$> head_tasks r' o)).
  { unfold w5, w4, headed, head_tasks. destruct (is_continue r'); [|by split].
    split; [symmetry; by apply insert_id|symmetry; apply app_nil_r]. }
  destruct X as [X1 X2].
  assert (Y : forall A (f : world -> A), (forall ts a, f (post_remote id ts (put_remote id a w3)) = f w3) -> f w4 = f w3)
    by (intros A f Hf; unfold w4; by destruct (is_continue r')).
  split; [|reflexivity|by exists (garbage r')| |exact X1| | | | |exact X2| |].
  - exact (Y _ (fun w => decoding_error (_handler w)) (fun _ _ => eq_refl)).
  - exact (Y _ (fun w => next_id (_handler w)) (fun _ _ => eq_refl)).
  - exact (Y _ (fun w => locals (_handler w)) (fun _ _ => eq_refl)).
  - exact (Y _ (fun w => local_objects (_handler w)) (fun _ _ => eq_refl)).
  - etransitivity; [exact (Y _ (fun w => remote_objects (_handler w)) (fun _ _ => eq_refl))|exact Hq].
  - etransitivity; [exact (Y _ (fun w => persistent (_handler w)) (fun _ _ => eq_refl))|exact (eq_sym K)].
  - exact (Y _ (fun w => events (_handler w)) (fun _ _ => eq_refl)).
  - exact (Y _ (fun w => (wire w, serialization (_handler w), encoder_ (_handler w))) (fun _ _ => eq_refl)).
Qed.

Lemma stray_delivered r (w : world) :
  remote_objects (_handler w) = [] ->
  exists w', deliver response_of_message (got_header (Res r)) (decoding_start remote w) = Ok w' /\
    unheard w' /\ view_of w' = stray (view_of w) /\ current_decoded_object (_handler w') = r.
Proof.
  intros Hq. set (w1 := decoding_start remote w).
  set (w2 := on_handler (fun h => set_decoding r (decoding_error h) (managing_continue h) h) w1).
  set (w3 := connection_error_ invalid_read (on_handler (fun h => set_decoding (current_decoded_object h) true (managing_continue h) h) w2)).
  exists w3. split; [|split].
  { change (decoded_headers w2 = Ok w3). unfold decoded_headers, with_current, get_current.
    change (decoding_error (_handler w2)) with false. change (remote_objects (_handler w2)) with (remote_objects (_handler w)). rewrite Hq. reflexivity. }
  - split; [reflexivity|exact Hq].
  - by split.
Qed.

(** ** The body *)
Lemma unheard_view ds (w : world) :
  unheard w ->
  let wb := foldl (fun w d => hand (t_body d) w) w ds in
  pop_remote (hand (end_trigger wb) wb) = w.
Proof.
  intros U. cbv zeta. assert (E : foldl (fun w d => hand (t_body d) w) w ds = w).
  { induction ds as [|d ds IH]; [reflexivity|]. cbn [foldl]. by rewrite (proj1 (unheard_same (t_body d) w U)). }
  rewrite E. rewrite (proj1 (unheard_same _ w U)). apply (unheard_same t_finished w U).
Qed.

Lemma told_body ds (o : remote_object http_response) : told_pieces (RM := http_response) (LM := http_request) ds o = body_tasks ds o.
Proof.
  unfold told_pieces, body_tasks. cbn [pull_remote client_traits Remote.client_pull Remote.client_body fst].
  destruct (has_body (cbs o)).
  - induction ds as [|d ds IH]; [reflexivity|]. exact (f_equal (cons (run_body d)) IH).
  - induction ds as [|d ds IH]; [reflexivity|exact IH].
Qed.

Lemma answer_ended u r id q o (w w' : world) :
  head_answered r id q o w w' -> terminated o = false ->
  let wb := foldl (fun w d => hand (t_body d) w) w' (a_pieces u) in
  let we := pop_remote (hand (end_trigger wb) wb) in
  view_of we = hear u r id q o (view_of w) /\ blank (current_decoded_object (_handler we)).
Proof.
  intros [H1 H2 H3 H4 H5 H6 H7 H8 H9 H10 H11 H12] Ht wb we.
  assert (Hh : terminated (headed r o) = false) by (unfold headed; by destruct (is_continue r)).
  assert (Hc : cbs (headed r o) = cbs o) by (unfold headed; by destruct (is_continue r)).
  assert (R : receives id q (headed r o) w') by (split; [done|done|by rewrite H5, lookup_insert_eq|done]).
  destruct (hand_pieces (a_pieces u) id q (headed r o) w' R) as (R' & P & W & K). fold wb in R', P, W, K.
  destruct (hand_call id q _ (end_trigger wb) wb R') as [E _].
  assert (T : end_trigger wb = if is_continue r then t_continue else t_finished)
    by (unfold end_trigger; cbn [is_server client_traits]; by rewrite K, H2).
  assert (X : pull_remote (end_trigger wb) (headed r o) = (end_tasks r o, headed r o)).
  { rewrite T. unfold end_tasks. rewrite <- Hc. destruct (is_continue r); cbn [pull_remote client_traits Remote.client_pull];
      [unfold Remote.response_continue|unfold Remote.client_finished]; by rewrite Hh. }
  rewrite X in E. cbn [fst snd] in E.
  assert (Kh : _handler (put_remote id (headed r o) wb) = _handler w') by (rewrite <- K; by apply put_same, R').
  assert (Eh : _handler we = set_queues (local_objects (_handler w')) (tail (remote_objects (_handler w'))) (_handler w')).
  { unfold we. rewrite E, <- Kh. reflexivity. }
  assert (Ep : posted we = posted w' ++ (task_remote id <$> body_tasks (a_pieces u) o ++ end_tasks r o)).
  { unfold we. rewrite E. change (posted (pop_remote _)) with (posted wb ++ (task_remote id <$> end_tasks r o)).
    rewrite P, told_body. unfold body_tasks. by rewrite Hc, fmap_app, app_assoc. }
  assert (Ew : (wire we, serialization (_handler we), encoder_ (_handler we)) = (wire w, serialization (_handler w), encoder_ (_handler w))).
  { rewrite <- H12, Eh. change (wire we) with (wire (hand (end_trigger wb) wb)). rewrite E. change (wire (post_remote _ _ _)) with (wire wb). by rewrite W. }
  split; [|rewrite Eh; exact H3]. unfold view_of, hear. rewrite Ep, Ew, Eh, H10. cbn. rewrite H4, H5, H6, H7, H8, H9, H11.
  f_equal. by rewrite !fmap_app, <- !app_assoc.
Qed.

(** ** A response *)

(** The transactions that wait. *)
Definition queue_open (w : world) : Prop :=
  Forall (fun id => exists o, remotes (_handler w) !! id = Some o /\ terminated o = false) (remote_objects (_handler w)).

(** Between two responses. *)
Record expecting (r0 : http_response) (s : codec * world) : Prop := {
  ex_codec : exists v out, (v = UNSET \/ v = HTTP11) /\ s.1 = at_rest v out;
  ex_current : current_decoded_object (_handler s.2) = r0;
  ex_wf : MultiMap.wf (_headers (response_base r0));
  ex_queue : queue_open s.2 }.

(** One response. *)
Definition response_step (u : answer * string) (s s' : codec * world) : Prop :=
  forall us r' v', all_heard (current_decoded_object (_handler s'.2)) (view_of s'.2) us r' v' ->
    all_heard (current_decoded_object (_handler s.2)) (view_of s.2) (u.1 :: us) r' v'.

(** The queue goes on with the object of the head changed. *)
Lemma queue_still_open id q o r (w we : world) :
  remote_objects (_handler w) = id :: q -> remotes (_handler w) !! id = Some o ->
  remotes (_handler we) = <[id := headed r o]> (remotes (_handler w)) -> remote_objects (_handler we) = q ->
  queue_open w -> queue_open we.
Proof.
  intros Hq Ho Er Eq HO. unfold queue_open in *. rewrite Eq. rewrite Hq in HO. inversion HO as [|? ? (o1 & Ho1 & Ht1) HF]; subst.
  rewrite Ho in Ho1. injection Ho1 as <-. eapply Forall_impl; [exact HF|]. intros k (ok & Hok & Htk). rewrite Er.
  destruct (decide (k = id)) as [->|Hne].
  - exists (headed r o). rewrite lookup_insert_eq. split; [done|]. unfold headed. by destruct (is_continue r).
  - exists ok. by rewrite lookup_insert_ne.
Qed.

(** What the head of a response makes of the handler, and what is there when the
    response is over. *)
Lemma response_told r0 u text (r : http_response) (s : codec * world) :
  expecting r0 s -> answered r0 u r ->
  exists w', deliver response_of_message (got_header (Res r)) (decoding_start remote s.2) = Ok w' /\ reception w' /\
    forall c', (exists v out, (v = UNSET \/ v = HTTP11) /\ c' = at_rest v out) ->
      let wb := foldl (fun w d => hand (t_body d) w) w' (a_pieces u) in
      let s' := (c', pop_remote (hand (end_trigger wb) wb)) in
      response_step (u, text) s s' /\ exists r', expecting r' s'.
Proof.
  intros [_ Hcur Hwf HO] A. destruct s as [c w]. cbn [fst snd] in Hcur, HO.
  destruct (remote_objects (_handler w)) as [|id q] eqn:Hq.
  - destruct (stray_delivered r w Hq) as (w' & D & U & V & K). exists w'. split; [exact D|]. split; [by right|].
    intros c' Hc' wb s'. assert (E : s' = (c', w')) by (unfold s', wb; by rewrite (unheard_view _ _ U)). rewrite E.
    split; [|exists r; split; [exact Hc'|exact K|apply A|]].
    + intros ws r' v' H. cbn [fst snd] in *. rewrite Hcur. eapply heard_stray; [exact Hq|exact A|by rewrite <- V, <- K].
    + unfold queue_open. cbn [snd]. rewrite (uh_queue _ U). constructor.
  - pose proof HO as HO'. unfold queue_open in HO'. rewrite Hq in HO'. apply Forall_cons in HO' as [(o & Ho & Ht) _].
    destruct A as [A1 A2].
    destruct (answer_delivered r w _ _ _ id q o Hq Ho Ht A2) as (d & w' & D & HR & HA). exists w'. split; [exact D|].
    split. { left. exists id, q, (headed (set_response_base d r) o). split; [apply HA|apply HA|by rewrite (ha_objects _ _ _ _ _ _ HA), lookup_insert_eq|].
             unfold headed. by destruct (is_continue _). }
    intros c' Hc' wb s'. destruct (answer_ended u _ id q o w w' HA Ht) as [V N]. cbv zeta in V, N. fold wb in V, N.
    split; [|eexists; split; [exact Hc'|reflexivity|destruct N as [g N]; exact (blank_response _ _ N)|]].
    + intros ws r' v' H. cbn [fst snd s'] in *. rewrite V in H. rewrite Hcur. eapply heard_next; [exact Hq|exact Ho| |exact N|exact H]. by split.
    + pose proof (f_equal v_objects V) as V1. pose proof (f_equal v_receiving V) as V2. cbn in V1, V2.
      by eapply (queue_still_open id q o (set_response_base d r) w).
Qed.

Lemma answer_full u text : answer_head u +:+ text <> "".
Proof. intros N. apply (f_equal chars) in N. unfold answer_head in N. by rewrite chars_app, chars_response in N. Qed.

Lemma response_heard u text data beyond n f rest (s : codec * world) :
  answerable u text -> (exists r0, expecting r0 s) ->
  drop n data = chars (answer_head u +:+ text) ++ rest -> fresh n s f ->
  exists s', response_step (u, text) s s' /\ (exists r', expecting r' s') /\
    reaches inside data beyond false f (fresh (n + length (chars (answer_head u +:+ text))) s').
Proof.
  intros [S HT] [r0 HE] Hd F. pose proof S as [Hc HR HB Hl]. pose proof HE as [(v & out & Hv & Es) Hcur Hwf _].
  destruct (answer_heard r0 u v out S Hwf Hv) as (r & c2 & c3 & c4 & Ar & T1 & T2 & T3 & Hrec & Ho & V4).
  destruct (response_told r0 u text r s HE Ar) as (w' & D & Rw & Step).
  destruct s as [c w]. cbn [fst snd] in Es, Hcur, D. subst c.
  set (w1 := decoding_start remote w) in *. set (c1 := set_data_ (Some (Res r0)) (at_rest v out)) in *.
  destruct (status_lift Res response_of_message remote (Some (Res r0)) _ _ _ _ w1 T1) as [L1 [O1 C1]].
  destruct (told_lift Res response_of_message remote (Some (Res r0)) _ _ _ w1 T2) as [L2 [O2 C2]]; [by rewrite C1|].
  assert (Oc : output c4 = output c3 ++ [got_header (Res r)]) by (rewrite Ho, O2, O1; reflexivity).
  pose proof (head_told_lift Res response_of_message remote (Some (Res r0)) _ _ _ _ w1 w' T3 Oc D) as L3.
  pose proof (begins_lift Res response_of_message remote (at_rest v out) w) as B. cbv zeta in B. fold w1 in B.
  change (current_decoded_object (_handler w1)) with (current_decoded_object (_handler w)) in B. rewrite Hcur in B. fold c1 in B.
  assert (Hin : receiving (settings := inside) (c4, w')) by (split; [exact Hrec|exact Rw]).
  rewrite chars_app, <- app_assoc in Hd.
  pose proof (response_head_read inside data beyond (at_rest v out, w) (c1, w1) B (a_code u) (a_reason u) (a_fields u)
    (c2, w1) (c3, w1) (c4, w') n f (chars text ++ rest) Hc HR HB Hl L1 L2 L3 (receiving_ending _ Hin) F Hd) as Q. fold (answer_head u) in Q.
  set (s1 := take_pieces (settings := inside) (a_pieces u) (c4, w')).
  assert (E1 : s1 = (emit (got_body <$> a_pieces u) c4, foldl (fun w d => hand (t_body d) w) w' (a_pieces u)))
    by exact (pieces_split Res response_of_message remote (a_pieces u) c4 w').
  destruct (Step (take_end (settings := inside) s1).1) as [St Ex].
  { rewrite E1. eexists _, _. split; [|cbn; rewrite reset_rest; reflexivity]. right. exact V4. }
  exists (take_end (settings := inside) s1). rewrite E1 in St, Ex. rewrite E1. split; [exact St|]. split; [exact Ex|]. rewrite <- E1.
  eapply reaches_trans; [exact Q|]. intros g G.
  eapply reaches_trans; [eapply body_read; [exact G|rewrite response_fields_body by done; exact HT|by apply response_fields_ok|exact Hin|by apply data_on]|].
  intros h H. apply reaches_refl. rewrite chars_app, length_app, Nat.add_assoc. exact H.
Qed.

Lemma steps_heard us s s' :
  chain response_step us s s' ->
  all_heard (current_decoded_object (_handler s.2)) (view_of s.2) us.*1 (current_decoded_object (_handler s'.2)) (view_of s'.2).
Proof.
  induction 1 as [s|u us s s1 s2 St _ IH]; [constructor|]. by apply St.
Qed.

(** The connection of a client between two responses, [r0] where the next is read
    into. *)
Definition client_ready (r0 : http_response) (s : connection http_response http_request) : Prop :=
  decoder_parser s = http_parser_init HTTP_BOTH /\ expecting r0 (decoder_codec s, conn s).

(** Responses, and the reads that they arrive in. *)
Definition responses_in (us : list (answer * string)) (ls : list (list string)) : Prop :=
  Forall (fun u => answerable u.1 u.2) us /\ mjoin ls = (fun u => answer_head u.1 +:+ u.2) <$> us /\
  Forall (fun l => l <> [] /\ len (concat_str l) < 2 ^ 31) ls.

Lemma responses_fed (r0 : http_response) (us : list (answer * string)) (ls : list (list string)) (s : connection http_response http_request) :
  client_ready r0 s -> responses_in us ls ->
  exists s' r', connection_reads Res response_of_message remote (concat_str <$> ls) s = Some (Ok (true, s')) /\
    client_ready r' s' /\ all_heard r0 (view_of (conn s)) us.*1 r' (view_of (conn s')).
Proof.
  intros [Hp Hr] (HF & Hj & HL).
  destruct (chain_fed inside (fun u : answer * string => answer_head u.1 +:+ u.2) response_step (fun _ s => exists r, expecting r s)
    us ls (decoder_codec s, conn s)) as ([c' w'] & S & (r' & I) & X).
  - eapply Forall_impl; [exact HF|]. intros [u text] Hu. split; [apply answer_full|].
    intros more data beyond n f rest s1 I1 Hd F. by eapply response_heard.
  - exact Hj.
  - eapply Forall_impl; [exact HL|]. by intros l [].
  - by exists r0.
  - rewrite <- Hp in X at 1. apply fed_connection in X.
    + eexists _, r'. split; [exact X|]. split; [by split|]. pose proof (steps_heard _ _ _ S) as H. cbn [fst snd] in H.
      pose proof (ex_current _ _ Hr) as C1. pose proof (ex_current _ _ I) as C2. cbn [snd] in C1, C2. by rewrite C1, C2 in H.
    + apply Forall_fmap. eapply Forall_impl; [exact HL|]. by intros l [].
Qed.

Lemma heard_nil r0 v r' v' : all_heard r0 v [] r' v' -> r' = r0 /\ v' = v.
Proof. by inversion 1. Qed.

(** ** Properties *)

(** C9: Responses sent to a client one after the other, in whatever reads of whole
    responses, reach the transactions in the order of their requests: every
    response takes the object at the front of the queue; a final one gives it the
    head as it was written, the pieces of the body and the end, each posted where
    the user has set the callback; an interim one is told as such; the connection
    stays as long as every response allows it.  A response that nobody waits for
    fails the connection and changes nothing else of what the user sees.  The
    connection is ready for the next read.

    A fresh response has no status before its status line gives it one, and a line
    without a reason does not: whether such a response is an interim one is up to
    what the memory held, so that [all_heard] asks nothing of the status of a
    [blank] object. *)
Theorem responses_delivered (r0 : http_response) (us : list (answer * string)) (ls : list (list string)) (s : connection http_response http_request) :
  client_ready r0 s -> responses_in us ls ->
  exists s' r', connection_reads Res response_of_message remote (concat_str <$> ls) s = Some (Ok (true, s')) /\
    client_ready r' s' /\ all_heard r0 (view_of (conn s)) us.*1 r' (view_of (conn s')).
Proof. apply responses_fed. Qed.

(** C36: A [100 Continue] costs a client the response: with one transaction waiting,
    its user is told of the interim response - and of nothing after it.  The
    interim response takes the object off the queue, so that the final one finds
    none: the connection is failed, and the object, neither told nor ended, stays as
    it was.  Whatever the two responses are, and whatever reads they arrive in. *)
Theorem continue_loses_response (r0 : http_response) (u1 u2 : answer * string) (ls : list (list string))
    (s : connection http_response http_request) (id : nat) (o : remote_object http_response) :
  client_ready r0 s -> remote_objects (_handler (conn s)) = [id] -> remotes (_handler (conn s)) !! id = Some o ->
  responses_in [u1; u2] ls -> a_code u1.1 = 100 -> a_reason u1.1 <> "" ->
  exists s', connection_reads Res response_of_message remote (concat_str <$> ls) s = Some (Ok (true, s')) /\
    posted (conn s') = posted (conn s) ++
      (task_remote id <$> body_tasks (a_pieces u1.1) o ++ run_if (has_continue (cbs o)) run_continue) /\
    events (_handler (conn s')) = events (_handler (conn s)) ++ [connection_failed invalid_read] /\
    remote_objects (_handler (conn s')) = [] /\ remotes (_handler (conn s')) = remotes (_handler (conn s)).
Proof.
  intros Hs Hq Ho Hin Hcode Hreason.
  destruct (responses_fed r0 [u1; u2] ls s Hs Hin) as (s' & r' & H1 & _ & H2).
  exists s'. split; [exact H1|]. cbn [fmap list_fmap] in H2.
  inversion H2 as [|? v u us id' q o' r obj r'' v' E1 E2 [E3 _] _ H3|? v u us r r'' v' E1]; subst; [|cbn in E1; congruence].
  cbn in E1, E2. rewrite Hq in E1. injection E1 as <- <-. rewrite Ho in E2. injection E2 as <-.
  assert (Hi : is_continue r = true).
  { unfold told_status in E3. rewrite decide_False, Hcode in E3 by done. injection E3 as E3 _. cbn. by rewrite E3. }
  inversion H3 as [|? ? ? ? ? ? ? ? ? ? ? E4|? ? ? ? ? ? ? _ _ H4]; subst; [cbn in E4; congruence|]. apply heard_nil in H4 as [_ E5].
  unfold stray, hear, head_tasks, end_tasks, headed in E5. rewrite Hi in E5.
  split; [exact (f_equal v_told E5)|]. split; [exact (f_equal v_events E5)|].
  split; [exact (f_equal v_receiving E5)|]. etransitivity; [exact (f_equal v_objects E5)|]. cbn. by apply insert_id.
Qed.

(** The user of the client asks for an object [rem]. *)
Definition ask (rem : remote_object http_response) (s : connection http_response http_request) : nat * connection http_response http_request :=
  let '((id, _), w) := get_user_handlers rem (conn s) in
  (id, {| decoder_parser := decoder_parser s; decoder_codec := decoder_codec s; conn := w |}).

Lemma ask_ready r0 rem s :
  client_ready r0 s -> terminated rem = false -> remote_objects (_handler (conn s)) = [] -> client_ready r0 (ask rem s).2.
Proof.
  intros [Hp [H1 H2 H3 H4]] Ht Hq. split; [exact Hp|]. split; [exact H1|exact H2|exact H3|].
  unfold queue_open. cbn. rewrite Hq. constructor; [|constructor]. exists rem. by rewrite lookup_insert_eq.
Qed.

(** C37: What nobody waits for is not dropped: the fields of a response that came
    without a request stay in the object of the handler, and the next transaction
    of the connection gets them together with its own response, as if the two had
    been one header block. *)
Theorem stray_response_leaks (r0 : http_response) (u1 u2 : answer * string) (ls1 ls2 : list (list string))
    (s : connection http_response http_request) (rem : remote_object http_response) :
  client_ready r0 s -> remote_objects (_handler (conn s)) = [] -> terminated rem = false ->
  responses_in [u1] ls1 -> responses_in [u2] ls2 -> a_code u2.1 <> 100 -> a_reason u2.1 <> "" ->
  exists s1 s2 o, connection_reads Res response_of_message remote (concat_str <$> ls1) s = Some (Ok (true, s1)) /\
    connection_reads Res response_of_message remote (concat_str <$> ls2) (ask rem s1).2 = Some (Ok (true, s2)) /\
    remotes (_handler (conn s2)) !! (ask rem s1).1 = Some o /\ _status_code (_preamble o) = a_code u2.1 /\
    forall k, k <> hf_connection -> values k (_headers (response_base (_preamble o))) =
      field_values k (values k (_headers (response_base r0))) (a_fields u1.1 ++ a_fields u2.1).
Proof.
  intros Hs Hq Ht Hin1 Hin2 Hcode Hreason.
  destruct (responses_fed r0 [u1] ls1 s Hs Hin1) as (s1 & r1 & H1 & Hs1 & A1).
  inversion A1 as [|? ? ? ? ? ? ? ? ? ? ? E1|? ? ? ? r ? ? _ [_ An] A2]; subst; [cbn in E1; congruence|].
  apply heard_nil in A2 as [-> E2].
  assert (Hq1 : remote_objects (_handler (conn s1)) = []) by (rewrite <- Hq; exact (f_equal v_receiving E2)).
  destruct (responses_fed r [u2] ls2 (ask rem s1).2 (ask_ready r rem s1 Hs1 Ht Hq1) Hin2) as (s2 & r2 & H2 & _ & B1).
  inversion B1 as [|? ? ? ? id q o rr obj ? ? E3 E4 [E5 E6] _ B2|? ? ? ? ? ? ? E3]; subst; [|cbn in E3; by rewrite Hq1 in E3].
  apply heard_nil in B2 as [_ E7]. cbn in E3. rewrite Hq1 in E3. injection E3 as <- <-.
  unfold told_status in E5. rewrite decide_False in E5 by done. injection E5 as E5 _.
  assert (Hi : is_continue rr = false) by (cbn; rewrite E5; by apply Z.eqb_neq).
  exists s1, s2, (Remote.set_preamble rr o). split; [exact H1|]. split; [exact H2|]. split; [|split; [exact E5|]].
  - pose proof (f_equal v_objects E7) as V. unfold hear, headed in V. rewrite Hi in V. cbn [v_objects view_of] in V.
    change (ask rem s1).1 with (next_id (_handler (conn s1))). rewrite V. apply lookup_insert_eq.
  - intros k Hk. cbn [_preamble Remote.set_preamble]. rewrite (hr_fields _ _ _ _ E6 k Hk), (hr_fields _ _ _ _ An k Hk). by rewrite field_values_app.
Qed.
End Client.

(** ** Examples *)

(** The memory of a fresh status holds 100, of all values. *)
#[local] Instance some_garbage : Garbage := fun _ => 100.

(** A client that has asked [n] times. *)
Definition asked (r0 : http_response) (n : nat) : connector (handler (RM := http_response) (LM := http_request)) task :=
  Nat.iter n (fun w => (get_user_handlers (UserObjects.fresh all_callbacks r0) w).2) (new_connector 4 (new_handler r0)).

Definition new_client (r0 : http_response) (n : nat) : connection http_response http_request :=
  {| decoder_parser := http_parser_init HTTP_BOTH; decoder_codec := new_codec; conn := asked r0 n |}.

Lemma asked_ready r0 n : blank r0 -> (n <= 3)%nat -> client_ready r0 (new_client r0 n).
Proof.
  intros [g E] Hn. split; [reflexivity|]. split; [exists UNSET, []; split; [by left|reflexivity]| |exact (blank_response _ _ E)|].
  - cbn. induction n; [reflexivity|]. apply IHn. lia.
  - destruct n as [|[|[|[|n]]]]; [..|lia]; repeat (constructor; [eexists; split; reflexivity|]); constructor.
Qed.

Ltac whole_reads := repeat constructor; first [discriminate|by vm_compute].

Lemma responses_delivered_witness :
  exists r0 s' r', new_response 0 = Ok r0 /\
    connection_reads Res response_of_message (UserObjects.fresh all_callbacks r0)
        (concat_str <$> example_reads (fun u => answer_head u.1 +:+ u.2) example_answers) (new_client r0 2) = Some (Ok (true, s')) /\
    all_heard r0 (view_of (conn (new_client r0 2))) example_answers.*1 r' (view_of (conn s')).
Proof.
  destruct (new_response 0) as [r0|] eqn:E; [|by vm_compute in E].
  destruct (responses_delivered (UserObjects.fresh all_callbacks r0) r0 example_answers
    (example_reads (fun u => answer_head u.1 +:+ u.2) example_answers) (new_client r0 2)) as (s' & r' & H1 & _ & H2).
  - apply asked_ready; [by eexists|lia].
  - split; [exact example_answerable|]. split; [reflexivity|whole_reads].
  - exists r0, s', r'. split; [reflexivity|]. split; [exact H1|exact H2].
Defined.

Definition go_on : answer * string := ({| a_code := 100; a_reason := "Continue"; a_fields := []; a_pieces := [] |}, "").
Definition final : answer * string :=
  ({| a_code := 200; a_reason := "OK"; a_fields := [("Content-Length", "3")]; a_pieces := ["abc"] |}, "abc").

(** In one read. *)
Definition interim_then_final : string :=
  "HTTP/1.1 100 Continue" +:+ crlf +:+ crlf +:+ "HTTP/1.1 200 OK" +:+ crlf +:+ "Content-Length: 3" +:+ crlf +:+ crlf +:+ "abc".


Lemma go_on_answerable : answerable go_on.1 go_on.2.
Proof. split; [|exact text_none]. split; [by cbn; lia|a_reason_line|split; [constructor| |]|]; computed. Qed.

Lemma final_answerable : answerable final.1 final.2.
Proof.
  assert (B : response_framing 200 [("Content-Length", "3")] = of_length (len "abc")) by by vm_compute.
  split; [split; [by cbn; lia|a_reason_line|split; [readable_fields| |]|]|cbn [a_code a_fields a_pieces final fst snd]; rewrite B; by apply text_length]; computed.
Qed.

Lemma continue_loses_response_witness :
  exists r0 s', connection_reads Res response_of_message (UserObjects.fresh all_callbacks r0)
      [interim_then_final] (new_client r0 1) = Some (Ok (true, s')) /\
    posted (conn s') = [task_remote 0 run_continue] /\ events (_handler (conn s')) = [connection_failed invalid_read].
Proof.
  destruct (new_response 0) as [r0|] eqn:E; [|by vm_compute in E].
  destruct (continue_loses_response (UserObjects.fresh all_callbacks r0) r0 go_on final
    [[answer_head go_on.1 +:+ go_on.2; answer_head final.1 +:+ final.2]] (new_client r0 1) 0 (UserObjects.fresh all_callbacks r0))
    as (s' & H1 & H2 & H3 & _).
  - apply asked_ready; [by eexists|lia].
  - reflexivity.
  - reflexivity.
  - split; [|split; [reflexivity|whole_reads]].
    apply Forall_cons; split; [exact go_on_answerable|]. apply Forall_cons; split; [exact final_answerable|]. apply Forall_nil; exact I.
  - reflexivity.
  - discriminate.
  - exists r0, s'. split; [exact H1|]. split; [exact H2|exact H3].
Defined.

(** A stray response with a cookie. *)
Definition cookie : answer * string :=
  ({| a_code := 204; a_reason := "No"; a_fields := [("set-cookie", "id=1")]; a_pieces := [] |}, "").

Lemma stray_response_leaks_witness :
  exists r0 s1 s2 o, connection_reads Res response_of_message (UserObjects.fresh all_callbacks r0)
      [answer_head cookie.1] (new_client r0 0) = Some (Ok (true, s1)) /\
    connection_reads Res response_of_message (UserObjects.fresh all_callbacks r0)
      [answer_head final.1 +:+ "abc"] (ask (UserObjects.fresh all_callbacks r0) s1).2 = Some (Ok (true, s2)) /\
    remotes (_handler (conn s2)) !! (ask (UserObjects.fresh all_callbacks r0) s1).1 = Some o /\
    values "set-cookie" (_headers (response_base (_preamble o))) = ["id=1"].
Proof.
  destruct (new_response 0) as [r0|] eqn:E; [|by vm_compute in E].
  destruct (stray_response_leaks (UserObjects.fresh all_callbacks r0) r0 cookie final
    [[answer_head cookie.1 +:+ cookie.2]] [[answer_head final.1 +:+ final.2]] (new_client r0 0) (UserObjects.fresh all_callbacks r0))
    as (s1 & s2 & o & H1 & H2 & H3 & _ & H4).
  - apply asked_ready; [by eexists|lia].
  - reflexivity.
  - reflexivity.
  - split; [|split; [reflexivity|whole_reads]]. apply Forall_cons; split; [|apply Forall_nil; exact I].
    split; [split; [by cbn; lia|a_reason_line|split; [readable_fields| |]|]|exact text_none]; computed.
  - split; [|split; [reflexivity|whole_reads]]. apply Forall_cons; split; [exact final_answerable|apply Forall_nil; exact I].
  - discriminate.
  - discriminate.
  - assert (K : values "set-cookie" (_headers (response_base r0)) = []) by (vm_compute in E; injection E as <-; reflexivity).
    exists r0, s1, s2, o. split; [exact H1|]. split; [exact H2|]. split; [exact H3|].
    specialize (H4 "set-cookie" ltac:(discriminate)). rewrite K in H4. exact H4.
Defined.
