(* ===== verification/Http1Writing.v ===== *)
(** * Messages from the user's objects to the socket

    The other direction of src/src/protocol/handler_http1.h: what users write on
    the local objects of a connection, one whole message after the other and in any
    order of the objects, leaves in the order of the queue, each message whole; for
    the responses of a server and the requests of a client. *)

From S2P Require Import Prelude CppStd HttpCommons StructuredData HttpMessages Errors UserObjects Encoder Connector HandlerHttp1 HttpRoundTrip.

Section Writing.
Context {RM LM : Type} `{Traits RM LM} `{!TraitsLaws (RM := RM) (LM := LM)}.
(** A client's objects can only be polled while they ask for no interim response. *)
Class PlainPolls : Prop := plain_polls (o : local_object LM) : continue_required o = false -> pollable o.
Context `{!PlainPolls}.
Abbreviation world := (connector (handler (RM := RM) (LM := LM)) task).
Implicit Types (w : world) (o : local_object LM).

(** ** What has been written *)

(** The bytes that were handed to the socket and those that wait for it. *)
Definition outgoing w : string := concat_str (writes w) +:+ serialization (_handler w).

(** One write at a time. *)
Definition steady w : Prop := _writing w = bool_decide (is_Some (in_flight w)).

Lemma steady_accounted w : steady w -> exists q, accounted w (outgoing w) q.
Proof.
  intros S. exists (((fun t => (t, t)) <$> posted w) ++ default [] (in_flight w) ++ pending (_handler w)).
  split; [reflexivity|exact S|]. exists ((fun t => ((t, t), true)) <$> posted w). rewrite <- !list_fmap_compose. cbn.
  split; [symmetry; apply list_fmap_id|done].
Qed.

Lemma accounted_steady w p q : accounted w p q -> steady w /\ outgoing w = p.
Proof. by intros [A1 A2 _]. Qed.

(** [s] has been written; the queue is [ids], the objects but those of [touched] are
    as they were. *)
Record moved (ids : list nat) (e : encoder) (s : string) (touched : list nat) w w' : Prop := {
  mv_queue : local_objects (_handler w') = ids;
  mv_encoder : encoder_ (_handler w') = e;
  mv_outgoing : outgoing w' = outgoing w +:+ s;
  mv_steady : steady w';
  mv_locals : forall k, k ∉ touched -> locals (_handler w') !! k = locals (_handler w) !! k }.

Lemma moved_trans ids ids' e e' s s' ts ts' w w1 w2 :
  moved ids e s ts w w1 -> moved ids' e' s' ts' w1 w2 -> moved ids' e' (s +:+ s') (ts ++ ts') w w2.
Proof.
  intros [A1 A2 A3 A4 A5] [B1 B2 B3 B4 B5]. split; [done|done|by rewrite B3, A3, string_app_assoc|done|].
  intros k Hk. rewrite B5, A5; [done|set_solver..].
Qed.

Lemma moved_put id o ids w :
  steady w -> local_objects (_handler w) = ids -> moved ids (encoder_ (_handler w)) "" [id] w (put_local id o w).
Proof.
  intros S Q. split; [done|done|by rewrite string_app_nil_r|done|]. intros k Hk. cbn. rewrite lookup_insert_ne; [done|]. intros ->. apply Hk. by left.
Qed.

Lemma accounted_moved ids e s w w' ts :
  steady w -> (forall p q, accounted w p q -> exists q', accounted w' (p +:+ s) q') ->
  local_objects (_handler w') = ids -> encoder_ (_handler w') = e ->
  (forall k, k ∉ ts -> locals (_handler w') !! k = locals (_handler w) !! k) -> moved ids e s ts w w'.
Proof.
  intros S A Q E L. destruct (steady_accounted w S) as [q A0]. destruct (A _ _ A0) as [q' A1].
  apply accounted_steady in A1 as [S' O]. by split.
Qed.

(** ** An object and its pieces *)

(** Nothing is buffered. *)
Definition idle o : Prop := Local.buffered o = [].

Lemma idle_fields o :
  idle o <-> continue_required o = false /\ message o = None /\ content o = "" /\ trailers o = [] /\ ended o = false.
Proof.
  unfold idle, Local.buffered. split.
  - destruct (continue_required o), (message o), (empty (content o)) eqn:E, (trailers o), (ended o); try done.
    intros _. apply bool_decide_eq_true in E. done.
  - by intros (-> & -> & -> & -> & ->).
Qed.

Definition full_pieces (ds : list string) : list string := filter (fun d => d <> "") ds.

(** A whole message is buffered. *)
Definition full (m : LM) (d : string) o : Prop :=
  continue_required o = false /\ message o = Some m /\ content o = d /\ trailers o = [] /\ ended o = true.

Lemma full_buffered m d o :
  full m d o -> Local.buffered o = Local.piece_headers m :: (Local.piece_body <$> full_pieces [d]) ++ [Local.piece_end].
Proof.
  intros (E1 & E2 & E3 & E4 & E5). unfold Local.buffered, full_pieces. rewrite E1, E2, E3, E4, E5. cbn [fmap list_fmap app].
  unfold empty. destruct (decide (d = "")) as [->|Hd]; [done|]. rewrite bool_decide_eq_false_2, filter_cons_True by done. done.
Qed.

(** What the encoder makes of it is a message. *)
Lemma encode_pieces_bodies ds e s e' :
  encode_bodies ds e = Ok (s, e') -> forall z e'', encode_eom e' = Ok (z, e'') ->
  encode_pieces (LM := LM) ((Local.piece_body <$> ds) ++ [Local.piece_end]) e = Ok (s +:+ z, true, e'').
Proof.
  revert e s. induction ds as [|d ds IH]; intros e s Eb z e'' Ez.
  { injection Eb as <- <-. cbn. by rewrite Ez. }
  cbn [encode_bodies] in Eb. apply bind_Ok_inv in Eb as ([s1 e1] & E1 & Eb). apply bind_Ok_inv in Eb as ([s2 e2] & E2 & [= <- <-]).
  cbn [fmap list_fmap app encode_pieces]. rewrite E1. cbn [mbind outcome_bind]. rewrite (IH _ _ E2 z e'' Ez). cbn. by rewrite string_app_assoc.
Qed.

Lemma message_parts (m : LM) ds e s e' :
  encode_message (H := local_message) m ds [] e = Ok (s, e') ->
  exists h e1 b e2 z, @encode_header LM local_message m e = Ok (h, e1) /\ encode_bodies ds e1 = Ok (b, e2) /\
    encode_eom e2 = Ok (z, e') /\ s = h +:+ b +:+ z.
Proof.
  unfold encode_message. intros E. apply bind_Ok_inv in E as ([h e1] & E1 & E). apply bind_Ok_inv in E as ([b e2] & E2 & E).
  cbn [encode_trailers mbind outcome_bind mret outcome_ret] in E. apply bind_Ok_inv in E as ([z e3] & E3 & [= <- <-]).
  by exists h, e1, b, e2, z.
Qed.

Lemma encode_full m d o e s e' :
  full m d o -> encode_message (H := local_message) m (full_pieces [d]) [] e = Ok (s, e') ->
  encode_pieces (Local.buffered o) e = Ok (s, true, e').
Proof.
  intros F E. destruct (message_parts _ _ _ _ _ E) as (h & e1 & b & e2 & z & E1 & E2 & E3 & ->).
  rewrite (full_buffered _ _ _ F). cbn [encode_pieces]. rewrite E1. cbn [mbind outcome_bind].
  by rewrite (encode_pieces_bodies _ _ _ _ E2 _ _ E3).
Qed.

(** ** Polls *)

Lemma idle_pollable o : idle o -> pollable o.
Proof. intros [E _]%idle_fields. by apply plain_polls. Qed.

Lemma fuel_there id w o : locals (_handler w) !! id = Some o -> poll_fuel id w = S (length (Local.buffered o)).
Proof. intros E. unfold poll_fuel. by rewrite E. Qed.

Lemma put_local_same id o w : locals (_handler w) !! id = Some o -> locals (_handler (put_local id o w)) = locals (_handler w).
Proof. intros E. cbn. by apply insert_id. Qed.

(** The front has nothing to give: nothing happens. *)
Lemma front_idle id rest o w :
  local_objects (_handler w) = id :: rest -> locals (_handler w) !! id = Some o -> idle o -> steady w ->
  exists w', notify_loop (id :: rest) w = Ok w' /\ moved (id :: rest) (encoder_ (_handler w)) "" [] w w'.
Proof.
  intros Q E I S. exists (put_local id o w). cbn [notify_loop]. rewrite E, (fuel_there _ _ _ E).
  rewrite (poll_local_step _ _ _ _ E (idle_pollable _ I)), I. split; [reflexivity|].
  split; [exact Q|done|by rewrite string_app_nil_r|exact S|]. intros k _. by rewrite (put_local_same _ _ _ E).
Qed.

(** The front has one piece, which does not end it. *)
Lemma front_piece id rest o p w s e :
  local_objects (_handler w) = id :: rest -> locals (_handler w) !! id = Some o -> continue_required o = false ->
  Local.buffered o = [p] -> p <> Local.piece_end -> encode_piece p (encoder_ (_handler w)) = Ok (s, e) -> steady w ->
  exists w', notify_loop (id :: rest) w = Ok w' /\ moved (id :: rest) e s [id] w w' /\ exists o', locals (_handler w') !! id = Some o' /\ idle o'.
Proof.
  intros Q E C B Hp Ep S. set (o1 := Local.after_piece p o).
  assert (I1 : idle o1) by (by eapply Local.buffered_after).
  assert (Hc : p <> Local.piece_continue).
  { intros ->. unfold Local.buffered in B. rewrite C in B. by destruct (message o), (empty (content o)), (trailers o), (ended o). }
  set (w0 := put_local id o1 w). pose proof (notify_piece_spec p w0) as N.
  change (encoder_ (_handler w0)) with (encoder_ (_handler w)) in N. rewrite Ep in N. destruct N as (w1 & N1 & N2 & N3 & N4).
  destruct (objects_fields _ _ N2) as [Q1 L1]. change (local_objects (_handler w0)) with (local_objects (_handler w)) in Q1.
  assert (E1 : locals (_handler w1) !! id = Some o1) by (rewrite L1; cbn; apply lookup_insert_eq).
  exists (put_local id o1 w1). cbn [notify_loop]. rewrite E, (fuel_there _ _ _ E), B.
  rewrite (poll_local_step _ _ _ _ E (plain_polls _ C)), B. cbv zeta. fold o1 w0. split; [|split].
  - destruct p; try done; rewrite N1; cbn [mbind outcome_bind length];
      rewrite (poll_local_step _ _ _ _ E1 (idle_pollable _ I1)), I1; reflexivity.
  - apply accounted_moved; [exact S| |cbn; by rewrite Q1|exact N3|].
    + intros x q A. exists q. apply accounted_put, N4, accounted_put, A.
    + intros k Hk. rewrite (put_local_same _ _ _ E1), L1. cbn. rewrite lookup_insert_ne; [done|]. intros ->. apply Hk. by left.
  - exists o1. split; [|exact I1]. rewrite (put_local_same _ _ _ E1). exact E1.
Qed.

(** The front is done with what it has. *)
Lemma front_done id rest o w s e :
  local_objects (_handler w) = id :: rest -> locals (_handler w) !! id = Some o -> continue_required o = false ->
  encode_pieces (Local.buffered o) (encoder_ (_handler w)) = Ok (s, true, e) -> steady w ->
  exists w', notify_loop (id :: rest) w = notify_loop rest w' /\ moved rest e s [id] w w'.
Proof.
  intros Q E C Ep St. pose proof (poll_local_spec (S (length (Local.buffered o))) id w o E (plain_polls _ C) ltac:(lia)) as P.
  rewrite Ep in P. destruct P as (w1 & P1 & P2 & P3 & (o' & _ & P4) & P5).
  cbn [notify_loop]. rewrite E, (fuel_there _ _ _ E), P1. cbn [mbind outcome_bind]. eexists. split; [reflexivity|].
  apply accounted_moved; [exact St| |cbn; by rewrite P2, Q|exact P3|].
  - intros x q A. eexists. apply accounted_on_handler; [done|done|]. exact (P5 _ _ A).
  - intros k Hk. cbn. rewrite P4, lookup_insert_ne; [done|]. intros ->. apply Hk. by left.
Qed.

(** ** Messages that wait for the front *)

(** Messages that the encoder takes. *)
Definition writable (m : LM) : Prop := is_Some (match @msg_serialize LM local_message m with Ok s => Some s | Crash _ => None end).

Lemma message_encoded m ds e :
  writable m -> enc_state e = ZERO -> exists s e', encode_message (H := local_message) m ds [] e = Ok (s, e') /\ enc_state e' = ZERO.
Proof.
  intros [h Hh] He. destruct (@msg_serialize LM local_message m) as [h'|] eqn:E; [|done].
  destruct (@encode_message_ok LM local_message m h' ds [] e E He ltac:(done)) as (e' & E' & Z). by eexists _, e'.
Qed.

(** The whole messages at the front go out, as far as the first object that has
    nothing. *)
Lemma flush (l : list (nat * (LM * string))) rest w :
  local_objects (_handler w) = l.*1 ++ rest -> NoDup (l.*1 ++ rest) ->
  Forall (fun x => writable x.2.1 /\ exists o, locals (_handler w) !! x.1 = Some o /\ full x.2.1 x.2.2 o) l ->
  match rest with [] => True | id :: _ => exists o, locals (_handler w) !! id = Some o /\ idle o end ->
  enc_state (encoder_ (_handler w)) = ZERO -> steady w ->
  exists w' texts e', notify_loop (l.*1 ++ rest) w = Ok w' /\ @encode_messages LM local_message ((fun x => (x.2.1, full_pieces [x.2.2])) <$> l) (encoder_ (_handler w)) = Ok (texts, e') /\ enc_state e' = ZERO /\ moved rest e' (concat_str texts) l.*1 w w'.
Proof.
  revert w. induction l as [|[id [m d]] l IH]; intros w Q ND HF HR Z S.
  { cbn [fmap list_fmap app] in *. destruct rest as [|id rest].
    - exists w, [], (encoder_ (_handler w)). split; [done|]. split; [done|]. split; [done|]. split; try done. by rewrite string_app_nil_r.
    - destruct HR as (o & Ho & I). destruct (front_idle id rest o w Q Ho I S) as (w' & E & M).
      exists w', [], (encoder_ (_handler w)). done. }
  apply Forall_cons in HF as [(Hw & o & Ho & F) HF]. cbn [fst snd fmap list_fmap app] in *. apply NoDup_cons in ND as [Hid ND].
  destruct (message_encoded m (full_pieces [d]) _ Hw Z) as (s & e1 & Es & Z1).
  destruct (front_done id _ o w s e1 Q Ho (proj1 F) (encode_full _ _ _ _ _ _ F Es) S) as (w1 & E1 & M1).
  assert (K : forall k, k ∈ l.*1 ++ rest -> locals (_handler w1) !! k = locals (_handler w) !! k).
  { intros k Hk. apply (mv_locals _ _ _ _ _ _ M1). intros ->%list_elem_of_singleton. by apply Hid. }
  destruct (IH w1) as (w' & texts & e' & E2 & Em & Z2 & M2).
  - apply M1.
  - exact ND.
  - rewrite Forall_forall in HF |- *. intros x Hx. destruct (HF x Hx) as (Hwx & ox & Hox & Fx). split; [exact Hwx|]. exists ox.
    rewrite K; [done|]. apply elem_of_app. left. apply list_elem_of_fmap. by exists x.
  - destruct rest as [|i rest]; [done|]. destruct HR as (oi & Hoi & I). exists oi. rewrite K; [done|set_solver].
  - by rewrite (mv_encoder _ _ _ _ _ _ M1).
  - apply M1.
  - rewrite (mv_encoder _ _ _ _ _ _ M1) in Em. exists w', (s :: texts), e'. rewrite E1. split; [exact E2|]. split; [|split; [exact Z2|]].
    + cbn [encode_messages]. rewrite Es. cbn [mbind outcome_bind]. by rewrite Em.
    + exact (moved_trans _ _ _ _ _ _ _ _ _ _ _ M1 M2).
Qed.

(** ** The calls of the user *)

(** The end of a message: on a client at once, on a server by the task that
    [end()] posts, which runs here before anything else is written. *)
Definition end_message (id : nat) w : outcome world :=
  w ← user_call id c_end w;
  if is_server then run_task (task_end id) w else mret w.

Fixpoint write_bodies (id : nat) (ds : list string) w : outcome world :=
  match ds with [] => mret w | d :: ds => w ← user_call id (c_body d) w; write_bodies id ds w end.

Definition write_message (id : nat) (m : LM) (ds : list string) w : outcome world :=
  w ← user_call id (c_headers m) w;
  w ← write_bodies id ds w;
  end_message id w.

Lemma call_notifies id c o w :
  locals (_handler w) !! id = Some o -> c <> c_end -> user_call id c w = notify_local_content (put_local id (write_call c o) w).
Proof. intros E Hc. unfold user_call. rewrite E. by destruct c. Qed.

(** What the end comes to: the object keeps itself alive, or not. *)
Lemma end_notifies id o w :
  locals (_handler w) !! id = Some o ->
  exists w0 b, _handler w0 = _handler w /\ writes w0 = writes w /\ _writing w0 = _writing w /\ in_flight w0 = in_flight w /\
    end_message id w = (w ← notify_local_content (put_local id (Local.finish o) w0);
                        mret (call_local id (fun o => ([], Local.set_myself (b o) o)) w)).
Proof.
  intros E. unfold end_message, user_call. rewrite E. cbn [of_option mbind outcome_bind]. destruct is_server.
  - exists (post [task_end id] w), (fun o => negb (ended o)). do 4 (split; [done|]).
    cbn [mret outcome_ret mbind outcome_bind run_task]. change (_handler (post [task_end id] w)) with (_handler w). by rewrite E.
  - exists w, (fun _ => true). do 4 (split; [done|]). by destruct (notify_local_content _).
Qed.

(** After the notification. *)
Lemma moved_kept id f ids e s ts w w' :
  moved ids e s ts w w' -> id ∈ ts -> moved ids e s ts w (call_local id (fun o => ([], f o)) w').
Proof.
  intros [M1 M2 M3 M4 M5] Hid. unfold call_local. destruct (locals (_handler w') !! id) as [o|] eqn:E; [|done].
  split; [done|done|exact M3|exact M4|]. intros k Hk. cbn. rewrite lookup_insert_ne; [by apply M5|by intros ->].
Qed.

(** *** Behind the front: the calls are kept *)

(** The front has nothing to give, and [id] is not the front. *)
Definition behind (id : nat) w : Prop :=
  match local_objects (_handler w) with
  | [] => False
  | k :: _ => k <> id /\ exists o, locals (_handler w) !! k = Some o /\ idle o
  end.

Lemma behind_notified id o w :
  behind id w -> steady w ->
  exists w', notify_local_content (put_local id o w) = Ok w' /\
    moved (local_objects (_handler w)) (encoder_ (_handler w)) "" [id] w w' /\ locals (_handler w') !! id = Some o.
Proof.
  intros B S. unfold behind in B. destruct (local_objects (_handler w)) as [|k rest] eqn:Q; [done|]. destruct B as (Hk & ok & Hok & I).
  set (w0 := put_local id o w). assert (Hk0 : locals (_handler w0) !! k = Some ok) by (cbn; by rewrite lookup_insert_ne).
  destruct (front_idle k rest ok w0 Q Hk0 I S) as (w' & E & M). unfold notify_local_content.
  change (local_objects (_handler w0)) with (local_objects (_handler w)). rewrite Q. exists w'. split; [exact E|].
  split; [exact (moved_trans _ _ _ _ _ _ _ _ _ _ _ (moved_put id o _ w S Q) M)|].
  rewrite (mv_locals _ _ _ _ _ _ M) by set_solver. cbn. apply lookup_insert_eq.
Qed.

Lemma behind_moved id ids e s w w' :
  behind id w -> moved ids e s [id] w w' -> ids = local_objects (_handler w) -> behind id w'.
Proof.
  intros B M ->. unfold behind in *. rewrite (mv_queue _ _ _ _ _ _ M).
  destruct (local_objects (_handler w)) as [|k rest]; [done|]. destruct B as (Hk & o & Ho & I). split; [exact Hk|]. exists o.
  by rewrite (mv_locals _ _ _ _ _ _ M) by (by intros ?%list_elem_of_singleton).
Qed.

(** Nothing comes of calls behind the front but their record. *)
Definition kept (id : nat) (o' : local_object LM) w w' : Prop :=
  moved (local_objects (_handler w)) (encoder_ (_handler w)) "" [id] w w' /\ locals (_handler w') !! id = Some o'.

Lemma kept_trans id o1 o2 w w1 w2 : kept id o1 w w1 -> kept id o2 w1 w2 -> kept id o2 w w2.
Proof.
  intros [M1 _] [M2 L2]. split; [|exact L2]. rewrite (mv_queue _ _ _ _ _ _ M1), (mv_encoder _ _ _ _ _ _ M1) in M2.
  destruct (moved_trans _ _ _ _ _ _ _ _ _ _ _ M1 M2) as [T1 T2 T3 T4 T5]. split; try done. intros k Hk. apply T5.
  by intros [?|?]%elem_of_app.
Qed.

Lemma behind_call id c o w :
  behind id w -> steady w -> locals (_handler w) !! id = Some o -> c <> c_end ->
  exists w', user_call id c w = Ok w' /\ kept id (write_call c o) w w' /\ behind id w' /\ steady w'.
Proof.
  intros B S E Hc. destruct (behind_notified id (write_call c o) w B S) as (w' & E' & M & L).
  exists w'. rewrite (call_notifies id c o) by done. split; [exact E'|]. split; [by split|].
  split; [by eapply behind_moved|apply M].
Qed.

Lemma behind_bodies id ds o w :
  behind id w -> steady w -> locals (_handler w) !! id = Some o ->
  exists w' o', write_bodies id ds w = Ok w' /\ kept id o' w w' /\ behind id w' /\ steady w' /\
    o' = foldl (fun o d => Local.body d o) o ds.
Proof.
  revert o w. induction ds as [|d ds IH]; intros o w B S E; cbn [write_bodies foldl].
  { exists w, o. split; [done|]. split; [|done]. split; [|exact E]. split; try done. by rewrite string_app_nil_r. }
  destruct (behind_call id (c_body d) o w B S E ltac:(done)) as (w1 & E1 & K1 & B1 & S1). rewrite E1. cbn [mbind outcome_bind].
  destruct (IH (Local.body d o) w1 B1 S1 (proj2 K1)) as (w' & o' & E2 & K2 & B2 & S2 & Eo).
  exists w', o'. split; [exact E2|]. split; [by eapply kept_trans|done].
Qed.

Lemma bodies_joined ds o :
  let o' := foldl (fun o d => Local.body d o) o ds in
  continue_required o' = continue_required o /\ UserObjects.message o' = UserObjects.message o /\
  content o' = content o +:+ concat_str ds /\ trailers o' = trailers o /\ ended o' = ended o.
Proof.
  revert o. induction ds as [|d ds IH]; intros o; cbn [foldl concat_str]; [by rewrite string_app_nil_r|].
  destruct (IH (Local.body d o)) as (-> & -> & -> & -> & ->). cbn. by rewrite string_app_assoc.
Qed.

Lemma behind_written id m ds o w :
  behind id w -> steady w -> locals (_handler w) !! id = Some o -> idle o ->
  exists w' o', write_message id m ds w = Ok w' /\ kept id o' w w' /\ full m (concat_str ds) o'.
Proof.
  intros B S E (I1 & I2 & I3 & I4 & I5)%idle_fields. unfold write_message.
  destruct (behind_call id (c_headers m) o w B S E ltac:(done)) as (w1 & E1 & K1 & B1 & S1). rewrite E1. cbn [mbind outcome_bind].
  destruct (behind_bodies id ds _ w1 B1 S1 (proj2 K1)) as (w2 & o2 & E2 & K2 & B2 & S2 & Eo). rewrite E2. cbn [mbind outcome_bind].
  destruct (bodies_joined ds (write_call (c_headers m) o)) as (F1 & F2 & F3 & F4 & F5). rewrite <- Eo in F1, F2, F3, F4, F5.
  destruct (end_notifies id o2 w2 (proj2 K2)) as (w3 & b & H1 & H2 & H3 & H4 & E3).
  assert (B3 : behind id w3) by (unfold behind; by rewrite H1). assert (S3 : steady w3) by (unfold steady; by rewrite H3, H4).
  destruct (behind_notified id (Local.finish o2) w3 B3 S3) as (w4 & E4 & M4 & L4). rewrite E4 in E3. cbn [mbind outcome_bind mret outcome_ret] in E3.
  rewrite E3. eexists _, _. split; [reflexivity|]. split; [eapply kept_trans; [exact K1|eapply kept_trans; [exact K2|]]|].
  - split.
    + apply moved_kept; [|set_solver]. destruct M4 as [A1 A2 A3 A4 A5].
      split; [by rewrite A1, H1|by rewrite A2, H1|by rewrite A3; unfold outgoing; rewrite H1, H2|done|]. intros k Hk. by rewrite A5, H1.
    + unfold call_local. rewrite L4. cbn. apply lookup_insert_eq.
  - split; [|split; [|split; [|split]]]; cbn; [by rewrite F1|by rewrite F2|by rewrite F3; cbn; rewrite I3|by rewrite F4|done].
Qed.

(** *** At the front: the calls are written *)
Lemma front_call id rest c o p w s e :
  local_objects (_handler w) = id :: rest -> locals (_handler w) !! id = Some o -> c <> c_end ->
  continue_required (write_call c o) = false -> Local.buffered (write_call c o) = [p] -> p <> Local.piece_end ->
  encode_piece p (encoder_ (_handler w)) = Ok (s, e) -> steady w ->
  exists w' o', user_call id c w = Ok w' /\ moved (id :: rest) e s [id] w w' /\ locals (_handler w') !! id = Some o' /\ idle o'.
Proof.
  intros Q E Hc C B Hp Ep S. set (w0 := put_local id (write_call c o) w).
  assert (E0 : locals (_handler w0) !! id = Some (write_call c o)) by apply lookup_insert_eq.
  destruct (front_piece id rest _ p w0 s e Q E0 C B Hp Ep S) as (w' & E1 & M & o' & L & I).
  exists w', o'. rewrite (call_notifies id c o) by done. unfold notify_local_content. fold w0.
  change (local_objects (_handler w0)) with (local_objects (_handler w)). rewrite Q. split; [exact E1|]. split; [|done].
  destruct (moved_trans _ _ _ _ _ _ _ _ _ _ _ (moved_put id (write_call c o) _ w S Q) M) as [T1 T2 T3 T4 T5].
  split; [exact T1|exact T2|exact T3|exact T4|]. intros k Hk. apply T5. by intros [?|?]%elem_of_app.
Qed.

Lemma front_body id rest d o w s e :
  local_objects (_handler w) = id :: rest -> locals (_handler w) !! id = Some o -> idle o -> steady w ->
  encode_bodies (full_pieces [d]) (encoder_ (_handler w)) = Ok (s, e) ->
  exists w' o', user_call id (c_body d) w = Ok w' /\ moved (id :: rest) e s [id] w w' /\ locals (_handler w') !! id = Some o' /\ idle o'.
Proof.
  intros Q E I S Ep. pose proof I as (I1 & I2 & I3 & I4 & I5)%idle_fields. unfold full_pieces in Ep.
  assert (Ec : content (write_call (c_body d) o) = d) by (cbn; by rewrite I3).
  destruct (decide (d = "")) as [->|Hd].
  - injection Ep as <- <-. set (o0 := write_call (c_body "") o). set (w0 := put_local id o0 w).
    assert (I0 : idle o0) by (apply idle_fields; split_and!; [done|done|exact Ec|done|done]).
    assert (E0 : locals (_handler w0) !! id = Some o0) by apply lookup_insert_eq.
    destruct (front_idle id rest o0 w0 Q E0 I0 S) as (w' & E1 & M). exists w', o0.
    rewrite (call_notifies id _ o) by done. unfold notify_local_content. fold o0 w0.
    change (local_objects (_handler w0)) with (local_objects (_handler w)). rewrite Q. split; [exact E1|].
    split; [exact (moved_trans _ _ _ _ _ _ _ _ _ _ _ (moved_put id o0 _ w S Q) M)|].
    split; [by rewrite (mv_locals _ _ _ _ _ _ M) by apply not_elem_of_nil|exact I0].
  - rewrite filter_cons_True in Ep by done. cbn [filter list_filter encode_bodies] in Ep.
    apply bind_Ok_inv in Ep as ([s1 e1] & Ep & [= <- <-]). rewrite string_app_nil_r.
    apply (front_call id rest (c_body d) o (Local.piece_body d)); [done|done|done|exact I1| |done|exact Ep|exact S].
    unfold Local.buffered. rewrite Ec. cbn [write_call Local.body continue_required UserObjects.message trailers ended Local.set_buffers].
    rewrite I1, I2, I4, I5. unfold empty. by rewrite bool_decide_eq_false_2.
Qed.

Lemma encode_bodies_app d ds e :
  encode_bodies (full_pieces (d :: ds)) e =
    '(s, e) ← encode_bodies (full_pieces [d]) e; '(t, e) ← encode_bodies (full_pieces ds) e; mret (s +:+ t, e).
Proof.
  unfold full_pieces. destruct (decide (d = "")) as [->|Hd].
  - assert (F : forall l : list string, filter (fun d => d <> "") ("" :: l) = filter (fun d => d <> "") l)
      by (intros l; rewrite filter_cons_False; [done|tauto]).
    rewrite !F. change (encode_bodies (filter (fun d : string => d <> "") []) e) with (Ok ("", e)). cbn [mbind outcome_bind].
    destruct (encode_bodies _ e) as [[s e']|]; done.
  - assert (F : forall l : list string, filter (fun d => d <> "") (d :: l) = d :: filter (fun d => d <> "") l)
      by (intros l; by rewrite filter_cons_True).
    rewrite !F. cbn. destruct (encode_body d e) as [[s e1]|]; [|done]. cbn.
    rewrite string_app_nil_r. done.
Qed.

Lemma front_bodies id rest ds o w s e :
  local_objects (_handler w) = id :: rest -> locals (_handler w) !! id = Some o -> idle o -> steady w ->
  encode_bodies (full_pieces ds) (encoder_ (_handler w)) = Ok (s, e) ->
  exists w' o', write_bodies id ds w = Ok w' /\ moved (id :: rest) e s [id] w w' /\ locals (_handler w') !! id = Some o' /\ idle o'.
Proof.
  revert o w s. induction ds as [|d ds IH]; intros o w s Q E I S Ep; cbn [write_bodies].
  { injection Ep as <- <-. exists w, o. split; [done|]. split; [|done]. split; try done. by rewrite string_app_nil_r. }
  rewrite encode_bodies_app in Ep. apply bind_Ok_inv in Ep as ([s1 e1] & E1 & Ep). apply bind_Ok_inv in Ep as ([s2 e2] & E2 & [= <- <-]).
  destruct (front_body id rest d o w s1 e1 Q E I S E1) as (w1 & o1 & C1 & M1 & L1 & I1). rewrite C1. cbn [mbind outcome_bind].
  destruct (IH o1 w1 s2) as (w2 & o2 & C2 & M2 & L2 & I2); [apply M1|exact L1|exact I1|apply M1|by rewrite (mv_encoder _ _ _ _ _ _ M1)|].
  exists w2, o2. split; [exact C2|]. split; [|done].
  destruct (moved_trans _ _ _ _ _ _ _ _ _ _ _ M1 M2) as [T1 T2 T3 T4 T5].
  split; [exact T1|exact T2|exact T3|exact T4|]. intros k Hk. apply T5. by intros [?|?]%elem_of_app.
Qed.

(** What is there when the front is done: whole messages, and an object that has
    nothing. *)
Definition waiting_whole (l : list (nat * (LM * string))) (rest : list nat) w : Prop :=
  NoDup (l.*1 ++ rest) /\
  Forall (fun x => writable x.2.1 /\ exists o, locals (_handler w) !! x.1 = Some o /\ full x.2.1 x.2.2 o) l /\
  match rest with [] => True | id :: _ => exists o, locals (_handler w) !! id = Some o /\ idle o end.

Lemma waiting_moved l rest w w' (ts : list nat) :
  waiting_whole l rest w -> (forall k, k ∉ ts -> locals (_handler w') !! k = locals (_handler w) !! k) ->
  (forall k, k ∈ l.*1 ++ rest -> k ∉ ts) -> waiting_whole l rest w'.
Proof.
  intros (ND & HF & HR) L D. split; [exact ND|]. split.
  - rewrite Forall_forall in HF |- *. intros x Hx. destruct (HF x Hx) as (Hw & o & Ho & F). split; [exact Hw|]. exists o.
    rewrite L; [done|]. apply D, elem_of_app. left. apply list_elem_of_fmap. by exists x.
  - destruct rest as [|i rest]; [done|]. destruct HR as (o & Ho & I). exists o. rewrite L; [done|]. apply D, elem_of_app. right. by left.
Qed.

Lemma front_end id l rest o w s e :
  local_objects (_handler w) = id :: l.*1 ++ rest -> locals (_handler w) !! id = Some o -> idle o -> steady w ->
  id ∉ l.*1 ++ rest -> waiting_whole l rest w ->
  encode_eom (encoder_ (_handler w)) = Ok (s, e) -> enc_state e = ZERO ->
  exists w' texts e', end_message id w = Ok w' /\
    @encode_messages LM local_message ((fun x => (x.2.1, full_pieces [x.2.2])) <$> l) e = Ok (texts, e') /\
    enc_state e' = ZERO /\ moved rest e' (s +:+ concat_str texts) (id :: l.*1) w w'.
Proof.
  intros Q E I S Hid W Ep Z. destruct (end_notifies id o w E) as (w0 & b & H1 & H2 & H3 & H4 & E3). rewrite <- H1 in Q, E, Ep.
  set (w1 := put_local id (Local.finish o) w0) in *.
  assert (E1 : locals (_handler w1) !! id = Some (Local.finish o)) by apply lookup_insert_eq.
  pose proof I as (I1 & I2 & I3 & I4 & I5)%idle_fields.
  assert (B : Local.buffered (Local.finish o) = [Local.piece_end]).
  { unfold Local.buffered. cbn. by rewrite I1, I2, I3, I4. }
  assert (Ee : encode_pieces (Local.buffered (Local.finish o)) (encoder_ (_handler w1)) = Ok (s, true, e)).
  { rewrite B. cbn [encode_pieces]. change (encoder_ (_handler w1)) with (encoder_ (_handler w0)). by rewrite Ep. }
  assert (S1 : steady w1) by (unfold steady; cbn; by rewrite H3, H4).
  destruct (front_done id _ _ w1 s e Q E1 I1 Ee S1) as (w2 & E2 & M2).
  assert (L2 : forall k, k ∉ [id] -> locals (_handler w2) !! k = locals (_handler w) !! k).
  { intros k Hk. rewrite (mv_locals _ _ _ _ _ _ M2) by done. cbn. rewrite lookup_insert_ne; [by rewrite H1|].
    intros ->. apply Hk. by left. }
  destruct W as (ND & W). destruct (waiting_moved l rest w w2 [id] (conj ND W) L2) as (_ & HF & HR).
  { intros k Hk ->%list_elem_of_singleton. by apply Hid. }
  destruct (flush l rest w2 (mv_queue _ _ _ _ _ _ M2) ND HF HR) as (w3 & texts & e' & E4 & Em & Z' & M3);
    [by rewrite (mv_encoder _ _ _ _ _ _ M2)|apply M2|].
  rewrite (mv_encoder _ _ _ _ _ _ M2) in Em.
  assert (N : notify_local_content w1 = Ok w3).
  { unfold notify_local_content. change (local_objects (_handler w1)) with (local_objects (_handler w0)). by rewrite Q, E2. }
  fold w1 in E3. rewrite N in E3. cbn [mbind outcome_bind mret outcome_ret] in E3.
  exists (call_local id (fun o => ([], Local.set_myself (b o) o)) w3), texts, e'. split; [exact E3|]. split; [exact Em|]. split; [exact Z'|].
  apply moved_kept; [|by left]. destruct (moved_trans _ _ _ _ _ _ _ _ _ _ _ M2 M3) as [T1 T2 T3 T4 T5].
  split; [exact T1|exact T2|rewrite T3; unfold outgoing; cbn; by rewrite H1, H2|exact T4|].
  intros k Hk. rewrite T5; [|exact Hk]. cbn. rewrite lookup_insert_ne; [by rewrite H1|]. intros ->. apply Hk. by left.
Qed.

Lemma front_written id m ds l rest o w :
  local_objects (_handler w) = id :: l.*1 ++ rest -> locals (_handler w) !! id = Some o -> idle o -> steady w ->
  id ∉ l.*1 ++ rest -> waiting_whole l rest w -> writable m -> enc_state (encoder_ (_handler w)) = ZERO ->
  exists w' texts e', write_message id m ds w = Ok w' /\
    @encode_messages LM local_message ((m, full_pieces ds) :: ((fun x => (x.2.1, full_pieces [x.2.2])) <$> l)) (encoder_ (_handler w)) =
      Ok (texts, e') /\
    enc_state e' = ZERO /\ moved rest e' (concat_str texts) (id :: l.*1) w w'.
Proof.
  intros Q E I S Hid W Hm Z. destruct (message_encoded m (full_pieces ds) _ Hm Z) as (s & e3 & Es & Z3).
  destruct (message_parts _ _ _ _ _ Es) as (h & e1 & t & e2 & z & X1 & X2 & X3 & ->).
  pose proof I as (I1 & I2 & I3 & I4 & I5)%idle_fields.
  destruct (front_call id _ (c_headers m) o (Local.piece_headers m) w h e1 Q E ltac:(done) I1) as (w1 & o1 & C1 & M1 & L1 & J1);
    [unfold Local.buffered; cbn; by rewrite I1, I3, I4, I5|done|exact X1|exact S|].
  destruct (front_bodies id _ ds o1 w1 t e2 (mv_queue _ _ _ _ _ _ M1) L1 J1 (mv_steady _ _ _ _ _ _ M1)) as (w2 & o2 & C2 & M2 & L2 & J2);
    [by rewrite (mv_encoder _ _ _ _ _ _ M1)|].
  pose proof (moved_trans _ _ _ _ _ _ _ _ _ _ _ M1 M2) as M12.
  assert (D : forall k, k ∈ l.*1 ++ rest -> k ∉ [id] ++ [id]) 
    by (intros k Hk [->%list_elem_of_singleton | ->%list_elem_of_singleton]%elem_of_app; by apply Hid).
  destruct (front_end id l rest o2 w2 z e3 (mv_queue _ _ _ _ _ _ M2) L2 J2 (mv_steady _ _ _ _ _ _ M2) Hid) as (w3 & texts & e' & C3 & Em & Z' & M3);
    [by eapply waiting_moved; [exact W|apply M12|]|by rewrite (mv_encoder _ _ _ _ _ _ M2)|exact Z3|].
  exists w3, ((h +:+ t +:+ z) :: texts), e'. split; [|split; [|split; [exact Z'|]]].
  - unfold write_message. rewrite C1. cbn [mbind outcome_bind]. rewrite C2. exact C3.
  - cbn [encode_messages]. rewrite Es. cbn [mbind outcome_bind]. by rewrite Em.
  - destruct (moved_trans _ _ _ _ _ _ _ _ _ _ _ M12 M3) as [T1 T2 T3 T4 T5].
    split; [exact T1|exact T2|rewrite T3; cbn [concat_str]; by rewrite !string_app_assoc|exact T4|].
    intros k Hk. apply T5. intros [[->%list_elem_of_singleton | ->%list_elem_of_singleton]%elem_of_app|?]%elem_of_app; apply Hk; [by left..|by right].
Qed.

(** ** Messages in any order *)

(** A message to write: the object, the head, the calls for the body. *)
Abbreviation writing := (nat * (LM * list string))%type.

Fixpoint write_all (l : list writing) w : outcome world :=
  match l with [] => mret w | x :: l => w ← write_message x.1 x.2.1 x.2.2 w; write_all l w end.

(** The same message: pieces may have been joined, and empty ones left out. *)
Definition same_content (x y : LM * list string) : Prop :=
  y.1 = x.1 /\ concat_str y.2 = concat_str x.2 /\ Forall (fun d => d <> "") y.2.

Lemma concat_full_pieces ds : concat_str (full_pieces ds) = concat_str ds.
Proof.
  unfold full_pieces. induction ds as [|d ds IH]; [done|]. rewrite filter_cons. destruct (decide (d <> "")) as [|Hd]; cbn; [by rewrite IH|].
  rewrite IH. destruct (decide (d = "")) as [->|]; [done|tauto].
Qed.

Lemma full_pieces_full ds : Forall (fun d => d <> "") (full_pieces ds).
Proof. apply Forall_forall. intros d Hd. by apply list_elem_of_filter in Hd as [? _]. Qed.

Lemma encode_messages_app `{Message T} (l1 l2 : list (T * list string)) e t1 e1 t2 e2 :
  encode_messages l1 e = Ok (t1, e1) -> encode_messages l2 e1 = Ok (t2, e2) -> encode_messages (l1 ++ l2) e = Ok (t1 ++ t2, e2).
Proof.
  revert e t1. induction l1 as [|[m ds] l1 IH]; intros e t1 E1 E2; [by injection E1 as <- <-|].
  cbn [encode_messages app] in *. apply bind_Ok_inv in E1 as ([s e3] & X1 & E1). apply bind_Ok_inv in E1 as ([t e4] & X2 & [= <- <-]).
  rewrite X1. cbn [mbind outcome_bind]. by rewrite (IH _ _ X2 E2).
Qed.

Lemma moved_more ids e s (ts ts' : list nat) w w' : moved ids e s ts w w' -> (forall k, k ∈ ts -> k ∈ ts') -> moved ids e s ts' w w'.
Proof. intros [M1 M2 M3 M4 M5] Hs. split; try done. intros k Hk. apply M5. intros N. by apply Hk, Hs. Qed.

(** The queue holds [order]; those of [rem] are still to be written, the others
    wait, whole; the first is to be written. *)
Record desk (order rem : list writing) w : Prop := {
  dk_queue : local_objects (_handler w) = order.*1;
  dk_nodup : NoDup order.*1;
  dk_writable : Forall (fun x : writing => writable x.2.1) order;
  dk_rem : forall x, x ∈ rem -> x ∈ order;
  dk_distinct : NoDup rem.*1;
  dk_objects : forall x, x ∈ order -> exists o, locals (_handler w) !! x.1 = Some o /\
    (if decide (x.1 ∈ rem.*1) then idle o else full x.2.1 (concat_str x.2.2) o);
  dk_front : match order with [] => rem = [] | x :: _ => x ∈ rem end;
  dk_encoder : enc_state (encoder_ (_handler w)) = ZERO;
  dk_steady : steady w }.

Lemma same_key (l : list writing) x y : NoDup l.*1 -> x ∈ l -> y ∈ l -> x.1 = y.1 -> x = y.
Proof.
  induction l as [|z l IH]; intros ND Hx Hy E; [by apply not_elem_of_nil in Hx|]. cbn in ND. apply NoDup_cons in ND as [Hz ND].
  apply elem_of_cons in Hx as [->|Hx], Hy as [->|Hy]; [done| | |by apply IH]; exfalso; apply Hz;
    [rewrite E|rewrite <- E]; apply list_elem_of_fmap; eauto.
Qed.

(** Those that wait whole, from the front on. *)
Lemma whole_prefix (l : list writing) (rem : list nat) :
  exists a b, l = a ++ b /\ Forall (fun x : writing => x.1 ∉ rem) a /\ match b with [] => True | x :: _ => x.1 ∈ rem end.
Proof.
  induction l as [|x l (a & b & -> & Ha & Hb)]; [by exists [], []|]. destruct (decide (x.1 ∈ rem)) as [Hx|Hx].
  - by exists [], (x :: a ++ b).
  - exists (x :: a), b. split; [done|]. split; [by constructor|done].
Qed.

(** The one that is written is behind the front. *)
Lemma desk_behind order x rem w :
  desk order (x :: rem) w -> head order <> Some x ->
  exists w', write_message x.1 x.2.1 x.2.2 w = Ok w' /\ desk order rem w' /\ moved (order.*1) (encoder_ (_handler w)) "" [x.1] w w'.
Proof.
  intros [Q ND HW HR [Hx HD]%NoDup_cons HO HF Z S] Hh. destruct order as [|y order]; [done|].
  assert (Hyx : y.1 <> x.1).
  { intros N. apply Hh. cbn. f_equal. assert (Hxo : x ∈ y :: order) by (apply HR; by left).
    apply elem_of_cons in Hxo as [->|Hxo]; [done|]. cbn in ND. apply NoDup_cons in ND as [ND _]. exfalso. apply ND. rewrite N.
    apply list_elem_of_fmap. by exists x. }
  assert (Hy : y ∈ rem) by (apply elem_of_cons in HF as [->|]; done).
  destruct (HO x) as (o & Ho & I); [apply HR; by left|]. rewrite decide_True in I by (by left).
  destruct (HO y) as (oy & Hoy & Iy); [by left|]. rewrite decide_True in Iy by (right; apply list_elem_of_fmap; by exists y).
  assert (B : behind x.1 w). { unfold behind. rewrite Q. cbn. split; [done|by exists oy]. }
  destruct (behind_written x.1 x.2.1 x.2.2 o w B S Ho I) as (w' & o' & E & [M L] & F). exists w'. split; [exact E|].
  rewrite Q in M. split; [|exact M]. split; try done; try apply M.
  - intros z Hz. apply HR. by right.
  - intros z Hz. destruct (decide (z.1 = x.1)) as [Ez|Ez].
    + assert (z = x) as -> by (apply (same_key _ z x ND Hz); [apply HR; by left|exact Ez]).
      exists o'. split; [exact L|]. by rewrite decide_False.
    + destruct (HO z Hz) as (oz & Hoz & Iz). exists oz. rewrite (mv_locals _ _ _ _ _ _ M) by (by intros ?%list_elem_of_singleton).
      split; [exact Hoz|]. destruct (decide (z.1 ∈ rem.*1)) as [D|D]; [rewrite decide_True in Iz by (by right); done|].
      rewrite decide_False in Iz; [done|]. by intros [?|?]%elem_of_cons.
  - by rewrite (mv_encoder _ _ _ _ _ _ M).
Qed.

(** The one that is written is the front. *)
Lemma desk_first order x rem w :
  desk (x :: order) (x :: rem) w ->
  exists w' done order' ws texts e', order = done ++ order' /\ write_message x.1 x.2.1 x.2.2 w = Ok w' /\ desk order' rem w' /\
    Forall2 same_content (x :: done).*2 ws /\
    @encode_messages LM local_message ws (encoder_ (_handler w)) = Ok (texts, e') /\
    moved (order'.*1) e' (concat_str texts) (x :: done).*1 w w'.
Proof.
  intros [Q ND HW HR [Hx HD]%NoDup_cons HO HF Z S].
  destruct (whole_prefix order rem.*1) as (a & b & -> & Ha & Hb).
  set (l := (fun x : writing => (x.1, (x.2.1, concat_str x.2.2))) <$> a).
  assert (El : l.*1 = a.*1) by (unfold l; by rewrite <- list_fmap_compose).
  assert (Ew : (fun x => (x.2.1, full_pieces [x.2.2])) <$> l = (fun x : writing => (x.2.1, full_pieces [concat_str x.2.2])) <$> a)
    by (unfold l; by rewrite <- list_fmap_compose).
  cbn [fmap list_fmap] in Q, ND. rewrite fmap_app in Q, ND. apply NoDup_cons in ND as [Hxn ND].
  apply Forall_cons in HW as [Hwx HW]. apply Forall_app in HW as [HWa HWb].
  destruct (HO x) as (o & Ho & I); [by left|]. rewrite decide_True in I by by left.
  assert (Hr : forall z, z ∈ rem -> z ∈ b).
  { intros z Hz. assert (Hzo : z ∈ x :: a ++ b) by (apply HR; by right). apply elem_of_cons in Hzo as [->|[Hza|]%elem_of_app]; [..|done].
    - exfalso. apply Hx, list_elem_of_fmap. by exists x.
    - rewrite Forall_forall in Ha. exfalso. apply (Ha z Hza), list_elem_of_fmap. by exists z. }
  assert (W : waiting_whole l b.*1 w).
  { split; [by rewrite El|]. split.
    - unfold l. apply Forall_fmap, Forall_forall. intros z Hz. cbn. rewrite Forall_forall in HWa. split; [by apply HWa|].
      destruct (HO z) as (oz & Hoz & Iz); [right; apply elem_of_app; by left|]. exists oz. split; [exact Hoz|].
      rewrite decide_False in Iz; [done|]. intros [E|Hzr]%elem_of_cons; [|rewrite Forall_forall in Ha; by apply (Ha z)].
      apply Hxn. rewrite <- E. apply elem_of_app. left. apply list_elem_of_fmap. by exists z.
    - destruct b as [|y b]; [done|]. destruct (HO y) as (oy & Hoy & Iy); [right; apply elem_of_app; right; by left|]. exists oy.
      split; [exact Hoy|]. rewrite decide_True in Iy; [done|by right]. }
  destruct (front_written x.1 x.2.1 x.2.2 l b.*1 o w) as (w' & texts & e' & E & Em & Z' & M);
    [by rewrite El, Q|exact Ho|exact I|exact S|by rewrite El|exact W|exact Hwx|exact Z|].
  rewrite El in M. exists w', a, b. eexists _, texts, e'. split; [done|]. split; [exact E|]. split; [|split; [|split; [exact Em|exact M]]].
  - apply NoDup_app in ND as (NDa & Hab & NDb). split; try done; try apply M.
    + intros z Hz. destruct (HO z) as (oz & Hoz & Iz); [right; apply elem_of_app; by right|]. exists oz.
      assert (Hzb : z.1 ∈ b.*1) by (apply list_elem_of_fmap; by exists z).
      rewrite (mv_locals _ _ _ _ _ _ M).
      2:{ intros [E1|Hza]%elem_of_cons; [|by apply (Hab z.1)]. apply Hxn. rewrite <- E1. apply elem_of_app. by right. }
      split; [exact Hoz|]. destruct (decide (z.1 ∈ rem.*1)) as [D|D]; [rewrite decide_True in Iz by (by right); done|].
      rewrite decide_False in Iz; [done|]. intros [E1|?]%elem_of_cons; [|done]. apply Hxn. rewrite <- E1. apply elem_of_app. by right.
    + destruct b as [|y b]; [|].
      * destruct rem as [|z rem]; [done|]. exfalso. by apply (not_elem_of_nil z), Hr; left.
      * apply list_elem_of_fmap in Hb as (z & E1 & Hz). assert (y = z) as ->; [|done].
        apply (same_key (y :: b)); [exact NDb|by left|by apply Hr|done].
    + by rewrite (mv_encoder _ _ _ _ _ _ M).
  - rewrite Ew. cbn [fmap list_fmap]. constructor.
    + split; [done|]. split; [apply concat_full_pieces|apply full_pieces_full].
    + clear. induction a as [|y a IH]; cbn [fmap list_fmap]; [constructor|]. constructor; [|exact IH]. split; [done|].
      cbn [snd fst]. rewrite concat_full_pieces. cbn [concat_str]. split; [apply string_app_nil_r|apply full_pieces_full].
Qed.

Lemma desk_start order l w :
  local_objects (_handler w) = order.*1 -> NoDup order.*1 -> l ≡ₚ order ->
  (forall x, x ∈ order -> writable x.2.1 /\ exists o, locals (_handler w) !! x.1 = Some o /\ idle o) ->
  enc_state (encoder_ (_handler w)) = ZERO -> steady w -> desk order l w.
Proof.
  intros Q ND HP HO Z S. split; [exact Q|exact ND| | | | | |exact Z|exact S].
  - apply Forall_forall. intros x Hx. by apply HO.
  - intros x Hx. by rewrite <- HP.
  - by rewrite HP.
  - intros x Hx. destruct (HO x Hx) as (_ & o & Ho & I). exists o. split; [exact Ho|]. rewrite decide_True; [exact I|].
    rewrite HP. apply list_elem_of_fmap. by exists x.
  - destruct order as [|x order]; [by apply Permutation_nil_r|]. rewrite HP. by left.
Qed.

Lemma all_written order rem w :
  desk order rem w ->
  exists w' ws texts e', write_all rem w = Ok w' /\ Forall2 same_content order.*2 ws /\
    @encode_messages LM local_message ws (encoder_ (_handler w)) = Ok (texts, e') /\ moved [] e' (concat_str texts) order.*1 w w'.
Proof.
  revert order w. induction rem as [|x rem IH]; intros order w D; cbn [write_all].
  { pose proof (dk_front _ _ _ D) as HF. destruct order as [|y order]; [|by apply not_elem_of_nil in HF].
    exists w, [], [], (encoder_ (_handler w)). split; [done|]. split; [constructor|]. split; [done|].
    split; [apply D|done|by rewrite string_app_nil_r|apply D|done]. }
  assert (Hx : x ∈ order) by (apply (dk_rem _ _ _ D); by left).
  assert (head order = Some x \/ head order <> Some x) as [Hh|Hh].
  { destruct order as [|y order]; [by right|]. destruct (decide (y.1 = x.1)) as [E|E]; [left|right; by intros [= ->]].
    cbn. f_equal. apply (same_key (y :: order)); [apply D|by left|done|done]. }
  - destruct order as [|y order]; [done|]. injection Hh as ->.
    destruct (desk_first order x rem w D) as (w1 & a & b & ws1 & t1 & e1 & -> & E1 & D1 & F1 & M1 & V1). rewrite E1. cbn [mbind outcome_bind].
    destruct (IH b w1 D1) as (w' & ws2 & t2 & e2 & E2 & F2 & M2 & V2). rewrite (mv_encoder _ _ _ _ _ _ V1) in M2.
    exists w', (ws1 ++ ws2), (t1 ++ t2), e2. split; [exact E2|]. split; [|split; [by eapply encode_messages_app|]].
    + change (x :: a ++ b) with ((x :: a) ++ b). rewrite fmap_app. by apply Forall2_app.
    + rewrite concat_str_app. change (x :: a ++ b) with ((x :: a) ++ b). rewrite fmap_app. exact (moved_trans _ _ _ _ _ _ _ _ _ _ _ V1 V2).
  - destruct (desk_behind order x rem w D Hh) as (w1 & E1 & D1 & V1). rewrite E1. cbn [mbind outcome_bind].
    destruct (IH order w1 D1) as (w' & ws & ts & e & E2 & F2 & M2 & V2). rewrite (mv_encoder _ _ _ _ _ _ V1) in M2.
    exists w', ws, ts, e. split; [exact E2|]. split; [exact F2|]. split; [exact M2|].
    eapply moved_more; [exact (moved_trans _ _ _ _ _ _ _ _ _ _ _ V1 V2)|].
    intros k [->%list_elem_of_singleton|]%elem_of_app; [|done]. apply list_elem_of_fmap. by exists x.
Qed.

(** ** What writing leaves alone *)

(** The side of the handler that receives. *)
Definition input_side (h : handler (RM := RM) (LM := LM)) :=
  (remote_objects h, remotes h, current_decoded_object h, decoding_error h, managing_continue h).

(** A message that does not ask for the connection to be closed. *)
Definition stays_open (m : LM) : Prop :=
  has hf_connection (local_data m) = true -> header_get hf_connection (local_data m) = hv_keepalive.

Record undisturbed (X : list nat * gmap nat (remote_object RM) * RM * bool * bool) w : Prop := {
  ud_input : input_side (_handler w) = X;
  ud_stays : persistent (_handler w) = true;
  ud_messages : forall id o m, locals (_handler w) !! id = Some o -> UserObjects.message o = Some m -> stays_open m;
  ud_plain : forall id o, locals (_handler w) !! id = Some o -> continue_required o = false;
  ud_objects : forall id, id ∈ local_objects (_handler w) -> is_Some (locals (_handler w) !! id) }.

Lemma do_write_rest w : input_side (_handler (do_write w)) = input_side (_handler w) /\ persistent (_handler (do_write w)) = persistent (_handler w).
Proof.
  unfold do_write. destruct (_writing w || _stopped w); [done|].
  assert (E : _handler (set_out "" (renew_ttl w)) = _handler w) by (unfold renew_ttl; by case_match).
  cbv zeta. revert E. generalize (set_out "" (renew_ttl w)). intros c E.
  cbn [quiet_write http1_quiet]. unfold finish_write.
  rewrite E. destruct (empty (serialization (_handler w))) eqn:Ee; cbn [negb]; [done|]. cbn [_out set_out]. by rewrite Ee.
Qed.

Lemma append_write_undisturbed X r w w' : undisturbed X w -> append_write r w = Ok w' -> undisturbed X w'.
Proof.
  intros [U1 U2 U3 UP U4] E. unfold append_write, append in E. destruct (r (encoder_ (_handler w))) as [[s e]|]; [|done].
  injection E as <-. set (w0 := on_handler _ w). destruct (do_write_rest w0) as [R1 R2].
  destruct (do_write_objects w0) as [[Q L]%objects_fields _].
  split; [by rewrite R1|by rewrite R2|by rewrite L|by rewrite L|by rewrite Q, L].
Qed.

Lemma piece_undisturbed X p w w' :
  undisturbed X w -> match p with Local.piece_headers m => stays_open m | _ => True end -> notify_piece p w = Ok w' -> undisturbed X w'.
Proof.
  intros U Hp E. destruct p as [|m|d|k v|]; cbn [notify_piece] in E; try by eapply append_write_undisturbed.
  unfold notify_local_headers in E. cbv zeta in E. eapply append_write_undisturbed; [|exact E].
  destruct (has hf_connection (local_data m)) eqn:Eh; [|exact U]. destruct U as [U1 U2 U3 UP U4]. split; [exact U1| |exact U3|exact UP|exact U4].
  cbn. rewrite (Hp Eh). by apply bool_decide_eq_true.
Qed.

Lemma put_undisturbed X id o w :
  undisturbed X w -> (forall m, UserObjects.message o = Some m -> stays_open m) -> continue_required o = false ->
  undisturbed X (put_local id o w).
Proof.
  intros [U1 U2 U3 UP U4] Ho Hc. split; [exact U1|exact U2| | |].
  - intros k ok m. cbn. destruct (decide (k = id)) as [->|Hk]; [rewrite lookup_insert_eq; intros [= <-]; apply Ho|].
    rewrite lookup_insert_ne by done. apply U3.
  - intros k ok. cbn. destruct (decide (k = id)) as [->|Hk]; [rewrite lookup_insert_eq; by intros [= <-]|].
    rewrite lookup_insert_ne by done. apply UP.
  - intros k Hk. cbn. destruct (decide (k = id)) as [->|Hne]; [rewrite lookup_insert_eq; by eexists|]. rewrite lookup_insert_ne by done. by apply U4.
Qed.

Lemma headed_message o m ps : Local.buffered o = Local.piece_headers m :: ps -> UserObjects.message o = Some m.
Proof.
  unfold Local.buffered. destruct (continue_required o); [done|]. destruct (UserObjects.message o); [by intros [= -> _]|].
  by destruct (empty (content o)), (trailers o), (ended o).
Qed.

Lemma after_message p o m : UserObjects.message (Local.after_piece p o) = Some m -> UserObjects.message o = Some m.
Proof. by destruct p. Qed.

Lemma poll_undisturbed X fuel id w o b w' :
  undisturbed X w -> locals (_handler w) !! id = Some o ->
  poll_local fuel id w = Ok (b, w') -> undisturbed X w'.
Proof.
  revert w o. induction fuel as [|fuel IH]; intros w o U E Ep; [done|]. pose proof (ud_plain _ _ U _ _ E) as C.
  rewrite (poll_local_step _ _ _ _ E (plain_polls _ C)) in Ep. pose proof (fun m => ud_messages _ _ U id o m E) as Hm.
  destruct (Local.buffered o) as [|p ps] eqn:B.
  { injection Ep as _ <-. apply put_undisturbed; [exact U| |exact C]. intros m Em. by apply Hm. }
  cbv zeta in Ep. set (w0 := put_local id (Local.after_piece p o) w) in *.
  assert (C1 : continue_required (Local.after_piece p o) = false) by (by destruct p).
  assert (U0 : undisturbed X w0) by (apply put_undisturbed; [exact U| |exact C1]; intros m Em; by eapply Hm, after_message).
  assert (G : match p with Local.piece_headers m => stays_open m | _ => True end).
  { destruct p as [|m| | |]; try done. by eapply Hm, headed_message. }
  assert (K : forall w1, notify_piece p w0 = Ok w1 -> undisturbed X w1 /\ locals (_handler w1) !! id = Some (Local.after_piece p o)).
  { intros w1 N. split; [by eapply piece_undisturbed|]. pose proof (notify_piece_spec p w0) as Sp.
    destruct (encode_piece p (encoder_ (_handler w0))) as [[s e]|]; [|by rewrite N in Sp].
    destruct Sp as (w2 & N2 & [_ L]%objects_fields & _). rewrite N in N2. injection N2 as <-. rewrite L. cbn. apply lookup_insert_eq. }
  assert (M : (w ← notify_piece p w0; poll_local fuel id w) = Ok (b, w') -> undisturbed X w').
  { intros Eq. apply bind_Ok_inv in Eq as (w1 & N & Eq). destruct (K w1 N) as [U1 L1]. by eapply IH. }
  destruct p as [|m|d|k v|]; try (apply M; exact Ep).
  - apply bind_Ok_inv in Ep as (w1 & N & [= _ <-]). by apply K.
  - clear K M. apply bind_Ok_inv in Ep as (w1 & N & [= _ <-]).
    assert (U1 : undisturbed X w1) by (eapply (piece_undisturbed X Local.piece_end); [|exact I|exact N]; destruct U0; by split).
    unfold connection_cleared. destruct is_server; [exact U1|]. destruct U1; by split.
Qed.


Lemma notify_undisturbed X ids w w' :
  undisturbed X w -> local_objects (_handler w) = ids -> notify_loop ids w = Ok w' -> undisturbed X w'.
Proof.
  revert w. induction ids as [|id ids IH]; intros w U Q E; [by injection E as <-|].
  cbn [notify_loop] in E. destruct (ud_objects _ _ U id) as [o Ho]; [rewrite Q; by left|]. rewrite Ho in E.
  apply bind_Ok_inv in E as ([b w1] & Ep & E). pose proof (poll_undisturbed _ _ _ _ _ _ _ U Ho Ep) as U1.
  destruct b; [|by injection E as <-].
  assert (Q1 : local_objects (_handler w1) = id :: ids).
  { rewrite (fuel_there _ _ _ Ho) in Ep. pose proof (poll_local_spec (S (length (Local.buffered o))) id w o Ho (plain_polls _ (ud_plain _ _ U _ _ Ho)) ltac:(lia)) as Sp.
    destruct (encode_pieces _ _) as [[[s c] e]|]; [|by rewrite Ep in Sp]. destruct Sp as (w2 & E2 & R & _). rewrite Ep in E2. injection E2 as <- <-. rewrite R. exact Q. }
  eapply IH; [| |exact E]; [|exact (f_equal tail Q1)]. destruct U1 as [U1 U2 U3 U4 U5]. split; [exact U1|exact U2|exact U3|exact U4|].
  intros k Hk. apply U5. cbn in Hk. rewrite Q1 in Hk |- *. by right.
Qed.

Lemma content_undisturbed X w w' : undisturbed X w -> notify_local_content w = Ok w' -> undisturbed X w'.
Proof. intros U. by eapply notify_undisturbed. Qed.

Lemma call_undisturbed X id c w w' :
  undisturbed X w -> match c with c_headers m => stays_open m | c_continue | c_end => False | _ => True end ->
  user_call id c w = Ok w' -> undisturbed X w'.
Proof.
  intros U Hc E. unfold user_call in E. destruct (locals (_handler w) !! id) as [o|] eqn:Ho; [|done]. cbn [of_option mbind outcome_bind] in E.
  pose proof (fun m => ud_messages _ _ U id o m Ho) as Hm. pose proof (ud_plain _ _ U id o Ho) as Hp.
  destruct c as [m|d|k v| |]; try done; (eapply content_undisturbed; [|exact E]; apply put_undisturbed; [exact U| |exact Hp]).
  - intros m' Em. cbn in Em. by injection Em as <-.
  - exact Hm.
  - exact Hm.
Qed.

Lemma end_undisturbed X id w w' : undisturbed X w -> end_message id w = Ok w' -> undisturbed X w'.
Proof.
  intros U E. destruct (locals (_handler w) !! id) as [o|] eqn:Ho.
  2:{ unfold end_message, user_call in E. by rewrite Ho in E. }
  destruct (end_notifies id o w Ho) as (w0 & b & H1 & _ & _ & _ & E3). rewrite E3 in E. apply bind_Ok_inv in E as (w1 & N & [= <-]).
  assert (U0 : undisturbed X w0) by (destruct U as [U1 U2 U3 U4 U5]; split; by rewrite H1).
  assert (U1 : undisturbed X w1).
  { eapply content_undisturbed; [|exact N]. apply put_undisturbed; [exact U0| |cbn; by eapply (ud_plain _ _ U)].
    intros m Em. by eapply (ud_messages _ _ U). }
  unfold call_local. destruct (locals (_handler w1) !! id) as [o1|] eqn:Ho1; [|exact U1].
  assert (U2 : undisturbed X (put_local id (Local.set_myself (b o1) o1) w1)).
  { apply put_undisturbed; [exact U1| |cbn; by eapply (ud_plain _ _ U1)]. intros m Em. by eapply (ud_messages _ _ U1). }
  destruct U2 as [V1 V2 V3 V4 V5]. by split.
Qed.

Lemma written_undisturbed X l w w' :
  undisturbed X w -> Forall (fun x : writing => stays_open x.2.1) l -> write_all l w = Ok w' -> undisturbed X w'.
Proof.
  intros U HF. revert w U. induction HF as [|x l Hx HF IH]; intros w U E; [by injection E as <-|].
  cbn [write_all] in E. apply bind_Ok_inv in E as (w3 & E3 & E). apply (IH w3); [|exact E].
  unfold write_message in E3. apply bind_Ok_inv in E3 as (w1 & E1 & E3). apply bind_Ok_inv in E3 as (w2 & E2 & E3).
  eapply end_undisturbed; [|exact E3]. assert (U1 : undisturbed X w1) by (eapply (call_undisturbed X x.1 (c_headers x.2.1)); [exact U|exact Hx|exact E1]). clear E1 E3 E.
  revert w1 U1 E2. induction x.2.2 as [|d ds IHd]; intros w1 U1 E2; [by injection E2 as <-|].
  cbn [write_bodies] in E2. apply bind_Ok_inv in E2 as (w4 & E4 & E2). eapply IHd; [|exact E2]. by eapply (call_undisturbed X x.1 (c_body d)).
Qed.

(** ** Property *)

(** C11: However the users of a connection go about it - the responses of a server or
    the requests of a client written one after the other, each whole, in any order of
    the transactions -, what leaves are those messages, in the order of the
    transactions, each as the encoder makes it of its head, its body and its end;
    only the pieces of a body may be joined while it waits for its turn, and empty
    ones are left out.  Nothing fails, and the queue is empty. *)
Theorem messages_in_queue_order (order l : list writing) w :
  local_objects (_handler w) = order.*1 -> NoDup order.*1 -> l ≡ₚ order ->
  (forall x, x ∈ order -> writable x.2.1 /\ exists o, locals (_handler w) !! x.1 = Some o /\ idle o) ->
  enc_state (encoder_ (_handler w)) = ZERO -> steady w ->
  exists w' ws texts e', write_all l w = Ok w' /\ Forall2 same_content order.*2 ws /\
    @encode_messages LM local_message ws (encoder_ (_handler w)) = Ok (texts, e') /\
    outgoing w' = outgoing w +:+ concat_str texts /\ local_objects (_handler w') = [].
Proof.
  intros Q ND HP HO Z S. destruct (all_written order l w) as (w' & ws & texts & e' & E & F & Em & [M1 _ M3 _ _]); [|by exists w', ws, texts, e'].
  by apply desk_start.
Qed.
End Writing.

#[export] Instance server_plain_polls : PlainPolls (RM := http_request) (LM := http_response).
Proof. done. Qed.
#[export] Instance client_plain_polls `{mem : Garbage} : PlainPolls (RM := http_response) (LM := http_request).
Proof. by intros o. Qed.

(** A server with two requests; the second is answered first. *)
Definition two_answers : list (nat * (http_response * list string)) :=
  [(0%nat, (ok_response, ["a"; ""])); (1%nat, (chunked_response, ["b"; "c"]))].

Definition two_open : connector (handler (RM := http_request) (LM := http_response)) task :=
  decoding_start remote0 (decoding_start remote0 server0).

Lemma messages_in_queue_order_witness :
  exists w' ws texts e', write_all (reverse two_answers) two_open = Ok w' /\ Forall2 same_content two_answers.*2 ws /\
    encode_messages ws new_encoder = Ok (texts, e') /\ outgoing w' = concat_str texts /\ local_objects (_handler w') = [].
Proof.
  destruct (messages_in_queue_order two_answers (reverse two_answers) two_open) as (w' & ws & texts & e' & H1 & H2 & H3 & H4 & H5).
  - reflexivity.
  - apply (bool_decide_unpack _). by vm_compute.
  - apply reverse_Permutation.
  - intros x Hx. apply elem_of_cons in Hx as [->|Hx]; [|apply list_elem_of_singleton in Hx as ->].
    + split; [vm_compute; by eexists|]. exists Local.new. split; reflexivity.
    + split; [vm_compute; by eexists|]. exists Local.new. split; reflexivity.
  - reflexivity.
  - reflexivity.
  - exists w', ws, texts, e'. split; [exact H1|]. split; [exact H2|]. split; [exact H3|]. split; [exact H4|exact H5].
Defined.
