(* ===== verification/Exchange.v ===== *)
(** * A client and a server

    The two ends of a connection together: the messages that users write
    ([Http1Writing]) are the ones that the users at the other end get
    ([Http1Requests], [Http1Responses]).  Between them the network takes the bytes
    in reads of whole messages. *)

From S2P Require Import Prelude CppStd MultiMap Utils HttpCommons StructuredData HttpMessages Errors UserObjects Connector HandlerHttp1.
From S2P Require Import Encoder UrlParser HttpParser HttpExecute HttpSafe Decoder HttpCodec HttpRun Http1Connection.
From S2P Require Import HttpMethod HttpHead HttpFields DecodeHead HttpBody HttpRequest HttpResponse HttpRoundTrip.
From S2P Require Import Http1Lift Http1Requests Http1Responses Http1Writing.

Section Exchange.
Context `{mem : Garbage}.

(** ** What the views say of each transaction *)

(** The tasks that tell of messages, each to its object: head, pieces, end. *)
Definition told_messages (ids : list nat) (pss : list (list string)) : list task :=
  mjoin (zip_with (fun id ps => task_remote id <$> run_headers :: (run_body <$> ps) ++ [run_finished]) ids pss).

Lemma arrived_stays r0 u r : arrived_as true r0 u r -> _keepalive (base r) = true.
Proof. intros A. apply (hr_keepalive _ _ _ _ (ar_headers _ _ _ _ A)). Qed.

Lemma all_served_spec remote r0 v us v' :
  all_served remote r0 v us v' -> v_stays v = true -> Forall (fun u => says_stay u = true) us ->
  v_waiting v' = v_waiting v ++ seq (v_next v) (length us) /\ v_output v' = v_output v /\
  v_told v' = v_told v ++ told_messages (seq (v_next v) (length us)) (s_pieces <$> us) /\
  (forall k, (k < v_next v)%nat -> v_objects v' !! k = v_objects v !! k /\ v_answers v' !! k = v_answers v !! k) /\
  (forall i u, us !! i = Some u -> v_answers v' !! (v_next v + i)%nat = Some Local.new /\
    exists r, arrived r0 u r /\ v_objects v' !! (v_next v + i)%nat = Some (Remote.set_terminated (object_of remote r))).
Proof.
  induction 1 as [v|v u us r v' A _ IH]; intros Hs HF.
  { cbn. rewrite !app_nil_r. do 4 (split; [done|]). intros i u Hi. by rewrite lookup_nil in Hi. }
  apply Forall_cons in HF as [Hu HF]. rewrite Hs, Hu in A. pose proof (arrived_stays _ _ _ A) as K.
  destruct (IH K HF) as (I1 & I2 & IT & I3 & I4). clear IH. cbn [serve v_waiting v_next v_objects v_answers v_output v_told] in *.
  split; [by rewrite I1, <- app_assoc|]. split; [exact I2|]. split; [by rewrite IT, <- app_assoc|]. split.
  - intros k Hk. destruct (I3 k ltac:(lia)) as [-> ->]. by rewrite !lookup_insert_ne by lia.
  - intros [|i] u' Hi.
    + injection Hi as <-. rewrite Nat.add_0_r. destruct (I3 (v_next v) ltac:(lia)) as [-> ->]. rewrite !lookup_insert_eq.
      split; [done|]. exists r. split; [|done]. unfold arrived. by rewrite Hu.
    + cbn in Hi. rewrite Nat.add_succ_r. by apply (I4 i u').
Qed.

(** A final response on a connection that it does not end. *)
Definition answers_on (u : answer) : Prop := a_code u <> 100 /\ a_reason u <> "" /\ stays (a_code u) (a_fields u) = true.

Lemma all_heard_spec r0 v us r' v' ids :
  all_heard r0 v us r' v' -> blank r0 -> v_receiving v = ids -> length ids = length us -> NoDup ids ->
  v_stays v = true -> Forall answers_on us -> (forall id, id ∈ ids -> exists o, v_objects v !! id = Some o /\ cbs o = all_callbacks) ->
  v_told v' = v_told v ++ told_messages ids (a_pieces <$> us) /\
  (forall k, k ∉ ids -> v_objects v' !! k = v_objects v !! k) /\ v_events v' = v_events v /\
  (forall i id u, ids !! i = Some id -> us !! i = Some u ->
    exists o r rb, blank rb /\ answered rb u r /\ v_objects v !! id = Some o /\ v_objects v' !! id = Some (Remote.set_preamble r o)).
Proof.
  intros A. revert ids. induction A as [r0 v|r0 v u us id q o r obj r' v' E1 E2 [E3 E4] E5 A IH|r0 v u us r r' v' E1 _ _ _]; intros ids Hn Hq Hl ND Hs HF HO.
  { split; [destruct ids; [cbn; by rewrite app_nil_r|done]|]. split; [done|]. split; [done|]. intros i id u _ Hi. by rewrite lookup_nil in Hi. }
  2:{ rewrite E1 in Hq. by subst ids. }
  rewrite E1 in Hq. subst ids. apply NoDup_cons in ND as [Hid ND]. apply Forall_cons in HF as [(Hc & Hr & Hst) HF].
  assert (Ha : answered r0 u r) by (split; [exact E3|by rewrite Hs in E4]).
  assert (Hi : is_continue r = false).
  { unfold told_status in E3. rewrite decide_False in E3 by done. injection E3 as E3 _. cbn. rewrite E3. by apply Z.eqb_neq. }
  assert (Hh : headed r o = Remote.set_preamble r o) by (unfold headed; by rewrite Hi).
  destruct (HO id) as (o' & Eo & Hcb); [by left|]. rewrite E2 in Eo. injection Eo as <-.
  destruct (IH q E5) as (IT & I1 & I2 & I3); [done|by injection Hl|exact ND| |exact HF|..].
  { cbn. rewrite (hr_keepalive _ _ _ _ E4), Hs. exact Hst. }
  { intros k Hk. cbn. destruct (decide (k = id)) as [->|Hne]; [rewrite lookup_insert_eq, Hh; by exists (Remote.set_preamble r o)|].
    rewrite lookup_insert_ne by done. apply HO. by right. }
  cbn [hear v_objects v_events v_told] in *. rewrite Hh in *. split; [|split; [|split; [exact I2|]]].
  - rewrite IT, <- app_assoc. unfold head_tasks, body_tasks, end_tasks. by rewrite Hi, Hcb.
  - intros k Hk. rewrite I1 by (intros N; apply Hk; by right). rewrite lookup_insert_ne; [done|]. intros ->. apply Hk. by left.
  - intros [|i] id' u' Hi1 Hi2.
    + injection Hi1 as <-. injection Hi2 as <-. exists o, r, r0. split; [exact Hn|]. split; [exact Ha|]. split; [exact E2|].
      rewrite I1 by done. apply lookup_insert_eq.
    + cbn in Hi1, Hi2. destruct (I3 i id' u' Hi1 Hi2) as (o1 & r1 & rb & Bn & B1 & B2 & B3). exists o1, r1, rb. split; [exact Bn|]. split; [exact B1|]. split; [|exact B3].
      rewrite lookup_insert_ne in B2; [done|]. intros <-. apply Hid. by eapply list_elem_of_lookup_2.
Qed.

(** ** What is written is what can be read *)
Lemma concat_body_pieces b ds : concat_str (body_pieces b ds) = concat_str ds.
Proof.
  unfold body_pieces. destruct b; [apply concat_full_pieces|]. unfold empty. case_bool_decide as E; [by rewrite E|]. cbn. apply string_app_nil_r.
Qed.

Lemma sendable_data_same d ds ds' : concat_str ds' = concat_str ds -> sendable_data d ds -> sendable_data d ds'.
Proof. intros E [V P S B Hk Hc Hf Hl]. rewrite <- E in Hf, Hl. by split. Qed.

Lemma sendable_request_same r ds ds' : concat_str ds' = concat_str ds -> sendable_request r ds -> sendable_request r ds'.
Proof. intros E [S1 S2 S3 S4 S5 S6 S7]. split; try done. by eapply sendable_data_same. Qed.

Lemma sendable_response_same r ds ds' : concat_str ds' = concat_str ds -> sendable_response r ds -> sendable_response r ds'.
Proof. intros E [S1 S2 S3 S4]. split; try done. by eapply sendable_data_same. Qed.

(** A message on a connection that it does not end. *)
Definition kept_request (x : http_request * list string) : Prop := sendable_request x.1 x.2 /\ _keepalive (base x.1) = true.
Definition kept_response (x : http_response * list string) : Prop :=
  sendable_response x.1 x.2 /\ _keepalive (response_base x.1) = true /\ _status_code x.1 <> 100.

Lemma kept_header d ds : sendable_data d ds -> _keepalive d = true -> header_get hf_connection d = hv_keepalive.
Proof. intros S K. unfold header_get. rewrite find_values, (sd_connection _ _ S), K. done. Qed.
Lemma requests_prepared rqs ws e texts e' :
  Forall kept_request rqs -> Forall2 same_content rqs ws -> enc_state e = ZERO -> encode_messages ws e = Ok (texts, e') ->
  exists us : list (sent * string), Forall (fun u => sendable u.1 u.2) us /\ texts = (fun u => sent_head u.1 +:+ u.2) <$> us /\
    Forall (fun u => says_stay u = true) us.*1 /\
    Forall2 (fun x ps => concat_str ps = concat_str x.2) rqs (s_pieces <$> us.*1) /\
    Forall2 (fun x u => forall r0 r, new_request false HTTP_GET = Ok r0 -> arrived r0 u r -> same_request x.1 r) rqs us.*1.
Proof.
  intros HK HF. revert e texts e'. induction HF as [|[r ds] [r' ds'] rqs ws (Er & Ed & _) HF IH]; intros e texts e' He E; cbn [fst snd] in *.
  { injection E as <- _. exists []. repeat constructor. }
  subst r'. apply Forall_cons in HK as [[S K] HK]. cbn [fst snd] in S, K. pose proof (sendable_request_same _ _ _ Ed S) as S'.
  cbn [encode_messages] in E. assert (W : msg_serialize r = Ok (sent_head (request_sent r ds'))) by exact (request_written _ _ S').
  destruct (encode_message_ok r _ ds' [] e W He ltac:(done)) as (e1 & E1 & Z1).
  rewrite E1 in E. cbn [mbind outcome_bind] in E. apply bind_Ok_inv in E as ([l e2] & E2 & [= <- <-]).
  destruct (IH HK _ _ _ Z1 E2) as (us & H1 & H2 & H3 & H4 & H5).
  exists ((request_sent r ds', body_sent (_chunked (base r)) ds') :: us). cbn [fmap list_fmap fst snd]. split; [|split; [|split; [|split]]].
  - constructor; [by apply request_sendable|exact H1].
  - rewrite <- H2. f_equal. unfold body_sent. cbn [msg_chunked request_message]. destruct (_chunked (base r)); [done|].
    cbn [fmap list_fmap concat_str]. by rewrite string_app_nil_r.
  - constructor; [|exact H3]. unfold says_stay. cbn [s_fields request_sent].
    rewrite (close_single _ (_keepalive (base r))), negb_involutive; [exact K|apply S'..].
  - constructor; [|exact H4]. cbn [s_pieces request_sent]. by rewrite concat_body_pieces.
  - constructor; [|exact H5]. intros r0 r1 Hn A. by eapply request_back.
Qed.

Lemma responses_prepared ans ws e texts e' :
  Forall kept_response ans -> Forall2 same_content ans ws -> enc_state e = ZERO -> encode_messages ws e = Ok (texts, e') ->
  exists us : list (answer * string), Forall (fun u => answerable u.1 u.2) us /\ texts = (fun u => answer_head u.1 +:+ u.2) <$> us /\
    Forall answers_on us.*1 /\
    Forall2 (fun x ps => concat_str ps = concat_str x.2) ans (a_pieces <$> us.*1) /\
    Forall2 (fun x u => forall r0 r, blank r0 -> answered r0 u r -> same_response x.1 r) ans us.*1.
Proof.
  intros HK HF. revert e texts e'. induction HF as [|[r ds] [r' ds'] ans ws (Er & Ed & _) HF IH]; intros e texts e' He E; cbn [fst snd] in *.
  { injection E as <- _. exists []. repeat constructor. }
  subst r'. apply Forall_cons in HK as [(S & K & Hc) HK]. cbn [fst snd] in S, K, Hc. pose proof (sendable_response_same _ _ _ Ed S) as S'.
  cbn [encode_messages] in E. assert (W : msg_serialize r = Ok (answer_head (response_sent r ds'))) by exact (response_written _ _ S').
  destruct (encode_message_ok r _ ds' [] e W He ltac:(done)) as (e1 & E1 & Z1).
  rewrite E1 in E. cbn [mbind outcome_bind] in E. apply bind_Ok_inv in E as ([l e2] & E2 & [= <- <-]).
  destruct (IH HK _ _ _ Z1 E2) as (us & H1 & H2 & H3 & H4 & H5).
  exists ((response_sent r ds', body_sent (_chunked (response_base r)) ds') :: us). cbn [fmap list_fmap fst snd]. split; [|split; [|split; [|split]]].
  - constructor; [by apply response_answerable|exact H1].
  - rewrite <- H2. f_equal. unfold body_sent. cbn [msg_chunked response_message]. destruct (_chunked (response_base r)); [done|].
    cbn [fmap list_fmap concat_str]. by rewrite string_app_nil_r.
  - constructor; [|exact H3]. split; [exact Hc|]. split; [apply S'|]. cbn [a_code a_fields response_sent]. by rewrite (response_stays _ _ S').
  - constructor; [|exact H4]. cbn [a_pieces response_sent]. by rewrite concat_body_pieces.
  - constructor; [|exact H5]. intros r0 r1 [g Hn] A. by eapply response_back.
Qed.

(** ** The two ends *)

Definition with_world {RM LM} (w : connector (handler (RM := RM) (LM := LM)) task) (s : connection RM LM) : connection RM LM :=
  {| decoder_parser := decoder_parser s; decoder_codec := decoder_codec s; conn := w |}.

(** Reads of whole messages. *)
Definition whole_reads (texts : list string) (ls : list (list string)) : Prop :=
  mjoin ls = texts /\ Forall (fun l => l <> [] /\ len (concat_str l) < 2 ^ 31) ls.

(** A client whose users have asked for transactions, to send the requests [rq]. *)
Record client_opened (r0 : http_response) (rq : list (nat * (http_request * list string))) (c : connection http_response http_request) : Prop := {
  co_new : blank r0;
  co_ready : client_ready r0 c;
  co_waiting : local_objects (_handler (conn c)) = rq.*1;
  co_receiving : remote_objects (_handler (conn c)) = rq.*1;
  co_distinct : NoDup rq.*1;
  co_locals : forall id o, locals (_handler (conn c)) !! id = Some o -> o = Local.new;
  co_present : forall id, id ∈ rq.*1 -> is_Some (locals (_handler (conn c)) !! id);
  co_remotes : forall id, id ∈ rq.*1 -> exists o, remotes (_handler (conn c)) !! id = Some o /\ cbs o = all_callbacks;
  co_stays : persistent (_handler (conn c)) = true;
  co_encoder : enc_state (encoder_ (_handler (conn c))) = ZERO;
  co_steady : steady (conn c) }.

(** A server that owes nothing. *)
Record server_opened (r0 : http_request) (s : connection http_request http_response) : Prop := {
  so_new : new_request false HTTP_GET = Ok r0;
  so_parser : decoder_parser s = http_parser_init HTTP_BOTH;
  so_ready : ready r0 (decoder_codec s, conn s);
  so_waiting : local_objects (_handler (conn s)) = [];
  so_stays : persistent (_handler (conn s)) = true;
  so_encoder : enc_state (encoder_ (_handler (conn s))) = ZERO;
  so_steady : steady (conn s) }.

Lemma idle_new {M} : idle (LM := M) Local.new.
Proof. done. Qed.

Lemma kept_stays_open (x : http_request * list string) : kept_request x -> stays_open (RM := http_response) x.1.
Proof. intros [S K] _. cbn [local_data client_traits]. eapply kept_header; [apply S|exact K]. Qed.

Lemma client_writes r0 rq l c :
  client_opened r0 rq c -> l ≡ₚ rq -> Forall kept_request rq.*2 ->
  exists w ws texts e', write_all l (conn c) = Ok w /\ Forall2 same_content rq.*2 ws /\
    encode_messages ws (encoder_ (_handler (conn c))) = Ok (texts, e') /\ outgoing w = outgoing (conn c) +:+ concat_str texts /\
    client_ready r0 (with_world w c) /\ remote_objects (_handler w) = rq.*1 /\ remotes (_handler w) = remotes (_handler (conn c)) /\
    persistent (_handler w) = true.
Proof.
  intros [C1 [C2 C3] C4 C5 C6 C7 C8 C9 C10 C11 C12] HP HK.
  assert (HO : forall x, x ∈ rq -> writable (LM := http_request) x.2.1 /\ exists o, locals (_handler (conn c)) !! x.1 = Some o /\ idle o).
  { intros x Hx. rewrite Forall_fmap, Forall_forall in HK. destruct (HK x Hx) as [S _]. split.
    - unfold writable. cbn [local_message client_traits msg_serialize request_message]. rewrite (request_written _ _ S). by eexists.
    - destruct (C8 x.1) as [o Ho]; [apply list_elem_of_fmap; by exists x|]. exists o. split; [exact Ho|]. by rewrite (C7 _ _ Ho). }
  destruct (all_written rq l (conn c)) as (w & ws & texts & e' & E & F & Em & M); [by apply desk_start|].
  assert (U : undisturbed (input_side (_handler (conn c))) w).
  { apply (written_undisturbed _ l (conn c)); [|rewrite HP; rewrite Forall_fmap in HK; eapply Forall_impl; [exact HK|]; intros x; apply kept_stays_open|exact E].
    split; [done|exact C10| | |by rewrite C4].
    - intros id o m Ho Em'. by rewrite (C7 _ _ Ho) in Em'.
    - intros id o Ho. by rewrite (C7 _ _ Ho). }
  pose proof (ud_input _ _ U) as UI. unfold input_side in UI. injection UI as I1 I2 I3 I4 I5.
  exists w, ws, texts, e'. do 3 (split; [done|]). split; [apply M|]. split; [|split; [by rewrite I1|split; [exact I2|apply U]]].
  split; [exact C2|]. destruct C3 as [X1 X2 X3 X4]. split; [exact X1|cbn in *; by rewrite I3|exact X3|].
  unfold queue_open in *. cbn in *. by rewrite I1, I2.
Qed.

Lemma server_reads remote r0 s us ls (Hopen : terminated remote = false) :
  server_opened r0 s -> Forall (fun u => sendable u.1 u.2) us -> Forall (fun u => says_stay u = true) us.*1 ->
  whole_reads ((fun u => sent_head u.1 +:+ u.2) <$> us) ls ->
  exists s1, connection_reads Req request_of_message remote (concat_str <$> ls) s = Some (Ok (true, s1)) /\
    outgoing (conn s1) = outgoing (conn s) /\ encoder_ (_handler (conn s1)) = encoder_ (_handler (conn s)) /\ steady (conn s1) /\
    local_objects (_handler (conn s1)) = seq (next_id (_handler (conn s))) (length us) /\
    posted (conn s1) = posted (conn s) ++ told_messages (seq (next_id (_handler (conn s))) (length us)) (s_pieces <$> us.*1) /\
    forall i u, us.*1 !! i = Some u ->
      locals (_handler (conn s1)) !! (next_id (_handler (conn s)) + i)%nat = Some Local.new /\
      exists r, arrived r0 u r /\
        remotes (_handler (conn s1)) !! (next_id (_handler (conn s)) + i)%nat = Some (Remote.set_terminated (object_of remote r)).
Proof.
  intros [S1 S2 S3 S4 S5 S6 S7] HU HS [Hj HL].
  destruct (requests_fed remote Hopen r0 us ls s S1 S2 S3 HU Hj HL) as (s1 & E & _ & _ & A).
  destruct (all_served_spec _ _ _ _ _ A S5 HS) as (A1 & A2 & A3 & _ & A4). cbn [view_of v_waiting v_output v_told v_next v_objects v_answers] in *.
  injection A2 as O1 O2 O3 O4 O5. rewrite length_fmap in A1, A3. rewrite S4 in A1.
  exists s1. split; [exact E|]. split; [unfold outgoing; by rewrite O1, O4|]. split; [exact O5|].
  split; [unfold steady; by rewrite O2, O3|]. split; [exact A1|]. split; [exact A3|exact A4].
Qed.

Lemma client_reads remote r0 c us ls ids :
  client_ready r0 c -> blank r0 -> remote_objects (_handler (conn c)) = ids -> NoDup ids -> length ids = length us ->
  persistent (_handler (conn c)) = true ->
  (forall id, id ∈ ids -> exists o, remotes (_handler (conn c)) !! id = Some o /\ cbs o = all_callbacks) ->
  Forall (fun u => answerable u.1 u.2) us -> Forall answers_on us.*1 -> whole_reads ((fun u => answer_head u.1 +:+ u.2) <$> us) ls ->
  exists c1, connection_reads Res response_of_message remote (concat_str <$> ls) c = Some (Ok (true, c1)) /\
    posted (conn c1) = posted (conn c) ++ told_messages ids (a_pieces <$> us.*1) /\
    events (_handler (conn c1)) = events (_handler (conn c)) /\
    forall i id u, ids !! i = Some id -> us.*1 !! i = Some u ->
      exists o r rb, blank rb /\ answered rb u r /\ remotes (_handler (conn c)) !! id = Some o /\
        remotes (_handler (conn c1)) !! id = Some (Remote.set_preamble r o).
Proof.
  intros Hr Hn Hq ND Hl Hs HO HU HA [Hj HL].
  destruct (responses_fed remote r0 us ls c Hr (conj HU (conj Hj HL))) as (c1 & r' & E & _ & A).
  destruct (all_heard_spec _ _ _ _ _ ids A Hn Hq) as (A1 & _ & A2 & A3); [by rewrite length_fmap|exact ND|exact Hs|exact HA|exact HO|].
  exists c1. split; [exact E|]. split; [exact A1|]. split; [exact A2|exact A3].
Qed.

(** What the users of the server have got: an object for every request, with its
    head, and the tasks that bring head, body and end. *)
Record requests_got (remote : remote_object http_request) (rq : list (http_request * list string))
    (s s1 : connection http_request http_response) : Prop := {
  rg_told : exists pss, Forall2 (fun x ps => concat_str ps = concat_str x.2) rq pss /\
    posted (conn s1) = posted (conn s) ++ told_messages (seq (next_id (_handler (conn s))) (length rq)) pss;
  rg_objects : forall i x, rq !! i = Some x -> exists r, same_request x.1 r /\
    remotes (_handler (conn s1)) !! (next_id (_handler (conn s)) + i)%nat = Some (Remote.set_terminated (object_of remote r)) }.

(** What the users of the client have got, each in the object of the request. *)
Record responses_got (ids : list nat) (an : list (http_response * list string))
    (c c1 : connection http_response http_request) : Prop := {
  pg_told : exists pss, Forall2 (fun x ps => concat_str ps = concat_str x.2) an pss /\
    posted (conn c1) = posted (conn c) ++ told_messages ids pss;
  pg_objects : forall i id y, ids !! i = Some id -> an !! i = Some y -> exists o r, same_response y.1 r /\
    remotes (_handler (conn c)) !! id = Some o /\ remotes (_handler (conn c1)) !! id = Some (Remote.set_preamble r o);
  pg_events : events (_handler (conn c1)) = events (_handler (conn c)) }.

Lemma server_side remote q0 s rqs us ls (Hopen : terminated remote = false) :
  server_opened q0 s -> Forall (fun u => sendable u.1 u.2) us -> Forall (fun u => says_stay u = true) us.*1 ->
  Forall2 (fun x ps => concat_str ps = concat_str x.2) rqs (s_pieces <$> us.*1) ->
  Forall2 (fun x u => forall r0 r, new_request false HTTP_GET = Ok r0 -> arrived r0 u r -> same_request x.1 r) rqs us.*1 ->
  whole_reads ((fun u => sent_head u.1 +:+ u.2) <$> us) ls ->
  exists s1, connection_reads Req request_of_message remote (concat_str <$> ls) s = Some (Ok (true, s1)) /\
    requests_got remote rqs s s1 /\ outgoing (conn s1) = outgoing (conn s) /\ enc_state (encoder_ (_handler (conn s1))) = ZERO /\
    steady (conn s1) /\ local_objects (_handler (conn s1)) = seq (next_id (_handler (conn s))) (length rqs) /\
    forall id, id ∈ seq (next_id (_handler (conn s))) (length rqs) -> locals (_handler (conn s1)) !! id = Some Local.new.
Proof.
  intros So HU HS Hp HR HL. destruct (server_reads remote q0 s us ls Hopen So HU HS HL) as (s1 & E & O & Ee & St & Q & P & A).
  assert (Hlen : length us = length rqs) by (apply Forall2_length in HR; by rewrite length_fmap in HR).
  rewrite Hlen in Q, P. exists s1. split; [exact E|]. split; [split|].
  - by exists (s_pieces <$> us.*1).
  - intros i x Hx. destruct (Forall2_lookup_l _ _ _ _ _ HR Hx) as (u & Hu & Hs). destruct (A i u Hu) as (_ & r & Ar & L).
    exists r. split; [|exact L]. exact (Hs q0 r (so_new _ _ So) Ar).
  - split; [exact O|]. split; [rewrite Ee; apply So|]. split; [exact St|]. split; [exact Q|].
    intros id Hid. apply elem_of_seq in Hid. destruct (lookup_lt_is_Some_2 us.*1 (id - next_id (_handler (conn s)))) as [u Hu];
      [rewrite length_fmap; lia|]. destruct (A _ u Hu) as [L _]. by replace (next_id _ + _)%nat with id in L by lia.
Qed.

Lemma server_writes n an l s1 :
  local_objects (_handler (conn s1)) = seq n (length an) ->
  (forall id, id ∈ seq n (length an) -> locals (_handler (conn s1)) !! id = Some Local.new) ->
  enc_state (encoder_ (_handler (conn s1))) = ZERO -> steady (conn s1) ->
  Forall kept_response an -> l ≡ₚ zip (seq n (length an)) an ->
  exists w ws texts e', write_all l (conn s1) = Ok w /\ Forall2 same_content an ws /\
    encode_messages ws (encoder_ (_handler (conn s1))) = Ok (texts, e') /\ outgoing w = outgoing (conn s1) +:+ concat_str texts.
Proof.
  intros Q L Z St HK HP. set (order := zip (seq n (length an)) an) in *.
  assert (O1 : order.*1 = seq n (length an)) by (apply fst_zip; by rewrite length_seq).
  assert (O2 : order.*2 = an) by (apply snd_zip; by rewrite length_seq).
  destruct (all_written order l (conn s1)) as (w & ws & texts & e' & E & F & Em & M).
  - apply desk_start; [by rewrite O1|rewrite O1; apply NoDup_seq|exact HP| |exact Z|exact St].
    intros x Hx. split.
    + rewrite Forall_forall in HK. destruct (HK x.2) as [S _]; [rewrite <- O2; apply list_elem_of_fmap; by exists x|].
      unfold writable. cbn [local_message server_traits msg_serialize response_message]. rewrite (response_written _ _ S). by eexists.
    + exists Local.new. split; [|done]. apply L. rewrite <- O1. apply list_elem_of_fmap. by exists x.
  - rewrite O2 in F. exists w, ws, texts, e'. split; [exact E|]. split; [exact F|]. split; [exact Em|apply M].
Qed.

(** C3: A client and a server together.  The users of a client write requests, each
    whole and in any order of their transactions; the server takes what comes of it
    in any reads of whole messages: its users get the same requests, in the order of
    the transactions.  They answer, each whole and in any order; the client takes
    what comes of that in any reads of whole messages: every user gets, in the
    object of his own request, the response that was written to it.  Heads are the
    same in all that goes over the wire, bodies in content, every end is told, and
    no error is.  So for requests and final responses that keep the connection. *)
Theorem exchange (rs : remote_object http_request) (rc : remote_object http_response) (r0 : http_response) (q0 : http_request)
    (rq l : list (nat * (http_request * list string))) (an : list (http_response * list string)) (l' : list (nat * (http_response * list string)))
    (c : connection http_response http_request) (s : connection http_request http_response) :
  terminated rs = false -> client_opened r0 rq c -> server_opened q0 s -> Forall kept_request rq.*2 -> Forall kept_response an ->
  length an = length rq -> l ≡ₚ rq -> l' ≡ₚ zip (seq (next_id (_handler (conn s))) (length an)) an ->
  exists w texts, write_all l (conn c) = Ok w /\ outgoing w = outgoing (conn c) +:+ concat_str texts /\
  forall ls, whole_reads texts ls ->
  exists s1 w' texts', connection_reads Req request_of_message rs (concat_str <$> ls) s = Some (Ok (true, s1)) /\
    requests_got rs rq.*2 s s1 /\ write_all l' (conn s1) = Ok w' /\ outgoing w' = outgoing (conn s) +:+ concat_str texts' /\
  forall ls', whole_reads texts' ls' ->
  exists c1, connection_reads Res response_of_message rc (concat_str <$> ls') (with_world w c) = Some (Ok (true, c1)) /\
    responses_got rq.*1 an (with_world w c) c1.
Proof.
  intros Hopen Hc Hs HQ HA Hlen HP HP'.
  destruct (client_writes r0 rq l c Hc HP HQ) as (w & ws & texts & e' & E1 & F1 & M1 & O1 & R1 & Q1 & X1 & S1).
  destruct (requests_prepared _ _ _ _ _ HQ F1 (co_encoder _ _ _ Hc) M1) as (us & U1 & -> & U2 & U3 & U4).
  exists w, ((fun u => sent_head u.1 +:+ u.2) <$> us). split; [exact E1|]. split; [exact O1|]. intros ls HL.
  destruct (server_side rs q0 s rq.*2 us ls Hopen Hs U1 U2 U3 U4 HL) as (s1 & E2 & G & O2 & Z2 & St2 & Q2 & L2).
  rewrite length_fmap, <- Hlen in Q2, L2.
  destruct (server_writes _ an l' s1 Q2 L2 Z2 St2 HA HP') as (w' & ws' & texts' & e2 & E3 & F3 & M3 & O3).
  destruct (responses_prepared _ _ _ _ _ HA F3 Z2 M3) as (vs & V1 & -> & V2 & V3 & V4).
  exists s1, w', ((fun u => answer_head u.1 +:+ u.2) <$> vs). split; [exact E2|]. split; [exact G|]. split; [exact E3|].
  split; [by rewrite O3, O2|]. intros ls' HL'.
  assert (Hl : length rq.*1 = length vs) by (apply Forall2_length in V4; rewrite !length_fmap in *; lia).
  destruct (client_reads rc r0 (with_world w c) vs ls' rq.*1 R1 (co_new _ _ _ Hc) Q1 (co_distinct _ _ _ Hc) Hl S1) as (c1 & E4 & P4 & V5 & A4);
    [cbn; rewrite X1; apply Hc|exact V1|exact V2|exact HL'|].
  exists c1. split; [exact E4|]. split; [by exists (a_pieces <$> vs.*1)| |exact V5].
  intros i id y Hi Hy. destruct (Forall2_lookup_l _ _ _ _ _ V4 Hy) as (v & Hv & Hsame).
  destruct (A4 i id v Hi Hv) as (o & r & rb & Hb & Ar & Lo & Lr). exists o, r. split; [|done]. exact (Hsame rb r Hb Ar).
Qed.

End Exchange.

(** ** An example *)

(** The memory of a fresh status holds 100, of all values. *)
#[local] Instance some_garbage : Garbage := fun _ => 100.

Definition blank_of {A} (o : outcome A) (d : A) : A := match o with Ok a => a | Crash _ => d end.
Definition client_object : http_response := blank_of (new_response 100) (a_response 0).
Definition server_object : http_request := blank_of (new_request false HTTP_GET) example_request.

Definition post_it : http_request * list string :=
  ({| base := example_headers true true 0 [("connection", "keep-alive"); ("transfer-encoding", "chunked")];
      _ssl := false; _method := HTTP_POST; _schema := ""; _urihost := ""; _port := ""; _path := "/b"; _query := "";
      _fragment := ""; _userinfo := ""; _params := ∅ |}, ["ab"; ""; "c"]).
Definition chunks_it : http_response * list string :=
  ({| response_base := example_headers true true 0 [("connection", "keep-alive"); ("transfer-encoding", "chunked")];
      _status_code := 404; _status_message := "Not Found" |}, ["x"; "yz"]).

Definition two_asked : list (nat * (http_request * list string)) := [(0%nat, get_it); (1%nat, post_it)].
Definition two_replies : list (http_response * list string) := [answer_it; chunks_it].

Definition the_client : connection http_response http_request := new_client client_object 2.
Definition the_server : connection http_request http_response := new_server server_object.

Lemma kept_asked : Forall kept_request two_asked.*2.
Proof.
  constructor; [|constructor; [|constructor]]; (split; [|reflexivity]);
    (split; [sendable_example|split; [split; by vm_compute|by vm_compute]|computed..]).
Qed.

Lemma kept_replies : Forall kept_response two_replies.
Proof.
  constructor; [|constructor; [|constructor]]; (split; [|split; [reflexivity|discriminate]]);
    (split; [sendable_example|by split|split; [done|a_reason_line]|computed..]).
Qed.

Lemma the_client_opened : client_opened client_object two_asked the_client.
Proof.
  split.
  - by exists 100.
  - apply asked_ready; [by exists 100|lia].
  - reflexivity.
  - reflexivity.
  - apply (bool_decide_unpack _). by vm_compute.
  - intros id o. cbn. destruct (decide (id = 1%nat)) as [->|H1]; [by intros [= <-]|].
    destruct (decide (id = 0%nat)) as [->|H0]; [by intros [= <-]|]. rewrite !lookup_insert_ne by done. by rewrite lookup_empty.
  - intros id Hid. apply elem_of_cons in Hid as [->|Hid]; [by eexists|]. apply list_elem_of_singleton in Hid as ->. by eexists.
  - intros id Hid. apply elem_of_cons in Hid as [->|Hid]; [by eexists|]. apply list_elem_of_singleton in Hid as ->. by eexists.
  - reflexivity.
  - reflexivity.
  - reflexivity.
Qed.

Lemma the_server_opened : server_opened server_object the_server.
Proof. split; try reflexivity. split; [exists UNSET, []; split; [by left|reflexivity]|by split]. Qed.

Definition server_remote : remote_object http_request := UserObjects.fresh all_callbacks server_object.
Definition client_remote : remote_object http_response := UserObjects.fresh all_callbacks client_object.

(** The second request is written first, and answered first. *)
Definition replies_written : list (nat * (http_response * list string)) := reverse (zip (seq 0 2) two_replies).

Definition sent_bytes : string :=
  match write_all (reverse two_asked) (conn the_client) with Ok w => outgoing w | Crash _ => "" end.
Definition served : option (connection http_request http_response) :=
  match connection_reads Req request_of_message server_remote [sent_bytes] the_server with Some (Ok (true, s)) => Some s | _ => None end.
Definition replied_bytes : string :=
  match served with
  | Some s => match write_all replies_written (conn s) with Ok w => outgoing w | Crash _ => "" end
  | None => ""
  end.

(** One read of all the messages. *)
Lemma read_at_once texts t : concat_str texts = t -> 0 < len t < 2 ^ 31 -> whole_reads texts [texts].
Proof.
  intros <- Hl. split; [apply app_nil_r|]. constructor; [|constructor]. split; [|lia]. intros ->. destruct Hl as [Hl _]. by vm_compute in Hl.
Qed.

Lemma exchange_witness :
  exists s1 c1 w, connection_reads Req request_of_message server_remote [sent_bytes] the_server = Some (Ok (true, s1)) /\
    requests_got server_remote two_asked.*2 the_server s1 /\
    write_all (reverse two_asked) (conn the_client) = Ok w /\
    connection_reads Res response_of_message client_remote [replied_bytes] (with_world w the_client) = Some (Ok (true, c1)) /\
    responses_got [0; 1]%nat two_replies (with_world w the_client) c1.
Proof.
  destruct (exchange server_remote client_remote client_object server_object two_asked (reverse two_asked) two_replies replies_written
    the_client the_server) as (w & texts & E1 & O1 & X).
  - reflexivity.
  - exact the_client_opened.
  - exact the_server_opened.
  - exact kept_asked.
  - exact kept_replies.
  - reflexivity.
  - apply reverse_Permutation.
  - apply reverse_Permutation.
  - assert (B1 : concat_str texts = sent_bytes) by (unfold sent_bytes; rewrite E1, O1; reflexivity).
    destruct (X [texts]) as (s1 & w' & texts' & E2 & G & E3 & O3 & Y); [eapply read_at_once; [exact B1|]; split; vm_compute; reflexivity|].
    cbn [fmap list_fmap] in E2. rewrite B1 in E2.
    assert (B2 : concat_str texts' = replied_bytes) by (unfold replied_bytes, served; rewrite E2, E3, O3; reflexivity).
    destruct (Y [texts']) as (c1 & E4 & P); [eapply read_at_once; [exact B2|]; split; vm_compute; reflexivity|].
    cbn [fmap list_fmap] in E4. rewrite B2 in E4.
    exists s1, c1, w. split; [exact E2|]. split; [exact G|]. split; [exact E1|]. split; [exact E4|exact P].
Defined.
