(* ===== verification/Streams.v ===== *)
(** * Output streams ([std::ostream], [std::stringstream])

    What the sources use of formatted output: the text so far, the fill
    character, the flags for the base and the side of the padding, the width of
    the next item, and [operator<<] of strings, characters and integers in the
    classic locale.  This is a model of the language's library; the class
    [save_stream] of [utils/date.h] restores such a state. *)

From S2P Require Import Prelude CppStd.

(** [std::ios::dec] or [std::ios::hex], and [left], [right], [internal] or none. *)
Inductive radix := dec | hex.
Inductive adjustment := adjust_none | adjust_left | adjust_right | adjust_internal.

Record fmtflags := { basefield : radix; adjustfield : adjustment }.

Record ostream := {
  text : string;
  fill : ascii;
  flags : fmtflags;
  width : Z }.

(** A new [std::stringstream]. *)
Definition new_stream : ostream :=
  {| text := ""; fill := " "; flags := {| basefield := dec; adjustfield := adjust_none |}; width := 0 |}.

Definition set_fill (c : ascii) (os : ostream) : ostream :=
  {| text := text os; fill := c; flags := flags os; width := width os |}.
Definition set_flags (f : fmtflags) (os : ostream) : ostream :=
  {| text := text os; fill := fill os; flags := f; width := width os |}.
Definition set_width (w : Z) (os : ostream) : ostream :=
  {| text := text os; fill := fill os; flags := flags os; width := w |}.

(** What is written takes the width back to 0. *)
Definition emit (s : string) (os : ostream) : ostream :=
  {| text := text os +:+ s; fill := fill os; flags := flags os; width := 0 |}.

Definition padding (os : ostream) (n : Z) : string :=
  of_chars (replicate (Z.to_nat (width os - n)) (fill os)).

(** [os << s] of a string or of a character. *)
Definition put_string (s : string) (os : ostream) : ostream :=
  match adjustfield (flags os) with
  | adjust_left => emit (s +:+ padding os (len s)) os
  | _ => emit (padding os (len s) +:+ s) os
  end.

Definition put_char (c : ascii) : ostream -> ostream := put_string (String c "").

(** [os << n] of a [w]-bit integer: decimals have a sign, hexadecimals are those of
    the two's complement; [internal] pads between the sign and the digits. *)
Definition sign_of (n : Z) : string := if n <? 0 then "-" else "".

Definition numeral (w : Z) (f : fmtflags) (n : Z) : string * string :=
  match basefield f with
  | dec => (sign_of n, to_string (Z.abs n))
  | hex => ("", print_radix 16 (wrap w n))
  end.

Definition put_int (w n : Z) (os : ostream) : ostream :=
  let '(sign, ds) := numeral w (flags os) n in
  let pad := padding os (len sign + len ds) in
  match adjustfield (flags os) with
  | adjust_left => emit (sign +:+ ds +:+ pad) os
  | adjust_internal => emit (sign +:+ pad +:+ ds) os
  | _ => emit (pad +:+ sign +:+ ds) os
  end.

(** ** Lemmas *)
Lemma padding_none os n : width os <= n -> padding os n = "".
Proof. intros H. unfold padding. by rewrite Z2Nat.nonpos by lia. Qed.

Lemma put_string_plain s os : width os <= len s -> put_string s os = emit s os.
Proof.
  intros H. unfold put_string. rewrite padding_none by done.
  rewrite string_app_nil_r, string_app_nil_l. by destruct (adjustfield _).
Qed.

(** Decimals without padding. *)
Definition print_dec (n : Z) : string := sign_of n +:+ to_string (Z.abs n).

Lemma put_int_plain w n os :
  basefield (flags os) = dec -> width os <= 0 -> put_int w n os = emit (print_dec n) os.
Proof.
  intros Hb Hw. unfold put_int, numeral, print_dec. rewrite Hb.
  rewrite padding_none by (pose proof (len_nonneg (sign_of n)); pose proof (len_nonneg (to_string (Z.abs n))); lia).
  rewrite !string_app_nil_l, string_app_nil_r. by destruct (adjustfield _).
Qed.

Lemma emit_twice s t os : emit t (emit s os) = emit (s +:+ t) os.
Proof. unfold emit. cbn. by rewrite string_app_assoc. Qed.

(** [n] in [k] digits at least, with zeros in front. *)
Definition zero_padded (k n : Z) : string :=
  of_chars (replicate (Z.to_nat (k - len (to_string n))) "0"%char) +:+ to_string n.

Lemma put_int_padded w n os :
  0 <= n -> fill os = "0"%char -> basefield (flags os) = dec ->
  adjustfield (flags os) = adjust_right \/ adjustfield (flags os) = adjust_internal ->
  put_int w n os = emit (zero_padded (width os) n) os.
Proof.
  intros Hn Hf Hb Ha. unfold put_int, numeral, zero_padded, padding, sign_of. rewrite Hb, Hf.
  destruct (Z.ltb_spec n 0); [lia|]. rewrite Z.abs_eq by done. cbn [len].
  change (len "") with 0. rewrite Z.add_0_l, !string_app_nil_l. by destruct Ha as [-> | ->].
Qed.

(** A negative one keeps its sign in front of the zeros. *)
Lemma put_int_padded_negative w n os :
  n < 0 -> fill os = "0"%char -> basefield (flags os) = dec -> adjustfield (flags os) = adjust_internal ->
  put_int w n os = emit ("-" +:+ zero_padded (width os - 1) (- n)) os.
Proof.
  intros Hn Hf Hb Ha. unfold put_int, numeral, zero_padded, padding, sign_of. rewrite Hb, Hf, Ha.
  rewrite (proj2 (Z.ltb_lt n 0) Hn), Z.abs_neq by lia. change (len "-") with 1. by rewrite Z.sub_add_distr.
Qed.
