(* ===== verification/Logging.v ===== *)
(** * Logging ([src/src/utils/log_wrapper.h], [src/src/utils/log_wrapper.cpp],
    [stringify] of [src/src/utils/utils.h])

    The two loggers of the process, their set-up, the six functions that write to
    them and the counter that builds them before the other static objects.  spdlog
    is a parameter: the class [Spdlog] has the calls that the sources make of it,
    [SpdlogLaws] what its documentation promises: levels filter, and a name is
    registered once.  A null pointer that is followed is [Crash Undefined]; an
    exception of spdlog leaves the function it was thrown in. *)

From S2P Require Import Prelude CppStd Streams.

(** ** spdlog *)
Module level.
Inductive level_enum := trace | debug | info | warn | err | critical | off.

Definition number (l : level_enum) : Z :=
  match l with trace => 0 | debug => 1 | info => 2 | warn => 3 | err => 4 | critical => 5 | off => 6 end.
End level.
Abbreviation level_enum := level.level_enum.

#[export] Instance level_eq_dec : EqDecision level_enum.
Proof. solve_decision. Defined.

(** [W] is what spdlog keeps, its registry and its sinks, [L] a pointer to a logger. *)
Class Spdlog (W L : Type) := {
  set_async_mode : W -> W;
  set_pattern : string -> W -> W;
  (** [None]: an exception, [spdlog::spdlog_ex]. *)
  basic_logger_mt : string -> string -> W -> option (L * W);
  stderr_logger_mt : string -> W -> option (L * W);
  set_level : L -> level_enum -> W -> W;
  flush_on : L -> level_enum -> W -> W;
  flush : L -> W -> W;
  (** What [logger->info("Doormat ", VERSION)] makes of its format. *)
  banner : string;
  (** [logger->trace(s)] and the like. *)
  log : L -> level_enum -> string -> W -> W }.

(** What can be told of spdlog's state: which names are registered, and of a
    logger its level and what went through to its sink. *)
Class SpdlogLaws (W L : Type) `{Spdlog W L} := {
  registered : string -> W -> bool;
  alive : L -> W -> Prop;
  level_of : L -> W -> level_enum;
  lines : L -> W -> list (level_enum * string);

  same_view (w w' : W) : Prop :=
    (forall n, registered n w' = registered n w) /\
    (forall l, alive l w -> alive l w' /\ level_of l w' = level_of l w /\ lines l w' = lines l w);

  set_async_mode_view w : same_view w (set_async_mode w);
  set_pattern_view p w : same_view w (set_pattern p w);
  flush_on_view l v w : same_view w (flush_on l v w);
  flush_view l w : same_view w (flush l w);

  (** A logger that is made is a new one, registered under a name that was free. *)
  made (n : string) (w : W) (r : option (L * W)) : Prop :=
    match r with
    | None => True
    | Some (l, w') =>
        registered n w = false /\ ~ alive l w /\ alive l w' /\ lines l w' = [] /\
        (forall m, registered m w' = bool_decide (m = n) || registered m w) /\
        (forall l', alive l' w -> alive l' w' /\ level_of l' w' = level_of l' w /\ lines l' w' = lines l' w)
    end;
  basic_logger_made n f w : made n w (basic_logger_mt n f w);
  stderr_logger_made n w : made n w (stderr_logger_mt n w);

  set_level_spec l v w :
    alive l w ->
    (forall n, registered n (set_level l v w) = registered n w) /\
    (forall l', alive l' w -> alive l' (set_level l v w) /\ lines l' (set_level l v w) = lines l' w) /\
    level_of l (set_level l v w) = v /\
    (forall l', alive l' w -> l' <> l -> level_of l' (set_level l v w) = level_of l' w);
  log_spec l v s w :
    alive l w -> v <> level.off ->
    (forall n, registered n (log l v s w) = registered n w) /\
    (forall l', alive l' w -> alive l' (log l v s w) /\ level_of l' (log l v s w) = level_of l' w) /\
    lines l (log l v s w) =
      lines l w ++ (if level.number (level_of l w) <=? level.number v then [(v, s)] else []) /\
    (forall l', alive l' w -> l' <> l -> lines l' (log l v s w) = lines l' w) }.

(** ** [utils::stringify] *)
Inductive stringify_arg :=
| arg_string (s : string)
| arg_char (c : ascii)
| arg_int (w n : Z).

Definition put_arg (a : stringify_arg) (ss : ostream) : ostream :=
  match a with
  | arg_string s => put_string s ss
  | arg_char c => put_char c ss
  | arg_int w n => put_int w n ss
  end.

Definition stringify (args : list stringify_arg) : string :=
  text (foldl (fun ss a => put_arg a ss) new_stream args).

(** ** [past_last_slash]: two pointers into the name of a file *)
Fixpoint past_last_slash_from (str last_slash : list ascii) : list ascii :=
  match str with
  | [] => last_slash
  | c :: str => if Ascii.eqb c "/"%char then past_last_slash_from str str
                else past_last_slash_from str last_slash
  end.

Definition past_last_slash (str : string) : string :=
  of_chars (past_last_slash_from (chars str) (chars str)).

Section Wrapper.
Context {W L : Type} `{Spdlog W L}.

(** ** The state *)
Record logger_stuff := {
  logger_ : option L;
  console_logger_ : option L;
  log_filename_ : string }.

(** The static objects of [details], and spdlog.  [stuff] is [None] while the raw
    storage holds no object. *)
Record system := {
  nifty_counter : Z;
  stuff : option logger_stuff;
  spd : W }.

Definition with_spd (f : W -> W) (s : system) : system :=
  {| nifty_counter := nifty_counter s; stuff := stuff s; spd := f (spd s) |}.

Definition with_stuff (x : logger_stuff) (s : system) : system :=
  {| nifty_counter := nifty_counter s; stuff := Some x; spd := spd s |}.

(** *** [logger_nifty_counter] *)
Definition logger_nifty_counter (s : system) : system :=
  {| nifty_counter := u64 (nifty_counter s + 1);
     stuff := if nifty_counter s =? 0
              then Some {| logger_ := None; console_logger_ := None; log_filename_ := "" |}
              else stuff s;
     spd := spd s |}.

Definition not_logger_nifty_counter (s : system) : system :=
  let n := u64 (nifty_counter s - 1) in
  {| nifty_counter := n; stuff := if n =? 0 then None else stuff s; spd := spd s |}.

(** *** Access: a null [shared_ptr], and the storage without an object *)
Definition the_stuff (s : system) : outcome logger_stuff := of_option Undefined (stuff s).

Definition the_logger (s : system) : outcome L :=
  x ← the_stuff s; of_option Undefined (logger_ x).
Definition the_console (s : system) : outcome L :=
  x ← the_stuff s; of_option Undefined (console_logger_ x).

(** *** [init] *)
Definition level_named (name : string) : level_enum :=
  if bool_decide (name = "trace") then level.trace
  else if bool_decide (name = "debug") then level.debug
  else if bool_decide (name = "warning") then level.warn
  else if bool_decide (name = "error") then level.err
  else if bool_decide (name = "fatal") then level.critical
  else level.off.

Definition log_file : string := "doormat_server_0.log".
Definition pattern : string :=
  of_chars (chars "%Y-%m-%d_%H:%M:%S.%f" ++ [ascii_of 9] ++ chars "[%l]" ++ [ascii_of 9] ++ chars "[%t] %v").

(** What both loggers are given once they are there. *)
Definition set_up (verbose : bool) (lvl : level_enum) (l c : L) (w : W) : W :=
  let w := set_level l lvl w in
  let w := set_level c (if verbose then level.trace else lvl) w in
  let w := set_pattern pattern w in
  let w := flush_on l level.critical w in
  let w := flush_on c level.critical w in
  log c level.info banner w.

(** The result says whether an exception of spdlog leaves the function. *)
Definition init (verbose : bool) (level folder : string) (s : system) : outcome (bool * system) :=
  let s := with_spd set_async_mode s in
  x ← the_stuff s;
  let file := folder +:+ log_file in
  let x := {| logger_ := logger_ x; console_logger_ := console_logger_ x; log_filename_ := file |} in
  let s := with_stuff x s in
  match basic_logger_mt "_logger" file (spd s) with
  | None => Ok (true, s)
  | Some (l, w) =>
      let x := {| logger_ := Some l; console_logger_ := console_logger_ x; log_filename_ := file |} in
      let s := with_stuff x (with_spd (fun _ => w) s) in
      match stderr_logger_mt "_console" (spd s) with
      | None => Ok (true, s)
      | Some (c, w) =>
          let x := {| logger_ := Some l; console_logger_ := Some c; log_filename_ := file |} in
          Ok (false, with_spd (set_up verbose (level_named level) l c) (with_stuff x (with_spd (fun _ => w) s)))
      end
  end.

(** *** [rotate] *)
Definition rotate (s : system) : outcome (bool * system) :=
  x ← the_stuff s;
  match logger_ x with
  | None => Ok (false, s)
  | Some l =>
      let s := with_spd (flush l) s in
      match basic_logger_mt "_logger" (log_filename_ x) (spd s) with
      | None => Ok (true, s)
      | Some (l', w) =>
          Ok (false, with_stuff {| logger_ := Some l'; console_logger_ := console_logger_ x;
                                   log_filename_ := log_filename_ x |} (with_spd (fun _ => w) s))
      end
  end.

(** *** [log_trace(s)], ..., [log_fatal(s)] *)
Definition log_at (v : level_enum) (msg : string) (s : system) : outcome system :=
  l ← the_logger s;
  let s := with_spd (log l v msg) s in
  c ← the_console s;
  Ok (with_spd (log c v msg) s).

Definition log_trace := log_at level.trace.
Definition log_debug := log_at level.debug.
Definition log_info := log_at level.info.
Definition log_warn := log_at level.warn.
Definition log_error := log_at level.err.
Definition log_fatal := log_at level.critical.

(** [log_trace(file, line, args...)] and the like, behind the macros. *)
Definition with_place (file : string) (line : Z) (args : list stringify_arg) : string :=
  stringify (arg_string "[" :: arg_string file :: arg_string ":" :: arg_int 32 line :: arg_string "] " :: args).

Definition LOGTRACE (path : string) (line : Z) (args : list stringify_arg) : system -> outcome system :=
  log_trace (with_place (past_last_slash path) line args).
Definition LOGDEBUG (path : string) (line : Z) (args : list stringify_arg) : system -> outcome system :=
  log_debug (with_place (past_last_slash path) line args).
Definition LOGINFO (path : string) (line : Z) (args : list stringify_arg) : system -> outcome system :=
  log_info (with_place (past_last_slash path) line args).
Definition LOGWARN (path : string) (line : Z) (args : list stringify_arg) : system -> outcome system :=
  log_warn (with_place (past_last_slash path) line args).
Definition LOGERROR (path : string) (line : Z) (args : list stringify_arg) : system -> outcome system :=
  log_error (with_place (past_last_slash path) line args).
Definition LOGFATAL (path : string) (line : Z) (args : list stringify_arg) : system -> outcome system :=
  log_fatal (with_place (past_last_slash path) line args).
End Wrapper.
Arguments logger_stuff : clear implicits.
Arguments system : clear implicits.

(** ** The name of the file *)
Lemma past_last_slash_from_spec str last :
  exists pre, str = pre ++ past_last_slash_from str str /\ (pre = [] \/ exists p, pre = p ++ ["/"%char]) /\
    ("/"%char ∉ past_last_slash_from str str) /\
    past_last_slash_from str last = (if decide (pre = []) then last else past_last_slash_from str str).
Proof.
  enough (G : exists pre rest, str = pre ++ rest /\ (pre = [] \/ exists p, pre = p ++ ["/"%char]) /\ ("/"%char ∉ rest) /\
    forall last, past_last_slash_from str last = (if decide (pre = []) then last else rest)).
  { destruct G as (pre & rest & E & Hp & Hr & Hf). exists pre. rewrite (Hf str), (Hf last).
    destruct (decide (pre = [])) as [->|]; subst; done. }
  clear last. induction str as [|c str (pre & rest & E & Hp & Hr & Hf)]; cbn [past_last_slash_from].
  - exists [], []. split_and!; [done|by left|apply not_elem_of_nil|done].
  - destruct (Ascii.eqb_spec c "/"%char) as [->|Hc].
    + exists ("/"%char :: pre), rest. split_and!; [by rewrite E| |done|].
      * right. destruct Hp as [->|[p ->]]; [by exists []|by exists ("/"%char :: p)].
      * intros last. rewrite Hf. cbn. destruct (decide (pre = [])) as [->|]; [|done]. by rewrite E.
    + destruct Hp as [->|[p ->]].
      * exists [], (c :: rest). split_and!; [by rewrite E|by left| |].
        { apply not_elem_of_cons. by split. }
        intros last. by rewrite Hf.
      * exists (c :: p ++ ["/"%char]), rest. split_and!; [by rewrite E|right; by exists (c :: p)|done|].
        intros last. rewrite Hf. destruct (decide (p ++ ["/"%char] = [])) as [Ep|]; [by destruct p|done].
Qed.

(** A message is marked with the last component of the path of its file. *)
Lemma past_last_slash_spec path :
  exists dir, path = dir +:+ past_last_slash path /\
    (dir = "" \/ exists d, dir = d +:+ "/") /\ "/"%char ∉ chars (past_last_slash path).
Proof.
  destruct (past_last_slash_from_spec (chars path) (chars path)) as (pre & E & Hp & Hr & _).
  exists (of_chars pre). unfold past_last_slash. rewrite chars_of_chars, <- of_chars_app, <- E, of_chars_chars.
  split_and!; [done| |done]. destruct Hp as [->|[p ->]]; [by left|right]. exists (of_chars p).
  by rewrite of_chars_app.
Qed.

(** ** The counter *)
Section Counter.
Context {W L : Type} `{Spdlog W L}.

(** Static objects of several files are made ([true]) and destroyed ([false]). *)
Definition count_one (s : system W L) (b : bool) : system W L :=
  if b then logger_nifty_counter s else not_logger_nifty_counter s.

(** How many there are after each step, as long as none is destroyed that was not made. *)
Fixpoint living (n : Z) (bs : list bool) : option Z :=
  match bs with
  | [] => Some n
  | true :: bs => living (n + 1) bs
  | false :: bs => if n <=? 0 then None else living (n - 1) bs
  end.

(** The loggers are there exactly while some file's counter is. *)
Lemma loggers_outlive_counters bs n (s : system W L) m :
  living n bs = Some m -> nifty_counter s = n -> 0 <= n -> n + Z.of_nat (length bs) < 2 ^ 64 ->
  (stuff s <> None <-> 0 < n) ->
  let s' := foldl count_one s bs in
  nifty_counter s' = m /\ (stuff s' <> None <-> 0 < m).
Proof.
  revert n s; induction bs as [|[] bs IH]; intros n s E Hs Hn Hb Hst; cbn [living foldl] in *.
  - simplify_eq. done.
  - cbn [length] in Hb. apply (IH (n + 1)); cbn; try done; try lia.
    + rewrite Hs. apply wrap_id. unfold in_range. lia.
    + rewrite Hs. destruct (Z.eqb_spec n 0); split; intros; try done; try lia. apply Hst. lia.
  - cbn [length] in Hb. destruct (Z.leb_spec n 0); [done|].
    assert (W1 : u64 (n - 1) = n - 1) by (apply wrap_id; unfold in_range; lia).
    apply (IH (n - 1)); cbn; rewrite ?Hs, ?W1; try done; try lia.
    destruct (Z.eqb_spec (n - 1) 0); split; intros; try done; try lia. apply Hst. lia.
Qed.
End Counter.

(** ** Messages *)
Section Messages.
Context {W L : Type} `{SpdlogLaws W L}.
Abbreviation system := (system W L).

(** Both loggers are there, with these levels, and have let these lines through. *)
Record ready (s : system) (l c : L) (lvl clvl : level_enum) (ls cs : list (level_enum * string)) : Prop := {
  ready_file : logger_ <$> stuff s = Some (Some l);
  ready_console : console_logger_ <$> stuff s = Some (Some c);
  ready_distinct : l <> c;
  ready_alive : alive l (spd s) /\ alive c (spd s);
  ready_known : registered "_logger" (spd s) = true;
  ready_levels : level_of l (spd s) = lvl /\ level_of c (spd s) = clvl;
  ready_lines : lines l (spd s) = ls /\ lines c (spd s) = cs }.

Definition passes (lvl : level_enum) (m : level_enum * string) : Prop := level.number lvl <= level.number m.1.
#[local] Instance passes_dec lvl m : Decision (passes lvl m).
Proof. unfold passes. apply _. Defined.

Lemma passes_if lvl v msg : (if level.number lvl <=? level.number v then [(v, msg)] else []) = filter (passes lvl) [(v, msg)].
Proof.
  unfold passes. rewrite filter_cons, filter_nil. cbn. destruct (Z.leb_spec (level.number lvl) (level.number v)).
  - by rewrite decide_True by done.
  - by rewrite decide_False by lia.
Qed.

Lemma ready_view s w' l c lvl clvl ls cs :
  ready s l c lvl clvl ls cs -> same_view (spd s) w' -> ready (with_spd (fun _ => w') s) l c lvl clvl ls cs.
Proof.
  intros [F C D [Al Ac] K [Ll Lc] [Nl Nc]] [Hr Hl]. destruct (Hl l Al) as (? & ? & ?), (Hl c Ac) as (? & ? & ?).
  split; cbn; rewrite ?Hr; try done; split; congruence.
Qed.

(** A message: both loggers see it, each lets it through by its own level. *)
Lemma ready_log s l c lvl clvl ls cs v msg :
  ready s l c lvl clvl ls cs -> v <> level.off ->
  exists s', log_at v msg s = Ok s' /\ stuff s' = stuff s /\
    ready s' l c lvl clvl (ls ++ filter (passes lvl) [(v, msg)]) (cs ++ filter (passes clvl) [(v, msg)]).
Proof.
  intros [F C D [Al Ac] K [Ll Lc] [Nl Nc]] Hv. unfold log_at, the_logger, the_console, the_stuff.
  destruct (stuff s) as [x|] eqn:Es; cbn in *; [|done]. injection F as F. injection C as C. rewrite F. cbn. rewrite Es. cbn.
  rewrite C. eexists. split; [done|]. split; [done|].
  destruct (log_spec l v msg (spd s) Al Hv) as (R1 & A1 & L1 & O1).
  destruct (A1 c Ac) as [Ac1 Lc1]. destruct (A1 l Al) as [Al1 Ll1].
  destruct (log_spec c v msg _ Ac1 Hv) as (R2 & A2 & L2 & O2). destruct (A2 c Ac1) as [Ac2 Lc2]. destruct (A2 l Al1) as [Al2 Ll2].
  split; cbn; rewrite ?Es; cbn; rewrite ?F, ?C; try done.
  - by rewrite R2, R1.
  - split; congruence.
  - rewrite (O2 l Al1 D), L1, L2, (O1 c Ac) by done. split.
    + by rewrite Nl, Ll, passes_if.
    + by rewrite Nc, Lc1, Lc, passes_if.
Qed.

(** Several calls of [log_trace], ..., [log_fatal]. *)
Fixpoint log_all (msgs : list (level_enum * string)) (s : system) : outcome system :=
  match msgs with [] => Ok s | (v, msg) :: msgs => s ← log_at v msg s; log_all msgs s end.

Lemma ready_log_all msgs s l c lvl clvl ls cs :
  ready s l c lvl clvl ls cs -> Forall (fun m => m.1 <> level.off) msgs ->
  exists s', log_all msgs s = Ok s' /\ stuff s' = stuff s /\
    ready s' l c lvl clvl (ls ++ filter (passes lvl) msgs) (cs ++ filter (passes clvl) msgs).
Proof.
  revert s ls cs; induction msgs as [|[v msg] msgs IH]; intros s ls cs R Hm.
  - exists s. by rewrite !filter_nil, !app_nil_r.
  - inversion Hm; subst. destruct (ready_log s l c lvl clvl ls cs v msg R) as (s1 & E1 & S1 & R1); [done|].
    destruct (IH s1 _ _ R1) as (s2 & E2 & S2 & R2); [done|]. exists s2.
    split; [cbn [log_all]; by rewrite E1|]. split; [congruence|]. change ((v, msg) :: msgs) with ([(v, msg)] ++ msgs).
    by rewrite !filter_app, !app_assoc.
Qed.

(** Two new loggers, set up. *)
Lemma set_up_ready (verbose : bool) lvl l c w n x :
  let clvl := if verbose then level.trace else lvl in
  l <> c -> alive l w -> alive c w -> registered "_logger" w = true -> lines l w = [] -> lines c w = [] ->
  ready {| nifty_counter := n; spd := set_up verbose lvl l c w;
           stuff := Some {| logger_ := Some l; console_logger_ := Some c; log_filename_ := x |} |}
    l c lvl clvl [] (filter (passes clvl) [(level.info, banner)]).
Proof.
  intros clvl D Al Ac K Ll Lc. unfold set_up. fold clvl. cbv zeta.
  destruct (set_level_spec l lvl w Al) as (S1 & A1 & V1 & O1). destruct (A1 l Al) as [Al1 Ll1], (A1 c Ac) as [Ac1 Lc1].
  destruct (set_level_spec c clvl _ Ac1) as (S2 & A2 & V2 & O2). destruct (A2 l Al1) as [Al2 Ll2], (A2 c Ac1) as [Ac2 Lc2].
  set (w2 := set_level c clvl (set_level l lvl w)) in *. set (w3 := flush_on c level.critical _).
  set (s2 := {| nifty_counter := n; spd := w2;
           stuff := Some {| logger_ := Some l; console_logger_ := Some c; log_filename_ := x |} |} : system).
  assert (Rd : ready s2 l c lvl clvl [] []).
  { split; cbn; try done; [by rewrite S2, S1|rewrite O2 by done; done|split; congruence]. }
  assert (V : same_view w2 w3).
  { destruct (set_pattern_view pattern w2) as [P1 P2]. destruct (flush_on_view l level.critical (set_pattern pattern w2)) as [P3 P4].
    destruct (flush_on_view c level.critical (flush_on l level.critical (set_pattern pattern w2))) as [P5 P6].
    split; [intros; unfold w3; by rewrite P5, P3, P1|]. intros k Hk. destruct (P2 k Hk) as (k1 & k2 & k3).
    destruct (P4 k k1) as (k4 & k5 & k6). destruct (P6 k k4) as (k7 & k8 & k9). split; [done|]. unfold w3. split; congruence. }
  destruct (ready_view s2 w3 _ _ _ _ _ _ Rd V) as [F C _ [Al3 Ac3] K3 [L3 L4] [N3 N4]]. cbn in Al3, Ac3, K3, L3, L4, N3, N4.
  destruct (log_spec c level.info banner w3 Ac3 ltac:(done)) as (R4 & A4 & L5 & O4).
  destruct (A4 l Al3) as [A5 V5], (A4 c Ac3) as [A6 V6]. split; cbn; try done.
  - by rewrite R4.
  - split; congruence.
  - rewrite (O4 l Al3 D), L5, N3, N4, L4. by rewrite passes_if.
Qed.

(** What [init] leaves when it returns. *)
Lemma init_ready verbose level folder s s' :
  init verbose level folder s = Ok (false, s') ->
  let clvl := if verbose then level.trace else level_named level in
  exists l c,
    stuff s' = Some {| logger_ := Some l; console_logger_ := Some c; log_filename_ := folder +:+ log_file |} /\
    ready s' l c (level_named level) clvl [] (filter (passes clvl) [(level.info, banner)]).
Proof.
  unfold init. intros E. inv_outcome. rename a into x.
  destruct (basic_logger_mt _ _ _) as [[l w]|] eqn:E1; [|done]. pose proof (basic_logger_made "_logger" (folder +:+ log_file)
    (spd (with_stuff {| logger_ := logger_ x; console_logger_ := console_logger_ x; log_filename_ := folder +:+ log_file |}
      (with_spd set_async_mode s)))) as M1. rewrite E1 in M1. destruct M1 as (_ & _ & Al & Ll & R1 & _). cbn in E.
  destruct (stderr_logger_mt "_console" w) as [[c w']|] eqn:E2; [|done]. pose proof (stderr_logger_made "_console" w) as M2.
  rewrite E2 in M2. destruct M2 as (_ & Nc & Ac & Lc & R2 & K2). injection E as <-. destruct (K2 l Al) as (Al' & _ & Ll').
  exists l, c. split; [done|]. apply set_up_ready; try done.
  - by intros ->.
  - rewrite R2, R1. done.
  - cbn. congruence.
Qed.

(** C34: Once [init] has returned, the log file holds the messages whose level
    reaches the one that was asked for, in order, and standard error the same
    after the banner, or everything when [verbose] is set.  The name that is asked
    for is one of five; any other one, [info] included, is the level [off], at
    which nothing is written.  [rotate] never makes a new file: its logger's name is
    taken by the logger it is to replace, and spdlog throws. *)
Theorem log_contents verbose level folder s s' msgs :
  init verbose level folder s = Ok (false, s') -> Forall (fun m => m.1 <> level.off) msgs ->
  exists l c s'', log_all msgs s' = Ok s'' /\
    logger_ <$> stuff s'' = Some (Some l) /\ console_logger_ <$> stuff s'' = Some (Some c) /\
    lines l (spd s'') = filter (passes (level_named level)) msgs /\
    lines c (spd s'') = filter (passes (if verbose then level.trace else level_named level)) ((level.info, banner) :: msgs) /\
    (level ∉ ["trace"; "debug"; "warning"; "error"; "fatal"] -> lines l (spd s'') = []) /\
    rotate s'' = Ok (true, with_spd (flush l) s'').
Proof.
  intros E Hm. destruct (init_ready _ _ _ _ _ E) as (l & c & Es & R).
  destruct (ready_log_all msgs s' _ _ _ _ _ _ R Hm) as (s'' & E2 & Es2 & [F C D [Al Ac] K [Ll Lc] [Nl Nc]]).
  exists l, c, s''. cbn [app] in Nl. split_and!; try done.
  - rewrite Nc, <- filter_app. done.
  - intros Hn. rewrite Nl. clear -Hm Hn. unfold level_named. rewrite !not_elem_of_cons in Hn. destruct Hn as (?&?&?&?&?&_).
    rewrite !bool_decide_false by done. induction Hm as [|[v m] msgs Hv Hm IH]; [done|]. rewrite filter_cons_False; [done|].
    unfold passes. cbn in *. destruct v; cbn; done || lia.
  - unfold rotate, the_stuff. rewrite Es2, Es. cbn. pose proof (basic_logger_made "_logger" (folder +:+ log_file) (flush l (spd s''))) as M.
    destruct (basic_logger_mt _ _ _) as [[l' w']|]; [|done]. destruct M as (Hf & _).
    destruct (flush_view l (spd s'')) as [Hr _]. by rewrite Hr, K in Hf.
Qed.
End Messages.

(** ** spdlog in small

    The registry as a map of names; a pointer to a logger is its name. *)
Abbreviation toy_spd := (gmap string (level_enum * list (level_enum * string))).

Definition toy_make (n : string) (w : toy_spd) : option (string * toy_spd) :=
  match w !! n with Some _ => None | None => Some (n, <[n := (level.info, [])]> w) end.

#[export] Instance toy_spdlog : Spdlog toy_spd string := {|
  set_async_mode w := w;
  set_pattern _ w := w;
  basic_logger_mt n _ w := toy_make n w;
  stderr_logger_mt n w := toy_make n w;
  set_level l v w := alter (fun x => (v, x.2)) l w;
  flush_on _ _ w := w;
  flush _ w := w;
  banner := "Doormat ";
  log l v s w := alter (fun x => (x.1, x.2 ++ if level.number x.1 <=? level.number v then [(v, s)] else [])) l w |}.

Definition toy_at (l : string) (w : toy_spd) : level_enum * list (level_enum * string) := default (level.info, []) (w !! l).
Definition toy_has (n : string) (w : toy_spd) : bool := bool_decide (is_Some (w !! n)).

Lemma toy_alter (l : string) f (w : toy_spd) :
  is_Some (w !! l) ->
  (forall n, toy_has n (alter f l w) = toy_has n w) /\
  (forall l', is_Some (w !! l') -> is_Some (alter f l w !! l')) /\
  toy_at l (alter f l w) = f (toy_at l w) /\ (forall l', l' <> l -> toy_at l' (alter f l w) = toy_at l' w).
Proof.
  intros [x E]. unfold toy_has, toy_at. split_and!.
  - intros n. apply bool_decide_ext. by rewrite lookup_alter_is_Some.
  - intros l' Hl. by rewrite lookup_alter_is_Some.
  - by rewrite lookup_alter_eq, E.
  - intros l' Hl. by rewrite lookup_alter_ne.
Qed.

#[export] Instance toy_spdlog_laws : SpdlogLaws toy_spd string.
Proof.
  refine {| registered := toy_has; alive l w := is_Some (w !! l);
            level_of l w := (toy_at l w).1; lines l w := (toy_at l w).2 |}.
  1-4: intros; split; intros; cbn; done.
  1-2: intros n; intros; cbn; unfold toy_make; destruct (w !! n) as [x|] eqn:E; [done|]; unfold toy_at, toy_has;
    rewrite E; split_and!; [by apply bool_decide_eq_false_2; intros []|by intros []|by rewrite lookup_insert_eq|by rewrite lookup_insert_eq| |];
    [intros m; destruct (decide (m = n)) as [->|];
      [rewrite lookup_insert_eq, (bool_decide_true (n = n)) by done; by apply bool_decide_true
      |by rewrite lookup_insert_ne, (bool_decide_false (m = n)) by done]
    |intros l' [y Ey]; rewrite lookup_insert_ne by congruence; by rewrite Ey].
  - intros l v w Hl. destruct (toy_alter l (fun x => (v, x.2)) w Hl) as (A & B & C & D). cbn. split_and!; try done.
    + intros l' Hl'. split; [by apply B|]. destruct (decide (l' = l)) as [->|]; [by rewrite C|by rewrite D].
    + by rewrite C.
    + intros l' _ Hn. by rewrite D.
  - intros l v s w Hl _. cbn. set (f := fun x : level_enum * list (level_enum * string) => _).
    destruct (toy_alter l f w Hl) as (A & B & C & D). split_and!; try done.
    + intros l' Hl'. split; [by apply B|]. destruct (decide (l' = l)) as [->|]; [by rewrite C|by rewrite D].
    + by rewrite C.
    + intros l' _ Hn. by rewrite D.
Defined.

Definition started : system toy_spd string :=
  logger_nifty_counter {| nifty_counter := 0; stuff := None; spd := ∅ |}.

(** The default arguments: an error is not logged. *)
Definition silent_start : system toy_spd string :=
  match init false "info" "" started with Ok (_, s) => s | Crash _ => started end.

Lemma log_contents_witness :
  init false "info" "" started = Ok (false, silent_start) /\
  exists l c s'', log_all [(level.err, "down")] silent_start = Ok s'' /\ lines l (spd s'') = [] /\
    lines c (spd s'') = [] /\ rotate s'' = Ok (true, with_spd (flush l) s'').
Proof.
  assert (E : init false "info" "" started = Ok (false, silent_start)) by (vm_compute; reflexivity).
  split; [exact E|].
  destruct (log_contents false "info" "" started silent_start [(level.err, "down")] E) as (l & c & s'' & R & _ & _ & Nl & Nc & _ & Rt).
  { repeat constructor. discriminate. }
  exists l, c, s''. split; [exact R|]. split; [rewrite Nl; reflexivity|]. split; [rewrite Nc; reflexivity|exact Rt].
Defined.

(** At the level [warning] the same message is there, with its place. *)
Example warning_start :
  (match init false "warning" "" started with
   | Ok (_, s) => (s ← LOGERROR "/usr/src/connector.h" 80 [arg_string "down"] s; LOGDEBUG "connector.h" 81 [arg_string "quiet"] s)
   | Crash e => Crash e
   end ≫= (fun s => Ok (toy_at "_logger" (spd s)).2)) = Ok [(level.err, "[connector.h:80] down")].
Proof. vm_compute. reflexivity. Qed.
