(* ===== verification/Http2Memory.v ===== *)
(** * Memory and exceptions of the HTTP/2 part ([src/src/http2/http2alloc.h],
    [src/src/http2/http2alloc.cpp], [src/src/http2/http2error.h])

    The allocator that nghttp2 is given, over the heap of the C library, and the
    exceptions that the sessions throw, with their texts.  What [malloc] answers is
    an argument: the address of a new block, or a null pointer ([None]).  The texts
    of nghttp2's codes are arguments too. *)

From S2P Require Import Prelude CppStd Utils.

(** ** The heap of the C library

    Blocks by their address; a byte that was never written is [None]. *)
Abbreviation block := (list (option Z)).
Abbreviation heap := (gmap Z block).

(** [malloc(n)], [free(p)], [realloc(p, n)]: a fresh block, whose size is the one
    asked for; the old block is copied and released when a new one is given. *)
Definition malloc (n : Z) (answer : option Z) (h : heap) : outcome (option Z * heap) :=
  match answer with
  | None => Ok (None, h)
  | Some p => Ok (Some p, <[p := replicate (Z.to_nat n) None]> h)
  end.

Definition free (p : option Z) (h : heap) : outcome heap :=
  match p with
  | None => Ok h
  | Some a => _ ← guard_ub (bool_decide (is_Some (h !! a))); Ok (delete a h)
  end.

Definition resized (n : nat) (b : block) : block := take n b ++ replicate (n - length b) None.

Definition realloc (p : option Z) (n : Z) (answer : option Z) (h : heap) : outcome (option Z * heap) :=
  match p with
  | None => malloc n answer h
  | Some a =>
      b ← of_option Undefined (h !! a);
      match answer with
      | None => Ok (None, h)
      | Some q => Ok (Some q, <[q := resized (Z.to_nat n) b]> (delete a h))
      end
  end.

(** [std::memset(p, c, n)] writes in a block that is long enough; a null pointer is
    not one, whatever [n] is. *)
Definition memset (p : option Z) (c n : Z) (h : heap) : outcome heap :=
  a ← of_option Undefined p;
  b ← of_option Undefined (h !! a);
  _ ← guard_ub (n <=? Z.of_nat (length b));
  Ok (<[a := replicate (Z.to_nat n) (Some c) ++ drop (Z.to_nat n) b]> h).

(** ** [http2_allocator<std::uint8_t>] *)
Definition allocate (n : Z) (answer : option Z) (h : heap) : outcome (option Z * heap) := malloc n answer h.
Definition deallocate (p : option Z) (n : Z) (h : heap) : outcome heap := free p h.
Definition allocator_realloc (p : option Z) (size : Z) (answer : option Z) (h : heap) : outcome (option Z * heap) :=
  realloc p size answer h.

(** ** The functions of [nghttp2_mem] *)
Definition malloc_cb (size : Z) (answer : option Z) (h : heap) : outcome (option Z * heap) := allocate size answer h.
Definition free_cb (ptr : option Z) (h : heap) : outcome heap := deallocate ptr 0 h.

Definition calloc_cb (nmemb size : Z) (answer : option Z) (h : heap) : outcome (option Z * heap) :=
  let real_size := u64 (size * nmemb) in
  r ← malloc_cb real_size answer h;
  h ← memset r.1 0 real_size r.2;
  Ok (r.1, h).

Definition realloc_cb (ptr : option Z) (size : Z) (answer : option Z) (h : heap) : outcome (option Z * heap) :=
  allocator_realloc ptr size answer h.

Record nghttp2_mem := {
  mem_malloc : Z -> option Z -> heap -> outcome (option Z * heap);
  mem_free : option Z -> heap -> outcome heap;
  mem_calloc : Z -> Z -> option Z -> heap -> outcome (option Z * heap);
  mem_realloc : option Z -> Z -> option Z -> heap -> outcome (option Z * heap) }.

Definition create_allocator : nghttp2_mem :=
  {| mem_malloc := malloc_cb; mem_free := free_cb; mem_calloc := calloc_cb; mem_realloc := realloc_cb |}.

(** *** What nghttp2 gets *)
Lemma memset_fresh p c n (h : heap) :
  0 <= n ->
  memset (Some p) c n (<[p := replicate (Z.to_nat n) None]> h) =
    Ok (<[p := replicate (Z.to_nat n) (Some c)]> h).
Proof.
  intros Hn. unfold memset. cbn. rewrite lookup_insert_eq. cbn. rewrite length_replicate, Z2Nat.id by done.
  rewrite Z.leb_refl. cbn. rewrite drop_ge by (by rewrite length_replicate). by rewrite app_nil_r, insert_insert_eq.
Qed.

(** nghttp2's [calloc] gives a block of zeros of the size that was
    asked for, and leaves every other block alone, when that size is one of 64 bits
    and the C library has memory.  Where it has none, nghttp2 expects a null
    pointer, which it would report as [NGHTTP2_ERR_NOMEM]: the callback writes to
    that pointer instead.  Where the product wraps, the block is shorter than what
    nghttp2 asked for. *)
Theorem calloc_outcome nmemb size answer (h : heap) :
  in_range 64 nmemb -> in_range 64 size ->
  (forall p, answer = Some p -> h !! p = None) ->
  match answer with
  | None => mem_calloc create_allocator nmemb size answer h = Crash Undefined
  | Some p =>
      exists b h', mem_calloc create_allocator nmemb size answer h = Ok (Some p, h') /\
        h' !! p = Some b /\ delete p h' = h /\ Forall (.= Some 0) b /\
        (Z.of_nat (length b) = nmemb * size <-> nmemb * size < 2 ^ 64) /\
        (2 ^ 64 <= nmemb * size -> Z.of_nat (length b) < nmemb * size)
  end.
Proof.
  intros Hn Hs Hf. cbn. unfold calloc_cb, malloc_cb, allocate, malloc. destruct answer as [p|]; [|done]. cbn [mbind outcome_bind fst snd].
  destruct (wrap_range 64 (size * nmemb)) as [W1 W2]; [lia|]. rewrite memset_fresh by done. cbn [mbind outcome_bind].
  eexists _, _. split; [done|]. rewrite lookup_insert_eq. split; [done|]. split.
  { rewrite delete_insert_eq. apply delete_id. by apply Hf. }
  split; [by apply Forall_replicate|]. rewrite length_replicate, Z2Nat.id by done. split; [split; intros E|intros E]; [lia| |lia].
  rewrite wrap_id; [lia|]. unfold in_range in *. split; [nia|lia].
Qed.

Lemma calloc_outcome_witness :
  (mem_calloc create_allocator 3 2 (Some 64) ∅ = Ok (Some 64, {[64 := replicate 6 (Some 0)]})) /\
  (mem_calloc create_allocator 3 2 None ∅ = Crash Undefined) /\
  (exists b h', mem_calloc create_allocator (2 ^ 63) 2 (Some 64) ∅ = Ok (Some 64, h') /\ h' !! 64 = Some b /\
     Z.of_nat (length b) < 2 ^ 64).
Proof.
  split; [vm_compute; reflexivity|]. split.
  - apply (calloc_outcome 3 2 None ∅); [unfold in_range; lia|unfold in_range; lia|]. intros p E. discriminate E.
  - destruct (calloc_outcome (2 ^ 63) 2 (Some 64) ∅) as (b & h' & E & Hb & _ & _ & _ & L);
      [unfold in_range; lia|unfold in_range; lia|intros p _; reflexivity|].
    exists b, h'. split; [exact E|]. split; [exact Hb|]. apply L. vm_compute. discriminate.
Defined.

(** What was allocated can be released, and the heap is as before. *)
Lemma free_malloc n p (h : heap) :
  h !! p = None ->
  (r ← mem_malloc create_allocator n (Some p) h; mem_free create_allocator r.1 r.2) = Ok h.
Proof.
  intros Hp. cbn. unfold free_cb, deallocate, free. rewrite lookup_insert_eq. rewrite bool_decide_true by done. cbn.
  by rewrite delete_insert_eq, delete_id.
Qed.

(** A block that is resized keeps what both sizes have in common; a failure keeps
    the block. *)
Lemma realloc_keeps a n q b (h : heap) :
  0 <= n -> h !! a = Some b -> delete a h !! q = None ->
  exists h', mem_realloc create_allocator (Some a) n (Some q) h = Ok (Some q, h') /\ delete q h' = delete a h /\
    exists b', h' !! q = Some b' /\ Z.of_nat (length b') = n /\
      forall i, (i < length b)%nat -> Z.of_nat i < n -> b' !! i = b !! i.
Proof.
  intros Hn Ha Hq. cbn. unfold realloc_cb, allocator_realloc, realloc. rewrite Ha. cbn. eexists. split; [done|].
  split; [by rewrite delete_insert_eq, delete_id|]. rewrite lookup_insert_eq. eexists. split; [done|]. unfold resized. split.
  - rewrite length_app, length_take, length_replicate. lia.
  - intros i Hi Hlt. rewrite lookup_app_l by (rewrite length_take; lia). apply lookup_take_lt. lia.
Qed.

(** ** Exceptions *)
Inductive failure_class :=
| setting_connection_failure
| session_recv_failure
| session_send_failure
| too_many_streams_failure
| failing_at_failing.

Record failure := {
  class_of : failure_class;
  nge : Z;
  error : string;
  filename : string;
  line : Z }.

(** The two constructors, behind [THROW(exception, error)]: of a text, of a code of
    nghttp2. *)
Definition of_text (c : failure_class) (e f : string) (l : Z) : failure :=
  {| class_of := c; nge := 0; error := e; filename := f; line := l |}.
Definition of_code (c : failure_class) (n : Z) (f : string) (l : Z) : failure :=
  {| class_of := c; nge := n; error := ""; filename := f; line := l |}.

Section Texts.
(** [nghttp2_strerror] of a code of the library, [nghttp2_http2_strerror] of an
    error code of HTTP/2, an unsigned number of 32 bits. *)
Context (nghttp2_strerror nghttp2_http2_strerror : Z -> string).

Definition what (e : failure) : string := if nge e =? 0 then error e else nghttp2_strerror (nge e).

Definition what_formatted (e : failure) : string :=
  (if nge e =? 0 then error e else nghttp2_http2_strerror (wrap 32 (nge e)))
    +:+ " filename: " +:+ filename e +:+ " line: " +:+ from 32 (line e).

End Texts.

(** The same digits are worth more in a greater base. *)
Lemma eval_digits_base es x y :
  Forall (fun d => 0 <= d) es -> 0 <= x <= y -> 0 <= eval_digits 10 x es <= eval_digits 16 y es.
Proof.
  intros F. revert x y. induction F as [|d es Hd F IH]; intros x y Hxy; cbn; [lia|]. apply IH. lia.
Qed.

Lemma decimal_is_hexadecimal es n :
  Forall (fun d => 0 <= d < 10) es -> eval_digits 10 0 es = n -> eval_digits 16 0 es = n -> n < 10.
Proof.
  destruct es as [|d es] using rev_ind; [cbn; lia|]. clear IHes. intros [F Hd%Forall_inv]%Forall_app.
  unfold eval_digits in *. rewrite !foldl_snoc. intros E10 E16.
  assert (G := eval_digits_base es 0 0). unfold eval_digits in G.
  destruct G as [G1 G2]; [|lia|lia]. eapply Forall_impl; [exact F|]. cbn. lia.
Qed.

(** The line is in hexadecimal: the text is the line's decimal only below 10. *)
Lemma line_is_hexadecimal f g c e file l :
  0 <= l < 2 ^ 31 ->
  exists ds, what_formatted g (of_text c e file l) = e +:+ " filename: " +:+ file +:+ " line: " +:+ ds /\
    what f (of_text c e file l) = e /\ parse_radix 16 ds = Some l /\ (10 <= l -> ds <> to_string l).
Proof.
  intros Hl. exists (from 32 l). split; [done|]. split; [done|]. unfold from. rewrite wrap_id by (unfold in_range; lia).
  split; [apply parse_print_radix; lia|]. intros Hge E.
  destruct (print_radix_digits 16 l) as (ds & _ & E16 & F16 & V16); [lia|lia|].
  destruct (print_radix_digits 10 l) as (es & _ & E10 & F10 & V10); [lia|lia|].
  rewrite E, E10 in E16. assert (D : (ds, @nil ascii) = (es, [])).
  { rewrite <- (scan_digits_map 16 ds), <- (scan_digits_map 16 es), E16; try done; try lia.
    eapply Forall_impl; [exact F10|]. cbn. lia. }
  injection D as ->. pose proof (decimal_is_hexadecimal es l F10 V10 V16). lia.
Qed.

Example line_71 (f g : Z -> string) :
  what_formatted g (of_text session_send_failure "no" "session.cpp" 71) = "no filename: session.cpp line: 47".
Proof. vm_compute. reflexivity. Qed.

(** The code of the library, a negative number, is read as one of HTTP/2 by
    [what_formatted] and as what it is by [what]. *)
Lemma code_is_reinterpreted f g c n file l :
  - 2 ^ 31 <= n < 0 ->
  what f (of_code c n file l) = f n /\
  what_formatted g (of_code c n file l) = g (n + 2 ^ 32) +:+ " filename: " +:+ file +:+ " line: " +:+ from 32 l.
Proof.
  intros Hn. unfold what, what_formatted. cbn. destruct (Z.eqb_spec n 0); [lia|]. split; [done|]. f_equal. f_equal.
  unfold wrap. rewrite <- (Z_mod_plus_full n 1). rewrite Z.mod_small by lia. lia.
Qed.
