(* ===== verification/Calendar.v ===== *)
(** * The calendar types ([src/src/utils/date.h])

    Days, months, years, weekdays and what is composed of them, with their
    arithmetic and comparisons.  A class is a record of its members; a member of
    type [unsigned char] or [short] holds an integer of that width, conversions to
    it wrap.  Durations ([days], [months], [years]) count in an [int]: an [int]
    that overflows is [Crash Undefined], so is an access out of a table.  The
    operators of a class are in a module of its name: [plus] and [minus] of a
    duration, [diff] of two values, [eqb], [ltb] and their four companions. *)

From S2P Require Import Prelude CppStd.

(** ** Integers *)

(** Arithmetic on a signed integer of [w] bits is undefined out of its range. *)
Definition fits (w z : Z) : bool := (- 2 ^ (w - 1) <=? z) && (z <? 2 ^ (w - 1)).
Definition checked (w z : Z) : outcome Z := if fits w z then Ok z else Crash Undefined.
Abbreviation int32 := (checked 32).
Abbreviation int64 := (checked 64).

(** The conversion to it wraps. *)
Definition signed (w z : Z) : Z := (z + 2 ^ (w - 1)) mod 2 ^ w - 2 ^ (w - 1).
Abbreviation s16 := (signed 16).
Abbreviation s32 := (signed 32).

Lemma fits_true w z : fits w z = true <-> - 2 ^ (w - 1) <= z < 2 ^ (w - 1).
Proof. unfold fits. rewrite andb_true_iff. lia. Qed.

Lemma checked_Ok w z : - 2 ^ (w - 1) <= z < 2 ^ (w - 1) -> checked w z = Ok z.
Proof. intros H. unfold checked. by rewrite (proj2 (fits_true w z)). Qed.

Lemma checked_inv w z r : checked w z = Ok r -> r = z /\ - 2 ^ (w - 1) <= z < 2 ^ (w - 1).
Proof. unfold checked. destruct (fits w z) eqn:E; [|done]. intros [= <-]. split; [done|]. by apply fits_true. Qed.

Lemma signed_id w z : 0 < w -> - 2 ^ (w - 1) <= z < 2 ^ (w - 1) -> signed w z = z.
Proof.
  intros Hw H. unfold signed. assert (E : 2 ^ w = 2 * 2 ^ (w - 1)) by (rewrite <- Z.pow_succ_r by lia; f_equal; lia).
  rewrite Z.mod_small; lia.
Qed.

Lemma int32_Ok z : - 2147483648 <= z < 2147483648 -> int32 z = Ok z.
Proof. apply (checked_Ok 32). Qed.
Lemma s32_id z : - 2147483648 <= z < 2147483648 -> s32 z = z.
Proof. apply (signed_id 32). lia. Qed.
Lemma s16_id z : - 32768 <= z < 32768 -> s16 z = z.
Proof. apply (signed_id 16). lia. Qed.
Lemma u32_id z : 0 <= z < 4294967296 -> u32 z = z.
Proof. apply (wrap_id 32). Qed.
Lemma u8_id z : 0 <= z < 256 -> u8 z = z.
Proof. apply (wrap_id 8). Qed.
Create Rewrite HintDb int_rw.
#[export] Hint Rewrite int32_Ok s32_id s16_id u32_id u8_id using lia : int_rw.

(** [-d] of a duration. *)
Definition negate (d : Z) : outcome Z := int32 (- d).

(** An element of a table by an unsigned index. *)
Definition table_at {A} (t : list A) (i : Z) : outcome A := of_option Undefined (t !! Z.to_nat i).

(** ** The classes *)
Record day := { d_ : Z }.
Record month := { m_ : Z }.
Record year := { y_ : Z }.
Record weekday := { wd_ : Z }.
Record weekday_indexed := { wi_wd : Z; wi_index : Z }.
Record weekday_last := { wdl_wd : weekday }.
Record year_month := { ym_year : year; ym_month : month }.
Record month_day := { md_month : month; md_day : day }.
Record month_day_last := { mdl_month : month }.
Record month_weekday := { mwd_month : month; mwd_wdi : weekday_indexed }.
Record month_weekday_last := { mwdl_month : month; mwdl_wdl : weekday_last }.
Record year_month_day := { ymd_year : year; ymd_month : month; ymd_day : day }.
Record year_month_day_last := { ymdl_year : year; ymdl_mdl : month_day_last }.
Record year_month_weekday := { ymwd_year : year; ymwd_month : month; ymwd_wdi : weekday_indexed }.
Record year_month_weekday_last := { ymwdl_year : year; ymwdl_month : month; ymwdl_wdl : weekday_last }.

#[export] Instance day_eq_dec : EqDecision day. Proof. solve_decision. Defined.
#[export] Instance month_eq_dec : EqDecision month. Proof. solve_decision. Defined.
#[export] Instance year_eq_dec : EqDecision year. Proof. solve_decision. Defined.
#[export] Instance weekday_eq_dec : EqDecision weekday. Proof. solve_decision. Defined.
#[export] Instance year_month_day_eq_dec : EqDecision year_month_day. Proof. solve_decision. Defined.

(** The constructors from integers: [explicit day(unsigned)] and the like. *)
Definition mk_day (d : Z) : day := {| d_ := u8 d |}.
Definition mk_month (m : Z) : month := {| m_ := u8 m |}.
Definition mk_year (y : Z) : year := {| y_ := s16 y |}.
Definition mk_weekday (wd : Z) : weekday := {| wd_ := u8 wd |}.
(** Bit-fields of four bits. *)
Definition mk_weekday_indexed (wd : weekday) (index : Z) : weekday_indexed :=
  {| wi_wd := wrap 4 (wd_ wd); wi_index := wrap 4 (u8 index) |}.

(** The members are of the width of their types. *)
Definition day_wf (d : day) : Prop := 0 <= d_ d < 256.
Definition month_wf (m : month) : Prop := 0 <= m_ m < 256.
Definition year_wf (y : year) : Prop := - 32768 <= y_ y < 32768.
Definition weekday_wf (wd : weekday) : Prop := 0 <= wd_ wd < 256.

Module Day.
Definition inc (x : day) : day := {| d_ := u8 (d_ x + 1) |}.
Definition post_inc (x : day) : day * day := (x, inc x).
Definition dec (x : day) : day := {| d_ := u8 (d_ x - 1) |}.
Definition post_dec (x : day) : day * day := (x, dec x).
Definition ok (x : day) : bool := (1 <=? d_ x) && (d_ x <=? 31).

Definition eqb (x y : day) : bool := d_ x =? d_ y.
Definition neb (x y : day) : bool := negb (eqb x y).
Definition ltb (x y : day) : bool := d_ x <? d_ y.
Definition gtb (x y : day) : bool := ltb y x.
Definition leb (x y : day) : bool := negb (ltb y x).
Definition geb (x y : day) : bool := negb (ltb x y).

(** The difference of two unsigned, as a count of days. *)
Definition diff (x y : day) : Z := s32 (u32 (d_ x - d_ y)).
Definition plus (x : day) (y : Z) : day := mk_day (u32 (d_ x + u32 y)).
Definition days_plus (x : Z) (y : day) : day := plus y x.
Definition minus (x : day) (y : Z) : outcome day := y ← negate y; Ok (plus x y).
Definition plus_assign (x : day) (d : Z) : day := plus x d.
Definition minus_assign (x : day) (d : Z) : outcome day := minus x d.
End Day.

Module Month.
Definition inc (x : month) : month := let m := u8 (m_ x + 1) in {| m_ := if m =? 13 then 1 else m |}.
Definition post_inc (x : month) : month * month := (x, inc x).
Definition dec (x : month) : month := let m := u8 (m_ x - 1) in {| m_ := if m =? 0 then 12 else m |}.
Definition post_dec (x : month) : month * month := (x, dec x).
Definition ok (x : month) : bool := (1 <=? m_ x) && (m_ x <=? 12).

Definition eqb (x y : month) : bool := m_ x =? m_ y.
Definition neb (x y : month) : bool := negb (eqb x y).
Definition ltb (x y : month) : bool := m_ x <? m_ y.
Definition gtb (x y : month) : bool := ltb y x.
Definition leb (x y : month) : bool := negb (ltb y x).
Definition geb (x y : month) : bool := negb (ltb x y).

Definition diff (x y : month) : Z :=
  let d := u32 (m_ x - m_ y) in s32 (if d <=? 11 then d else u32 (d + 12)).
(** On [long long]: nothing overflows. *)
Definition plus (x : month) (y : Z) : month :=
  let mu := m_ x - 1 + y in
  let yr := Z.quot (if 0 <=? mu then mu else mu - 11) 12 in
  mk_month (u32 (mu - yr * 12 + 1)).
Definition months_plus (x : Z) (y : month) : month := plus y x.
Definition minus (x : month) (y : Z) : outcome month := y ← negate y; Ok (plus x y).
Definition plus_assign (x : month) (m : Z) : month := plus x m.
Definition minus_assign (x : month) (m : Z) : outcome month := minus x m.
End Month.

Module Year.
Definition inc (x : year) : year := {| y_ := s16 (y_ x + 1) |}.
Definition post_inc (x : year) : year * year := (x, inc x).
Definition dec (x : year) : year := {| y_ := s16 (y_ x - 1) |}.
Definition post_dec (x : year) : year * year := (x, dec x).
Definition is_leap (x : year) : bool :=
  (Z.rem (y_ x) 4 =? 0) && (negb (Z.rem (y_ x) 100 =? 0) || (Z.rem (y_ x) 400 =? 0)).
Definition ok (x : year) : bool := true.
Definition min : year := mk_year (- 2 ^ 15).
Definition max : year := mk_year (2 ^ 15 - 1).

Definition eqb (x y : year) : bool := y_ x =? y_ y.
Definition neb (x y : year) : bool := negb (eqb x y).
Definition ltb (x y : year) : bool := y_ x <? y_ y.
Definition gtb (x y : year) : bool := ltb y x.
Definition leb (x y : year) : bool := negb (ltb y x).
Definition geb (x y : year) : bool := negb (ltb x y).

Definition diff (x y : year) : outcome Z := int32 (y_ x - y_ y).
Definition plus (x : year) (y : Z) : outcome year := n ← int32 (y_ x + y); Ok (mk_year n).
Definition years_plus (x : Z) (y : year) : outcome year := plus y x.
Definition minus (x : year) (y : Z) : outcome year := n ← int32 (y_ x - y); Ok (mk_year n).
Definition plus_assign (x : year) (y : Z) : outcome year := plus x y.
Definition minus_assign (x : year) (y : Z) : outcome year := minus x y.
End Year.

Module Weekday.
Definition weekday_from_days (z : Z) : outcome Z :=
  if -4 <=? z then n ← int32 (z + 4); Ok (u8 (u32 (Z.rem n 7)))
  else n ← int32 (z + 5); Ok (u8 (u32 (Z.rem n 7 + 6))).
(** From a count of days since 1970-01-01, of the system's clock or of a local one. *)
Definition of_sys_days (dp : Z) : outcome weekday := n ← weekday_from_days dp; Ok {| wd_ := n |}.
Definition of_local_days (dp : Z) : outcome weekday := n ← weekday_from_days dp; Ok {| wd_ := n |}.

Definition inc (x : weekday) : weekday := let w := u8 (wd_ x + 1) in {| wd_ := if w =? 7 then 0 else w |}.
Definition post_inc (x : weekday) : weekday * weekday := (x, inc x).
Definition dec (x : weekday) : weekday := {| wd_ := if wd_ x =? 0 then 6 else u8 (wd_ x - 1) |}.
Definition post_dec (x : weekday) : weekday * weekday := (x, dec x).
Definition ok (x : weekday) : bool := wd_ x <=? 6.

Definition eqb (x y : weekday) : bool := wd_ x =? wd_ y.
Definition neb (x y : weekday) : bool := negb (eqb x y).

Definition diff (x y : weekday) : Z :=
  let diff := u32 (wd_ x - wd_ y) in s32 (if diff <=? 6 then diff else u32 (diff + 7)).
Definition plus (x : weekday) (y : Z) : weekday :=
  let wdu := wd_ x + y in
  let wk := Z.quot (if 0 <=? wdu then wdu else wdu - 6) 7 in
  mk_weekday (u32 (wdu - wk * 7)).
Definition days_plus (x : Z) (y : weekday) : weekday := plus y x.
Definition minus (x : weekday) (y : Z) : outcome weekday := y ← negate y; Ok (plus x y).
Definition plus_assign (x : weekday) (d : Z) : weekday := plus x d.
Definition minus_assign (x : weekday) (d : Z) : outcome weekday := minus x d.

(** [wd[index]] and [wd[last]]. *)
Definition at_index (x : weekday) (index : Z) : weekday_indexed := mk_weekday_indexed x index.
Definition at_last (x : weekday) : weekday_last := {| wdl_wd := x |}.
End Weekday.

Module WeekdayIndexed.
Definition weekday (x : weekday_indexed) : Calendar.weekday := mk_weekday (wi_wd x).
Definition index (x : weekday_indexed) : Z := wi_index x.
Definition ok (x : weekday_indexed) : bool := Weekday.ok (weekday x) && (1 <=? wi_index x) && (wi_index x <=? 5).
Definition eqb (x y : weekday_indexed) : bool := Weekday.eqb (weekday x) (weekday y) && (index x =? index y).
Definition neb (x y : weekday_indexed) : bool := negb (eqb x y).
End WeekdayIndexed.

Module WeekdayLast.
Definition ok (x : weekday_last) : bool := Weekday.ok (wdl_wd x).
Definition eqb (x y : weekday_last) : bool := Weekday.eqb (wdl_wd x) (wdl_wd y).
Definition neb (x y : weekday_last) : bool := negb (eqb x y).
End WeekdayLast.

(** ** The names [jan], ..., [sat] *)
Definition jan : month := mk_month 1.
Definition feb : month := mk_month 2.
Definition mar : month := mk_month 3.
Definition apr : month := mk_month 4.
Definition may : month := mk_month 5.
Definition jun : month := mk_month 6.
Definition jul : month := mk_month 7.
Definition aug : month := mk_month 8.
Definition sep : month := mk_month 9.
Definition oct : month := mk_month 10.
Definition nov : month := mk_month 11.
Definition dec : month := mk_month 12.

Definition sun : weekday := mk_weekday 0.
Definition mon : weekday := mk_weekday 1.
Definition tue : weekday := mk_weekday 2.
Definition wed : weekday := mk_weekday 3.
Definition thu : weekday := mk_weekday 4.
Definition fri : weekday := mk_weekday 5.
Definition sat : weekday := mk_weekday 6.

(** [operator "" _d], [operator "" _y] of an [unsigned long long]. *)
Definition literal_d (d : Z) : day := mk_day (u32 d).
Definition literal_y (y : Z) : year := mk_year (s32 y).

(** ** [operator/]: dates are composed with slashes

    An [int] stands for a month, a day or a year; it is converted to [unsigned]
    on the way to the first two. *)
Module Slash.
Definition year_month (y : year) (m : month) : Calendar.year_month := {| ym_year := y; ym_month := m |}.
Definition year_int (y : year) (m : Z) : Calendar.year_month := year_month y (mk_month (u32 m)).

Definition month_day (m : month) (d : day) : Calendar.month_day := {| md_month := m; md_day := d |}.
Definition day_month (d : day) (m : month) : Calendar.month_day := month_day m d.
Definition month_int (m : month) (d : Z) : Calendar.month_day := month_day m (mk_day (u32 d)).
Definition int_day (m : Z) (d : day) : Calendar.month_day := month_day (mk_month (u32 m)) d.
Definition day_int (d : day) (m : Z) : Calendar.month_day := int_day m d.

Definition month_last (m : month) : month_day_last := {| mdl_month := m |}.
Definition last_month (m : month) : month_day_last := month_last m.
Definition int_last (m : Z) : month_day_last := month_last (mk_month (u32 m)).
Definition last_int (m : Z) : month_day_last := int_last m.

Definition month_wdi (m : month) (wdi : weekday_indexed) : month_weekday := {| mwd_month := m; mwd_wdi := wdi |}.
Definition wdi_month (wdi : weekday_indexed) (m : month) : month_weekday := month_wdi m wdi.
Definition int_wdi (m : Z) (wdi : weekday_indexed) : month_weekday := month_wdi (mk_month (u32 m)) wdi.
Definition wdi_int (wdi : weekday_indexed) (m : Z) : month_weekday := int_wdi m wdi.

Definition month_wdl (m : month) (wdl : weekday_last) : month_weekday_last := {| mwdl_month := m; mwdl_wdl := wdl |}.
Definition wdl_month (wdl : weekday_last) (m : month) : month_weekday_last := month_wdl m wdl.
Definition int_wdl (m : Z) (wdl : weekday_last) : month_weekday_last := month_wdl (mk_month (u32 m)) wdl.
Definition wdl_int (wdl : weekday_last) (m : Z) : month_weekday_last := int_wdl m wdl.

Definition ym_day (ym : Calendar.year_month) (d : day) : year_month_day :=
  {| ymd_year := ym_year ym; ymd_month := ym_month ym; ymd_day := d |}.
Definition ym_int (ym : Calendar.year_month) (d : Z) : year_month_day := ym_day ym (mk_day (u32 d)).
Definition year_md (y : year) (md : Calendar.month_day) : year_month_day := ym_day (year_month y (md_month md)) (md_day md).
Definition int_md (y : Z) (md : Calendar.month_day) : year_month_day := year_md (mk_year y) md.
Definition md_year (md : Calendar.month_day) (y : year) : year_month_day := year_md y md.
Definition md_int (md : Calendar.month_day) (y : Z) : year_month_day := year_md (mk_year y) md.

Definition ym_last (ym : Calendar.year_month) : year_month_day_last :=
  {| ymdl_year := ym_year ym; ymdl_mdl := {| mdl_month := ym_month ym |} |}.
Definition year_mdl (y : year) (mdl : month_day_last) : year_month_day_last := {| ymdl_year := y; ymdl_mdl := mdl |}.
Definition int_mdl (y : Z) (mdl : month_day_last) : year_month_day_last := year_mdl (mk_year y) mdl.
Definition mdl_year (mdl : month_day_last) (y : year) : year_month_day_last := year_mdl y mdl.
Definition mdl_int (mdl : month_day_last) (y : Z) : year_month_day_last := year_mdl (mk_year y) mdl.

Definition ym_wdi (ym : Calendar.year_month) (wdi : weekday_indexed) : year_month_weekday :=
  {| ymwd_year := ym_year ym; ymwd_month := ym_month ym; ymwd_wdi := wdi |}.
Definition year_mwd (y : year) (mwd : month_weekday) : year_month_weekday :=
  {| ymwd_year := y; ymwd_month := mwd_month mwd; ymwd_wdi := mwd_wdi mwd |}.
Definition int_mwd (y : Z) (mwd : month_weekday) : year_month_weekday := year_mwd (mk_year y) mwd.
Definition mwd_year (mwd : month_weekday) (y : year) : year_month_weekday := year_mwd y mwd.
Definition mwd_int (mwd : month_weekday) (y : Z) : year_month_weekday := year_mwd (mk_year y) mwd.

Definition ym_wdl (ym : Calendar.year_month) (wdl : weekday_last) : year_month_weekday_last :=
  {| ymwdl_year := ym_year ym; ymwdl_month := ym_month ym; ymwdl_wdl := wdl |}.
Definition year_mwdl (y : year) (mwdl : month_weekday_last) : year_month_weekday_last :=
  {| ymwdl_year := y; ymwdl_month := mwdl_month mwdl; ymwdl_wdl := mwdl_wdl mwdl |}.
Definition int_mwdl (y : Z) (mwdl : month_weekday_last) : year_month_weekday_last := year_mwdl (mk_year y) mwdl.
Definition mwdl_year (mwdl : month_weekday_last) (y : year) : year_month_weekday_last := year_mwdl y mwdl.
Definition mwdl_int (mwdl : month_weekday_last) (y : Z) : year_month_weekday_last := year_mwdl (mk_year y) mwdl.
End Slash.

(** ** Classes without a count of days *)
Module YearMonth.
Definition ok (x : year_month) : bool := Year.ok (ym_year x) && Month.ok (ym_month x).
Definition eqb (x y : year_month) : bool := Year.eqb (ym_year x) (ym_year y) && Month.eqb (ym_month x) (ym_month y).
Definition neb (x y : year_month) : bool := negb (eqb x y).
Definition ltb (x y : year_month) : bool :=
  if Year.ltb (ym_year x) (ym_year y) then true
  else if Year.gtb (ym_year x) (ym_year y) then false
  else Month.ltb (ym_month x) (ym_month y).
Definition gtb (x y : year_month) : bool := ltb y x.
Definition leb (x y : year_month) : bool := negb (ltb y x).
Definition geb (x y : year_month) : bool := negb (ltb x y).

Definition plus (ym : year_month) (dm : Z) : outcome year_month :=
  dmi ← int32 (m_ (ym_month ym) - 1 + dm);
  n ← (if 0 <=? dmi then Ok dmi else int32 (dmi - 11));
  let dy := Z.quot n 12 in
  dmi ← int32 (dmi - dy * 12 + 1);
  y ← Year.plus (ym_year ym) dy;
  Ok (Slash.year_month y (mk_month (u32 dmi))).
Definition months_plus (dm : Z) (ym : year_month) : outcome year_month := plus ym dm.
Definition minus (ym : year_month) (dm : Z) : outcome year_month := dm ← negate dm; plus ym dm.
(** [years] and [months] have the common type [months]; the conversion to it is done
    on a wider integer. *)
Definition diff (x y : year_month) : outcome Z :=
  dy ← Year.diff (ym_year x) (ym_year y);
  int32 (s32 (12 * dy) + s32 (u32 (m_ (ym_month x) - m_ (ym_month y)))).
Definition plus_years (ym : year_month) (dy : Z) : outcome year_month :=
  y ← Year.plus (ym_year ym) dy; Ok (Slash.year_month y (ym_month ym)).
Definition years_plus (dy : Z) (ym : year_month) : outcome year_month := plus_years ym dy.
Definition minus_years (ym : year_month) (dy : Z) : outcome year_month := dy ← negate dy; plus_years ym dy.
Definition plus_assign (ym : year_month) (dm : Z) : outcome year_month := plus ym dm.
Definition minus_assign (ym : year_month) (dm : Z) : outcome year_month := minus ym dm.
Definition plus_assign_years (ym : year_month) (dy : Z) : outcome year_month := plus_years ym dy.
Definition minus_assign_years (ym : year_month) (dy : Z) : outcome year_month := minus_years ym dy.
End YearMonth.

Module MonthDay.
Definition longest : list day := mk_day <$> [31; 29; 31; 30; 31; 30; 31; 31; 30; 31; 30; 31].
Definition ok (x : month_day) : outcome bool :=
  if Month.ok (md_month x) && Day.leb (mk_day 1) (md_day x) then
    last ← table_at longest (u32 (m_ (md_month x) - 1)); Ok (Day.leb (md_day x) last)
  else Ok false.
Definition eqb (x y : month_day) : bool := Month.eqb (md_month x) (md_month y) && Day.eqb (md_day x) (md_day y).
Definition neb (x y : month_day) : bool := negb (eqb x y).
Definition ltb (x y : month_day) : bool :=
  if Month.ltb (md_month x) (md_month y) then true
  else if Month.gtb (md_month x) (md_month y) then false
  else Day.ltb (md_day x) (md_day y).
Definition gtb (x y : month_day) : bool := ltb y x.
Definition leb (x y : month_day) : bool := negb (ltb y x).
Definition geb (x y : month_day) : bool := negb (ltb x y).
End MonthDay.

Module MonthDayLast.
Definition ok (x : month_day_last) : bool := Month.ok (mdl_month x).
Definition eqb (x y : month_day_last) : bool := Month.eqb (mdl_month x) (mdl_month y).
Definition neb (x y : month_day_last) : bool := negb (eqb x y).
Definition ltb (x y : month_day_last) : bool := Month.ltb (mdl_month x) (mdl_month y).
Definition gtb (x y : month_day_last) : bool := ltb y x.
Definition leb (x y : month_day_last) : bool := negb (ltb y x).
Definition geb (x y : month_day_last) : bool := negb (ltb x y).
End MonthDayLast.

Module MonthWeekday.
Definition ok (x : month_weekday) : bool := Month.ok (mwd_month x) && WeekdayIndexed.ok (mwd_wdi x).
Definition eqb (x y : month_weekday) : bool :=
  Month.eqb (mwd_month x) (mwd_month y) && WeekdayIndexed.eqb (mwd_wdi x) (mwd_wdi y).
Definition neb (x y : month_weekday) : bool := negb (eqb x y).
End MonthWeekday.

Module MonthWeekdayLast.
Definition ok (x : month_weekday_last) : bool := Month.ok (mwdl_month x) && WeekdayLast.ok (mwdl_wdl x).
Definition eqb (x y : month_weekday_last) : bool :=
  Month.eqb (mwdl_month x) (mwdl_month y) && WeekdayLast.eqb (mwdl_wdl x) (mwdl_wdl y).
Definition neb (x y : month_weekday_last) : bool := negb (eqb x y).
End MonthWeekdayLast.
