(* ===== verification/CalendarDays.v ===== *)
(** * Dates and counts of days ([src/src/utils/date.h])

    The four classes that name a day by a year and a month: by the day of the month
    ([year_month_day]), as the last day ([year_month_day_last]), as the [n]-th or
    the last of a weekday ([year_month_weekday], [year_month_weekday_last]), with
    their conversions to and from the days since 1970-01-01.  A [sys_days] or a
    [local_days] is that count, an [int].  The properties are in [CalendarLaws]. *)

From S2P Require Import Prelude CppStd Calendar.

(** [dp + d] and [dp - d] of a time point and a count of days. *)
Definition days_after (dp d : Z) : outcome Z := int32 (dp + d).
Definition days_before (dp d : Z) : outcome Z := int32 (dp - d).

Module YearMonthDayLast.
Definition lengths : list day := mk_day <$> [31; 28; 31; 30; 31; 30; 31; 31; 30; 31; 30; 31].

Definition year (x : year_month_day_last) : Calendar.year := ymdl_year x.
Definition month (x : year_month_day_last) : Calendar.month := mdl_month (ymdl_mdl x).
Definition day (x : year_month_day_last) : outcome Calendar.day :=
  if Month.neb (month x) feb || negb (Year.is_leap (ymdl_year x))
  then table_at lengths (u32 (m_ (month x) - 1))
  else Ok (mk_day 29).
Definition ok (x : year_month_day_last) : bool := Year.ok (ymdl_year x) && MonthDayLast.ok (ymdl_mdl x).

Definition eqb (x y : year_month_day_last) : bool :=
  Year.eqb (year x) (year y) && MonthDayLast.eqb (ymdl_mdl x) (ymdl_mdl y).
Definition neb (x y : year_month_day_last) : bool := negb (eqb x y).
Definition ltb (x y : year_month_day_last) : bool :=
  if Year.ltb (year x) (year y) then true
  else if Year.gtb (year x) (year y) then false
  else MonthDayLast.ltb (ymdl_mdl x) (ymdl_mdl y).
Definition gtb (x y : year_month_day_last) : bool := ltb y x.
Definition leb (x y : year_month_day_last) : bool := negb (ltb y x).
Definition geb (x y : year_month_day_last) : bool := negb (ltb x y).

Definition plus (x : year_month_day_last) (dm : Z) : outcome year_month_day_last :=
  ym ← YearMonth.plus (Slash.year_month (year x) (month x)) dm; Ok (Slash.ym_last ym).
Definition months_plus (dm : Z) (x : year_month_day_last) : outcome year_month_day_last := plus x dm.
Definition minus (x : year_month_day_last) (dm : Z) : outcome year_month_day_last := dm ← negate dm; plus x dm.
Definition plus_years (x : year_month_day_last) (dy : Z) : outcome year_month_day_last :=
  y ← Year.plus (year x) dy; Ok {| ymdl_year := y; ymdl_mdl := ymdl_mdl x |}.
Definition years_plus (dy : Z) (x : year_month_day_last) : outcome year_month_day_last := plus_years x dy.
Definition minus_years (x : year_month_day_last) (dy : Z) : outcome year_month_day_last := dy ← negate dy; plus_years x dy.
Definition plus_assign (x : year_month_day_last) (m : Z) : outcome year_month_day_last := plus x m.
Definition minus_assign (x : year_month_day_last) (m : Z) : outcome year_month_day_last := minus x m.
Definition plus_assign_years (x : year_month_day_last) (y : Z) : outcome year_month_day_last := plus_years x y.
Definition minus_assign_years (x : year_month_day_last) (y : Z) : outcome year_month_day_last := minus_years x y.
End YearMonthDayLast.

Module YearMonthDay.
(** From a last day of a month. *)
Definition of_last (x : year_month_day_last) : outcome year_month_day :=
  d ← YearMonthDayLast.day x;
  Ok {| ymd_year := YearMonthDayLast.year x; ymd_month := YearMonthDayLast.month x; ymd_day := d |}.

(** The years of the algorithms begin in March, the eras last 400 of them: [yoe] is
    the year of the era, [doy] the day of the year, [doe] the day of the era.  They
    are unsigned. *)
Definition to_days (x : year_month_day) : outcome Z :=
  y ← int32 (y_ (ymd_year x) - Z.b2z (Month.leb (ymd_month x) feb));
  let m := m_ (ymd_month x) in
  let d := d_ (ymd_day x) in
  let era := Z.quot (if 0 <=? y then y else y - 399) 400 in
  let yoe := u32 (y - era * 400) in
  let doy := u32 ((153 * (if 2 <? m then m - 3 else m + 9) + 2) / 5 + d - 1) in
  let doe := u32 (yoe * 365 + yoe / 4 - yoe / 100 + doy) in
  n ← int32 (era * 146097 + s32 doe);
  int32 (n - 719468).

Definition from_days (dp : Z) : outcome year_month_day :=
  z ← int32 (dp + 719468);
  n ← (if 0 <=? z then Ok z else int32 (z - 146096));
  let era := Z.quot n 146097 in
  let doe := u32 (z - era * 146097) in
  let yoe := u32 (doe - doe / 1460 + doe / 36524 - doe / 146096) / 365 in
  let y := s32 yoe + era * 400 in
  let doy := u32 (doe - u32 (365 * yoe + yoe / 4 - yoe / 100)) in
  let mp := u32 (5 * doy + 2) / 153 in
  let d := u32 (doy - u32 (153 * mp + 2) / 5 + 1) in
  let m := if mp <? 10 then mp + 3 else u32 (mp - 9) in
  Ok {| ymd_year := mk_year (y + Z.b2z (m <=? 2)); ymd_month := mk_month m; ymd_day := mk_day d |}.

(** The constructors and conversions of time points. *)
Definition of_sys_days (dp : Z) : outcome year_month_day := from_days dp.
Definition of_local_days (dp : Z) : outcome year_month_day := from_days dp.
Definition sys_days (x : year_month_day) : outcome Z := to_days x.
Definition local_days (x : year_month_day) : outcome Z := to_days x.

Definition ok (x : year_month_day) : outcome bool :=
  if negb (Year.ok (ymd_year x) && Month.ok (ymd_month x)) then Ok false
  else if Day.leb (mk_day 1) (ymd_day x) then
    last ← YearMonthDayLast.day (Slash.ym_last (Slash.year_month (ymd_year x) (ymd_month x)));
    Ok (Day.leb (ymd_day x) last)
  else Ok false.

Definition eqb (x y : year_month_day) : bool :=
  Year.eqb (ymd_year x) (ymd_year y) && Month.eqb (ymd_month x) (ymd_month y) && Day.eqb (ymd_day x) (ymd_day y).
Definition neb (x y : year_month_day) : bool := negb (eqb x y).
Definition ltb (x y : year_month_day) : bool :=
  if Year.ltb (ymd_year x) (ymd_year y) then true
  else if Year.gtb (ymd_year x) (ymd_year y) then false
  else if Month.ltb (ymd_month x) (ymd_month y) then true
  else if Month.gtb (ymd_month x) (ymd_month y) then false
  else Day.ltb (ymd_day x) (ymd_day y).
Definition gtb (x y : year_month_day) : bool := ltb y x.
Definition leb (x y : year_month_day) : bool := negb (ltb y x).
Definition geb (x y : year_month_day) : bool := negb (ltb x y).

Definition plus (x : year_month_day) (dm : Z) : outcome year_month_day :=
  ym ← YearMonth.plus (Slash.year_month (ymd_year x) (ymd_month x)) dm; Ok (Slash.ym_day ym (ymd_day x)).
Definition months_plus (dm : Z) (x : year_month_day) : outcome year_month_day := plus x dm.
Definition minus (x : year_month_day) (dm : Z) : outcome year_month_day := dm ← negate dm; plus x dm.
Definition plus_years (x : year_month_day) (dy : Z) : outcome year_month_day :=
  y ← Year.plus (ymd_year x) dy; Ok (Slash.ym_day (Slash.year_month y (ymd_month x)) (ymd_day x)).
Definition years_plus (dy : Z) (x : year_month_day) : outcome year_month_day := plus_years x dy.
Definition minus_years (x : year_month_day) (dy : Z) : outcome year_month_day := dy ← negate dy; plus_years x dy.
Definition plus_assign (x : year_month_day) (m : Z) : outcome year_month_day := plus x m.
Definition minus_assign (x : year_month_day) (m : Z) : outcome year_month_day := minus x m.
Definition plus_assign_years (x : year_month_day) (y : Z) : outcome year_month_day := plus_years x y.
Definition minus_assign_years (x : year_month_day) (y : Z) : outcome year_month_day := minus_years x y.
End YearMonthDay.

(** [year_month_day_last] as a time point: the day [year()/month()/day()]. *)
Definition last_sys_days (x : year_month_day_last) : outcome Z :=
  d ← YearMonthDayLast.day x;
  YearMonthDay.sys_days (Slash.ym_day (Slash.year_month (YearMonthDayLast.year x) (YearMonthDayLast.month x)) d).
Definition last_local_days (x : year_month_day_last) : outcome Z :=
  d ← YearMonthDayLast.day x;
  YearMonthDay.local_days (Slash.ym_day (Slash.year_month (YearMonthDayLast.year x) (YearMonthDayLast.month x)) d).

Module YearMonthWeekday.
Definition weekday (x : year_month_weekday) : Calendar.weekday := WeekdayIndexed.weekday (ymwd_wdi x).
Definition index (x : year_month_weekday) : Z := WeekdayIndexed.index (ymwd_wdi x).

(** The first of the month, as a time point. *)
Definition first_day (x : year_month_weekday) : outcome Z :=
  YearMonthDay.sys_days (Slash.ym_int (Slash.year_month (ymwd_year x) (ymwd_month x)) 1).

Definition ok (x : year_month_weekday) : outcome bool :=
  if negb (Year.ok (ymwd_year x)) || negb (Month.ok (ymwd_month x)) || negb (Weekday.ok (weekday x)) || (index x <? 1)
  then Ok false
  else if index x <=? 4 then Ok true
  else
    d ← first_day x;
    first ← Weekday.of_sys_days d;
    d2 ← int32 (Weekday.diff (weekday x) first + s32 (u32 ((index x - 1) * 7 + 1)));
    last ← YearMonthDayLast.day (Slash.ym_last (Slash.year_month (ymwd_year x) (ymwd_month x)));
    Ok (u32 d2 <=? d_ last).

Definition from_days (d : Z) : outcome year_month_weekday :=
  wd ← Weekday.of_sys_days d;
  ymd ← YearMonthDay.of_sys_days d;
  Ok {| ymwd_year := ymd_year ymd; ymwd_month := ymd_month ymd;
        ymwd_wdi := Weekday.at_index wd (u32 (d_ (ymd_day ymd) - 1) / 7 + 1) |}.

Definition to_days (x : year_month_weekday) : outcome Z :=
  d ← first_day x;
  first ← Weekday.of_sys_days d;
  n ← int32 (Weekday.diff (weekday x) first + s32 (u32 ((index x - 1) * 7)));
  days_after d n.

Definition of_sys_days (dp : Z) : outcome year_month_weekday := from_days dp.
Definition of_local_days (dp : Z) : outcome year_month_weekday := from_days dp.
Definition sys_days (x : year_month_weekday) : outcome Z := to_days x.
Definition local_days (x : year_month_weekday) : outcome Z := to_days x.

Definition eqb (x y : year_month_weekday) : bool :=
  Year.eqb (ymwd_year x) (ymwd_year y) && Month.eqb (ymwd_month x) (ymwd_month y) &&
  WeekdayIndexed.eqb (ymwd_wdi x) (ymwd_wdi y).
Definition neb (x y : year_month_weekday) : bool := negb (eqb x y).

Definition plus (x : year_month_weekday) (dm : Z) : outcome year_month_weekday :=
  ym ← YearMonth.plus (Slash.year_month (ymwd_year x) (ymwd_month x)) dm; Ok (Slash.ym_wdi ym (ymwd_wdi x)).
Definition months_plus (dm : Z) (x : year_month_weekday) : outcome year_month_weekday := plus x dm.
Definition minus (x : year_month_weekday) (dm : Z) : outcome year_month_weekday := dm ← negate dm; plus x dm.
Definition plus_years (x : year_month_weekday) (dy : Z) : outcome year_month_weekday :=
  y ← Year.plus (ymwd_year x) dy; Ok {| ymwd_year := y; ymwd_month := ymwd_month x; ymwd_wdi := ymwd_wdi x |}.
Definition years_plus (dy : Z) (x : year_month_weekday) : outcome year_month_weekday := plus_years x dy.
Definition minus_years (x : year_month_weekday) (dy : Z) : outcome year_month_weekday := dy ← negate dy; plus_years x dy.
Definition plus_assign (x : year_month_weekday) (m : Z) : outcome year_month_weekday := plus x m.
Definition minus_assign (x : year_month_weekday) (m : Z) : outcome year_month_weekday := minus x m.
Definition plus_assign_years (x : year_month_weekday) (y : Z) : outcome year_month_weekday := plus_years x y.
Definition minus_assign_years (x : year_month_weekday) (y : Z) : outcome year_month_weekday := minus_years x y.
End YearMonthWeekday.

Module YearMonthWeekdayLast.
Definition weekday (x : year_month_weekday_last) : Calendar.weekday := wdl_wd (ymwdl_wdl x).
Definition ok (x : year_month_weekday_last) : bool :=
  Year.ok (ymwdl_year x) && Month.ok (ymwdl_month x) && WeekdayLast.ok (ymwdl_wdl x).

Definition to_days (x : year_month_weekday_last) : outcome Z :=
  d ← last_sys_days (Slash.ym_last (Slash.year_month (ymwdl_year x) (ymwdl_month x)));
  wd ← Weekday.of_sys_days d;
  days_before d (Weekday.diff wd (weekday x)).

Definition sys_days (x : year_month_weekday_last) : outcome Z := to_days x.
Definition local_days (x : year_month_weekday_last) : outcome Z := to_days x.

Definition eqb (x y : year_month_weekday_last) : bool :=
  Year.eqb (ymwdl_year x) (ymwdl_year y) && Month.eqb (ymwdl_month x) (ymwdl_month y) &&
  WeekdayLast.eqb (ymwdl_wdl x) (ymwdl_wdl y).
Definition neb (x y : year_month_weekday_last) : bool := negb (eqb x y).

Definition plus (x : year_month_weekday_last) (dm : Z) : outcome year_month_weekday_last :=
  ym ← YearMonth.plus (Slash.year_month (ymwdl_year x) (ymwdl_month x)) dm; Ok (Slash.ym_wdl ym (ymwdl_wdl x)).
Definition months_plus (dm : Z) (x : year_month_weekday_last) : outcome year_month_weekday_last := plus x dm.
Definition minus (x : year_month_weekday_last) (dm : Z) : outcome year_month_weekday_last := dm ← negate dm; plus x dm.
Definition plus_years (x : year_month_weekday_last) (dy : Z) : outcome year_month_weekday_last :=
  y ← Year.plus (ymwdl_year x) dy; Ok {| ymwdl_year := y; ymwdl_month := ymwdl_month x; ymwdl_wdl := ymwdl_wdl x |}.
Definition years_plus (dy : Z) (x : year_month_weekday_last) : outcome year_month_weekday_last := plus_years x dy.
Definition minus_years (x : year_month_weekday_last) (dy : Z) : outcome year_month_weekday_last := dy ← negate dy; plus_years x dy.
Definition plus_assign (x : year_month_weekday_last) (m : Z) : outcome year_month_weekday_last := plus x m.
Definition minus_assign (x : year_month_weekday_last) (m : Z) : outcome year_month_weekday_last := minus x m.
Definition plus_assign_years (x : year_month_weekday_last) (y : Z) : outcome year_month_weekday_last := plus_years x y.
Definition minus_assign_years (x : year_month_weekday_last) (y : Z) : outcome year_month_weekday_last := minus_years x y.
End YearMonthWeekdayLast.

(** ** On some days *)
Definition date (y m d : Z) : year_month_day :=
  {| ymd_year := mk_year y; ymd_month := mk_month m; ymd_day := mk_day d |}.

Example epoch : YearMonthDay.to_days (date 1970 1 1) = Ok 0.
Proof. reflexivity. Qed.
Example leap_day : YearMonthDay.from_days 18321 = Ok (date 2020 2 29).
Proof. reflexivity. Qed.
Example first_and_last_day :
  (YearMonthDay.to_days (date (-32768) 1 1), YearMonthDay.to_days (date 32767 12 31)) = (Ok (-12687794), Ok 11248737).
Proof. reflexivity. Qed.
