(* ===== verification/CalendarLaws.v ===== *)
(** * What the calendar of [utils/date.h] promises

    The conversions of [CalendarDays] against the calendar as it is taught: the
    length of every month, the day after a day, the first of the months.  A date is
    [valid] when its day is one of its month; [count] is the formula that the
    conversions compute, without eras and without a width. *)

From S2P Require Import Prelude CppStd Calendar CalendarDays.

(** ** The calendar as it is taught *)
Definition leap (y : Z) : bool := (y mod 4 =? 0) && (negb (y mod 100 =? 0) || (y mod 400 =? 0)).

Definition month_length (y m : Z) : Z :=
  if m =? 2 then (if leap y then 29 else 28)
  else if (m =? 4) || (m =? 6) || (m =? 9) || (m =? 11) then 30 else 31.

Definition valid_date (y m d : Z) : Prop := - 32768 <= y < 32768 /\ 1 <= m <= 12 /\ 1 <= d <= month_length y m.
Definition valid (x : year_month_day) : Prop :=
  valid_date (y_ (ymd_year x)) (m_ (ymd_month x)) (d_ (ymd_day x)).

#[export] Instance valid_dec x : Decision (valid x).
Proof. unfold valid, valid_date. apply _. Defined.

(** The day after. *)
Definition tomorrow (x : year_month_day) : year_month_day :=
  let '(y, m, d) := (y_ (ymd_year x), m_ (ymd_month x), d_ (ymd_day x)) in
  if d <? month_length y m then date y m (d + 1)
  else if m <? 12 then date y (m + 1) 1 else date (y + 1) 1 1.

(** Days since 1970-01-01: years begin in March. *)
Definition leap_days (y : Z) : Z := y / 4 - y / 100 + y / 400.
Definition month_start (m : Z) : Z := (153 * (if 2 <? m then m - 3 else m + 9) + 2) / 5.
Definition count (y m d : Z) : Z :=
  let y := y - Z.b2z (m <=? 2) in
  365 * y + leap_days y + month_start m + d - 1 - 719468.

(** ** Arithmetic *)
Lemma month_length_bounds y m : 28 <= month_length y m <= 31.
Proof. unfold month_length. repeat case_match; lia. Qed.

(** A statement about the months holds once it holds for each. *)
Lemma each_month (P : Z -> Prop) : Forall P [1; 2; 3; 4; 5; 6; 7; 8; 9; 10; 11; 12] -> forall m, 1 <= m <= 12 -> P m.
Proof.
  rewrite !Forall_cons. intros H m Hm. assert (E : m = 1 \/ m = 2 \/ m = 3 \/ m = 4 \/ m = 5 \/ m = 6 \/ m = 7 \/
    m = 8 \/ m = 9 \/ m = 10 \/ m = 11 \/ m = 12) by lia.
  destruct_and!. by repeat destruct E as [->|E]; subst.
Qed.

Lemma leap_days_succ y : leap_days (y + 1) = leap_days y + Z.b2z (leap (y + 1)).
Proof.
  unfold leap_days, leap.
  destruct (Z.eqb_spec ((y + 1) mod 4) 0), (Z.eqb_spec ((y + 1) mod 100) 0), (Z.eqb_spec ((y + 1) mod 400) 0); cbn; zdiv_lia.
Qed.

Lemma leap_days_mono x y : x <= y -> leap_days x <= leap_days y.
Proof. unfold leap_days. intros. zdiv_lia. Qed.

Lemma month_start_next y m : 1 <= m < 12 -> m <> 2 -> month_start (m + 1) = month_start m + month_length y m.
Proof.
  intros Hm. assert (M : 1 <= m <= 12) by lia. revert m M Hm. apply (each_month (fun m => _ -> _ -> _)).
  rewrite !Forall_cons, Forall_nil. split_and!; intros; lia || reflexivity.
Qed.

(** The first days of two months that follow each other. *)
Lemma count_next_month y m : 1 <= m < 12 -> count y (m + 1) 1 = count y m 1 + month_length y m.
Proof.
  intros Hm. destruct (Z.eq_dec m 2) as [->|N2].
  - unfold count, month_length. pose proof (leap_days_succ (y - 1)) as L. replace (y - 1 + 1) with y in L by lia.
    change (2 + 1) with 3. change (Z.b2z (3 <=? 2)) with 0. change (Z.b2z (2 <=? 2)) with 1. change (2 =? 2) with true.
    change (month_start 3) with 0. change (month_start 2) with 337. cbn iota. rewrite Z.sub_0_r. destruct (leap y); cbn [Z.b2z] in L; lia.
  - pose proof (month_start_next y m). assert (B : (m + 1 <=? 2) = (m <=? 2)) by lia. unfold count. rewrite B. lia.
Qed.

Lemma count_next_year y : count (y + 1) 1 1 = count y 12 1 + 31.
Proof.
  unfold count. change (Z.b2z (1 <=? 2)) with 1. change (Z.b2z (12 <=? 2)) with 0. change (month_start 1) with 306.
  change (month_start 12) with 275. replace (y + 1 - 1) with y by lia. rewrite Z.sub_0_r. lia.
Qed.

Lemma count_day y m d : count y m d = count y m 1 + d - 1.
Proof. unfold count. lia. Qed.

(** A later date has a greater count: first within a year, then between years. *)
Lemma count_months y m n : 1 <= m -> m < n <= 12 -> count y m 1 + month_length y m <= count y n 1.
Proof.
  intros Hm Hn. replace n with (m + 1 + Z.of_nat (Z.to_nat (n - m - 1))) by lia.
  assert (Hk : m + 1 + Z.of_nat (Z.to_nat (n - m - 1)) <= 12) by lia.
  induction (Z.to_nat (n - m - 1)) as [|k IH].
  - rewrite Z.add_0_r, count_next_month; lia.
  - replace (m + 1 + Z.of_nat (S k)) with (m + 1 + Z.of_nat k + 1) by lia. rewrite count_next_month by lia.
    pose proof (month_length_bounds y (m + 1 + Z.of_nat k)). lia.
Qed.

Lemma count_years x y : x < y -> count x 12 1 + 31 <= count y 1 1.
Proof. intros H. rewrite <- count_next_year. unfold count. pose proof (leap_days_mono (x + 1 - 1) (y - 1)). change (Z.b2z (1 <=? 2)) with 1. lia. Qed.

Lemma count_in_month y m d : 1 <= m <= 12 -> 1 <= d <= month_length y m -> count y 1 1 <= count y m d <= count y 12 1 + 30.
Proof.
  intros Hm Hd. rewrite (count_day y m d). assert (L1 : month_length y 1 = 31) by done. assert (L12 : month_length y 12 = 31) by done.
  assert (H1 : m = 1 \/ count y 1 1 + month_length y 1 <= count y m 1).
  { destruct (Z.eq_dec m 1); [by left|right]. apply count_months; lia. }
  assert (H2 : m = 12 \/ count y m 1 + month_length y m <= count y 12 1).
  { destruct (Z.eq_dec m 12); [by left|right]. apply count_months; lia. }
  assert (H3 : count y 1 1 + month_length y 1 <= count y 12 1) by (apply count_months; lia).
  destruct H1 as [->|H1]; [|destruct H2 as [->|H2]]; lia.
Qed.

Definition date_lt (y m d y' m' d' : Z) : Prop := y < y' \/ y = y' /\ (m < m' \/ m = m' /\ d < d').

Lemma count_mono y m d y' m' d' :
  1 <= m <= 12 -> 1 <= d <= month_length y m -> 1 <= m' <= 12 -> 1 <= d' <= month_length y' m' ->
  date_lt y m d y' m' d' -> count y m d < count y' m' d'.
Proof.
  intros Hm Hd Hm' Hd' [H|[<- [H|[<- H]]]].
  - pose proof (count_in_month y m d Hm Hd). pose proof (count_in_month y' m' d' Hm' Hd'). pose proof (count_years y y' H). lia.
  - rewrite (count_day y m d), (count_day y m' d'). assert (count y m 1 + month_length y m <= count y m' 1) by (apply count_months; lia). lia.
  - rewrite (count_day y m d), (count_day y m d'). lia.
Qed.

Lemma count_inj y m d y' m' d' :
  1 <= m <= 12 -> 1 <= d <= month_length y m -> 1 <= m' <= 12 -> 1 <= d' <= month_length y' m' ->
  count y m d = count y' m' d' -> y = y' /\ m = m' /\ d = d'.
Proof.
  intros Hm Hd Hm' Hd' E.
  assert (N1 : ~ date_lt y m d y' m' d') by (intros L; apply count_mono in L; done || lia).
  assert (N2 : ~ date_lt y' m' d' y m d) by (intros L; apply count_mono in L; done || lia).
  unfold date_lt in *. lia.
Qed.

(** ** The conversions *)
Lemma quot_floor n x : 0 < n -> Z.quot (if 0 <=? x then x else x - (n - 1)) n = x / n.
Proof. intros Hn. destruct (Z.leb_spec 0 x); Z.to_euclidean_division_equations; nia. Qed.

Lemma march_year m : Z.b2z (Month.leb m feb) = Z.b2z (m_ m <=? 2).
Proof. unfold Month.leb, Month.ltb. change (m_ feb) with 2. f_equal. lia. Qed.

Lemma month_start_bounds m : 1 <= m <= 12 -> 0 <= month_start m <= 337.
Proof. unfold month_start. destruct (Z.ltb_spec 2 m); intros; zdiv_lia. Qed.

(** The day of the year, as the algorithm computes it, of a date or of what has
    the members of one. *)
Lemma to_days_count x :
  - 32768 <= y_ (ymd_year x) < 32768 -> 1 <= m_ (ymd_month x) <= 12 -> 1 <= d_ (ymd_day x) < 256 ->
  YearMonthDay.to_days x = Ok (count (y_ (ymd_year x)) (m_ (ymd_month x)) (d_ (ymd_day x))).
Proof.
  intros Hy Hm Hd. unfold YearMonthDay.to_days, count. rewrite march_year. pose proof (month_start_bounds _ Hm) as Hs.
  set (y := y_ (ymd_year x) - _). fold (month_start (m_ (ymd_month x))) in *.
  assert (Hy' : - 32769 <= y < 32768) by (unfold y; destruct (m_ (ymd_month x) <=? 2); cbn; lia). clearbody y.
  generalize dependent (month_start (m_ (ymd_month x))). intros s Hs. generalize dependent (d_ (ymd_day x)). intros d Hd.
  clear Hy Hm. rewrite int32_Ok by lia. cbn [mbind outcome_bind]. change 399 with (400 - 1). rewrite quot_floor by lia.
  assert (E : 0 <= y - y / 400 * 400 < 400) by zdiv_lia. rewrite (u32_id (y - _)) by lia. rewrite (u32_id (s + d - 1)) by lia.
  assert (D : 0 <= (y - y / 400 * 400) * 365 + (y - y / 400 * 400) / 4 - (y - y / 400 * 400) / 100 + (s + d - 1) < 200000) by zdiv_lia.
  rewrite u32_id by lia. rewrite s32_id by lia. rewrite int32_Ok by zdiv_lia. cbn [mbind outcome_bind].
  rewrite int32_Ok by zdiv_lia. f_equal. unfold leap_days. zdiv_lia.
Qed.

(** The year that begins in March, of a day of an era, and the day in it. *)
Lemma era_year doe :
  0 <= doe < 146097 ->
  let yoe := (doe - doe / 1460 + doe / 36524 - doe / 146096) / 365 in
  let doy := doe - (365 * yoe + yoe / 4 - yoe / 100) in
  0 <= yoe < 400 /\ 0 <= doe - doe / 1460 + doe / 36524 - doe / 146096 < 146097 /\ 0 <= doy <= 365 /\
  (doy = 365 -> leap (yoe + 1) = true).
Proof.
  intros H. cbv zeta. split; [zdiv_lia|]. split; [zdiv_lia|]. split; [zdiv_lia|]. intros E. unfold leap.
  rewrite andb_true_iff, orb_true_iff, negb_true_iff, !Z.eqb_eq, Z.eqb_neq. zdiv_lia.
Qed.

(** The month and the day of the month, of a day of that year. *)
Lemma march_month doy :
  0 <= doy <= 365 ->
  let mp := (5 * doy + 2) / 153 in
  let d := doy - (153 * mp + 2) / 5 + 1 in
  let m := if mp <? 10 then mp + 3 else mp - 9 in
  0 <= mp < 12 /\ 1 <= m <= 12 /\ 1 <= d /\ doy = month_start m + d - 1 /\
  forall y, (doy = 365 -> leap y = true) -> d <= month_length y m.
Proof.
  intros H. cbv zeta. set (mp := (5 * doy + 2) / 153).
  assert (B : 0 <= mp < 12) by (unfold mp; zdiv_lia).
  assert (D : 153 * mp <= 5 * doy + 2 < 153 * (mp + 1)) by (unfold mp; zdiv_lia). clearbody mp.
  assert (S : month_start (if mp <? 10 then mp + 3 else mp - 9) = (153 * mp + 2) / 5).
  { unfold month_start. f_equal. f_equal. f_equal. destruct (Z.ltb_spec mp 10); [destruct (Z.ltb_spec 2 (mp + 3))|destruct (Z.ltb_spec 2 (mp - 9))]; lia. }
  rewrite S. split; [done|]. split; [destruct (Z.ltb_spec mp 10); lia|]. split; [zdiv_lia|]. split; [lia|].
  intros y Hl. assert (N : doy < (153 * (mp + 1) + 2) / 5) by zdiv_lia.
  destruct (Z.eq_dec mp 11) as [->|].
  { change (if 11 <? 10 then 11 + 3 else 11 - 9) with 2. change (month_length y 2) with (if leap y then 29 else 28). change ((153 * 11 + 2) / 5) with 337.
    destruct (leap y) eqn:L; [lia|]. assert (doy <> 365) by (intros E; by specialize (Hl E)). lia. }
  destruct (Z.eq_dec mp 9) as [->|].
  { change (if 9 <? 10 then 9 + 3 else 9 - 9) with 12. change (month_length y 12) with 31. change ((153 * 9 + 2) / 5) with 275.
    change ((153 * (9 + 1) + 2) / 5) with 306 in N. lia. }
  set (m := if mp <? 10 then mp + 3 else mp - 9) in *.
  assert (Em : m <> 12 /\ m <> 2 /\ 1 <= m <= 12 /\ month_start (m + 1) = (153 * (mp + 1) + 2) / 5).
  { unfold m, month_start. destruct (Z.ltb_spec mp 10).
    - split_and!; try lia. rewrite (proj2 (Z.ltb_lt 2 _)) by lia. do 2 f_equal. lia.
    - assert (mp = 10) as -> by lia. split_and!; try lia. reflexivity. }
  pose proof (month_start_next y m). lia.
Qed.

Lemma month_length_year y y' m : m <> 2 -> month_length y m = month_length y' m.
Proof. intros H. unfold month_length. by destruct (Z.eqb_spec m 2). Qed.

Lemma leap_era era y : leap (era * 400 + y) = leap y.
Proof.
  unfold leap. replace ((era * 400 + y) mod 4) with (y mod 4) by zdiv_lia.
  replace ((era * 400 + y) mod 100) with (y mod 100) by zdiv_lia. by replace ((era * 400 + y) mod 400) with (y mod 400) by zdiv_lia.
Qed.

(** Whatever the count is, as long as the shift by 719468 does not overflow, the
    date has that count; only its year may not fit its member. *)
Lemma from_days_date dp :
  - 2 ^ 31 <= dp < 2 ^ 31 - 719468 ->
  exists y m d, 1 <= m <= 12 /\ 1 <= d <= month_length y m /\ count y m d = dp /\
    YearMonthDay.from_days dp = Ok (date y m d).
Proof.
  intros Hdp. unfold YearMonthDay.from_days. rewrite int32_Ok by lia. cbn [mbind outcome_bind]. set (z := dp + 719468).
  assert (Ez : (if 0 <=? z then Ok z else int32 (z - 146096)) = Ok (if 0 <=? z then z else z - (146097 - 1))).
  { destruct (0 <=? z) eqn:E; [done|]. rewrite int32_Ok by lia. f_equal. }
  rewrite Ez. cbn [mbind outcome_bind]. rewrite quot_floor by lia. set (era := z / 146097).
  assert (Hera : - 20000 <= era < 20000) by (unfold era; zdiv_lia). set (doe := z - era * 146097).
  assert (Hdoe : 0 <= doe < 146097) by (unfold doe, era; zdiv_lia). rewrite (u32_id doe) by lia.
  destruct (era_year doe Hdoe) as (Hy & Hs & Hdoy & Hl). rewrite (u32_id (doe - _ + _ - _)) by lia.
  set (yoe := (doe - doe / 1460 + doe / 36524 - doe / 146096) / 365) in *. rewrite s32_id by lia.
  rewrite (u32_id (365 * yoe + _ - _)) by zdiv_lia. set (doy := doe - (365 * yoe + yoe / 4 - yoe / 100)) in *.
  rewrite (u32_id doy) by lia. rewrite (u32_id (5 * doy + 2)) by lia. destruct (march_month doy Hdoy) as (Bmp & Bm & Bd & Ed & HL).
  set (mp := (5 * doy + 2) / 153) in *. rewrite (u32_id (153 * mp + 2)) by lia.
  set (d := doy - (153 * mp + 2) / 5 + 1) in *.
  assert (Ud : d <= 366) by (unfold d; clear - Hdoy Bmp; zdiv_lia). rewrite (u32_id d) by lia.
  replace (if mp <? 10 then mp + 3 else u32 (mp - 9)) with (if mp <? 10 then mp + 3 else mp - 9)
    by (destruct (Z.ltb_spec mp 10); [done|by rewrite u32_id by lia]).
  set (m := if mp <? 10 then mp + 3 else mp - 9) in *. exists (yoe + era * 400 + Z.b2z (m <=? 2)), m, d.
  split; [done|]. split; [split; [done|]|split; [|done]].
  - destruct (Z.eq_dec m 2) as [E2|E2].
    + rewrite E2. change (Z.b2z (2 <=? 2)) with 1. rewrite E2 in HL. apply HL. intros E.
      replace (yoe + era * 400 + 1) with (era * 400 + (yoe + 1)) by lia. rewrite leap_era. by apply Hl.
    + rewrite (month_length_year _ (yoe + 1)) by done. by apply HL.
  - unfold count. replace (yoe + era * 400 + Z.b2z (m <=? 2) - Z.b2z (m <=? 2)) with (yoe + era * 400) by lia.
    replace (leap_days (yoe + era * 400)) with (yoe / 4 - yoe / 100 + 97 * era) by (unfold leap_days; zdiv_lia).
    unfold doy in Ed. unfold doe, z in Ed. lia.
Qed.

Lemma valid_range y m d : valid_date y m d -> - 12687794 <= count y m d <= 11248737.
Proof.
  intros (Hy & Hm & Hd). pose proof (count_in_month y m d Hm Hd).
  assert (L1 : count (-32768) 1 1 = -12687794) by reflexivity. assert (L2 : count 32767 12 1 + 30 = 11248737) by reflexivity.
  assert (H1 : count (-32768) 1 1 <= count y 1 1).
  { destruct (Z.eq_dec y (-32768)) as [->|]; [done|]. pose proof (count_years (-32768) y ltac:(lia)). change (count (-32768) 12 1) with (-12687459) in *. lia. }
  assert (H2 : count y 12 1 <= count 32767 12 1).
  { destruct (Z.eq_dec y 32767) as [->|]; [done|]. pose proof (count_years y 32767 ltac:(lia)).
    change (count 32767 1 1) with 11248373 in *. change (count 32767 12 1) with 11248707. lia. }
  lia.
Qed.

Lemma count_year_bounds y m d :
  1 <= m <= 12 -> 1 <= d <= month_length y m -> - 12687794 <= count y m d <= 11248737 -> - 32768 <= y < 32768.
Proof.
  intros Hm Hd Hc. pose proof (count_in_month y m d Hm Hd). split.
  - destruct (Z.le_gt_cases (-32768) y) as [|G]; [done|]. pose proof (count_years y (-32768) ltac:(lia)).
    change (count (-32768) 1 1) with (-12687794) in *. lia.
  - destruct (Z.lt_ge_cases y 32768) as [|G]; [done|]. pose proof (count_years 32767 y ltac:(lia)).
    change (count 32767 12 1) with 11248707 in *. lia.
Qed.

Lemma date_members y m d :
  valid_date y m d -> y_ (ymd_year (date y m d)) = y /\ m_ (ymd_month (date y m d)) = m /\ d_ (ymd_day (date y m d)) = d.
Proof.
  intros (Hy & Hm & Hd). pose proof (month_length_bounds y m). cbn. by rewrite s16_id, !u8_id by lia.
Qed.

Lemma valid_of y m d : valid_date y m d -> valid (date y m d).
Proof. intros V. unfold valid. by destruct (date_members y m d V) as (-> & -> & ->). Qed.

Lemma date_of_valid x : valid x -> date (y_ (ymd_year x)) (m_ (ymd_month x)) (d_ (ymd_day x)) = x.
Proof.
  intros V. destruct (date_members _ _ _ V) as (E1 & E2 & E3). destruct x as [[y] [m] [d]]. unfold date, mk_year, mk_month, mk_day in *.
  cbn in *. by rewrite E1, E2, E3.
Qed.

(** The count of a date. *)
Definition day_count (x : year_month_day) : Z := count (y_ (ymd_year x)) (m_ (ymd_month x)) (d_ (ymd_day x)).

Lemma to_days_valid x : valid x -> YearMonthDay.to_days x = Ok (day_count x).
Proof. intros (Hy & Hm & Hd). pose proof (month_length_bounds (y_ (ymd_year x)) (m_ (ymd_month x))). apply to_days_count; lia. Qed.

Lemma day_count_inj x x' : valid x -> valid x' -> day_count x = day_count x' -> x = x'.
Proof.
  intros V V' E. rewrite <- (date_of_valid x V), <- (date_of_valid x' V'). destruct V as (_ & Hm & Hd), V' as (_ & Hm' & Hd').
  by destruct (count_inj _ _ _ _ _ _ Hm Hd Hm' Hd' E) as (-> & -> & ->).
Qed.

Lemma from_days_valid n :
  - 12687794 <= n <= 11248737 -> exists x, YearMonthDay.from_days n = Ok x /\ valid x /\ day_count x = n.
Proof.
  intros Hn. destruct (from_days_date n) as (y & m & d & Hm & Hd & Hc & E); [lia|]. exists (date y m d).
  assert (V : valid_date y m d) by (split; [apply (count_year_bounds y m d); lia|done]).
  split; [done|]. split; [by apply valid_of|]. unfold day_count. by destruct (date_members y m d V) as (-> & -> & ->).
Qed.

(** Every date that a year of 16 bits can name has its count of days and is
    found again from it, and every count between those of the first and of the last
    of them is that of the date it gives.  No integer overflows on the way. *)
Theorem dates_roundtrip :
  (forall x, valid x -> exists n, YearMonthDay.to_days x = Ok n /\ - 12687794 <= n <= 11248737 /\ YearMonthDay.from_days n = Ok x) /\
  (forall n, - 12687794 <= n <= 11248737 -> exists x, YearMonthDay.from_days n = Ok x /\ valid x /\ YearMonthDay.to_days x = Ok n).
Proof.
  split.
  - intros x V. exists (day_count x). pose proof (valid_range _ _ _ V) as R. split; [by apply to_days_valid|]. split; [done|].
    destruct (from_days_valid (day_count x) R) as (x' & E & V' & C). by rewrite E, (day_count_inj x' x).
  - intros n Hn. destruct (from_days_valid n Hn) as (x & E & V & C). exists x. split; [done|]. split; [done|].
    by rewrite to_days_valid, C.
Qed.

(** ** Day after day *)
Definition last_date : year_month_day := date 32767 12 31.

Lemma tomorrow_next x : valid x -> x <> last_date -> valid (tomorrow x) /\ day_count (tomorrow x) = day_count x + 1.
Proof.
  intros V N. pose proof V as (Hy & Hm & Hd). unfold tomorrow, day_count.
  set (y := y_ (ymd_year x)) in *. set (m := m_ (ymd_month x)) in *. set (d := d_ (ymd_day x)) in *.
  assert (G : forall y' m' d', valid_date y' m' d' -> count y' m' d' = count y m d + 1 ->
    valid (date y' m' d') /\ count (y_ (ymd_year (date y' m' d'))) (m_ (ymd_month (date y' m' d'))) (d_ (ymd_day (date y' m' d'))) = count y m d + 1).
  { intros y' m' d' V' E. split; [by apply valid_of|]. by destruct (date_members y' m' d' V') as (-> & -> & ->). }
  destruct (Z.ltb_spec d (month_length y m)); [|assert (Ed : d = month_length y m) by lia; destruct (Z.ltb_spec m 12)]; apply G.
  - unfold valid_date. lia.
  - rewrite (count_day y m (d + 1)), (count_day y m d). lia.
  - pose proof (month_length_bounds y (m + 1)). unfold valid_date. lia.
  - rewrite (count_day y m d), count_next_month; lia.
  - assert (Em : m = 12) by lia. assert (y <> 32767); [|change (valid_date (y + 1) 1 1) with (- 32768 <= y + 1 < 32768 /\ 1 <= 1 <= 12 /\ 1 <= 1 <= 31); lia].
    intros Ey. apply N. rewrite <- (date_of_valid x V). fold y m d. rewrite Ed, Em, Ey. reflexivity.
  - assert (Em : m = 12) by lia. rewrite (count_day y m d), count_next_year, Ed, Em. change (month_length y 12) with 31. lia.
Qed.

Definition first_date : year_month_day := date (-32768) 1 1.

(** C32: The conversions count days as one does on a calendar: starting from
    the first date of all and turning one leaf after the other, the [k]-th date is
    the one that [from_days] gives, and [to_days] counts [k] more for it; on
    1970-01-01 the count is 0. *)
Theorem dates_follow_calendar (k : nat) :
  Z.of_nat k <= 23936531 ->
  let x := Nat.iter k tomorrow first_date in
  valid x /\ YearMonthDay.to_days x = Ok (- 12687794 + Z.of_nat k) /\
  YearMonthDay.from_days (- 12687794 + Z.of_nat k) = Ok x /\
  (- 12687794 + Z.of_nat k = 0 <-> x = date 1970 1 1).
Proof.
  intros Hk x. assert (G : valid x /\ day_count x = - 12687794 + Z.of_nat k).
  { unfold x. clear x. induction k as [|k IH].
    - split; [|reflexivity]. by apply valid_of.
    - change (Nat.iter (S k) tomorrow first_date) with (tomorrow (Nat.iter k tomorrow first_date)).
      destruct IH as [V C]; [lia|]. destruct (tomorrow_next _ V) as [V' C']; [|split; [done|]; lia].
      intros E. rewrite E in C. change (day_count last_date) with 11248737 in C. lia. }
  destruct G as [V C]. clearbody x. split; [done|]. rewrite to_days_valid by done. split; [by rewrite C|].
  destruct (from_days_valid (- 12687794 + Z.of_nat k)) as (x' & E & V' & C'); [lia|].
  assert (x' = x) as -> by (apply day_count_inj; congruence). split; [done|]. split.
  - intros E0. apply day_count_inj; [done|by apply valid_of|]. rewrite C, E0. reflexivity.
  - intros ->. rewrite <- C. reflexivity.
Qed.

Lemma dates_follow_calendar_witness :
  Z.of_nat 59 <= 23936531 /\ YearMonthDay.from_days (- 12687735) = Ok (date (-32768) 2 29).
Proof.
  split; [lia|]. destruct (dates_follow_calendar 59 ltac:(lia)) as (_ & _ & E & _). exact E.
Defined.
