(* ===== verification/CalendarWeeks.v ===== *)
(** * Weekdays, orders and months of the calendar of [utils/date.h]

    What [Calendar] and [CalendarDays] promise besides the count of days: the
    weekday of a day, dates named by a weekday of a month, the order of dates,
    the validity test, the arithmetic of months. *)

From S2P Require Import Prelude CppStd Calendar CalendarDays CalendarLaws.

(** ** Weekdays *)
Lemma weekday_of_day z :
  - 2 ^ 31 <= z < 2 ^ 31 - 4 -> Weekday.of_sys_days z = Ok {| wd_ := (z + 4) mod 7 |}.
Proof.
  intros Hz. unfold Weekday.of_sys_days, Weekday.weekday_from_days. destruct (Z.leb_spec (-4) z).
  - rewrite int32_Ok by lia. cbn [mbind outcome_bind]. rewrite u32_id by zdiv_lia. rewrite u8_id by zdiv_lia. do 2 f_equal. zdiv_lia.
  - rewrite int32_Ok by lia. cbn [mbind outcome_bind]. rewrite u32_id by zdiv_lia. rewrite u8_id by zdiv_lia. do 2 f_equal. zdiv_lia.
Qed.

Lemma weekday_ok_bounds w : weekday_wf w -> Weekday.ok w = true <-> 0 <= wd_ w < 7.
Proof. unfold weekday_wf, Weekday.ok. intros ?. rewrite Z.leb_le. lia. Qed.

(** Days from one weekday to the next of another. *)
Lemma weekday_diff x y : 0 <= wd_ x < 7 -> 0 <= wd_ y < 7 -> Weekday.diff x y = (wd_ x - wd_ y) mod 7.
Proof.
  intros Hx Hy. unfold Weekday.diff, signed, wrap. change (2 ^ (32 - 1)) with 2147483648. change (2 ^ 32) with 4294967296.
  destruct (Z.leb_spec ((wd_ x - wd_ y) mod 4294967296) 6); zdiv_lia.
Qed.

Lemma weekday_plus x n : 0 <= wd_ x < 7 -> Weekday.plus x n = {| wd_ := (wd_ x + n) mod 7 |}.
Proof.
  intros Hx. unfold Weekday.plus. change 6 with (7 - 1). rewrite quot_floor by lia. unfold mk_weekday.
  rewrite u32_id by zdiv_lia. rewrite u8_id by zdiv_lia. f_equal. zdiv_lia.
Qed.

(** Weekdays go round with the days; the difference of two is the number of days
    from the second to the next one that is the first. *)
Lemma weekdays_go_round z n w w' :
  - 2 ^ 31 <= z < 2 ^ 31 - 4 -> - 2 ^ 31 <= z + n < 2 ^ 31 - 4 ->
  Weekday.of_sys_days z = Ok w -> Weekday.of_sys_days (z + n) = Ok w' ->
  w' = Weekday.plus w n /\ Weekday.plus w (Weekday.diff w' w) = w' /\ 0 <= Weekday.diff w' w < 7.
Proof.
  intros Hz Hn. rewrite !weekday_of_day by done. intros [= <-] [= <-].
  rewrite weekday_diff by (cbn; zdiv_lia). rewrite !weekday_plus by (cbn; zdiv_lia). cbn. split_and!; [f_equal; zdiv_lia|f_equal; zdiv_lia| |]; zdiv_lia.
Qed.

(** ** The last day of a month, and what is valid *)
Lemma month_leb_le (d d' : Z) : negb (d' <? d) = true <-> d <= d'.
Proof. rewrite negb_true_iff, Z.ltb_ge. done. Qed.

Lemma leap_of_year y : Year.is_leap y = leap (y_ y).
Proof.
  unfold Year.is_leap, leap.
  assert (R : forall n, 0 < n -> (Z.rem (y_ y) n =? 0) = (y_ y mod n =? 0)).
  { intros n Hn. apply eq_true_iff_eq. rewrite !Z.eqb_eq. rewrite Z.rem_divide, Z.mod_divide by lia. done. }
  by rewrite !R by lia.
Qed.

Lemma last_day y m :
  1 <= m_ m <= 12 ->
  YearMonthDayLast.day (Slash.ym_last (Slash.year_month y m)) = Ok {| d_ := month_length (y_ y) (m_ m) |}.
Proof.
  destruct m as [m]. cbn [m_]. revert m. apply (each_month (fun m => _ = _)).
  rewrite !Forall_cons, Forall_nil. unfold YearMonthDayLast.day, month_length, Slash.ym_last, Slash.year_month. cbn [ymdl_year ym_year].
  rewrite !leap_of_year. destruct (leap (y_ y)); split_and!; reflexivity.
Qed.

Lemma month_ok_bounds m : Month.ok m = true <-> 1 <= m_ m <= 12.
Proof. unfold Month.ok. rewrite andb_true_iff. lia. Qed.

(** [ok()] says whether the date exists, and never reads its table outside. *)
Lemma date_ok_decides x :
  year_wf (ymd_year x) -> YearMonthDay.ok x = Ok (bool_decide (valid x)).
Proof.
  intros Hy. unfold YearMonthDay.ok, year_wf in *. change (Year.ok (ymd_year x)) with true. cbn [andb].
  destruct (Month.ok (ymd_month x)) eqn:Em; cbn [negb].
  - apply month_ok_bounds in Em. rewrite last_day by done. cbn [mbind outcome_bind]. unfold Day.leb, Day.ltb. change (d_ (mk_day 1)) with 1. cbn [d_].
    destruct (Z.ltb_spec (d_ (ymd_day x)) 1); cbn [negb]; f_equal; symmetry.
    + apply bool_decide_eq_false_2. intros (_ & _ & ?). lia.
    + destruct (Z.ltb_spec (month_length (y_ (ymd_year x)) (m_ (ymd_month x))) (d_ (ymd_day x))); cbn [negb].
      * apply bool_decide_eq_false_2. intros (_ & _ & ?). lia.
      * apply bool_decide_eq_true_2. split; [done|]. lia.
  - f_equal. symmetry. apply bool_decide_eq_false_2. intros (_ & Hm & _). apply month_ok_bounds in Hm. congruence.
Qed.

(** ** Order *)
Lemma dates_ltb_iff x x' :
  YearMonthDay.ltb x x' = true <->
  date_lt (y_ (ymd_year x)) (m_ (ymd_month x)) (d_ (ymd_day x)) (y_ (ymd_year x')) (m_ (ymd_month x')) (d_ (ymd_day x')).
Proof.
  unfold YearMonthDay.ltb, Year.gtb, Year.ltb, Month.gtb, Month.ltb, Day.ltb, date_lt. repeat case_match; lia.
Qed.

(** The comparisons of dates are those of their counts of days. *)
Lemma dates_ordered x x' :
  valid x -> valid x' ->
  (YearMonthDay.ltb x x' = (day_count x <? day_count x')) /\ (YearMonthDay.eqb x x' = (day_count x =? day_count x')) /\
  (YearMonthDay.leb x x' = (day_count x <=? day_count x')).
Proof.
  assert (L : forall a b, valid a -> valid b -> YearMonthDay.ltb a b = true -> day_count a < day_count b).
  { intros a b (_ & Hm & Hd) (_ & Hm' & Hd') H%dates_ltb_iff. by apply count_mono. }
  assert (E : forall a b, YearMonthDay.eqb a b = true <-> a = b).
  { intros [[y] [m] [d]] [[y'] [m'] [d']]. unfold YearMonthDay.eqb, Year.eqb, Month.eqb, Day.eqb. cbn.
    rewrite !andb_true_iff, !Z.eqb_eq. split; [intros [[-> ->] ->]; done|intros [= -> -> ->]; done]. }
  assert (T : forall a b, valid a -> valid b -> YearMonthDay.ltb a b = (day_count a <? day_count b)).
  { intros a b Va Vb. apply eq_true_iff_eq. rewrite Z.ltb_lt. split; [by apply L|]. intros Hlt.
    destruct (YearMonthDay.ltb a b) eqn:E1; [done|]. exfalso. destruct (YearMonthDay.ltb b a) eqn:E2; [apply L in E2; done || lia|].
    assert (a = b) as ->; [|lia]. apply E. revert E1 E2.
    unfold YearMonthDay.ltb, YearMonthDay.eqb, Year.gtb, Year.ltb, Year.eqb, Month.gtb, Month.ltb, Month.eqb, Day.ltb, Day.eqb.
    repeat case_match; intros; try done; rewrite !andb_true_iff, !Z.eqb_eq; lia. }
  intros V V'. split_and!; [by apply T| |].
  - apply eq_true_iff_eq. rewrite E, Z.eqb_eq. split; [by intros ->|]. by apply day_count_inj.
  - unfold YearMonthDay.leb. rewrite T by done. apply eq_true_iff_eq. rewrite negb_true_iff, Z.ltb_ge, Z.leb_le. done.
Qed.

(** ** Dates by weekday *)
Lemma count_range y m d : valid_date y m d -> - 2 ^ 30 <= count y m d <= 2 ^ 30.
Proof. intros V. pose proof (valid_range y m d V). lia. Qed.

Lemma first_of_month y m :
  year_wf y -> 1 <= m_ m <= 12 ->
  YearMonthDay.sys_days (Slash.ym_int (Slash.year_month y m) 1) = Ok (count (y_ y) (m_ m) 1) /\ valid_date (y_ y) (m_ m) 1.
Proof.
  intros Hy Hm. split; [|pose proof (month_length_bounds (y_ y) (m_ m)); split; [done|lia]].
  unfold YearMonthDay.sys_days. rewrite to_days_count; [done|done|done|]. cbn. rewrite u8_id; rewrite u32_id by lia; lia.
Qed.

(** What [year_month_weekday] computes, of a month, a weekday and an index that are
    in range. *)
Lemma weekday_to_days w :
  year_wf (ymwd_year w) -> 1 <= m_ (ymwd_month w) <= 12 -> 0 <= wi_wd (ymwd_wdi w) < 7 -> 1 <= wi_index (ymwd_wdi w) < 16 ->
  let c := count (y_ (ymwd_year w)) (m_ (ymwd_month w)) 1 in
  let diff := (wi_wd (ymwd_wdi w) - (c + 4)) mod 7 in
  YearMonthWeekday.to_days w = Ok (c + diff + (wi_index (ymwd_wdi w) - 1) * 7) /\
  YearMonthWeekday.ok w =
    Ok ((wi_index (ymwd_wdi w) <=? 4) || (diff + (wi_index (ymwd_wdi w) - 1) * 7 + 1 <=? month_length (y_ (ymwd_year w)) (m_ (ymwd_month w)))).
Proof.
  intros Hy Hm Hw Hi c diff. destruct (first_of_month _ _ Hy Hm) as [F V]. pose proof (count_range _ _ _ V) as R. fold c in F, R.
  assert (W : Weekday.of_sys_days c = Ok {| wd_ := (c + 4) mod 7 |}) by (apply weekday_of_day; lia).
  assert (D : Weekday.diff (YearMonthWeekday.weekday w) {| wd_ := (c + 4) mod 7 |} = diff).
  { rewrite weekday_diff; unfold YearMonthWeekday.weekday, WeekdayIndexed.weekday; cbn [wd_ mk_weekday]; rewrite ?u8_id by lia; [|lia|zdiv_lia].
    unfold diff. zdiv_lia. }
  assert (Bd : 0 <= diff < 7) by (unfold diff; zdiv_lia). clearbody diff.
  unfold YearMonthWeekday.to_days, YearMonthWeekday.ok, YearMonthWeekday.first_day, YearMonthWeekday.index, WeekdayIndexed.index, days_after.
  rewrite F. cbn [mbind outcome_bind]. rewrite W. cbn [mbind outcome_bind]. rewrite D, last_day by done. cbn [mbind outcome_bind d_].
  rewrite !u32_id by lia. rewrite !s32_id by lia. rewrite !int32_Ok by lia. cbn [mbind outcome_bind]. rewrite int32_Ok by lia. rewrite u32_id by lia.
  split; [f_equal; lia|]. change (Year.ok (ymwd_year w)) with true. rewrite (proj2 (month_ok_bounds _) Hm).
  assert (O : Weekday.ok (YearMonthWeekday.weekday w) = true).
  { unfold YearMonthWeekday.weekday, WeekdayIndexed.weekday, Weekday.ok. cbn [wd_ mk_weekday]. rewrite u8_id by lia. lia. }
  rewrite O. cbn [negb orb]. rewrite (proj2 (Z.ltb_ge _ 1)) by lia. cbn iota. destruct (wi_index (ymwd_wdi w) <=? 4); [done|]. cbn [orb].
  f_equal. f_equal. lia.
Qed.

(** The members of a [year_month_weekday] are of the width of their types. *)
Definition weekday_date_wf (w : year_month_weekday) : Prop :=
  year_wf (ymwd_year w) /\ 0 <= m_ (ymwd_month w) < 256 /\ 0 <= wi_wd (ymwd_wdi w) < 16 /\ 0 <= wi_index (ymwd_wdi w) < 16.

Lemma weekday_date_ok w :
  weekday_date_wf w -> YearMonthWeekday.ok w = Ok true ->
  1 <= m_ (ymwd_month w) <= 12 /\ 0 <= wi_wd (ymwd_wdi w) < 7 /\ 1 <= wi_index (ymwd_wdi w) < 16.
Proof.
  intros (Hy & Hm & Hw & Hi). unfold YearMonthWeekday.ok. change (Year.ok (ymwd_year w)) with true. cbn [negb orb].
  destruct (Month.ok (ymwd_month w)) eqn:Em; [|done]. apply month_ok_bounds in Em. cbn [negb orb].
  unfold YearMonthWeekday.weekday, WeekdayIndexed.weekday, Weekday.ok, YearMonthWeekday.index, WeekdayIndexed.index. cbn [wd_ mk_weekday].
  rewrite u8_id by lia. destruct (Z.leb_spec (wi_wd (ymwd_wdi w)) 6); [|done]. cbn [negb orb].
  destruct (Z.ltb_spec (wi_index (ymwd_wdi w)) 1); [done|]. intros _. lia.
Qed.

(** The name that a date is given. *)
Lemma weekday_from_days x :
  valid x ->
  YearMonthWeekday.from_days (day_count x) =
    Ok {| ymwd_year := ymd_year x; ymwd_month := ymd_month x;
          ymwd_wdi := {| wi_wd := (day_count x + 4) mod 7; wi_index := (d_ (ymd_day x) - 1) / 7 + 1 |} |}.
Proof.
  intros V. pose proof (valid_range _ _ _ V) as R. fold (day_count x) in R. unfold YearMonthWeekday.from_days.
  rewrite weekday_of_day by lia. cbn [mbind outcome_bind]. unfold YearMonthDay.of_sys_days.
  destruct (from_days_valid (day_count x) R) as (x' & E & V' & C). rewrite E, (day_count_inj x' x V' V C). cbn [mbind outcome_bind].
  destruct V as (_ & _ & Hd). pose proof (month_length_bounds (y_ (ymd_year x)) (m_ (ymd_month x))).
  unfold Weekday.at_index, mk_weekday_indexed. cbn [wd_]. rewrite u32_id by lia. rewrite u8_id by zdiv_lia.
  rewrite !wrap_id by (unfold in_range; zdiv_lia). done.
Qed.

(** Dates are named by weekdays as well: every date is the [n]-th of its
    weekday in its month, the name is a valid one, and leads back to the date; and
    every valid name is that of a date of its month, found again from its count of
    days. *)
Theorem weekday_dates_roundtrip :
  (forall x, valid x ->
     exists w, YearMonthWeekday.from_days (day_count x) = Ok w /\ weekday_date_wf w /\ YearMonthWeekday.ok w = Ok true /\
       ymwd_year w = ymd_year x /\ ymwd_month w = ymd_month x /\ YearMonthWeekday.to_days w = YearMonthDay.to_days x) /\
  (forall w, weekday_date_wf w -> YearMonthWeekday.ok w = Ok true ->
     exists x, valid x /\ ymd_year x = ymwd_year w /\ ymd_month x = ymwd_month w /\
       YearMonthWeekday.to_days w = YearMonthDay.to_days x /\ YearMonthWeekday.from_days (day_count x) = Ok w).
Proof.
  split.
  - intros x V. pose proof V as (Hy & Hm & Hd). pose proof (month_length_bounds (y_ (ymd_year x)) (m_ (ymd_month x))).
    eexists. split; [by apply weekday_from_days|]. set (w := {| ymwd_year := _ |}).
    destruct (weekday_to_days w) as [T O]; cbn; [done|done|zdiv_lia|zdiv_lia|]. cbn in T, O.
    rewrite O, T, to_days_valid by done. unfold day_count. rewrite (count_day _ _ (d_ (ymd_day x))).
    split; [unfold weekday_date_wf, year_wf; cbn; split_and!; lia || zdiv_lia|].
    split_and!; [|done|done|]; f_equal; [rewrite orb_true_iff, !Z.leb_le|]; zdiv_lia.
  - intros w Wf Hok. destruct (weekday_date_ok w Wf Hok) as (Hm & Hw & Hi). destruct Wf as (Hy & _).
    destruct (weekday_to_days w Hy Hm Hw Hi) as [T O]. cbv zeta in T, O. rewrite Hok in O.
    set (c := count _ _ _) in *. set (diff := (_ - _) mod 7) in *. assert (Bd : 0 <= diff < 7) by (unfold diff; zdiv_lia).
    set (d := diff + (wi_index (ymwd_wdi w) - 1) * 7 + 1) in *.
    assert (Vd : 1 <= d <= month_length (y_ (ymwd_year w)) (m_ (ymwd_month w))).
    { pose proof (month_length_bounds (y_ (ymwd_year w)) (m_ (ymwd_month w))). split; [unfold d; lia|].
      injection O as O. symmetry in O. rewrite orb_true_iff, !Z.leb_le in O. unfold d in *. lia. }
    pose proof (month_length_bounds (y_ (ymwd_year w)) (m_ (ymwd_month w))).
    exists {| ymd_year := ymwd_year w; ymd_month := ymwd_month w; ymd_day := {| d_ := d |} |}. set (x := {| ymd_year := _ |}).
    assert (V : valid x) by (unfold valid; cbn; done).
    assert (C : day_count x = c + d - 1) by (unfold day_count; cbn; by rewrite count_day).
    split_and!; try done.
    + rewrite T, to_days_valid, C by done. f_equal. unfold d. lia.
    + rewrite weekday_from_days by done. f_equal. cbn. destruct w as [y m [wd i]]. cbn in *. f_equal. f_equal; [rewrite C; unfold d, diff|unfold d]; zdiv_lia.
Qed.

(** The last of a weekday in a month is on that weekday, and there is no other one
    after it in the month. *)
Lemma last_weekday_of_month w :
  year_wf (ymwdl_year w) -> month_wf (ymwdl_month w) -> weekday_wf (wdl_wd (ymwdl_wdl w)) ->
  YearMonthWeekdayLast.ok w = true ->
  exists x, valid x /\ ymd_year x = ymwdl_year w /\ ymd_month x = ymwdl_month w /\
    YearMonthWeekdayLast.to_days w = Ok (day_count x) /\
    Weekday.of_sys_days (day_count x) = Ok (wdl_wd (ymwdl_wdl w)) /\
    month_length (y_ (ymd_year x)) (m_ (ymd_month x)) < d_ (ymd_day x) + 7.
Proof.
  intros Hy Hm Hw O. unfold YearMonthWeekdayLast.ok, WeekdayLast.ok in O. rewrite !andb_true_iff in O. destruct O as [[_ Om] Ow].
  apply month_ok_bounds in Om. apply weekday_ok_bounds in Ow; [|done]. destruct w as [y m [wd]]. cbn in *.
  pose proof (month_length_bounds (y_ y) (m_ m)) as L. set (n := month_length (y_ y) (m_ m)) in *.
  assert (V : valid_date (y_ y) (m_ m) n) by (split; [done|lia]). pose proof (count_range _ _ _ V) as R.
  set (c := count (y_ y) (m_ m) n) in *. set (k := (c + 4 - wd_ wd) mod 7). assert (Bk : 0 <= k < 7) by (unfold k; zdiv_lia).
  exists {| ymd_year := y; ymd_month := m; ymd_day := {| d_ := n - k |} |}. set (x := {| ymd_year := _ |}).
  assert (Vx : valid x) by (split; [done|cbn; fold n; lia]).
  assert (C : day_count x = c - k) by (unfold day_count, c; cbn; rewrite count_day, (count_day _ _ n); lia).
  assert (LD : last_sys_days (Slash.ym_last (Slash.year_month y m)) = Ok c).
  { unfold last_sys_days. rewrite last_day by done. cbn [mbind outcome_bind]. unfold YearMonthDay.sys_days. rewrite to_days_count; [done|done|done|].
    cbn. fold n. lia. }
  split_and!; try done.
  - unfold YearMonthWeekdayLast.to_days. cbn. rewrite LD. cbn [mbind outcome_bind]. rewrite weekday_of_day by lia. cbn [mbind outcome_bind].
    unfold YearMonthWeekdayLast.weekday. cbn. rewrite weekday_diff by (cbn; zdiv_lia || lia). cbn.
    replace (((c + 4) mod 7 - wd_ wd) mod 7) with k by (unfold k; zdiv_lia). unfold days_before. rewrite int32_Ok by lia. by rewrite C.
  - rewrite C, weekday_of_day by lia. f_equal. destruct wd as [wd]. cbn in *. f_equal. unfold k in *. zdiv_lia.
  - cbn. fold n. lia.
Qed.

(** ** Months *)

(** Months are counted from that of the year 0. *)
Definition month_index (ym : year_month) : Z := 12 * y_ (ym_year ym) + m_ (ym_month ym) - 1.
Definition month_date (ym : year_month) : Prop := year_wf (ym_year ym) /\ 1 <= m_ (ym_month ym) <= 12.

Lemma month_index_inj x y : month_date x -> month_date y -> month_index x = month_index y -> x = y.
Proof.
  destruct x as [[y1] [m1]], y as [[y2] [m2]]. unfold month_date, month_index, year_wf. cbn. intros [? ?] [? ?] E.
  assert (y1 = y2) as -> by lia. by assert (m1 = m2) as -> by lia.
Qed.

(** Months are added and subtracted as their indices are, as long as the year still
    fits; adding the difference of two leads from the one to the other. *)
Lemma months_arithmetic x dm :
  month_date x -> - 393216 <= month_index x + dm < 393216 ->
  exists y, YearMonth.plus x dm = Ok y /\ month_date y /\ month_index y = month_index x + dm /\
    YearMonth.diff y x = Ok dm /\ YearMonth.minus y dm = Ok x.
Proof.
  assert (P : forall x dm, month_date x -> - 393216 <= month_index x + dm < 393216 ->
    exists y, YearMonth.plus x dm = Ok y /\ month_date y /\ month_index y = month_index x + dm).
  { clear. intros [[y] [m]] dm. unfold month_date, month_index, year_wf, YearMonth.plus. cbn [ym_year ym_month y_ m_]. intros [Hy Hm] Hi.
    rewrite int32_Ok by lia. cbn [mbind outcome_bind]. set (k := m - 1 + dm).
    assert (E : (if 0 <=? k then Ok k else int32 (k - 11)) = Ok (if 0 <=? k then k else k - (12 - 1))).
    { destruct (Z.leb_spec 0 k); [done|]. rewrite int32_Ok by (unfold k; lia). f_equal. }
    rewrite E. cbn [mbind outcome_bind]. rewrite quot_floor by lia. rewrite int32_Ok by zdiv_lia. cbn [mbind outcome_bind].
    unfold Year.plus. cbn [y_]. rewrite int32_Ok by (unfold k in *; zdiv_lia). cbn [mbind outcome_bind]. eexists. split; [done|].
    unfold mk_year, mk_month. cbn [ym_year ym_month y_ m_ Slash.year_month]. rewrite u32_id by zdiv_lia. rewrite u8_id by zdiv_lia.
    rewrite s16_id by (unfold k in *; zdiv_lia). unfold k in *. split; [split|]; zdiv_lia. }
  intros Hx Hi. destruct (P x dm Hx Hi) as (y & E & Hy & I). exists y. split_and!; try done.
  - unfold YearMonth.diff, Year.diff. destruct Hx as [Hx1 Hx2], Hy as [Hy1 Hy2]. unfold year_wf, month_index in *. rewrite int32_Ok by lia.
    cbn [mbind outcome_bind]. rewrite (s32_id (12 * _)) by lia.
    assert (S : s32 (u32 (m_ (ym_month y) - m_ (ym_month x))) = m_ (ym_month y) - m_ (ym_month x)).
    { unfold signed, wrap. change (2 ^ (32 - 1)) with 2147483648. change (2 ^ 32) with 4294967296. zdiv_lia. }
    rewrite S, int32_Ok by lia. f_equal. lia.
  - unfold YearMonth.minus, negate. rewrite int32_Ok by (unfold month_date, year_wf, month_index in *; lia). cbn [mbind outcome_bind].
    destruct (P y (- dm) Hy) as (x' & E' & Hx' & I'); [unfold month_date, year_wf, month_index in *; lia|].
    rewrite E', (month_index_inj x' x); [done|done|done|lia].
Qed.

(** The day of the month stays where it is: the result exists exactly when its
    month is long enough. *)
Lemma plus_months_valid x dm :
  valid x -> - 393216 <= month_index (Slash.year_month (ymd_year x) (ymd_month x)) + dm < 393216 ->
  exists y, YearMonthDay.plus x dm = Ok y /\ ymd_day y = ymd_day x /\
    month_index (Slash.year_month (ymd_year y) (ymd_month y)) = month_index (Slash.year_month (ymd_year x) (ymd_month x)) + dm /\
    (valid y <-> d_ (ymd_day x) <= month_length (y_ (ymd_year y)) (m_ (ymd_month y))).
Proof.
  intros (Hy & Hm & Hd) Hi. destruct (months_arithmetic (Slash.year_month (ymd_year x) (ymd_month x)) dm) as (ym & E & [Hy' Hm'] & I & _); [done|done|].
  unfold YearMonthDay.plus. rewrite E. cbn [mbind outcome_bind]. eexists. split; [done|]. cbn. split; [done|].
  split; [by destruct ym|]. unfold valid, valid_date. cbn. unfold year_wf in Hy'. split; [tauto|]. intros. split; [done|]. lia.
Qed.

Example january_31 : YearMonthDay.plus (date 2017 1 31) 1 = Ok (date 2017 2 31) /\ YearMonthDay.ok (date 2017 2 31) = Ok false.
Proof. split; reflexivity. Qed.
