(* ===== verification/TimeOfDay.v ===== *)
(** * Roundings and the time of day ([src/src/utils/date.h])

    Conversions of durations to a coarser unit ([trunc], [floor], [round], [ceil]),
    and the class [time_of_day] with its four representations, by the hour, the
    minute, the second and a fraction of it, on a clock of 24 or of 12 hours.  A
    duration is its number of ticks; hours, minutes and seconds are counted on 64
    bits. *)

From S2P Require Import Prelude CppStd Calendar CalendarLaws.

(** ** Roundings

    One tick of the target is [n] of the source; the target counts on [w] bits. *)
Section Rounding.
Context (w n : Z).

(** [detail::trunc] of an integer. *)
Definition detail_trunc (t : Z) : Z := t.

(** [duration_cast] divides, then converts. *)
Definition trunc (d : Z) : Z := detail_trunc (signed w (Z.quot d n)).
Definition floor (d : Z) : outcome Z :=
  let t := trunc d in if d <? t * n then checked w (t - 1) else Ok t.
Definition ceil (d : Z) : outcome Z :=
  let t := trunc d in if t * n <? d then checked w (t + 1) else Ok t.
Definition round (d : Z) : outcome Z :=
  t0 ← floor d;
  t1 ← checked w (t0 + 1);
  t1 ← (if (t1 =? 0) && (t0 <? 0) then checked w (- t1) else Ok t1);
  let diff0 := d - t0 * n in
  let diff1 := t1 * n - d in
  if diff0 =? diff1 then
    if t0 - Z.quot t0 2 * 2 =? 0 then Ok t0 else Ok t1
  else if diff0 <? diff1 then Ok t0 else Ok t1.

(** The same of time points: of their time since the epoch. *)
Definition trunc_time_point (tp : Z) : Z := trunc tp.
Definition floor_time_point (tp : Z) : outcome Z := floor tp.
Definition ceil_time_point (tp : Z) : outcome Z := ceil tp.
Definition round_time_point (tp : Z) : outcome Z := round tp.
End Rounding.

Definition abs (w d : Z) : outcome Z := if 0 <=? d then Ok d else checked w (- d).

(** *** What they compute *)
Section RoundingLaws.
Context (w n d : Z) (Hw : 0 < w) (Hn : 0 < n)
  (Hlo : - 2 ^ (w - 1) * n < d) (Hhi : d < (2 ^ (w - 1) - 1) * n).

Lemma trunc_in_range : trunc w n d = Z.quot d n.
Proof.
  unfold trunc, detail_trunc. apply signed_id; [done|].
  assert (P : 0 < 2 ^ (w - 1)) by (apply Z.pow_pos_nonneg; lia). Z.to_euclidean_division_equations. nia.
Qed.

Lemma floor_spec : floor w n d = Ok (d / n).
Proof.
  unfold floor. rewrite trunc_in_range. assert (P : 0 < 2 ^ (w - 1)) by (apply Z.pow_pos_nonneg; lia).
  destruct (Z.ltb_spec d (Z.quot d n * n)).
  - rewrite checked_Ok; [f_equal|]; Z.to_euclidean_division_equations; nia.
  - f_equal. Z.to_euclidean_division_equations; nia.
Qed.

Lemma ceil_spec : ceil w n d = Ok (- (- d / n)).
Proof.
  unfold ceil. rewrite trunc_in_range. assert (P : 0 < 2 ^ (w - 1)) by (apply Z.pow_pos_nonneg; lia).
  destruct (Z.ltb_spec (Z.quot d n * n) d).
  - rewrite checked_Ok; [f_equal|]; Z.to_euclidean_division_equations; nia.
  - f_equal. Z.to_euclidean_division_equations; nia.
Qed.

(** The nearest tick; halfway between two, the even one. *)
Lemma round_spec :
  exists t, round w n d = Ok t /\ 2 * Z.abs (d - t * n) <= n /\ (2 * Z.abs (d - t * n) = n -> Z.even t = true).
Proof.
  unfold round. rewrite floor_spec. cbn [mbind outcome_bind]. assert (P : 0 < 2 ^ (w - 1)) by (apply Z.pow_pos_nonneg; lia).
  assert (B : d / n * n <= d < (d / n + 1) * n) by (Z.to_euclidean_division_equations; nia). set (t := d / n) in *.
  assert (R : - 2 ^ (w - 1) <= t + 1 < 2 ^ (w - 1)) by nia. rewrite checked_Ok by done. cbn [mbind outcome_bind].
  assert (Z0 : (if (t + 1 =? 0) && (t <? 0) then checked w (- (t + 1)) else Ok (t + 1)) = Ok (t + 1)).
  { destruct (Z.eqb_spec (t + 1) 0) as [E|]; [|done]. destruct (t <? 0); [|done]. rewrite E. cbn. rewrite checked_Ok; [done|lia]. }
  rewrite Z0. cbn [mbind outcome_bind].
  assert (E2 : (t - Z.quot t 2 * 2 =? 0) = Z.even t) by (apply eq_true_iff_eq; rewrite Z.even_spec, Z.eqb_eq; split;
    [exists (Z.quot t 2); lia|intros [k ->]; zdiv_lia]).
  rewrite E2. destruct (Z.eqb_spec (d - t * n) ((t + 1) * n - d)).
  - destruct (Z.even t) eqn:Ev; eexists; (split; [done|]); (split; [lia|]); intros _; [done|]. by rewrite Z.even_add, Ev.
  - destruct (Z.ltb_spec (d - t * n) ((t + 1) * n - d)); eexists; (split; [done|]); lia.
Qed.
End RoundingLaws.

(** ** [time_of_day_base] *)
Definition is24hr : Z := 0.
Definition am : Z := 1.
Definition pm : Z := 2.

Record time_of_day_base := { h_ : Z; mode_ : Z }.

Definition to24hr (t : time_of_day_base) : outcome Z :=
  let h := h_ t in
  if (mode_ t =? am) || (mode_ t =? pm) then
    if mode_ t =? pm then (if negb (h =? 12) then int64 (h + 12) else Ok h)
    else if h =? 12 then Ok 0 else Ok h
  else Ok h.

Definition make24 (t : time_of_day_base) : outcome time_of_day_base :=
  h ← to24hr t; Ok {| h_ := h; mode_ := is24hr |}.

Definition make12 (t : time_of_day_base) : time_of_day_base :=
  if mode_ t =? is24hr then
    if 12 <=? h_ t then {| h_ := if 12 <? h_ t then h_ t - 12 else h_ t; mode_ := pm |}
    else {| h_ := if h_ t =? 0 then 12 else h_ t; mode_ := am |}
  else t.

(** A clock of 12 hours tells the same time: every number of hours but 24, which
    it shows as 12 pm, is found again. *)
Lemma make12_same_time t :
  mode_ t = is24hr -> - 2 ^ 63 <= h_ t < 2 ^ 63 ->
  make24 (make12 t) = Ok {| h_ := if h_ t =? 24 then 12 else h_ t; mode_ := is24hr |} /\
  (0 <= h_ t < 24 -> 1 <= h_ (make12 t) <= 12 /\ (mode_ (make12 t) = pm <-> 12 <= h_ t)).
Proof.
  destruct t as [h m]. cbn. intros -> Hh. unfold make24, to24hr, make12. cbn. split.
  - destruct (Z.leb_spec 12 h); cbn.
    + destruct (Z.ltb_spec 12 h); cbn.
      * destruct (Z.eqb_spec (h - 12) 12); cbn.
        { replace h with 24 by lia. done. }
        rewrite checked_Ok by lia. cbn. destruct (Z.eqb_spec h 24); [lia|]. do 2 f_equal. lia.
      * assert (h = 12) as -> by lia. done.
    + destruct (Z.eqb_spec h 0) as [->|]; cbn; [done|]. destruct (Z.eqb_spec h 12); [lia|]. destruct (Z.eqb_spec h 24); [lia|done].
  - intros H. unfold pm, am. destruct (Z.leb_spec 12 h); cbn; [destruct (Z.ltb_spec 12 h)|destruct (Z.eqb_spec h 0)]; cbn; lia.
Qed.

(** ** The four representations

    Sums and conversions to a finer unit are done on 64 bits. *)
Definition in_ticks (d n : Z) : outcome Z := int64 (d * n).

Module Hour.
Record time_of_day := { base : time_of_day_base }.

Definition since_midnight (d : Z) : time_of_day := {| base := {| h_ := d; mode_ := is24hr |} |}.
Definition of_parts (h md : Z) : time_of_day := {| base := {| h_ := h; mode_ := u8 md |} |}.
Definition to_duration (t : time_of_day) : outcome Z := to24hr (base t).
Definition make24 (t : time_of_day) : outcome time_of_day := b ← TimeOfDay.make24 (base t); Ok {| base := b |}.
Definition make12 (t : time_of_day) : time_of_day := {| base := TimeOfDay.make12 (base t) |}.
End Hour.

Module Minute.
Record time_of_day := { base : time_of_day_base; m_ : Z }.

Definition since_midnight (d : Z) : time_of_day :=
  let h := Z.quot d 60 in {| base := {| h_ := h; mode_ := is24hr |}; m_ := d - h * 60 |}.
Definition of_parts (h m md : Z) : time_of_day := {| base := {| h_ := h; mode_ := u8 md |}; m_ := m |}.
Definition to_duration (t : time_of_day) : outcome Z :=
  h ← to24hr (base t); h ← in_ticks h 60; int64 (h + m_ t).
Definition make24 (t : time_of_day) : outcome time_of_day := b ← TimeOfDay.make24 (base t); Ok {| base := b; m_ := m_ t |}.
Definition make12 (t : time_of_day) : time_of_day := {| base := TimeOfDay.make12 (base t); m_ := m_ t |}.
End Minute.

Module Second.
Record time_of_day := { base : time_of_day_base; m_ : Z; s_ : Z }.

Definition since_midnight (d : Z) : time_of_day :=
  let h := Z.quot d 3600 in
  let m := Z.quot (d - h * 3600) 60 in
  {| base := {| h_ := h; mode_ := is24hr |}; m_ := m; s_ := d - h * 3600 - m * 60 |}.
Definition of_parts (h m s md : Z) : time_of_day := {| base := {| h_ := h; mode_ := u8 md |}; m_ := m; s_ := s |}.
Definition to_duration (t : time_of_day) : outcome Z :=
  h ← to24hr (base t); h ← in_ticks h 60; hm ← int64 (h + m_ t);
  hm ← in_ticks hm 60; int64 (hm + s_ t).
Definition make24 (t : time_of_day) : outcome time_of_day :=
  b ← TimeOfDay.make24 (base t); Ok {| base := b; m_ := m_ t; s_ := s_ t |}.
Definition make12 (t : time_of_day) : time_of_day := {| base := TimeOfDay.make12 (base t); m_ := m_ t; s_ := s_ t |}.
End Second.

Module Subsecond.
(** [den] ticks are a second. *)
Record time_of_day := { base : time_of_day_base; m_ : Z; s_ : Z; sub_s_ : Z }.

Section Precision.
Context (den : Z).

Definition since_midnight (d : Z) : time_of_day :=
  let h := Z.quot d (3600 * den) in
  let m := Z.quot (d - h * (3600 * den)) (60 * den) in
  let s := Z.quot (d - h * (3600 * den) - m * (60 * den)) den in
  {| base := {| h_ := h; mode_ := is24hr |}; m_ := m; s_ := s;
     sub_s_ := d - h * (3600 * den) - m * (60 * den) - s * den |}.
Definition of_parts (h m s sub_s md : Z) : time_of_day :=
  {| base := {| h_ := h; mode_ := u8 md |}; m_ := m; s_ := s; sub_s_ := sub_s |}.
Definition to_duration (t : time_of_day) : outcome Z :=
  h ← to24hr (base t); h ← in_ticks h 60; hm ← int64 (h + m_ t);
  hm ← in_ticks hm 60; hms ← int64 (hm + s_ t);
  hms ← in_ticks hms den; int64 (hms + sub_s_ t).
Definition make24 (t : time_of_day) : outcome time_of_day :=
  b ← TimeOfDay.make24 (base t); Ok {| base := b; m_ := m_ t; s_ := s_ t; sub_s_ := sub_s_ t |}.
Definition make12 (t : time_of_day) : time_of_day :=
  {| base := TimeOfDay.make12 (base t); m_ := m_ t; s_ := s_ t; sub_s_ := sub_s_ t |}.

(** [ceil_log10] and [pow10]: how many digits the fraction has. *)
Definition log10_step (p k : Z) (x : Z * Z) : Z * Z := if p <=? x.1 then (x.1 / p, x.2 + k) else x.
Definition ceil_log10 (i : Z) : Z :=
  let x := (u64 (i - 1), 0) in
  let x := log10_step 10000000000000000 16 x in
  let x := log10_step 100000000 8 x in
  let x := log10_step 10000 4 x in
  let x := log10_step 100 2 x in
  let x := log10_step 10 1 x in
  if 1 <=? x.1 then x.2 + 1 else x.2.

Definition pow10_table : list Z :=
  [1; 10; 100; 1000; 10000; 100000; 1000000; 10000000; 100000000; 1000000000; 10000000000; 100000000000;
   1000000000000; 10000000000000; 100000000000000; 1000000000000000; 10000000000000000; 100000000000000000;
   1000000000000000000; 10000000000000000000].
Definition pow10 (y : Z) : outcome Z := table_at pow10_table y.
End Precision.
End Subsecond.

(** *** Which of them a duration has: by its period, [num/den] seconds *)
Inductive classify := not_valid | hour | minute | second | subsecond.

Definition classify_duration (num den : Z) : classify :=
  if 86400 * den <=? num then not_valid
  else if 3600 * den <=? num then hour
  else if 60 * den <=? num then minute
  else if den <=? num then second
  else subsecond.

(** [make_time] of the parts. *)
Definition make_time_hour (h md : Z) : Hour.time_of_day := Hour.of_parts h md.
Definition make_time_minute (h m md : Z) : Minute.time_of_day := Minute.of_parts h m md.
Definition make_time_second (h m s md : Z) : Second.time_of_day := Second.of_parts h m s md.
Definition make_time_subsecond (h m s sub_s md : Z) : Subsecond.time_of_day := Subsecond.of_parts h m s sub_s md.

(** ** A duration and its parts *)
Lemma second_parts d :
  - 2 ^ 63 <= d < 2 ^ 63 ->
  let t := Second.since_midnight d in
  Second.to_duration t = Ok d /\
  (0 <= d -> 0 <= h_ (Second.base t) /\ 0 <= Second.m_ t < 60 /\ 0 <= Second.s_ t < 60) /\
  (d <= 0 -> h_ (Second.base t) <= 0 /\ - 60 < Second.m_ t <= 0 /\ - 60 < Second.s_ t <= 0) /\
  (0 <= d < 86400 -> h_ (Second.base t) < 24).
Proof.
  intros Hd. cbv zeta. unfold Second.to_duration, Second.since_midnight, in_ticks, to24hr. cbn. split; [|zdiv_lia].
  rewrite checked_Ok by zdiv_lia. cbn. rewrite checked_Ok by zdiv_lia. cbn. rewrite checked_Ok by zdiv_lia. cbn.
  rewrite checked_Ok by zdiv_lia. f_equal. lia.
Qed.

Lemma minute_parts d :
  - 2 ^ 63 <= d < 2 ^ 63 ->
  let t := Minute.since_midnight d in
  Minute.to_duration t = Ok d /\ (0 <= d -> 0 <= h_ (Minute.base t) /\ 0 <= Minute.m_ t < 60).
Proof.
  intros Hd. cbv zeta. unfold Minute.to_duration, Minute.since_midnight, in_ticks, to24hr. cbn. split; [|zdiv_lia].
  rewrite checked_Ok by zdiv_lia. cbn. rewrite checked_Ok by zdiv_lia. f_equal. lia.
Qed.

(** The quotients of a fraction of a second, whose unit is not a constant: what is
    left is of the same sign and less than the unit, nothing grows. *)
Lemma quot_rest d n :
  0 < n ->
  let q := Z.quot d n in
  Z.abs (q * n) <= Z.abs d /\ Z.abs (d - q * n) < n /\ (0 <= d -> 0 <= d - q * n) /\ (d <= 0 -> d - q * n <= 0) /\ Z.abs q <= Z.abs d.
Proof.
  intros Hn. cbv zeta. pose proof (Z.quot_rem' d n) as E. set (q := Z.quot d n) in *.
  destruct (Z.le_gt_cases 0 d) as [H|H].
  - pose proof (Z.rem_bound_pos_pos d n Hn H). assert (0 <= q) by nia. assert (q <= q * n) by nia.
    assert (D : d - q * n = Z.rem d n) by lia. assert (d = 0 -> q * n <= 0) by nia. lia.
  - pose proof (Z.rem_bound_pos_neg d n Hn ltac:(lia)). assert (q <= 0) by nia. assert (q * n <= q) by nia.
    assert (D : d - q * n = Z.rem d n) by lia. lia.
Qed.

Lemma quot_below d n k : 0 < n -> Z.abs d < k * n -> Z.abs (Z.quot d n) < k.
Proof. intros Hn H. destruct (quot_rest d n Hn) as (A & _). rewrite Z.abs_mul, (Z.abs_eq n) in A by lia. nia. Qed.

Lemma subsecond_parts den d :
  0 < den -> - 2 ^ 63 < d < 2 ^ 63 ->
  let t := Subsecond.since_midnight den d in
  Subsecond.to_duration den t = Ok d /\ Z.abs (Subsecond.m_ t) < 60 /\ Z.abs (Subsecond.s_ t) < 60 /\
  Z.abs (Subsecond.sub_s_ t) < den /\
  (0 <= d -> 0 <= h_ (Subsecond.base t) /\ 0 <= Subsecond.m_ t /\ 0 <= Subsecond.s_ t /\ 0 <= Subsecond.sub_s_ t).
Proof.
  intros Hn Hd. cbv zeta. unfold Subsecond.to_duration, Subsecond.since_midnight, in_ticks, to24hr. cbn.
  set (h := Z.quot d (3600 * den)). destruct (quot_rest d (3600 * den)) as (A1 & B1 & C1 & D1 & _); [lia|]. fold h in A1, B1, C1, D1.
  set (r := d - h * (3600 * den)) in *. set (m := Z.quot r (60 * den)). destruct (quot_rest r (60 * den)) as (A2 & B2 & C2 & D2 & _); [lia|].
  fold m in A2, B2, C2, D2. set (q := r - m * (60 * den)) in *. set (s := Z.quot q den).
  destruct (quot_rest q den) as (A3 & B3 & C3 & D3 & _); [lia|]. fold s in A3, B3, C3, D3.
  assert (Bm : Z.abs m < 60) by (apply quot_below; lia). assert (Bs : Z.abs s < 60) by (apply quot_below; lia).
  assert (P : 0 <= d -> 0 <= h /\ 0 <= m /\ 0 <= s).
  { intros H. pose proof (C1 H) as Hr. pose proof (C2 Hr) as Hq. unfold h, m, s. split_and!; apply Z.quot_pos; lia. }
  assert (N : d <= 0 -> h <= 0 /\ m <= 0 /\ s <= 0).
  { intros H. pose proof (D1 H) as Hr. pose proof (D2 Hr) as Hq. unfold h, m, s.
    split_and!; rewrite <- Z.opp_nonneg_nonpos, <- Z.quot_opp_l by lia; apply Z.quot_pos; lia. }
  set (X := (h * 60 + m) * 60 + s). assert (EX : X * den + (q - s * den) = d) by (unfold X, q, r; ring).
  assert (BX : 0 <= d /\ 0 <= X <= d \/ d <= 0 /\ d <= X <= 0).
  { destruct (Z.le_gt_cases 0 d) as [H|H]; [left|right]; (split; [lia|]).
    - destruct (P H) as (? & ? & ?). pose proof (C3 (C2 (C1 H))). clear - EX H0 H1 H2 H3 Hn X. assert (0 <= X) by (unfold X; lia). clearbody X. nia.
    - destruct (N ltac:(lia)) as (? & ? & ?). pose proof (D3 (D2 (D1 ltac:(lia)))). clear - EX H0 H1 H2 H3 Hn X. assert (X <= 0) by (unfold X; lia). clearbody X. nia. }
  split; [|split; [done|split; [done|split; [done|]]]; intros H; destruct (P H) as (? & ? & ?); pose proof (C3 (C2 (C1 H))); lia].
  unfold X in BX. rewrite (checked_Ok 64 (h * 60)) by lia. cbn. rewrite checked_Ok by lia. cbn. rewrite checked_Ok by lia. cbn.
  rewrite checked_Ok by lia. cbn. fold X. assert (B : - 2 ^ 63 <= X * den < 2 ^ 63) by lia. rewrite checked_Ok by lia. cbn.
  rewrite checked_Ok by lia. f_equal. unfold X, q, r. ring.
Qed.

(** The search for the number of digits halves the digits that are left: of [i0], [n]
    digits are cut off, fewer than [b] are left. *)
Definition cut (i0 b : Z) (x : Z * Z) : Prop :=
  0 <= x.2 /\ x.1 = i0 / 10 ^ x.2 /\ 0 <= x.1 < 10 ^ b /\ (0 < x.2 -> 1 <= x.1).

Lemma log10_step_cut i0 k x : 0 < k -> cut i0 (2 * k) x -> cut i0 k (Subsecond.log10_step (10 ^ k) k x).
Proof.
  destruct x as [i n]. unfold cut, Subsecond.log10_step. cbn. intros Hk (Hn & E & B & P).
  assert (Pk : 0 < 10 ^ k) by (apply Z.pow_pos_nonneg; lia). assert (Pn : 0 < 10 ^ n) by (apply Z.pow_pos_nonneg; lia).
  destruct (Z.leb_spec (10 ^ k) i) as [L|L]; cbn; [|split_and!; lia].
  assert (D : i / 10 ^ k < 10 ^ k).
  { apply Z.div_lt_upper_bound; [done|]. rewrite <- Z.pow_add_r by lia. replace (k + k) with (2 * k) by lia. lia. }
  assert (D1 : 1 <= i / 10 ^ k) by (apply Z.div_le_lower_bound; lia).
  split_and!; try lia. rewrite Z.pow_add_r by lia. rewrite E. by rewrite Z.div_div by lia.
Qed.

(** The number of digits of a fraction of which [den] make one. *)
Lemma ceil_log10_spec den :
  1 <= den <= 10 ^ 19 ->
  let n := Subsecond.ceil_log10 den in
  0 <= n <= 19 /\ den <= 10 ^ n /\ (1 < den -> 10 ^ (n - 1) < den).
Proof.
  intros Hd. cbv zeta. unfold Subsecond.ceil_log10. rewrite wrap_id by (unfold in_range; lia).
  assert (C0 : cut (den - 1) 32 (den - 1, 0)) by (unfold cut; cbn; rewrite Z.div_1_r; lia).
  apply (log10_step_cut _ 16) in C0; [|lia]. apply (log10_step_cut _ 8) in C0; [|lia]. apply (log10_step_cut _ 4) in C0; [|lia].
  apply (log10_step_cut _ 2) in C0; [|lia]. apply (log10_step_cut _ 1) in C0; [|lia].
  change (10 ^ 16) with 10000000000000000 in C0. change (10 ^ 8) with 100000000 in C0. change (10 ^ 4) with 10000 in C0.
  change (10 ^ 2) with 100 in C0. change (10 ^ 1) with 10 in C0. cbv zeta. revert C0. generalize (Subsecond.log10_step 10 1
    (Subsecond.log10_step 100 2 (Subsecond.log10_step 10000 4 (Subsecond.log10_step 100000000 8
      (Subsecond.log10_step 10000000000000000 16 (den - 1, 0)))))). intros [i n] (Hn & E & B & P). cbn in *.
  assert (Pn : 0 < 10 ^ n) by (apply Z.pow_pos_nonneg; lia). change (10 ^ 1) with 10 in B. change (Z.pow_pos 10 1) with 10 in B.
  pose proof (Z.div_mod (den - 1) (10 ^ n) ltac:(lia)) as DM. pose proof (Z.mod_pos_bound (den - 1) (10 ^ n) Pn). rewrite <- E in DM.
  destruct (Z.leb_spec 1 i).
  - assert (n < 19) by (apply (Z.pow_lt_mono_r_iff 10); nia). rewrite Z.pow_add_r by lia. change (10 ^ 1) with 10.
    replace (n + 1 - 1) with n by lia. split; [lia|]. split; [nia|]. intros _. nia.
  - assert (n = 0) as -> by lia. change (10 ^ 0) with 1 in *. lia.
Qed.
