(* ===== verification/DateText.v ===== *)
(** * Dates and times as text ([src/src/utils/date.h])

    The operators [<<] of the classes of [Calendar], [CalendarDays] and [TimeOfDay],
    over the streams of [Streams], in the classic locale; and that the text of a
    time point tells which one it is. *)

From S2P Require Import Prelude CppStd Streams Calendar CalendarDays CalendarLaws TimeOfDay.

(** ** [detail::save_stream]: fill and flags are given back *)
Definition restore (saved os : ostream) : ostream := set_flags (flags saved) (set_fill (fill saved) os).

Definition dec_right : fmtflags := {| basefield := Streams.dec; adjustfield := adjust_right |}.
Definition dec_internal : fmtflags := {| basefield := Streams.dec; adjustfield := adjust_internal |}.

(** [os.fill('0'); os.flags(...)]. *)
Definition zeros (f : fmtflags) (os : ostream) : ostream := set_flags f (set_fill "0"%char os).

(** ** Parts of dates *)
Definition put_day (d : day) (os : ostream) : ostream :=
  restore os (put_int 32 (d_ d) (set_width 2 (zeros dec_right os))).

Definition month_names : list string :=
  ["Jan"; "Feb"; "Mar"; "Apr"; "May"; "Jun"; "Jul"; "Aug"; "Sep"; "Oct"; "Nov"; "Dec"].

Definition put_month (m : month) (os : ostream) : ostream :=
  match (if 1 <=? m_ m then month_names !! Z.to_nat (m_ m - 1) else None) with
  | Some name => put_string name os
  | None => put_string " is not a valid month" (put_int 32 (m_ m) os)
  end.

Definition put_year (y : year) (os : ostream) : ostream :=
  restore os (put_int 32 (y_ y) (set_width (4 + Z.b2z (Year.ltb y (mk_year 0))) (zeros dec_internal os))).

Definition weekday_names : list string := ["Sun"; "Mon"; "Tue"; "Wed"; "Thu"; "Fri"; "Sat"].

Definition put_weekday (wd : weekday) (os : ostream) : ostream :=
  match weekday_names !! Z.to_nat (wd_ wd) with
  | Some name => put_string name os
  | None => put_string " is not a valid weekday" (put_int 32 (wd_ wd) os)
  end.

Definition put_weekday_indexed (wdi : weekday_indexed) (os : ostream) : ostream :=
  put_char "]" (put_int 32 (WeekdayIndexed.index wdi) (put_char "[" (put_weekday (WeekdayIndexed.weekday wdi) os))).
Definition put_weekday_last (wdl : weekday_last) (os : ostream) : ostream :=
  put_string "[last]" (put_weekday (wdl_wd wdl) os).
Definition put_year_month (ym : year_month) (os : ostream) : ostream :=
  put_month (ym_month ym) (put_char "/" (put_year (ym_year ym) os)).
Definition put_month_day (md : month_day) (os : ostream) : ostream :=
  put_day (md_day md) (put_char "/" (put_month (md_month md) os)).
Definition put_month_day_last (mdl : month_day_last) (os : ostream) : ostream :=
  put_string "/last" (put_month (mdl_month mdl) os).
Definition put_month_weekday (mwd : month_weekday) (os : ostream) : ostream :=
  put_weekday_indexed (mwd_wdi mwd) (put_char "/" (put_month (mwd_month mwd) os)).
Definition put_month_weekday_last (mwdl : month_weekday_last) (os : ostream) : ostream :=
  put_weekday_last (mwdl_wdl mwdl) (put_char "/" (put_month (mwdl_month mwdl) os)).
Definition put_year_month_day_last (ymdl : year_month_day_last) (os : ostream) : ostream :=
  put_month_day_last (ymdl_mdl ymdl) (put_char "/" (put_year (ymdl_year ymdl) os)).
Definition put_year_month_weekday (ymwd : year_month_weekday) (os : ostream) : ostream :=
  put_weekday_indexed (ymwd_wdi ymwd) (put_char "/" (put_month (ymwd_month ymwd) (put_char "/" (put_year (ymwd_year ymwd) os)))).
Definition put_year_month_weekday_last (ymwdl : year_month_weekday_last) (os : ostream) : ostream :=
  put_weekday_last (ymwdl_wdl ymwdl) (put_char "/" (put_month (ymwdl_month ymwdl) (put_char "/" (put_year (ymwdl_year ymwdl) os)))).

Definition put_year_month_day (ymd : year_month_day) (os : ostream) : ostream :=
  let saved := os in
  let os := put_char "-" (put_year (ymd_year ymd) (zeros dec_right os)) in
  let os := put_char "-" (put_int 32 (m_ (ymd_month ymd)) (set_width 2 os)) in
  restore saved (put_day (ymd_day ymd) os).

(** ** Times of day *)

(** [am], [pm], or neither; only a clock of 24 hours pads its hours. *)
Definition twelve (t : time_of_day_base) : bool := (mode_ t =? am) || (mode_ t =? pm).
Definition put_mode (t : time_of_day_base) (os : ostream) : ostream :=
  if mode_ t =? am then put_string "am" os else if mode_ t =? pm then put_string "pm" os else os.
Definition hour_width (t : time_of_day_base) (os : ostream) : ostream := if twelve t then os else set_width 2 os.
Definition put_minus (d : Z) (os : ostream) : ostream := if d <? 0 then put_char "-" os else os.

Definition put_hour (t : Hour.time_of_day) (os : ostream) : ostream :=
  let b := Hour.base t in
  let saved := os in
  let os := put_int 64 (h_ b) (hour_width b (zeros dec_right os)) in
  restore saved (if mode_ b =? is24hr then put_string "00" os else put_mode b os).

Definition put_minute (t : Minute.time_of_day) (os : ostream) : outcome ostream :=
  let b := Minute.base t in
  let saved := os in
  d ← Minute.to_duration t;
  h ← abs 64 (h_ b); m ← abs 64 (Minute.m_ t);
  let os := hour_width b (zeros dec_right (put_minus d os)) in
  let os := put_char ":" (put_int 64 h os) in
  let os := put_int 64 m (set_width 2 os) in
  Ok (restore saved (put_mode b os)).

Definition put_second (t : Second.time_of_day) (os : ostream) : outcome ostream :=
  let b := Second.base t in
  let saved := os in
  d ← Second.to_duration t;
  h ← abs 64 (h_ b); m ← abs 64 (Second.m_ t); s ← abs 64 (Second.s_ t);
  let os := hour_width b (zeros dec_right (put_minus d os)) in
  let os := put_char ":" (put_int 64 h os) in
  let os := put_char ":" (put_int 64 m (set_width 2 os)) in
  let os := put_int 64 s (set_width 2 os) in
  Ok (restore saved (put_mode b os)).

(** The fraction, scaled to a power of ten: [std::ratio] keeps [num] and [den] without
    a common divisor. *)
Definition put_subsecond (den : Z) (t : Subsecond.time_of_day) (os : ostream) : outcome ostream :=
  let b := Subsecond.base t in
  let saved := os in
  d ← Subsecond.to_duration den t;
  h ← abs 64 (h_ b); m ← abs 64 (Subsecond.m_ t); s ← abs 64 (Subsecond.s_ t); sub ← abs 64 (Subsecond.sub_s_ t);
  let os := hour_width b (zeros dec_right (put_minus d os)) in
  let os := put_char ":" (put_int 64 h os) in
  let os := put_char ":" (put_int 64 m (set_width 2 os)) in
  let os := put_char "." (put_int 64 s (set_width 2 os)) in
  let cl10 := Subsecond.ceil_log10 den in
  p ← Subsecond.pow10 cl10;
  let g := Z.gcd p den in
  n ← int64 (sub * (p / g));
  let os := put_int 64 (Z.quot n (den / g)) (set_width cl10 os) in
  Ok (restore saved (put_mode b os)).

(** ** Time points *)
Definition put_sys_seconds (tp : Z) (os : ostream) : outcome ostream :=
  dp ← floor_time_point 32 86400 tp;
  ymd ← YearMonthDay.of_sys_days dp;
  rest ← int64 (tp - dp * 86400);
  put_second (Second.since_midnight rest) (put_char " " (put_year_month_day ymd os)).

Definition put_sys_subseconds (den tp : Z) (os : ostream) : outcome ostream :=
  dp ← floor_time_point 32 (86400 * den) tp;
  ymd ← YearMonthDay.of_sys_days dp;
  rest ← int64 (tp - dp * (86400 * den));
  put_subsecond den (Subsecond.since_midnight den rest) (put_char " " (put_year_month_day ymd os)).

Definition put_sys_days (dp : Z) (os : ostream) : outcome ostream :=
  ymd ← YearMonthDay.of_sys_days dp; Ok (put_year_month_day ymd os).

Definition put_local_seconds (ut : Z) (os : ostream) : outcome ostream := put_sys_seconds ut os.

(** On some dates of the repository's own test of its formats. *)
Example december_16 :
  (text <$> put_sys_seconds 566617583 new_stream) = Ok "1987-12-16 01:46:23".
Proof. vm_compute. reflexivity. Qed.
Example december_19 :
  (text <$> put_sys_subseconds 1000000 1135033321999999 new_stream) = Ok "2005-12-19 23:02:01.999999".
Proof. vm_compute. reflexivity. Qed.
Example before_christ :
  (text <$> put_sys_seconds (-62167219201) new_stream) = Ok "-0001-12-31 23:59:59".
Proof. vm_compute. reflexivity. Qed.
Example third_thursday :
  text (put_year_month_weekday {| ymwd_year := mk_year 2016; ymwd_month := mk_month 5; ymwd_wdi := Weekday.at_index thu 3 |} new_stream)
  = "2016/May/Thu[3]".
Proof. vm_compute. reflexivity. Qed.

(** ** The text of a time point *)
Lemma put_day_text d os : 0 <= d_ d -> put_day d os = emit (zero_padded 2 (d_ d)) os.
Proof. intros H. unfold put_day. rewrite put_int_padded by (done || by left). done. Qed.

Definition year_text (y : Z) : string :=
  if y <? 0 then "-" +:+ zero_padded 4 (- y) else zero_padded 4 y.

Lemma put_year_text y os : put_year y os = emit (year_text (y_ y)) os.
Proof.
  unfold put_year, year_text, Year.ltb. change (y_ (mk_year 0)) with 0. destruct (Z.ltb_spec (y_ y) 0) as [H|H].
  - rewrite put_int_padded_negative by done. done.
  - rewrite put_int_padded by (done || by right). done.
Qed.

Lemma put_date_text x os :
  valid x ->
  put_year_month_day x os =
    emit (year_text (y_ (ymd_year x)) +:+ "-" +:+ zero_padded 2 (m_ (ymd_month x)) +:+ "-" +:+ zero_padded 2 (d_ (ymd_day x))) os.
Proof.
  intros (_ & Hm & Hd). unfold put_year_month_day. rewrite put_year_text. unfold put_char.
  rewrite (put_string_plain "-" (emit _ _)) by done. rewrite put_int_padded by (done || lia || by left).
  rewrite put_string_plain by done. rewrite put_day_text by lia. unfold restore, emit, set_flags, set_fill, set_width, zeros. cbn [text fill flags width].
  by rewrite !string_app_assoc.
Qed.

Lemma put_second_text d os :
  0 <= d < 86400 -> width os <= 0 ->
  exists h m s, put_second (Second.since_midnight d) os =
      Ok (emit (zero_padded 2 h +:+ ":" +:+ zero_padded 2 m +:+ ":" +:+ zero_padded 2 s) os) /\
    d = 3600 * h + 60 * m + s /\ 0 <= h < 24 /\ 0 <= m < 60 /\ 0 <= s < 60.
Proof.
  intros Hd Hw. destruct (second_parts d) as (D & P & _ & L); [lia|]. destruct (P ltac:(lia)) as (Ph & Pm & Ps). specialize (L Hd).
  set (t := Second.since_midnight d) in *. exists (h_ (Second.base t)), (Second.m_ t), (Second.s_ t).
  split; [|split; [unfold t, Second.since_midnight; cbn; lia|lia]].
  unfold put_second. rewrite D. cbn [mbind outcome_bind]. unfold abs. rewrite !(proj2 (Z.leb_le 0 _)) by lia. cbn [mbind outcome_bind].
  unfold put_minus. rewrite (proj2 (Z.ltb_ge d 0)) by lia. change (hour_width (Second.base t)) with (set_width 2).
  change (put_mode (Second.base t)) with (fun os : ostream => os). cbv beta. f_equal. unfold put_char.
  rewrite put_int_padded by (done || lia || by left). rewrite put_string_plain by done.
  rewrite put_int_padded by (done || lia || by left). rewrite put_string_plain by done.
  rewrite put_int_padded by (done || lia || by left). unfold restore, emit, set_flags, set_fill, set_width, zeros. cbn [text fill flags width].
  by rewrite !string_app_assoc.
Qed.

Definition timestamp_text (y m d h mi s : Z) : string :=
  year_text y +:+ "-" +:+ zero_padded 2 m +:+ "-" +:+ zero_padded 2 d +:+ " " +:+
  zero_padded 2 h +:+ ":" +:+ zero_padded 2 mi +:+ ":" +:+ zero_padded 2 s.

Definition seconds_named (tp : Z) : Prop := - 12687794 * 86400 <= tp < 11248738 * 86400.

Lemma put_sys_seconds_text tp os :
  seconds_named tp ->
  exists y m d h mi s, put_sys_seconds tp os = Ok (emit (timestamp_text y m d h mi s) os) /\
    valid_date y m d /\ 0 <= h < 24 /\ 0 <= mi < 60 /\ 0 <= s < 60 /\
    tp = 86400 * count y m d + 3600 * h + 60 * mi + s.
Proof.
  unfold seconds_named. intros Ht. unfold put_sys_seconds, floor_time_point. rewrite floor_spec by lia. cbn [mbind outcome_bind].
  destruct (from_days_valid (tp / 86400)) as (x & E & V & C); [zdiv_lia|]. unfold YearMonthDay.of_sys_days. rewrite E. cbn [mbind outcome_bind].
  rewrite checked_Ok by zdiv_lia. cbn [mbind outcome_bind]. rewrite put_date_text by done. unfold put_char. rewrite put_string_plain by done.
  destruct (put_second_text (tp - tp / 86400 * 86400) (emit " " (emit (year_text (y_ (ymd_year x)) +:+ "-" +:+
    zero_padded 2 (m_ (ymd_month x)) +:+ "-" +:+ zero_padded 2 (d_ (ymd_day x))) os))) as (h & mi & s & P & D & B); [zdiv_lia|done|].
  exists (y_ (ymd_year x)), (m_ (ymd_month x)), (d_ (ymd_day x)), h, mi, s. rewrite P. split.
  - f_equal. rewrite !emit_twice. unfold timestamp_text. by rewrite !string_app_assoc.
  - split; [done|]. unfold day_count in C. rewrite C. lia.
Qed.

(** ** Reading it back *)

(** The last fifteen characters are the fields after the year. *)
Definition read_timestamp (s : string) : option Z :=
  let l := chars s in
  let k := (length l - 15)%nat in
  let field (i : nat) := stoi (of_chars (take 2 (drop (k + i) l))) in
  y ← stoi (of_chars (take k l)); m ← field 1%nat; d ← field 4%nat; h ← field 7%nat; mi ← field 10%nat; s ← field 13%nat;
  Some (86400 * count y m d + 3600 * h + 60 * mi + s).

Lemma zero_padded_digits k n :
  0 <= n ->
  exists ds, ds <> [] /\ chars (zero_padded k n) = digit_char <$> ds /\ Forall (fun d => 0 <= d < 10) ds /\ eval_digits 10 0 ds = n.
Proof.
  intros Hn. destruct (print_radix_digits 10 n) as (ds & Hne & E & F & V); [lia|done|].
  set (j := Z.to_nat (k - len (to_string n))). exists (replicate j 0 ++ ds). unfold zero_padded. rewrite chars_app, chars_of_chars, E. fold j.
  split; [by destruct j; destruct ds|]. split; [by rewrite fmap_app, fmap_replicate|]. split.
  - apply Forall_app_2; [|done]. apply Forall_replicate. lia.
  - clear E. unfold eval_digits in *. rewrite foldl_app. rewrite <- V. f_equal. by induction j.
Qed.

Lemma stoi_zero_padded k n : 0 <= n < 2 ^ 31 -> stoi (zero_padded k n) = Some n /\ stoi ("-" +:+ zero_padded k n) = Some (- n).
Proof.
  intros Hn. destruct (zero_padded_digits k n) as (ds & Hne & E & F & V); [lia|]. unfold stoi. rewrite chars_app, E.
  destruct ds as [|d ds]; [done|]. pose proof (Forall_inv F) as Hd. cbn in Hd. destruct (digit_char_not_special d Hd) as (S1 & S2 & S3).
  assert (Sc : scan_digits 10 (digit_char <$> d :: ds) = (d :: ds, [])) by (apply scan_digits_map; [lia|done]). split.
  - assert (R : read_sign (skip_space (digit_char <$> d :: ds)) = (false, digit_char <$> d :: ds)).
    { cbn. rewrite S1. cbn. by rewrite S2, S3. }
    rewrite R. cbv beta iota. rewrite Sc. cbv beta iota zeta. rewrite V. destruct (Z.ltb_spec n (- 2 ^ 31)); [lia|]. cbn [orb]. destruct (Z.leb_spec (2 ^ 31) n); [lia|done].
  - change (read_sign (skip_space (chars "-" ++ (digit_char <$> d :: ds)))) with (true, digit_char <$> d :: ds).
    cbv beta iota. rewrite Sc. cbv beta iota zeta. rewrite V. destruct (Z.ltb_spec (- n) (- 2 ^ 31)); [lia|]. cbn [orb]. destruct (Z.leb_spec (2 ^ 31) (- n)); [lia|done].
Qed.

Lemma stoi_year y : - 32768 <= y < 32768 -> stoi (year_text y) = Some y.
Proof.
  intros Hy. unfold year_text. destruct (Z.ltb_spec y 0).
  - destruct (stoi_zero_padded 4 (- y)) as [_ ->]; [lia|]. f_equal. lia.
  - destruct (stoi_zero_padded 4 y) as [-> _]; [lia|done].
Qed.

Definition two_wide (n : Z) : bool := (length (chars (zero_padded 2 n)) =? 2)%nat.

Lemma two_digits n : 0 <= n < 100 -> exists a b, chars (zero_padded 2 n) = [a; b] /\ stoi (of_chars [a; b]) = Some n.
Proof.
  intros Hn. assert (L : forallb two_wide (Z.of_nat <$> seq 0 100) = true) by (vm_compute; reflexivity).
  rewrite forallb_forall in L. specialize (L n). unfold two_wide in L. destruct (stoi_zero_padded 2 n) as [S _]; [lia|].
  rewrite <- (of_chars_chars (zero_padded 2 n)) in S. destruct (chars (zero_padded 2 n)) as [|a [|b [|c l]]] eqn:E.
  4: { exfalso. assert (I : In n (Z.of_nat <$> seq 0 100)); [|by specialize (L I)].
       apply in_map_iff. exists (Z.to_nat n). split; [lia|]. apply in_seq. lia. }
  3: by exists a, b.
  all: exfalso; assert (I : In n (Z.of_nat <$> seq 0 100)); [|by specialize (L I)].
  all: apply in_map_iff; exists (Z.to_nat n); split; [lia|]; apply in_seq; lia.
Qed.

Lemma read_timestamp_text y m d h mi s :
  valid_date y m d -> 0 <= h < 24 -> 0 <= mi < 60 -> 0 <= s < 60 ->
  read_timestamp (timestamp_text y m d h mi s) = Some (86400 * count y m d + 3600 * h + 60 * mi + s).
Proof.
  intros (Hy & Hm & Hd) Hh Hmi Hs. pose proof (month_length_bounds y m) as ML.
  destruct (two_digits m) as (m1 & m2 & Em & Rm); [lia|]. destruct (two_digits d) as (d1 & d2 & Ed & Rd); [lia|].
  destruct (two_digits h) as (h1 & h2 & Eh & Rh); [lia|]. destruct (two_digits mi) as (i1 & i2 & Ei & Ri); [lia|].
  destruct (two_digits s) as (s1 & s2 & Es & Rs); [lia|].
  assert (E : chars (timestamp_text y m d h mi s) =
    (chars (year_text y) ++ ["-"; m1; m2; "-"; d1; d2; " "; h1; h2; ":"; i1; i2; ":"; s1; s2]%char)%list).
  { unfold timestamp_text. by rewrite !chars_app, Em, Ed, Eh, Ei, Es. }
  unfold read_timestamp. rewrite E, length_app. set (Y := chars (year_text y)).
  set (tl := ["-"; m1; m2; "-"; d1; d2; " "; h1; h2; ":"; i1; i2; ":"; s1; s2]%char). change (length tl) with 15%nat.
  replace (length Y + 15 - 15)%nat with (length Y) by lia. rewrite take_app_length.
  assert (DR : forall i, drop (length Y + i) (Y ++ tl) = drop i tl) by (intros i; by rewrite <- drop_drop, drop_app_length).
  rewrite !DR. unfold Y. rewrite of_chars_chars, stoi_year by done. cbn [mbind option_bind].
  change (take 2 (drop 1 tl)) with [m1; m2]. rewrite Rm. cbn [mbind option_bind].
  change (take 2 (drop 4 tl)) with [d1; d2]. rewrite Rd. cbn [mbind option_bind].
  change (take 2 (drop 7 tl)) with [h1; h2]. rewrite Rh. cbn [mbind option_bind].
  change (take 2 (drop 10 tl)) with [i1; i2]. rewrite Ri. cbn [mbind option_bind].
  change (take 2 (drop 13 tl)) with [s1; s2]. by rewrite Rs.
Qed.

(** C33: A time point of the system's clock, in seconds, is written on any stream
    as date and time of day, whatever was set on the stream, which is left as it was;
    and the text tells which second it is, from the first of the year -32768 to the
    last of the year 32767. *)
Theorem timestamp_roundtrip tp os :
  seconds_named tp ->
  exists s, put_sys_seconds tp os = Ok (emit s os) /\ read_timestamp s = Some tp.
Proof.
  intros Ht. destruct (put_sys_seconds_text tp os Ht) as (y & m & d & h & mi & s & P & V & Hh & Hmi & Hs & ->).
  exists (timestamp_text y m d h mi s). split; [done|]. by apply read_timestamp_text.
Qed.

Lemma timestamp_roundtrip_witness :
  seconds_named (-1) /\
  exists s, put_sys_seconds (-1) (set_width 30 new_stream) = Ok (emit s (set_width 30 new_stream)) /\ read_timestamp s = Some (-1).
Proof.
  assert (H : seconds_named (-1)) by (unfold seconds_named; lia). split; [exact H|].
  exact (timestamp_roundtrip (-1) (set_width 30 new_stream) H).
Defined.
